(** * A limit order book with a matching engine

    Shallow embedding of [src/OrderBook/order_book.cpp] (class [OrderBook])
    and the properties of its four operations: insert ([add_order]),
    cancel ([cancel_order]), amend ([amend_order]) and match
    ([match_orders] / [process_matching]), of its queries and of what it
    prints.

    Modelling choices, all read off the source:

    - [uint64_t] values are integers of [Z] in the range [0, 2^64); every
      addition and subtraction of the source is written with its wrap-around
      ([wrap64]).
    - a [double] price that is a number is an exact rational ([Q]): the
      source only compares prices, takes their minimum, and subtracts them
      (for the epsilon test of [amend_order] and for [get_spread]); rounding
      and the infinities are not modelled.  The first part is the class on
      such prices.
    - NaN passes the checks [price <= 0.0] of [add_order] and [amend_order].
      The second part, [Double], is the class on prices that are numbers or
      NaN.  On a consistent book of numbers the two do the same
      ([apply_op_on_doubles]), and the [reachable] books of the first part are
      the books the second is led to by calls that are given numbers
      ([reachable_on_numbers_iff]); what a NaN does is shown on examples.
    - [std::map<double, PriceLevelData, Compare>] is an association list kept
      in the order of its comparator ([std::greater] for [bids_],
      [std::less] for [asks_]); [begin()] is the head of the list.
    - an [OrderNode] lives on the heap and is owned by exactly one entry of
      [order_lookup_]: [add_order] refuses an id that is present, and a node
      is deleted exactly when its entry is erased.  A node reference is
      therefore the id under which [order_lookup_] holds the node, and
      [order_lookup_] is the store of the nodes' [Order] records.  The
      intrusive doubly linked list of a price level ([head], [tail], [next],
      [prev]) is the sequence of its node references, head first.
    - the [TRADE:] lines written to [std::cout] are the list of [Trade]
      events an operation returns.
    - the [while] loop of [process_matching] runs on fuel; the fuel it is given
      is shown to be enough on every consistent book.
    - what [print_order] and [print_book] write to [std::cout] is the line
      and the table they return here, field by field; the widths, the
      precision and the padding of the text are not modelled. *)

From Stdlib Require Import ZArith QArith Qabs Lia Lqa List Bool.
From stdpp Require Import base option list gmap fin_maps.
Import ListNotations.

Open Scope Z_scope.

(** ** Machine integers *)

Definition two64 : Z := 2 ^ 64.

(** Arithmetic on [uint64_t] is modulo [2^64]. *)
Definition wrap64 (z : Z) : Z := z mod two64.

(** [static_cast<int64_t>]: the integer of [-2^63, 2^63) that is congruent
    modulo [2^64].  The same function wraps the difference of two [int64_t]
    (an overflow there is undefined in C++; two's complement is assumed). *)
Definition to_int64 (z : Z) : Z :=
  let r := wrap64 z in if r <? 2 ^ 63 then r else r - two64.

(** The values of a [uint64_t]. *)
Definition u64 (z : Z) : Prop := 0 <= z < two64.

(** ** Prices *)

(** [a < b] on prices, as a boolean. *)
Definition Qltb (a b : Q) : bool := negb (Qle_bool b a).

(** [std::min(a, b)]: [b] when [b < a], else [a]. *)
Definition fmin (a b : Q) : Q := if Qltb b a then b else a.

(** The literal [1e-12] of [amend_order]. *)
Definition price_epsilon : Q := 1 # 1000000000000.

(** ** Ordered maps: [std::map<Key, T, Compare>] *)

Section OrderedMap.
Context {K V : Type}.
Variable before : K -> K -> bool.

(** Two keys are the same key when neither orders before the other. *)
Definition same_key (a b : K) : bool := negb (before a b) && negb (before b a).

(** [m.find(k)] *)
Fixpoint find (k : K) (m : list (K * V)) : option V :=
  match m with
  | [] => None
  | (k', v) :: m' => if same_key k k' then Some v else find k m'
  end.

(** [m[k]] followed by the update [f] of the element it refers to:
    an element [dflt] is inserted at its place when the key is absent. *)
Fixpoint subscript (k : K) (dflt : V) (f : V -> V) (m : list (K * V))
  : list (K * V) :=
  match m with
  | [] => [(k, f dflt)]
  | (k', v) :: m' =>
      if before k k' then (k, f dflt) :: (k', v) :: m'
      else if before k' k then (k', v) :: subscript k dflt f m'
      else (k', f v) :: m'
  end.

(** An update [f] of the element the iterator [m.find(k)] refers to. *)
Fixpoint modify (k : K) (f : V -> V) (m : list (K * V)) : list (K * V) :=
  match m with
  | [] => []
  | (k', v) :: m' =>
      if same_key k k' then (k', f v) :: m' else (k', v) :: modify k f m'
  end.

(** [m.erase(m.find(k))] *)
Fixpoint erase (k : K) (m : list (K * V)) : list (K * V) :=
  match m with
  | [] => []
  | (k', v) :: m' =>
      if same_key k k' then m' else (k', v) :: erase k m'
  end.

(** The keys of the map are in the strict order of the comparator. *)
Fixpoint ordered (m : list (K * V)) : Prop :=
  match m with
  | [] => True
  | (k, _) :: m' => Forall (fun e => before k (fst e) = true) m' /\ ordered m'
  end.
End OrderedMap.

(** The comparator has to be a strict weak ordering. *)
Class StrictWeakOrder {K : Type} (before : K -> K -> bool) : Prop := {
  before_irrefl : forall a, before a a = false;
  before_trans : forall a b c,
    before a b = true -> before b c = true -> before a c = true;
  same_key_trans : forall a b c,
    same_key before a b = true -> same_key before b c = true ->
    same_key before a c = true
}.
Arguments before_irrefl {K} before {_} a.
Arguments before_trans {K} before {_} a b c _ _.
Arguments same_key_trans {K} before {_} a b c _ _.

(** ** Data model *)

Record Order := mkOrder {
  order_id : Z;
  is_buy : bool;
  price : Q;
  quantity : Z;
  timestamp_ns : Z
}.

(** The element type of [get_snapshot]. *)
Record PriceLevel := mkPriceLevel {
  pl_price : Q;
  pl_total_quantity : Z
}.

(** [PriceLevelData]: [nodes] is the linked list from [head] to [tail]. *)
Record PriceLevelData := mkLevel {
  total_quantity : Z;
  nodes : list Z
}.

(** [PriceLevelData()] *)
Definition empty_level : PriceLevelData := mkLevel 0 [].

Record OrderBook := mkBook {
  bids_ : list (Q * PriceLevelData);
  asks_ : list (Q * PriceLevelData);
  order_lookup_ : gmap Z Order;
  total_trades_ : Z;
  total_volume_ : Z
}.

(** The book after [OrderBook()]. *)
Definition empty_book : OrderBook := mkBook [] [] ∅ 0 0.

(** What [execute_trade] reports: the quantity, the price, and the two
    orders as they are when it is entered (the log line prints their ids). *)
Record Trade := mkTrade {
  trade_quantity : Z;
  trade_price : Q;
  trade_buy : Order;
  trade_sell : Order
}.

(** The three [std::runtime_error]s of the class. *)
Inductive Error := DuplicateId | InvalidQuantity | InvalidPrice.

(** ** The two sides *)

(** [std::greater<double>] for the bids, [std::less<double>] for the asks. *)
Definition before_on (buy : bool) (a b : Q) : bool :=
  if buy then Qltb b a else Qltb a b.

(** The map an overload is given, and the assignments to the members. *)
Definition side (buy : bool) (bk : OrderBook) : list (Q * PriceLevelData) :=
  if buy then bids_ bk else asks_ bk.

Definition set_side (buy : bool) (s : list (Q * PriceLevelData)) (bk : OrderBook)
  : OrderBook :=
  if buy
  then mkBook s (asks_ bk) (order_lookup_ bk) (total_trades_ bk) (total_volume_ bk)
  else mkBook (bids_ bk) s (order_lookup_ bk) (total_trades_ bk) (total_volume_ bk).

Definition set_lookup (lk : gmap Z Order) (bk : OrderBook) : OrderBook :=
  mkBook (bids_ bk) (asks_ bk) lk (total_trades_ bk) (total_volume_ bk).

Definition set_quantity (q : Z) (o : Order) : Order :=
  mkOrder (order_id o) (is_buy o) (price o) q (timestamp_ns o).

(** ** Private operations *)

(** [add_order_to_side]: both overloads, the flag tells which map is passed. *)
Definition add_order_to_side (buy : bool) (order : Order) (bk : OrderBook)
  : OrderBook :=
  let bk1 := set_lookup (<[order_id order := order]> (order_lookup_ bk)) bk in
  set_side buy
    (subscript (before_on buy) (price order) empty_level
       (fun level_data =>
          mkLevel (wrap64 (total_quantity level_data + quantity order))
                  (nodes level_data ++ [order_id order]))
       (side buy bk1))
    bk1.

(** Unlinking a node from the list of its level: the updates of [prev->next],
    [next->prev], [head] and [tail]. *)
Definition unlink (id : Z) (l : list Z) : list Z :=
  filter (fun x => x ≠ id) l.

(** What [remove_order_from_side] does to the level of the node: the total
    goes down by the node's quantity, floored at zero, and the node is
    unlinked. *)
Definition drop_node (id : Z) (node : Order) (level_data : PriceLevelData)
  : PriceLevelData :=
  mkLevel
    (if quantity node <=? total_quantity level_data
     then total_quantity level_data - quantity node
     else 0)
    (unlink id (nodes level_data)).

(** [remove_order_from_side]: both overloads.  The level is erased when the
    unlinking leaves it without a head. *)
Definition remove_order_from_side (buy : bool) (id : Z) (bk : OrderBook)
  : bool * OrderBook :=
  match order_lookup_ bk !! id with
  | None => (false, bk)
  | Some node =>
      match find (before_on buy) (price node) (side buy bk) with
      | None => (false, bk)
      | Some level_data =>
          let s :=
            match unlink id (nodes level_data) with
            | [] => erase (before_on buy) (price node) (side buy bk)
            | _ :: _ =>
                modify (before_on buy) (price node) (drop_node id node)
                  (side buy bk)
            end in
          (true, set_lookup (delete id (order_lookup_ bk)) (set_side buy s bk))
      end
  end.

(** [node->order.quantity -= q] *)
Definition fill_node (id q : Z) (bk : OrderBook) : OrderBook :=
  set_lookup
    (alter (fun o => set_quantity (wrap64 (quantity o - q)) o) id (order_lookup_ bk))
    bk.

(** [it = side.find(p); if (it != side.end()) it->second.total_quantity -= q] *)
Definition fill_level (buy : bool) (p : Q) (q : Z) (bk : OrderBook) : OrderBook :=
  set_side buy
    (modify (before_on buy) p
       (fun l => mkLevel (wrap64 (total_quantity l - q)) (nodes l))
       (side buy bk))
    bk.

(** [if (node->order.quantity == 0) remove_order_from_side(id, side)];
    [None] when the node reference dangles. *)
Definition remove_if_filled (buy : bool) (id : Z) (bk : OrderBook)
  : option OrderBook :=
  match order_lookup_ bk !! id with
  | None => None
  | Some node =>
      if quantity node =? 0
      then Some (snd (remove_order_from_side buy (order_id node) bk))
      else Some bk
  end.

(** [execute_trade(buy_order, sell_order, trade_quantity)] *)
Definition execute_trade (buy_order sell_order trade_qty : Z) (bk : OrderBook)
  : option (OrderBook * Trade) :=
  match order_lookup_ bk !! buy_order, order_lookup_ bk !! sell_order with
  | Some b, Some s =>
      let t := mkTrade trade_qty (fmin (price b) (price s)) b s in
      let bk1 := mkBook (bids_ bk) (asks_ bk) (order_lookup_ bk)
                   (wrap64 (total_trades_ bk + 1))
                   (wrap64 (total_volume_ bk + trade_qty)) in
      let bk2 := fill_node sell_order trade_qty (fill_node buy_order trade_qty bk1) in
      let bk3 := fill_level true (price b) trade_qty bk2 in
      let bk4 := fill_level false (price s) trade_qty bk3 in
      match remove_if_filled true buy_order bk4 with
      | None => None
      | Some bk5 =>
          match remove_if_filled false sell_order bk5 with
          | None => None
          | Some bk6 => Some (bk6, t)
          end
      end
  | _, _ => None
  end.

(** One turn of the [while] loop of [process_matching]. *)
Inductive Turn :=
| Leave                                  (* the loop is left *)
| Dangling                               (* a node reference dangles *)
| Traded (bk : OrderBook) (t : Trade).   (* [execute_trade] has run *)

Definition match_step (bk : OrderBook) : Turn :=
  match bids_ bk, asks_ bk with
  | (best_bid, bid_level) :: _, (best_ask, ask_level) :: _ =>
      if Qltb best_bid best_ask then Leave
      else
        match nodes bid_level, nodes ask_level with
        | best_buy_order :: _, best_sell_order :: _ =>
            match order_lookup_ bk !! best_buy_order,
                  order_lookup_ bk !! best_sell_order with
            | Some b, Some s =>
                match execute_trade best_buy_order best_sell_order
                        (Z.min (quantity b) (quantity s)) bk with
                | Some (bk', t) => Traded bk' t
                | None => Dangling
                end
            | _, _ => Dangling
            end
        | _, _ => Leave
        end
  | _, _ => Leave
  end.

(** The loop, on fuel: [None] when the fuel runs out or a reference dangles. *)
Fixpoint process_matching_loop (fuel : nat) (bk : OrderBook)
  : option (OrderBook * list Trade) :=
  match fuel with
  | O => None
  | S fuel' =>
      match match_step bk with
      | Leave => Some (bk, [])
      | Dangling => None
      | Traded bk' t =>
          match process_matching_loop fuel' bk' with
          | None => None
          | Some (bk'', ts) => Some (bk'', t :: ts)
          end
      end
  end.

(** Every turn of the loop on a consistent book deletes a node, so one more
    turn than there are nodes is enough ([process_matching_total]). *)
Definition matching_fuel (bk : OrderBook) : nat := S (size (order_lookup_ bk)).

Definition process_matching (bk : OrderBook) : option (OrderBook * list Trade) :=
  process_matching_loop (matching_fuel bk) bk.

(** ** The monad of the public operations

    A public operation reads and writes the book, may throw, and reports
    trades.  A thrown exception leaves the book as it is at the [throw]. *)

Inductive Outcome (A : Type) :=
| Returned (a : A)
| Thrown (e : Error).
Arguments Returned {A} a.
Arguments Thrown {A} e.

Record Result (A : Type) := mkResult {
  outcome : Outcome A;
  book : OrderBook;
  trades : list Trade
}.
Arguments mkResult {A} _ _ _.
Arguments outcome {A} _.
Arguments book {A} _.
Arguments trades {A} _.

(** [None]: the call has no result in the model (the loop of
    [process_matching] is out of fuel, or a node reference dangles). *)
Definition M (A : Type) : Type := OrderBook -> option (Result A).

Definition ret {A} (a : A) : M A := fun bk => Some (mkResult (Returned a) bk []).

Definition throw {A} (e : Error) : M A := fun bk => Some (mkResult (Thrown e) bk []).

#[export] Instance M_ret : MRet M := @ret.

#[export] Instance M_bind : MBind M := fun A B (f : A -> M B) (m : M A) bk =>
  match m bk with
  | None => None
  | Some r =>
      match outcome r with
      | Thrown e => Some (mkResult (Thrown e) (book r) (trades r))
      | Returned a =>
          match f a (book r) with
          | None => None
          | Some r' =>
              Some (mkResult (outcome r') (book r') (trades r ++ trades r'))
          end
      end
  end.

Definition get : M OrderBook := fun bk => Some (mkResult (Returned bk) bk []).

(** A private operation that neither throws nor trades. *)
Definition lift {A} (f : OrderBook -> A * OrderBook) : M A := fun bk =>
  Some (mkResult (Returned (fst (f bk))) (snd (f bk)) []).

Definition update (f : OrderBook -> OrderBook) : M unit :=
  lift (fun bk => (tt, f bk)).

(** [process_matching()] *)
Definition matching : M unit := fun bk =>
  match process_matching bk with
  | None => None
  | Some (bk', ts) => Some (mkResult (Returned tt) bk' ts)
  end.

(** ** Public operations *)

(** [order_exists(order_id)] *)
Definition order_exists (id : Z) (bk : OrderBook) : bool :=
  match order_lookup_ bk !! id with Some _ => true | None => false end.

Definition set_timestamp (ts : Z) (o : Order) : Order :=
  mkOrder (order_id o) (is_buy o) (price o) (quantity o) ts.

(** [if (order.timestamp_ns == 0) order.timestamp_ns = get_current_timestamp()] *)
Definition stamp (now : Z) (o : Order) : Order :=
  if timestamp_ns o =? 0 then set_timestamp now o else o.

(** [add_order(order, match_immediately)]; [now] is what
    [get_current_timestamp()] returns if it is called. *)
Definition add_order (order : Order) (match_immediately : bool) (now : Z)
  : M unit :=
  bk ← get;
  if order_exists (order_id order) bk then throw DuplicateId
  else if quantity order =? 0 then throw InvalidQuantity
  else if Qle_bool (price order) 0 then throw InvalidPrice
  else
    let order_with_ts := stamp now order in
    update (add_order_to_side (is_buy order_with_ts) order_with_ts);;
    if match_immediately then matching else ret tt.

(** [cancel_order(order_id)] *)
Definition cancel_order (id : Z) : M bool :=
  bk ← get;
  match order_lookup_ bk !! id with
  | None => ret false
  | Some node => lift (remove_order_from_side (is_buy node) id)
  end.

(** [std::abs(existing_order.price - new_price) > 1e-12] *)
Definition price_changed (existing_price new_price : Q) : bool :=
  Qltb price_epsilon (Qabs (existing_price - new_price)).

(** The branch of [amend_order] that updates the quantity in place:
    [quantity_diff] is added to the total of the level if the level is found,
    and the new quantity is written into the node. *)
Definition amend_in_place (id : Z) (existing_order : Order) (new_quantity : Z)
    (bk : OrderBook) : OrderBook :=
  let quantity_diff :=
    to_int64 (to_int64 new_quantity - to_int64 (quantity existing_order)) in
  let buy := is_buy existing_order in
  let bk1 :=
    set_side buy
      (modify (before_on buy) (price existing_order)
         (fun l => mkLevel (wrap64 (total_quantity l + quantity_diff)) (nodes l))
         (side buy bk))
      bk in
  set_lookup (<[id := set_quantity new_quantity existing_order]> (order_lookup_ bk1))
    bk1.

(** [Order new_order = existing_order; new_order.price = new_price;
    new_order.quantity = new_quantity;] *)
Definition repriced (o : Order) (new_price : Q) (new_quantity : Z) : Order :=
  mkOrder (order_id o) (is_buy o) new_price new_quantity (timestamp_ns o).

(** [amend_order(order_id, new_price, new_quantity, match_immediately)] *)
Definition amend_order (id : Z) (new_price : Q) (new_quantity : Z)
    (match_immediately : bool) (now : Z) : M bool :=
  bk ← get;
  match order_lookup_ bk !! id with
  | None => ret false
  | Some existing_order =>
      if new_quantity =? 0 then throw InvalidQuantity
      else if Qle_bool new_price 0 then throw InvalidPrice
      else if price_changed (price existing_order) new_price then
        let new_order := repriced existing_order new_price new_quantity in
        cancelled ← cancel_order id;
        if negb cancelled then ret false
        else
          add_order new_order match_immediately now;;
          (if match_immediately then matching else ret tt);;
          ret true
      else
        update (amend_in_place id existing_order new_quantity);;
        (if match_immediately then matching else ret tt);;
        ret true
  end.

(** [match_orders()] *)
Definition match_orders : M unit := matching.

(** ** Queries *)

(** [get_snapshot(depth, bids, asks)]: the first [depth] levels of each map. *)
Definition get_snapshot_side (depth : nat) (s : list (Q * PriceLevelData))
  : list PriceLevel :=
  map (fun e => mkPriceLevel (fst e) (total_quantity (snd e))) (take depth s).

Definition get_snapshot (depth : nat) (bk : OrderBook)
  : list PriceLevel * list PriceLevel :=
  (get_snapshot_side depth (bids_ bk), get_snapshot_side depth (asks_ bk)).

Definition get_total_orders (bk : OrderBook) : nat := size (order_lookup_ bk).
Definition get_bid_levels (bk : OrderBook) : nat := length (bids_ bk).
Definition get_ask_levels (bk : OrderBook) : nat := length (asks_ bk).

Definition get_best_bid (bk : OrderBook) : Q :=
  match bids_ bk with [] => 0%Q | (p, _) :: _ => p end.

Definition get_best_ask (bk : OrderBook) : Q :=
  match asks_ bk with [] => 0%Q | (p, _) :: _ => p end.

Definition get_spread (bk : OrderBook) : Q :=
  (get_best_ask bk - get_best_bid bk)%Q.

Definition get_statistics (bk : OrderBook) : Z * Z * nat :=
  (total_trades_ bk, total_volume_ bk, size (order_lookup_ bk)).

(** ** Consistency of a book

    What the class maintains between its members: the node references of
    the two maps and the entries of [order_lookup_] are the same set, each
    node is linked once, in the level of its own price on its own side, no
    level is empty, and the maps are in the order of their comparators. *)

(** The node references held by a side, best level first, head first. *)
Fixpoint side_ids (s : list (Q * PriceLevelData)) : list Z :=
  match s with
  | [] => []
  | e :: s' => nodes (snd e) ++ side_ids s'
  end.

(** The queues of a side: the price and the linked list of each level. *)
Definition queues (s : list (Q * PriceLevelData)) : list (Q * list Z) :=
  map (fun e => (fst e, nodes (snd e))) s.

Definition all_ids (bk : OrderBook) : list Z :=
  side_ids (bids_ bk) ++ side_ids (asks_ bk).

(** A node linked in the level [k] of a side: it is the node of the entry [id]
    of the index, carries that id, is of that side and of that price, and
    its quantity and price are as [add_order] and [amend_order] accept
    them. *)
Definition node_ok (buy : bool) (lk : gmap Z Order) (k : Q) (id : Z) : Prop :=
  exists o, lk !! id = Some o /\ order_id o = id /\ is_buy o = buy /\
            same_key (before_on buy) (price o) k = true /\
            u64 (quantity o) /\ (0 < price o)%Q.

(** A level has a head, and its nodes are as above. *)
Definition level_ok (buy : bool) (lk : gmap Z Order) (e : Q * PriceLevelData)
  : Prop :=
  nodes (snd e) <> [] /\ Forall (node_ok buy lk (fst e)) (nodes (snd e)).

Definition levels_ok (buy : bool) (lk : gmap Z Order)
    (s : list (Q * PriceLevelData)) : Prop :=
  ordered (before_on buy) s /\ Forall (level_ok buy lk) s.

Definition consistent (bk : OrderBook) : Prop :=
  levels_ok true (order_lookup_ bk) (bids_ bk) /\
  levels_ok false (order_lookup_ bk) (asks_ bk) /\
  NoDup (all_ids bk) /\
  (forall id, is_Some (order_lookup_ bk !! id) -> id ∈ all_ids bk).

(** ** The totals of the levels *)

Definition node_quantity (lk : gmap Z Order) (id : Z) : Z :=
  match lk !! id with Some o => quantity o | None => 0 end.

(** The sum of the quantities of the orders of a list of nodes, as an
    integer. *)
Fixpoint queue_quantity (lk : gmap Z Order) (ns : list Z) : Z :=
  match ns with
  | [] => 0
  | id :: ns' => node_quantity lk id + queue_quantity lk ns'
  end.

(** [total_quantity] is the sum. *)
Definition level_sum_exact (lk : gmap Z Order) (e : Q * PriceLevelData) : Prop :=
  total_quantity (snd e) = queue_quantity lk (nodes (snd e)).

(** [total_quantity] is the sum modulo [2^64]. *)
Definition level_sum_mod (lk : gmap Z Order) (e : Q * PriceLevelData) : Prop :=
  total_quantity (snd e) = wrap64 (queue_quantity lk (nodes (snd e))).

(** The sum fits a [uint64_t]. *)
Definition level_bounded (lk : gmap Z Order) (e : Q * PriceLevelData) : Prop :=
  queue_quantity lk (nodes (snd e)) < two64.

Definition every_level (P : gmap Z Order -> Q * PriceLevelData -> Prop)
    (bk : OrderBook) : Prop :=
  Forall (P (order_lookup_ bk)) (bids_ bk) /\
  Forall (P (order_lookup_ bk)) (asks_ bk).

(** The book is not crossed. *)
Definition uncrossed (bk : OrderBook) : Prop :=
  bids_ bk = [] \/ asks_ bk = [] \/ (get_best_bid bk < get_best_ask bk)%Q.

(** ** Sequences of public calls *)

Inductive Op :=
| Insert (order : Order) (match_immediately : bool) (now : Z)
| Cancel (id : Z)
| Amend (id : Z) (new_price : Q) (new_quantity : Z) (match_immediately : bool)
        (now : Z)
| Match.

(** The book and the trades a call leaves behind, whatever it returns or
    throws. *)
Definition after {A} (r : option (Result A)) : option (OrderBook * list Trade) :=
  match r with
  | None => None
  | Some r => Some (book r, trades r)
  end.

Definition apply_op (op : Op) (bk : OrderBook) : option (OrderBook * list Trade) :=
  match op with
  | Insert order m now => after (add_order order m now bk)
  | Cancel id => after (cancel_order id bk)
  | Amend id p q m now => after (amend_order id p q m now bk)
  | Match => after (match_orders bk)
  end.

(** The arguments are of their C++ types. *)
Definition op_ok (op : Op) : Prop :=
  match op with
  | Insert order _ now =>
      u64 (order_id order) /\ u64 (quantity order) /\
      u64 (timestamp_ns order) /\ u64 now
  | Cancel id => u64 id
  | Amend id _ q _ now => u64 id /\ u64 q /\ u64 now
  | Match => True
  end.

(** The call leaves the matching engine on: an insert or an amend is called
    with [match_immediately = true]. *)
Definition op_matches (op : Op) : Prop :=
  match op with
  | Insert _ m _ => m = true
  | Amend _ _ _ m _ => m = true
  | Cancel _ | Match => True
  end.

(** The books [reachable_by P] are those a sequence of public calls leads to
    from the empty book, each call [op] and the book it leaves satisfying
    [P]. *)
Inductive reachable_by (P : Op -> OrderBook -> Prop) : OrderBook -> Prop :=
| reach_empty : reachable_by P empty_book
| reach_step bk op bk' ts :
    reachable_by P bk -> op_ok op -> apply_op op bk = Some (bk', ts) ->
    P op bk' -> reachable_by P bk'.

Definition reachable : OrderBook -> Prop := reachable_by (fun _ _ => True).

(** The trades of a call are those of one run of the matching engine, on a
    consistent book, if there are any. *)
Definition matched_from (bk' : OrderBook) (ts : list Trade) : Prop :=
  ts = [] \/
  exists bk1, consistent bk1 /\ process_matching bk1 = Some (bk', ts).

(** What holds of every trade: the price is the minimum of the two prices,
    the buy order is a buy and the sell order a sell, the two cross, and so
    the minimum is the price of the sell order. *)
Definition trade_ok (t : Trade) : Prop :=
  trade_price t = fmin (price (trade_buy t)) (price (trade_sell t)) /\
  is_buy (trade_buy t) = true /\ is_buy (trade_sell t) = false /\
  (price (trade_sell t) <= price (trade_buy t))%Q /\
  (trade_price t == price (trade_sell t))%Q.

(** ** Time priority *)

(** The order [x] is one of the two orders of the trade. *)
Definition involves (t : Trade) (x : Z) : Prop :=
  order_id (trade_buy t) = x \/ order_id (trade_sell t) = x.

(** [y] is linked before [x] in the list of one level: the two rest at one
    price on one side, and [y] was inserted first. *)
Definition ahead (bk : OrderBook) (y x : Z) : Prop :=
  exists buy e a b c,
    e ∈ side buy bk /\ nodes (snd e) = a ++ y :: b ++ x :: c.

(** A sequence of calls, one after the other. *)
Fixpoint run_ops (ops : list Op) (bk : OrderBook)
  : option (OrderBook * list Trade) :=
  match ops with
  | [] => Some (bk, [])
  | op :: ops' =>
      match apply_op op bk with
      | None => None
      | Some (bk1, ts1) =>
          match run_ops ops' bk1 with
          | None => None
          | Some (bk2, ts2) => Some (bk2, ts1 ++ ts2)
          end
      end
  end.

(** Each call of the sequence is well typed and satisfies [P]. *)
Fixpoint ops_ok (P : Op -> OrderBook -> Prop) (ops : list Op) (bk : OrderBook)
  : Prop :=
  match ops with
  | [] => True
  | op :: ops' =>
      op_ok op /\
      match apply_op op bk with
      | None => False
      | Some (bk1, _) => P op bk1 /\ ops_ok P ops' bk1
      end
  end.

(** The book [execute_trade] has made before it looks for filled orders. *)
Definition after_fills (buy_order sell_order trade_qty : Z) (b s : Order)
    (bk : OrderBook) : OrderBook :=
  mkBook
    (modify (before_on true) (price b)
       (fun l => mkLevel (wrap64 (total_quantity l - trade_qty)) (nodes l))
       (bids_ bk))
    (modify (before_on false) (price s)
       (fun l => mkLevel (wrap64 (total_quantity l - trade_qty)) (nodes l))
       (asks_ bk))
    (alter (fun o => set_quantity (wrap64 (quantity o - trade_qty)) o) sell_order
       (alter (fun o => set_quantity (wrap64 (quantity o - trade_qty)) o)
          buy_order (order_lookup_ bk)))
    (wrap64 (total_trades_ bk + 1))
    (wrap64 (total_volume_ bk + trade_qty)).

(** ** The books and calls of the examples *)

(** One resting sell order at 101 and no buy order. *)
Definition ask_only_ops : list Op := [Insert (mkOrder 5 false 101 800 5) true 0].

(** The orders of the counterexample: a buy order of 100 at 100 rests, a sell
    order of 50 at 99 comes in. *)
Definition resting_buy_ops : list Op :=
  [Insert (mkOrder 1 true 100 100 1) true 0;
   Insert (mkOrder 2 false 99 50 2) true 0].

(** Two orders that cross, inserted with the matching engine off. *)
Definition unmatched_cross_ops : list Op :=
  [Insert (mkOrder 1 true 100 100 1) false 0;
   Insert (mkOrder 2 false 99 50 2) false 0].

(** The book of Scenario B: one buy order of 100 at 100. *)
Definition one_buy_book : OrderBook :=
  mkBook [(100%Q, mkLevel 100 [1])] [] {[1 := mkOrder 1 true 100 100 1]} 0 0.

(** Scenario A, Test 3 and Test 6 of the source: two buy orders at 100. *)
Definition two_buys_ops : list Op :=
  [Insert (mkOrder 1 true 100 100 1) true 0;
   Insert (mkOrder 2 true 100 200 2) true 0].

Definition two_buys_book : OrderBook :=
  mkBook [(100%Q, mkLevel 300 [1; 2])] []
    (<[1 := mkOrder 1 true 100 100 1]> {[2 := mkOrder 2 true 100 200 2]}) 0 0.

(** Order 1, stamped 1 when it was inserted, is amended from 100 to 101 when
    the clock reads 777. *)
Definition reprice_ops : list Op :=
  [Insert (mkOrder 1 true 100 100 1) true 0;
   Amend 1 101 100 true 777].

(** Two buy orders of [2^63] at one price, the first cancelled. *)
Definition overflow_ops : list Op :=
  [Insert (mkOrder 1 true 100 (2 ^ 63) 1) true 0;
   Insert (mkOrder 2 true 100 (2 ^ 63) 2) true 0;
   Cancel 1].

(** Test 4 of the source: two buy orders at 100 and one at 101. *)
Definition three_buys_ops : list Op :=
  [Insert (mkOrder 1 true 100 100 1) true 0;
   Insert (mkOrder 2 true 100 200 2) true 0;
   Insert (mkOrder 3 true 101 50 3) true 0].

(** Two buy orders at 100, the first of 100 and the second of 200, and a sell
    order of 150 at 100 that has not been matched yet. *)
Definition fifo_ops : list Op :=
  [Insert (mkOrder 1 true 100 100 1) true 0;
   Insert (mkOrder 2 true 100 200 2) true 0;
   Insert (mkOrder 3 false 100 150 3) false 0].

Definition fifo_book : OrderBook :=
  mkBook [(100%Q, mkLevel 300 [1; 2])] [(100%Q, mkLevel 150 [3])]
    (<[1 := mkOrder 1 true 100 100 1]>
       (<[2 := mkOrder 2 true 100 200 2]> {[3 := mkOrder 3 false 100 150 3]}))
    0 0.

(** ** Output *)

(** What [print_order] writes: one line, for an order that is found its side,
    quantity, price and timestamp. *)
Inductive OrderLine :=
| OrderNotFound (id : Z)
| OrderShown (id : Z) (buy : bool) (qty : Z) (p : Q) (ts : Z).

(** [print_order(order_id)] *)
Definition print_order (id : Z) (bk : OrderBook) : OrderLine :=
  match order_lookup_ bk !! id with
  | None => OrderNotFound id
  | Some order =>
      OrderShown id (is_buy order) (quantity order) (price order)
        (timestamp_ns order)
  end.

(** A row of the table [print_book] writes: the bid cells and the ask cells,
    each blank ([None]) when the side has no level of that rank. *)
Record BookRow := mkRow {
  bid_cell : option PriceLevel;
  ask_cell : option PriceLevel
}.

(** The depth of the heading, the table, and the two summary lines under
    it. *)
Record BookTable := mkTable {
  shown_depth : nat;
  table_rows : list BookRow;
  shown_orders : nat;
  shown_bid_levels : nat;
  shown_ask_levels : nat;
  shown_trades : Z;
  shown_volume : Z
}.

(** [print_book(depth)]: row [i], for [i < max(bids.size(), asks.size())],
    shows [bids[i]] if [i < bids.size()] and [asks[i]] if [i < asks.size()]. *)
Definition print_book (depth : nat) (bk : OrderBook) : BookTable :=
  let bids := fst (get_snapshot depth bk) in
  let asks := snd (get_snapshot depth bk) in
  let max_levels := Nat.max (length bids) (length asks) in
  mkTable depth
    (map (fun i => mkRow (bids !! i) (asks !! i)) (seq 0 max_levels))
    (get_total_orders bk) (get_bid_levels bk) (get_ask_levels bk)
    (total_trades_ bk) (total_volume_ bk).

(** ** The runs of the matching loop *)

(** The turns of one run of the [while] loop of [process_matching], from the
    book it is entered with to the book it is left with. *)
Inductive matching_run : OrderBook -> list Trade -> OrderBook -> Prop :=
| run_leave bk : match_step bk = Leave -> matching_run bk [] bk
| run_trade bk bk1 t ts bk' :
    match_step bk = Traded bk1 t -> matching_run bk1 ts bk' ->
    matching_run bk (t :: ts) bk'.

(** What a public call does to the book before it turns to the matching
    engine: nothing, or calls of [add_order_to_side] and
    [remove_order_from_side] and the update in place of [amend_order], with
    the arguments the checks of the public calls let through. *)
Inductive edit : OrderBook -> OrderBook -> Prop :=
| edit_none bk : edit bk bk
| edit_add bk o :
    order_lookup_ bk !! order_id o = None -> u64 (quantity o) ->
    quantity o <> 0 -> (0 < price o)%Q ->
    edit bk (add_order_to_side (is_buy o) o bk)
| edit_remove bk id o bk' :
    order_lookup_ bk !! id = Some o ->
    remove_order_from_side (is_buy o) id bk = (true, bk') ->
    edit bk bk'
| edit_amend bk id o q :
    order_lookup_ bk !! id = Some o -> u64 q -> q <> 0 ->
    edit bk (amend_in_place id o q bk)
| edit_then bk bk1 bk2 : edit bk bk1 -> edit bk1 bk2 -> edit bk bk2.

(** ** Ranges *)

(** No resting order has a quantity of zero. *)
Definition resting_quantities (bk : OrderBook) : Prop :=
  forall id o, order_lookup_ bk !! id = Some o -> quantity o <> 0.

(** The total of a level is a [uint64_t]. *)
Definition level_total_u64 (lk : gmap Z Order) (e : Q * PriceLevelData) : Prop :=
  u64 (total_quantity (snd e)).

(** The counters and the totals are [uint64_t]s, the quantities are not
    zero. *)
Definition in_range (bk : OrderBook) : Prop :=
  resting_quantities bk /\ every_level level_total_u64 bk /\
  u64 (total_trades_ bk) /\ u64 (total_volume_ bk).

(** The quantity the trades of a list add to [total_volume_]. *)
Definition traded_volume (ts : list Trade) : Z :=
  foldr (fun t v => trade_quantity t + v) 0 ts.

(** The quantity of a trade is the smaller of the quantities the two orders
    have when they trade, it is not zero, and the two orders are two. *)
Definition trade_quantity_ok (t : Trade) : Prop :=
  trade_quantity t = Z.min (quantity (trade_buy t)) (quantity (trade_sell t)) /\
  0 < trade_quantity t < two64 /\
  order_id (trade_buy t) <> order_id (trade_sell t).

(** The quantity the trades of a list take from the order [x]. *)
Definition filled_quantity (x : Z) (ts : list Trade) : Z :=
  foldr (fun t v =>
           if (order_id (trade_buy t) =? x) || (order_id (trade_sell t) =? x)
           then trade_quantity t + v else v) 0 ts.

(** * The book on doubles

    The class once more, with the prices as the [double]s they are in the
    source: a price is a number or NaN.  Every comparison with NaN is false,
    so NaN passes the checks [price <= 0.0] of [add_order] and [amend_order],
    and [std::greater] and [std::less] hold NaN to be the same key as every
    number.  The C++ standard asks for a strict weak ordering and says nothing
    of a map whose comparator is none; the model follows the search of the
    tree of [std::map], which goes left at every node when it looks for NaN
    and left at a node of the key NaN: [m.find(NaN)] and [m[NaN]] are the
    first element of a map that has one, and a key NaN, which enters a map
    only when the map is empty, is then its only key, every later key being
    the same key to the comparator.  The search from the head of the list of
    this model finds the same elements.

    The definitions are those of the first part, line by line, but for the
    prices and for what the source does with a node that the map does not
    find in the level it is linked in. *)

Module Double.

(** A [double]: NaN, or a number (an exact rational, as in the first
    part). *)
Inductive double :=
| NaN
| Num (q : Q).

(** [a < b] *)
Definition lt (a b : double) : bool :=
  match a, b with
  | Num x, Num y => Qltb x y
  | _, _ => false
  end.

(** [a <= b] *)
Definition le (a b : double) : bool :=
  match a, b with
  | Num x, Num y => Qle_bool x y
  | _, _ => false
  end.

(** [a - b] *)
Definition sub (a b : double) : double :=
  match a, b with
  | Num x, Num y => Num (x - y)
  | _, _ => NaN
  end.

(** [std::abs(a)] *)
Definition abs (a : double) : double :=
  match a with
  | Num x => Num (Qabs x)
  | NaN => NaN
  end.

(** [std::min(a, b)]: [b] when [b < a], else [a]. *)
Definition fmin (a b : double) : double := if lt b a then b else a.

Record Order := mkOrder {
  order_id : Z;
  is_buy : bool;
  price : double;
  quantity : Z;
  timestamp_ns : Z
}.

Record OrderBook := mkBook {
  bids_ : list (double * PriceLevelData);
  asks_ : list (double * PriceLevelData);
  order_lookup_ : gmap Z Order;
  total_trades_ : Z;
  total_volume_ : Z
}.

Definition empty_book : OrderBook := mkBook [] [] ∅ 0 0.

Record Trade := mkTrade {
  trade_quantity : Z;
  trade_price : double;
  trade_buy : Order;
  trade_sell : Order
}.

(** [std::greater<double>] for the bids, [std::less<double>] for the asks. *)
Definition before_on (buy : bool) (a b : double) : bool :=
  if buy then lt b a else lt a b.

Definition side (buy : bool) (bk : OrderBook) : list (double * PriceLevelData) :=
  if buy then bids_ bk else asks_ bk.

Definition set_side (buy : bool) (s : list (double * PriceLevelData))
    (bk : OrderBook) : OrderBook :=
  if buy
  then mkBook s (asks_ bk) (order_lookup_ bk) (total_trades_ bk) (total_volume_ bk)
  else mkBook (bids_ bk) s (order_lookup_ bk) (total_trades_ bk) (total_volume_ bk).

Definition set_lookup (lk : gmap Z Order) (bk : OrderBook) : OrderBook :=
  mkBook (bids_ bk) (asks_ bk) lk (total_trades_ bk) (total_volume_ bk).

Definition set_quantity (q : Z) (o : Order) : Order :=
  mkOrder (order_id o) (is_buy o) (price o) q (timestamp_ns o).

(** ** Node references

    A node reference is an id, as in the first part.  With a NaN price a
    node can be deleted while a level still points to it: the reference then
    stays in the list of that level and has no entry in [order_lookup_]. *)

(** The node references of a side, and of the book. *)
Definition side_refs (s : list (double * PriceLevelData)) : list Z :=
  concat (map (fun e => nodes (snd e)) s).

Definition all_refs (bk : OrderBook) : list Z :=
  side_refs (bids_ bk) ++ side_refs (asks_ bk).

(** The node has not been deleted. *)
Definition live (bk : OrderBook) (id : Z) : bool :=
  match order_lookup_ bk !! id with Some _ => true | None => false end.

(** The node has neither a [prev] nor a [next]: a list that holds it holds
    nothing else. *)
Definition alone (id : Z) (bk : OrderBook) : bool :=
  forallb (fun e => bool_decide (id ∈ nodes (snd e) -> nodes (snd e) = [id]))
    (bids_ bk ++ asks_ bk).

(** ** Private operations

    [None] is returned where the source reads or writes a deleted node (the
    behaviour is undefined), and where it leaves lists that lists of node
    references do not describe. *)

(** [add_order_to_side].  The node of [tail] is written to: [None] if it has
    been deleted.  [None] also if a level still points to a deleted node of
    the id of the new node: a reference by id cannot tell the two nodes
    apart. *)
Definition add_order_to_side (buy : bool) (order : Order) (bk : OrderBook)
  : option OrderBook :=
  let tail_is_live :=
    match find (before_on buy) (price order) (side buy bk) with
    | Some level_data =>
        match last (nodes level_data) with
        | Some tail => live bk tail
        | None => true
        end
    | None => true
    end in
  if tail_is_live && negb (bool_decide (order_id order ∈ all_refs bk)) then
    let bk1 := set_lookup (<[order_id order := order]> (order_lookup_ bk)) bk in
    Some (set_side buy
            (subscript (before_on buy) (price order) empty_level
               (fun level_data =>
                  mkLevel (wrap64 (total_quantity level_data + quantity order))
                          (nodes level_data ++ [order_id order]))
               (side buy bk1))
            bk1)
  else None.

(** What [remove_order_from_side] does to the level it has found: the total
    goes down by the node's quantity, floored at zero, and the node is
    unlinked if it is linked in the level. *)
Definition drop_node (id : Z) (node : Order) (level_data : PriceLevelData)
  : PriceLevelData :=
  mkLevel
    (if quantity node <=? total_quantity level_data
     then total_quantity level_data - quantity node
     else 0)
    (unlink id (nodes level_data)).

(** [remove_order_from_side].  The level is the one [side.find(price)]
    returns.  If the node is linked in it, this is the removal of the first
    part.  If it is linked in another level (its price is NaN),
    [node == level_data.head] and [node == level_data.tail]
    are false, so the level that was found keeps its list and loses the
    quantity; the level of the node keeps a [head] and a [tail] that point to
    the deleted node, which the reference left in its list stands for, if
    the node is alone in its list; if it is not, the updates of [prev->next]
    and [next->prev] change that list in a way that is not described here
    ([None]).  [None] also if the list of the level that was found has a
    deleted node: [head] and [tail] are compared with [node]. *)
Definition remove_order_from_side (buy : bool) (id : Z) (bk : OrderBook)
  : option (bool * OrderBook) :=
  match order_lookup_ bk !! id with
  | None => Some (false, bk)
  | Some node =>
      match find (before_on buy) (price node) (side buy bk) with
      | None => Some (false, bk)
      | Some level_data =>
          if forallb (live bk) (nodes level_data) &&
             (bool_decide (id ∈ nodes level_data) || alone id bk)
          then
            let s :=
              match unlink id (nodes level_data) with
              | [] => erase (before_on buy) (price node) (side buy bk)
              | _ :: _ =>
                  modify (before_on buy) (price node) (drop_node id node)
                    (side buy bk)
              end in
            Some (true,
                  set_lookup (delete id (order_lookup_ bk)) (set_side buy s bk))
          else None
      end
  end.

(** [node->order.quantity -= q] *)
Definition fill_node (id q : Z) (bk : OrderBook) : OrderBook :=
  set_lookup
    (alter (fun o => set_quantity (wrap64 (quantity o - q)) o) id (order_lookup_ bk))
    bk.

(** [it = side.find(p); if (it != side.end()) it->second.total_quantity -= q] *)
Definition fill_level (buy : bool) (p : double) (q : Z) (bk : OrderBook)
  : OrderBook :=
  set_side buy
    (modify (before_on buy) p
       (fun l => mkLevel (wrap64 (total_quantity l - q)) (nodes l))
       (side buy bk))
    bk.

(** [if (node->order.quantity == 0) remove_order_from_side(id, side)] *)
Definition remove_if_filled (buy : bool) (id : Z) (bk : OrderBook)
  : option OrderBook :=
  match order_lookup_ bk !! id with
  | None => None
  | Some node =>
      if quantity node =? 0
      then
        match remove_order_from_side buy (order_id node) bk with
        | Some r => Some (snd r)
        | None => None
        end
      else Some bk
  end.

(** [execute_trade(buy_order, sell_order, trade_quantity)] *)
Definition execute_trade (buy_order sell_order trade_qty : Z) (bk : OrderBook)
  : option (OrderBook * Trade) :=
  match order_lookup_ bk !! buy_order, order_lookup_ bk !! sell_order with
  | Some b, Some s =>
      let t := mkTrade trade_qty (fmin (price b) (price s)) b s in
      let bk1 := mkBook (bids_ bk) (asks_ bk) (order_lookup_ bk)
                   (wrap64 (total_trades_ bk + 1))
                   (wrap64 (total_volume_ bk + trade_qty)) in
      let bk2 := fill_node sell_order trade_qty (fill_node buy_order trade_qty bk1) in
      let bk3 := fill_level true (price b) trade_qty bk2 in
      let bk4 := fill_level false (price s) trade_qty bk3 in
      match remove_if_filled true buy_order bk4 with
      | None => None
      | Some bk5 =>
          match remove_if_filled false sell_order bk5 with
          | None => None
          | Some bk6 => Some (bk6, t)
          end
      end
  | _, _ => None
  end.

(** One turn of the [while] loop of [process_matching]. *)
Inductive Turn :=
| Leave                                  (* the loop is left *)
| Dangling                               (* a private operation has no result *)
| Traded (bk : OrderBook) (t : Trade).   (* [execute_trade] has run *)

Definition match_step (bk : OrderBook) : Turn :=
  match bids_ bk, asks_ bk with
  | (best_bid, bid_level) :: _, (best_ask, ask_level) :: _ =>
      if lt best_bid best_ask then Leave
      else
        match nodes bid_level, nodes ask_level with
        | best_buy_order :: _, best_sell_order :: _ =>
            match order_lookup_ bk !! best_buy_order,
                  order_lookup_ bk !! best_sell_order with
            | Some b, Some s =>
                match execute_trade best_buy_order best_sell_order
                        (Z.min (quantity b) (quantity s)) bk with
                | Some (bk', t) => Traded bk' t
                | None => Dangling
                end
            | _, _ => Dangling
            end
        | _, _ => Leave
        end
  | _, _ => Leave
  end.

(** The loop, on the fuel of the first part. *)
Fixpoint process_matching_loop (fuel : nat) (bk : OrderBook)
  : option (OrderBook * list Trade) :=
  match fuel with
  | O => None
  | S fuel' =>
      match match_step bk with
      | Leave => Some (bk, [])
      | Dangling => None
      | Traded bk' t =>
          match process_matching_loop fuel' bk' with
          | None => None
          | Some (bk'', ts) => Some (bk'', t :: ts)
          end
      end
  end.

Definition matching_fuel (bk : OrderBook) : nat := S (size (order_lookup_ bk)).

Definition process_matching (bk : OrderBook) : option (OrderBook * list Trade) :=
  process_matching_loop (matching_fuel bk) bk.

(** ** The monad of the public operations *)

Record Result (A : Type) := mkResult {
  outcome : Outcome A;
  book : OrderBook;
  trades : list Trade
}.
Arguments mkResult {A} _ _ _.
Arguments outcome {A} _.
Arguments book {A} _.
Arguments trades {A} _.

Definition M (A : Type) : Type := OrderBook -> option (Result A).

Definition ret {A} (a : A) : M A := fun bk => Some (mkResult (Returned a) bk []).

Definition throw {A} (e : Error) : M A := fun bk => Some (mkResult (Thrown e) bk []).

#[export] Instance M_ret : MRet M := @ret.

#[export] Instance M_bind : MBind M := fun A B (f : A -> M B) (m : M A) bk =>
  match m bk with
  | None => None
  | Some r =>
      match outcome r with
      | Thrown e => Some (mkResult (Thrown e) (book r) (trades r))
      | Returned a =>
          match f a (book r) with
          | None => None
          | Some r' =>
              Some (mkResult (outcome r') (book r') (trades r ++ trades r'))
          end
      end
  end.

Definition get : M OrderBook := fun bk => Some (mkResult (Returned bk) bk []).

(** A private operation that neither throws nor trades. *)
Definition lift {A} (f : OrderBook -> option (A * OrderBook)) : M A := fun bk =>
  match f bk with
  | Some r => Some (mkResult (Returned (fst r)) (snd r) [])
  | None => None
  end.

Definition update (f : OrderBook -> option OrderBook) : M unit :=
  lift (fun bk => match f bk with Some bk' => Some (tt, bk') | None => None end).

(** [process_matching()] *)
Definition matching : M unit := fun bk =>
  match process_matching bk with
  | None => None
  | Some (bk', ts) => Some (mkResult (Returned tt) bk' ts)
  end.

(** ** Public operations *)

Definition order_exists (id : Z) (bk : OrderBook) : bool :=
  match order_lookup_ bk !! id with Some _ => true | None => false end.

Definition set_timestamp (ts : Z) (o : Order) : Order :=
  mkOrder (order_id o) (is_buy o) (price o) (quantity o) ts.

Definition stamp (now : Z) (o : Order) : Order :=
  if timestamp_ns o =? 0 then set_timestamp now o else o.

(** [add_order(order, match_immediately)]: [order.price <= 0.0] is false of
    NaN. *)
Definition add_order (order : Order) (match_immediately : bool) (now : Z)
  : M unit :=
  bk ← get;
  if order_exists (order_id order) bk then throw DuplicateId
  else if quantity order =? 0 then throw InvalidQuantity
  else if le (price order) (Num 0) then throw InvalidPrice
  else
    let order_with_ts := stamp now order in
    update (add_order_to_side (is_buy order_with_ts) order_with_ts);;
    if match_immediately then matching else ret tt.

(** [cancel_order(order_id)] *)
Definition cancel_order (id : Z) : M bool :=
  bk ← get;
  match order_lookup_ bk !! id with
  | None => ret false
  | Some node => lift (remove_order_from_side (is_buy node) id)
  end.

(** [std::abs(existing_order.price - new_price) > 1e-12]: false when one of
    the two prices is NaN. *)
Definition price_changed (existing_price new_price : double) : bool :=
  lt (Num price_epsilon) (abs (sub existing_price new_price)).

(** The branch of [amend_order] that updates the quantity in place. *)
Definition amend_in_place (id : Z) (existing_order : Order) (new_quantity : Z)
    (bk : OrderBook) : OrderBook :=
  let quantity_diff :=
    to_int64 (to_int64 new_quantity - to_int64 (quantity existing_order)) in
  let buy := is_buy existing_order in
  let bk1 :=
    set_side buy
      (modify (before_on buy) (price existing_order)
         (fun l => mkLevel (wrap64 (total_quantity l + quantity_diff)) (nodes l))
         (side buy bk))
      bk in
  set_lookup (<[id := set_quantity new_quantity existing_order]> (order_lookup_ bk1))
    bk1.

Definition repriced (o : Order) (new_price : double) (new_quantity : Z) : Order :=
  mkOrder (order_id o) (is_buy o) new_price new_quantity (timestamp_ns o).

(** [amend_order(order_id, new_price, new_quantity, match_immediately)] *)
Definition amend_order (id : Z) (new_price : double) (new_quantity : Z)
    (match_immediately : bool) (now : Z) : M bool :=
  bk ← get;
  match order_lookup_ bk !! id with
  | None => ret false
  | Some existing_order =>
      if new_quantity =? 0 then throw InvalidQuantity
      else if le new_price (Num 0) then throw InvalidPrice
      else if price_changed (price existing_order) new_price then
        let new_order := repriced existing_order new_price new_quantity in
        cancelled ← cancel_order id;
        if negb cancelled then ret false
        else
          add_order new_order match_immediately now;;
          (if match_immediately then matching else ret tt);;
          ret true
      else
        update (fun bk => Some (amend_in_place id existing_order new_quantity bk));;
        (if match_immediately then matching else ret tt);;
        ret true
  end.

(** [match_orders()] *)
Definition match_orders : M unit := matching.

(** ** Queries *)

Definition get_total_orders (bk : OrderBook) : nat := size (order_lookup_ bk).
Definition get_bid_levels (bk : OrderBook) : nat := length (bids_ bk).
Definition get_ask_levels (bk : OrderBook) : nat := length (asks_ bk).

Definition get_best_bid (bk : OrderBook) : double :=
  match bids_ bk with [] => Num 0 | (p, _) :: _ => p end.

Definition get_best_ask (bk : OrderBook) : double :=
  match asks_ bk with [] => Num 0 | (p, _) :: _ => p end.

(** ** Sequences of public calls *)

Inductive Op :=
| Insert (order : Order) (match_immediately : bool) (now : Z)
| Cancel (id : Z)
| Amend (id : Z) (new_price : double) (new_quantity : Z)
        (match_immediately : bool) (now : Z)
| Match.

Definition after {A} (r : option (Result A)) : option (OrderBook * list Trade) :=
  match r with
  | None => None
  | Some r => Some (book r, trades r)
  end.

Definition apply_op (op : Op) (bk : OrderBook) : option (OrderBook * list Trade) :=
  match op with
  | Insert order m now => after (add_order order m now bk)
  | Cancel id => after (cancel_order id bk)
  | Amend id p q m now => after (amend_order id p q m now bk)
  | Match => after (match_orders bk)
  end.

(** The arguments are of their C++ types. *)
Definition op_ok (op : Op) : Prop :=
  match op with
  | Insert order _ now =>
      u64 (order_id order) /\ u64 (quantity order) /\
      u64 (timestamp_ns order) /\ u64 now
  | Cancel id => u64 id
  | Amend id _ q _ now => u64 id /\ u64 q /\ u64 now
  | Match => True
  end.

(** The price is a number, not NaN. *)
Definition is_number (p : double) : Prop :=
  match p with Num _ => True | NaN => False end.

(** The price the call is given, if it is given one, is a number. *)
Definition on_numbers (op : Op) : Prop :=
  match op with
  | Insert order _ _ => is_number (price order)
  | Amend _ p _ _ _ => is_number p
  | Cancel _ | Match => True
  end.

(** The books a sequence of public calls leads to from the empty book, each
    call [op] and the book it leaves satisfying [P]. *)
Inductive reachable_by (P : Op -> OrderBook -> Prop) : OrderBook -> Prop :=
| reach_empty : reachable_by P empty_book
| reach_step bk op bk' ts :
    reachable_by P bk -> op_ok op -> apply_op op bk = Some (bk', ts) ->
    P op bk' -> reachable_by P bk'.

(** A sequence of calls, one after the other. *)
Fixpoint run_ops (ops : list Op) (bk : OrderBook)
  : option (OrderBook * list Trade) :=
  match ops with
  | [] => Some (bk, [])
  | op :: ops' =>
      match apply_op op bk with
      | None => None
      | Some (bk1, ts1) =>
          match run_ops ops' bk1 with
          | None => None
          | Some (bk2, ts2) => Some (bk2, ts1 ++ ts2)
          end
      end
  end.

(** ** The totals of the levels *)

Definition node_quantity (lk : gmap Z Order) (id : Z) : Z :=
  match lk !! id with Some o => quantity o | None => 0 end.

(** The sum of the quantities of the orders of a list of nodes. *)
Fixpoint queue_quantity (lk : gmap Z Order) (ns : list Z) : Z :=
  match ns with
  | [] => 0
  | id :: ns' => node_quantity lk id + queue_quantity lk ns'
  end.

(** The sum of every level fits a [uint64_t]. *)
Definition levels_bounded (bk : OrderBook) : Prop :=
  Forall (fun e => queue_quantity (order_lookup_ bk) (nodes (snd e)) < two64)
    (bids_ bk ++ asks_ bk).

End Double.

(** ** A book of numbers, read as a book of doubles

    The book, the orders, the trades and the calls of the first part, with
    each price [p] as the double [Num p]. *)

Definition order_on_doubles (o : Order) : Double.Order :=
  Double.mkOrder (order_id o) (is_buy o) (Double.Num (price o)) (quantity o)
    (timestamp_ns o).

Definition side_on_doubles (s : list (Q * PriceLevelData))
  : list (Double.double * PriceLevelData) :=
  map (fun e => (Double.Num (fst e), snd e)) s.

Definition book_on_doubles (bk : OrderBook) : Double.OrderBook :=
  Double.mkBook (side_on_doubles (bids_ bk)) (side_on_doubles (asks_ bk))
    (order_on_doubles <$> order_lookup_ bk) (total_trades_ bk) (total_volume_ bk).

Definition trade_on_doubles (t : Trade) : Double.Trade :=
  Double.mkTrade (trade_quantity t) (Double.Num (trade_price t))
    (order_on_doubles (trade_buy t)) (order_on_doubles (trade_sell t)).

Definition turn_on_doubles (t : Turn) : Double.Turn :=
  match t with
  | Leave => Double.Leave
  | Dangling => Double.Dangling
  | Traded bk t => Double.Traded (book_on_doubles bk) (trade_on_doubles t)
  end.

Definition result_on_doubles {A} (r : Result A) : Double.Result A :=
  Double.mkResult (outcome r) (book_on_doubles (book r))
    (map trade_on_doubles (trades r)).

Definition op_on_doubles (op : Op) : Double.Op :=
  match op with
  | Insert order m now => Double.Insert (order_on_doubles order) m now
  | Cancel id => Double.Cancel id
  | Amend id p q m now => Double.Amend id (Double.Num p) q m now
  | Match => Double.Match
  end.

(** The books the class is led to by calls that are given numbers for
    prices, and those it is led to by such calls when each of them leaves the
    sum of every level below [2^64].  (Every book the class on doubles is led
    to by such calls is a book of numbers: [reachable_by_on_numbers].) *)
Definition reachable_on_numbers (bk : OrderBook) : Prop :=
  Double.reachable_by (fun op _ => Double.on_numbers op) (book_on_doubles bk).

Definition reachable_on_bounded_numbers (bk : OrderBook) : Prop :=
  Double.reachable_by
    (fun op d => Double.on_numbers op /\ Double.levels_bounded d)
    (book_on_doubles bk).

(** ** Calls with a NaN price *)

(** A buy order at 100, a buy order at NaN, which joins the level of the
    first, and the cancel of the first. *)
Definition nan_joins_ops : list Double.Op :=
  [Double.Insert (Double.mkOrder 1 true (Double.Num 100) 10 1) true 0;
   Double.Insert (Double.mkOrder 2 true Double.NaN 5 2) true 0;
   Double.Cancel 1].

(** Then a buy order at 101, which becomes the first level of the bids. *)
Definition nan_behind_ops : list Double.Op :=
  nan_joins_ops ++
  [Double.Insert (Double.mkOrder 3 true (Double.Num 101) 7 3) true 0].

(** Then the cancel of the order at NaN. *)
Definition nan_cancel_ops : list Double.Op :=
  nan_behind_ops ++ [Double.Cancel 2].

(** A buy order at 100, a buy order at NaN, a buy order at 101, and the
    amend of the order at NaN to 8 at NaN. *)
Definition nan_amend_ops : list Double.Op :=
  [Double.Insert (Double.mkOrder 1 true (Double.Num 100) 10 1) true 0;
   Double.Insert (Double.mkOrder 2 true Double.NaN 5 2) true 0;
   Double.Insert (Double.mkOrder 3 true (Double.Num 101) 7 3) true 0;
   Double.Amend 2 Double.NaN 8 false 0].

(** A buy order at NaN into the empty book, buy orders at 100 and at 101,
    which join its level, and a sell order that crosses. *)
Definition nan_level_ops (sell : Double.Order) : list Double.Op :=
  [Double.Insert (Double.mkOrder 1 true Double.NaN 10 1) true 0;
   Double.Insert (Double.mkOrder 2 true (Double.Num 100) 10 2) true 0;
   Double.Insert (Double.mkOrder 3 true (Double.Num 101) 10 3) true 0;
   Double.Insert sell true 0].

(** * Properties *)

(** ** Prices *)

Lemma Qltb_lt (a b : Q) : Qltb a b = true <-> (a < b)%Q.
Proof.
  unfold Qltb. rewrite negb_true_iff. split.
  - intros H. apply Qnot_le_lt. intros Hle.
    apply Qle_bool_iff in Hle. congruence.
  - intros H. destruct (Qle_bool b a) eqn:E; [|reflexivity].
    apply Qle_bool_iff in E. exfalso. revert E. now apply Qlt_not_le.
Qed.

Lemma Qltb_ge (a b : Q) : Qltb a b = false <-> (b <= a)%Q.
Proof.
  unfold Qltb. rewrite negb_false_iff. apply Qle_bool_iff.
Qed.

Lemma same_key_Qeq (buy : bool) (a b : Q) :
  same_key (before_on buy) a b = true <-> (a == b)%Q.
Proof.
  unfold same_key, before_on.
  rewrite andb_true_iff, !negb_true_iff.
  destruct buy; rewrite !Qltb_ge; split.
  - intros [H1 H2]. now apply Qle_antisym.
  - intros H. split; rewrite H; apply Qle_refl.
  - intros [H1 H2]. now apply Qle_antisym.
  - intros H. split; rewrite H; apply Qle_refl.
Qed.

#[export] Instance before_on_swo (buy : bool) : StrictWeakOrder (before_on buy).
Proof.
  split.
  - intros a. unfold before_on. destruct buy; apply Qltb_ge, Qle_refl.
  - intros a b c. unfold before_on. destruct buy; rewrite !Qltb_lt; intros H1 H2.
    + eapply Qlt_trans; eassumption.
    + eapply Qlt_trans; eassumption.
  - intros a b c. rewrite !same_key_Qeq. intros H1 H2. now rewrite H1.
Qed.

Lemma fmin_le_l (a b : Q) : (fmin a b <= a)%Q.
Proof.
  unfold fmin. destruct (Qltb b a) eqn:E.
  - apply Qlt_le_weak. now apply Qltb_lt.
  - apply Qle_refl.
Qed.

Lemma fmin_le_r (a b : Q) : (fmin a b <= b)%Q.
Proof.
  unfold fmin. destruct (Qltb b a) eqn:E.
  - apply Qle_refl.
  - now apply Qltb_ge.
Qed.

(** ** Ordered maps *)

Section OrderedMapFacts.
Context {K V : Type} (before : K -> K -> bool) `{!StrictWeakOrder before}.
Implicit Types (k : K) (v : V) (m : list (K * V)).

Lemma same_key_refl k : same_key before k k = true.
Proof. unfold same_key. now rewrite (before_irrefl before). Qed.

Lemma same_key_sym a b : same_key before a b = same_key before b a.
Proof. unfold same_key. apply andb_comm. Qed.

Lemma before_not_same a b : before a b = true -> same_key before a b = false.
Proof. intros H. unfold same_key. now rewrite H. Qed.

Lemma before_not_same_r a b : before a b = true -> same_key before b a = false.
Proof. intros H. unfold same_key. rewrite H. apply andb_false_r. Qed.

(** A key that is the same as [a] stands where [a] stands. *)
Lemma before_same_l a b c :
  same_key before a b = true -> before a c = true -> before b c = true.
Proof.
  intros Hab Hac.
  destruct (before b c) eqn:Hbc; [reflexivity|].
  destruct (before c b) eqn:Hcb.
  - pose proof (before_trans before _ _ _ Hac Hcb) as Hab'.
    apply before_not_same in Hab'. congruence.
  - assert (same_key before b c = true) as Hs
      by (unfold same_key; now rewrite Hbc, Hcb).
    pose proof (same_key_trans before _ _ _ Hab Hs) as Hs'.
    apply before_not_same in Hac. congruence.
Qed.

Lemma before_same_r a b c :
  same_key before a b = true -> before c a = true -> before c b = true.
Proof.
  intros Hab Hca.
  destruct (before c b) eqn:Hcb; [reflexivity|].
  destruct (before b c) eqn:Hbc.
  - pose proof (before_trans before _ _ _ Hbc Hca) as Hba.
    apply before_not_same_r in Hba. congruence.
  - assert (same_key before b c = true) as Hs
      by (unfold same_key; now rewrite Hbc, Hcb).
    pose proof (same_key_trans before _ _ _ Hab Hs) as Hs'.
    apply before_not_same_r in Hca. congruence.
Qed.

Lemma same_key_before_l a b c :
  same_key before a b = true -> before a c = before b c.
Proof.
  intros Hab. destruct (before a c) eqn:E1, (before b c) eqn:E2; try reflexivity.
  - pose proof (before_same_l _ _ _ Hab E1). congruence.
  - rewrite same_key_sym in Hab.
    pose proof (before_same_l _ _ _ Hab E2). congruence.
Qed.

Lemma same_key_before_r a b c :
  same_key before a b = true -> before c a = before c b.
Proof.
  intros Hab. destruct (before c a) eqn:E1, (before c b) eqn:E2; try reflexivity.
  - pose proof (before_same_r _ _ _ Hab E1). congruence.
  - rewrite same_key_sym in Hab.
    pose proof (before_same_r _ _ _ Hab E2). congruence.
Qed.

Lemma same_key_same a b c :
  same_key before a b = true -> same_key before a c = same_key before b c.
Proof.
  intros Hab. unfold same_key.
  now rewrite (same_key_before_l _ _ c Hab), (same_key_before_r _ _ c Hab).
Qed.
End OrderedMapFacts.

Section OrderedMapOps.
Context {K V : Type} (before : K -> K -> bool) `{!StrictWeakOrder before}.
Implicit Types (k : K) (v : V) (m : list (K * V)) (f : V -> V).

Lemma ordered_head_unique k k' v' m :
  ordered before ((k', v') :: m) -> same_key before k k' = true ->
  Forall (fun e => same_key before k (fst e) = false) m.
Proof.
  intros [Hh _] Hs. eapply Forall_impl; [exact Hh|].
  intros e He. cbn beta in He.
  apply (before_not_same before).
  rewrite same_key_sym in Hs.
  eapply before_same_l; eassumption.
Qed.

Lemma find_same_key k k2 m :
  same_key before k k2 = true -> find before k m = find before k2 m.
Proof.
  intros Hs. induction m as [|[k' v'] m IH]; [reflexivity|].
  simpl. rewrite (same_key_same before k k2 k' Hs). now rewrite IH.
Qed.

Lemma find_Some_elem k v m :
  find before k m = Some v ->
  exists k0, (k0, v) ∈ m /\ same_key before k k0 = true.
Proof.
  induction m as [|[k' v'] m IH]; simpl; [discriminate|].
  destruct (same_key before k k') eqn:E.
  - intros [= <-]. exists k'. split; [apply list_elem_of_here|exact E].
  - intros H. destruct (IH H) as (k0 & Hin & Hs).
    exists k0. split; [now apply list_elem_of_further|exact Hs].
Qed.

Lemma find_None_not_same k m :
  find before k m = None ->
  Forall (fun e => same_key before k (fst e) = false) m.
Proof.
  induction m as [|[k' v'] m IH]; simpl; [constructor|].
  destruct (same_key before k k') eqn:E; [discriminate|].
  intros H. constructor; [exact E|now apply IH].
Qed.

Lemma find_elem_of k k0 v m :
  ordered before m -> (k0, v) ∈ m -> same_key before k k0 = true ->
  find before k m = Some v.
Proof.
  induction m as [|[k' v'] m IH]; intros Hord Hin Hs.
  - now apply elem_of_nil in Hin.
  - simpl. apply elem_of_cons in Hin as [[= <- <-]|Hin].
    + now rewrite Hs.
    + destruct (same_key before k k') eqn:E.
      * pose proof (ordered_head_unique _ _ _ _ Hord E) as Hu.
        rewrite Forall_forall in Hu. specialize (Hu _ Hin). simpl in Hu.
        congruence.
      * apply IH; [apply Hord|assumption..].
Qed.

(** *** What an operation does to a property of all elements *)

Lemma Forall_modify (P Q : K * V -> Prop) k f m :
  ordered before m -> Forall P m ->
  (forall k0 v, (k0, v) ∈ m -> same_key before k k0 = true ->
                P (k0, v) -> Q (k0, f v)) ->
  (forall e, e ∈ m -> same_key before k (fst e) = false -> P e -> Q e) ->
  Forall Q (modify before k f m).
Proof.
  induction m as [|[k' v'] m IH]; intros Hord HP Hhit Hmiss; simpl.
  - constructor.
  - apply Forall_cons in HP as [HP1 HP2].
    destruct (same_key before k k') eqn:E.
    + constructor.
      * apply Hhit; [apply list_elem_of_here|assumption..].
      * pose proof (ordered_head_unique _ _ _ _ Hord E) as Hu.
        rewrite Forall_forall in Hu, HP2. apply Forall_forall.
        intros e He. apply Hmiss; [now apply list_elem_of_further|auto..].
    + constructor.
      * apply Hmiss; [apply list_elem_of_here|assumption..].
      * apply IH; [apply Hord|assumption|..].
        -- intros k0 v Hin. apply Hhit. now apply list_elem_of_further.
        -- intros e Hin. apply Hmiss. now apply list_elem_of_further.
Qed.

Lemma Forall_erase (P Q : K * V -> Prop) k m :
  ordered before m -> Forall P m ->
  (forall e, e ∈ m -> same_key before k (fst e) = false -> P e -> Q e) ->
  Forall Q (erase before k m).
Proof.
  induction m as [|[k' v'] m IH]; intros Hord HP Hmiss; simpl.
  - constructor.
  - apply Forall_cons in HP as [HP1 HP2].
    destruct (same_key before k k') eqn:E.
    + pose proof (ordered_head_unique _ _ _ _ Hord E) as Hu.
      rewrite Forall_forall in Hu, HP2. apply Forall_forall.
      intros e He. apply Hmiss; [now apply list_elem_of_further|auto..].
    + constructor.
      * apply Hmiss; [apply list_elem_of_here|assumption..].
      * apply IH; [apply Hord|assumption|].
        intros e Hin. apply Hmiss. now apply list_elem_of_further.
Qed.

Lemma Forall_subscript (P Q : K * V -> Prop) k dflt f m :
  ordered before m -> Forall P m ->
  (find before k m = None -> Q (k, f dflt)) ->
  (forall k0 v, (k0, v) ∈ m -> same_key before k k0 = true ->
                P (k0, v) -> Q (k0, f v)) ->
  (forall e, e ∈ m -> same_key before k (fst e) = false -> P e -> Q e) ->
  Forall Q (subscript before k dflt f m).
Proof.
  induction m as [|[k' v'] m IH]; intros Hord HP Hnew Hhit Hmiss; simpl.
  - constructor; [now apply Hnew|constructor].
  - apply Forall_cons in HP as [HP1 HP2].
    assert (Hrest : same_key before k k' = true ->
                    Forall Q m).
    { intros E. pose proof (ordered_head_unique _ _ _ _ Hord E) as Hu.
      rewrite Forall_forall in Hu, HP2. apply Forall_forall.
      intros e He. apply Hmiss; [now apply list_elem_of_further|auto..]. }
    destruct (before k k') eqn:E1; [|destruct (before k' k) eqn:E2].
    + (* the new element goes in front *)
      assert (Hall : Forall (fun e => same_key before k (fst e) = false)
                       ((k', v') :: m)).
      { constructor; [now apply before_not_same|].
        destruct Hord as [Hh _]. eapply Forall_impl; [exact Hh|].
        intros e He. cbn beta in He. apply before_not_same.
        eapply (before_trans before); eassumption. }
      constructor.
      * apply Hnew. simpl. rewrite (before_not_same _ _ _ E1).
        clear -Hall. apply Forall_cons in Hall as [_ Hall].
        induction Hall as [|[k0 v0] m0 H0 _ IH0]; [reflexivity|].
        simpl in *. now rewrite H0.
      * rewrite Forall_forall in Hall. apply Forall_forall. intros e He.
        apply Hmiss; [assumption|now apply Hall|].
        rewrite Forall_forall in HP2.
        apply elem_of_cons in He as [->|He]; [assumption|now apply HP2].
    + (* further down *)
      assert (E : same_key before k k' = false)
        by now apply before_not_same_r.
      constructor.
      * apply Hmiss; [apply list_elem_of_here|assumption..].
      * apply IH; [apply Hord|assumption|..].
        -- intros Hn. apply Hnew. simpl. now rewrite E.
        -- intros k0 v Hin. apply Hhit. now apply list_elem_of_further.
        -- intros e Hin. apply Hmiss. now apply list_elem_of_further.
    + (* the element is there *)
      assert (E : same_key before k k' = true)
        by (unfold same_key; now rewrite E1, E2).
      constructor; [|now apply Hrest].
      apply Hhit; [apply list_elem_of_here|assumption..].
Qed.

(** *** The order of the keys is kept *)

Lemma ordered_modify k f m :
  ordered before m -> ordered before (modify before k f m).
Proof.
  induction m as [|[k' v'] m IH]; simpl; [trivial|].
  intros [Hh Ht]. destruct (same_key before k k'); simpl.
  - split; assumption.
  - split; [|now apply IH].
    clear -Hh. induction m as [|[k0 v0] m IH0]; simpl; [constructor|].
    apply Forall_cons in Hh as [H1 H2].
    destruct (same_key before k k0); constructor; auto.
Qed.

Lemma ordered_erase k m :
  ordered before m -> ordered before (erase before k m).
Proof.
  induction m as [|[k' v'] m IH]; simpl; [trivial|].
  intros [Hh Ht]. destruct (same_key before k k'); simpl; [assumption|].
  split; [|now apply IH].
  clear -Hh. induction m as [|[k0 v0] m IH0]; simpl; [constructor|].
  apply Forall_cons in Hh as [H1 H2].
  destruct (same_key before k k0); [assumption|constructor; auto].
Qed.

Lemma ordered_subscript k dflt f m :
  ordered before m -> ordered before (subscript before k dflt f m).
Proof.
  induction m as [|[k' v'] m IH]; simpl.
  - intros _. split; [constructor|trivial].
  - intros [Hh Ht].
    destruct (before k k') eqn:E1; [|destruct (before k' k) eqn:E2]; simpl.
    + split; [|split; assumption].
      constructor; [assumption|].
      eapply Forall_impl; [exact Hh|]. intros e He. cbn beta in He.
      eapply (before_trans before); eassumption.
    + split; [|now apply IH].
      apply (Forall_subscript (fun e => before k' (fst e) = true));
        try assumption; auto.
    + split; assumption.
Qed.
End OrderedMapOps.

Section OrderedMapLookups.
Context {K V : Type} (before : K -> K -> bool) `{!StrictWeakOrder before}.
Implicit Types (k : K) (v : V) (m : list (K * V)) (f : V -> V).

Lemma find_not_same k m :
  Forall (fun e => same_key before k (fst e) = false) m ->
  find before k m = None.
Proof.
  induction 1 as [|[k' v'] m H _ IH]; [reflexivity|].
  simpl in *. now rewrite H.
Qed.

Lemma two_same_keys k k2 k' :
  same_key before k k' = true -> same_key before k2 k' = true ->
  same_key before k k2 = true.
Proof.
  intros H1 H2. rewrite same_key_sym in H2.
  eapply (same_key_trans before); eassumption.
Qed.

Lemma find_modify_hit k f v m :
  find before k m = Some v -> find before k (modify before k f m) = Some (f v).
Proof.
  induction m as [|[k' v'] m IH]; simpl; [discriminate|].
  destruct (same_key before k k') eqn:E; simpl; rewrite E.
  - now intros [= <-].
  - exact IH.
Qed.

Lemma find_modify_miss k k2 f m :
  same_key before k k2 = false ->
  find before k2 (modify before k f m) = find before k2 m.
Proof.
  intros Hne. induction m as [|[k' v'] m IH]; simpl; [reflexivity|].
  destruct (same_key before k k') eqn:E; simpl.
  - destruct (same_key before k2 k') eqn:E2; [|reflexivity].
    pose proof (two_same_keys _ _ _ E E2). congruence.
  - now rewrite IH.
Qed.

Lemma find_modify_None k f m :
  find before k m = None -> modify before k f m = m.
Proof.
  induction m as [|[k' v'] m IH]; simpl; [reflexivity|].
  destruct (same_key before k k'); [discriminate|].
  intros H. now rewrite IH.
Qed.

Lemma find_erase_hit k m :
  ordered before m -> find before k (erase before k m) = None.
Proof.
  induction m as [|[k' v'] m IH]; simpl; [reflexivity|].
  intros Hord. destruct (same_key before k k') eqn:E; simpl.
  - apply find_not_same. exact (ordered_head_unique before k k' v' m Hord E).
  - rewrite E. apply IH, Hord.
Qed.

Lemma find_erase_miss k k2 m :
  same_key before k k2 = false ->
  find before k2 (erase before k m) = find before k2 m.
Proof.
  intros Hne. induction m as [|[k' v'] m IH]; simpl; [reflexivity|].
  destruct (same_key before k k') eqn:E; simpl.
  - destruct (same_key before k2 k') eqn:E2; [|reflexivity].
    pose proof (two_same_keys _ _ _ E E2). congruence.
  - now rewrite IH.
Qed.

Lemma find_subscript_hit k dflt f m :
  ordered before m ->
  find before k (subscript before k dflt f m)
  = Some (f (default dflt (find before k m))).
Proof.
  induction m as [|[k' v'] m IH]; simpl.
  - intros _. now rewrite same_key_refl.
  - intros [Hh Ht].
    destruct (before k k') eqn:E1; [|destruct (before k' k) eqn:E2]; simpl.
    + rewrite same_key_refl by assumption.
      rewrite (before_not_same _ _ _ E1).
      rewrite find_not_same; [reflexivity|].
      eapply Forall_impl; [exact Hh|]. intros e He. cbn beta in He.
      apply before_not_same. eapply (before_trans before); eassumption.
    + rewrite (before_not_same_r _ _ _ E2). now apply IH.
    + assert (E : same_key before k k' = true)
        by (unfold same_key; now rewrite E1, E2).
      now rewrite E.
Qed.

Lemma find_subscript_miss k k2 dflt f m :
  same_key before k k2 = false ->
  find before k2 (subscript before k dflt f m) = find before k2 m.
Proof.
  intros Hne. induction m as [|[k' v'] m IH]; simpl.
  - rewrite same_key_sym. now rewrite Hne.
  - destruct (before k k') eqn:E1; [|destruct (before k' k) eqn:E2]; simpl.
    + rewrite (same_key_sym _ k2 k). now rewrite Hne.
    + now rewrite IH.
    + destruct (same_key before k2 k') eqn:E; [|reflexivity].
      assert (same_key before k k' = true)
        by (unfold same_key; now rewrite E1, E2).
      pose proof (two_same_keys _ _ _ H E). congruence.
Qed.

(** *** The first element, [begin()] *)

Lemma modify_head k f m k1 v1 rest :
  modify before k f m = (k1, v1) :: rest ->
  exists v0 rest0, m = (k1, v0) :: rest0.
Proof.
  destruct m as [|[k' v'] m]; simpl; [discriminate|].
  destruct (same_key before k k'); intros [= <- _ _]; eauto.
Qed.

Lemma erase_head k m k1 v1 rest :
  ordered before m -> erase before k m = (k1, v1) :: rest ->
  exists k0 v0 rest0,
    m = (k0, v0) :: rest0 /\ (k1 = k0 \/ before k0 k1 = true).
Proof.
  destruct m as [|[k' v'] m]; simpl; [discriminate|].
  intros [Hh _]. destruct (same_key before k k').
  - intros ->. apply Forall_cons in Hh as [Hh _]. eauto 6.
  - intros [= <- _ _]. eauto 6.
Qed.
End OrderedMapLookups.

(** ** Books: projections *)

Lemma side_set_side buy s bk : side buy (set_side buy s bk) = s.
Proof. now destruct buy. Qed.

Lemma side_set_side_other buy s bk :
  side (negb buy) (set_side buy s bk) = side (negb buy) bk.
Proof. now destruct buy. Qed.

Lemma lookup_set_side buy s bk :
  order_lookup_ (set_side buy s bk) = order_lookup_ bk.
Proof. now destruct buy. Qed.

Lemma side_set_lookup buy lk bk : side buy (set_lookup lk bk) = side buy bk.
Proof. now destruct buy. Qed.

Lemma set_side_id buy bk : set_side buy (side buy bk) bk = bk.
Proof. now destruct buy, bk. Qed.

Lemma set_lookup_id bk : set_lookup (order_lookup_ bk) bk = bk.
Proof. now destruct bk. Qed.

(** ** Node references of a side *)

Lemma elem_of_side_ids x s :
  x ∈ side_ids s <-> exists e, e ∈ s /\ x ∈ nodes (snd e).
Proof.
  induction s as [|e s IH]; simpl.
  - split; [intros H; now apply elem_of_nil in H|].
    intros (e & H & _). now apply elem_of_nil in H.
  - rewrite elem_of_app, IH. split.
    + intros [H|(e' & H1 & H2)].
      * exists e. split; [apply list_elem_of_here|assumption].
      * exists e'. split; [now apply list_elem_of_further|assumption].
    + intros (e' & H1 & H2). apply elem_of_cons in H1 as [->|H1]; eauto.
Qed.

Lemma unlink_app id a b : unlink id (a ++ b) = unlink id a ++ unlink id b.
Proof. apply filter_app. Qed.

Lemma unlink_absent id l : id ∉ l -> unlink id l = l.
Proof.
  induction l as [|x l IH]; [reflexivity|].
  intros H. apply not_elem_of_cons in H as [H1 H2].
  unfold unlink in *. rewrite filter_cons_True by congruence.
  now rewrite IH.
Qed.

Lemma elem_of_unlink x id l : x ∈ unlink id l <-> x ≠ id /\ x ∈ l.
Proof. unfold unlink. now rewrite list_elem_of_filter. Qed.

Section SideIds.
Context (before : Q -> Q -> bool) `{!StrictWeakOrder before}.
Implicit Types (s : list (Q * PriceLevelData)).

Lemma side_ids_modify_nodes k f s :
  (forall l, nodes (f l) = nodes l) ->
  side_ids (modify before k f s) = side_ids s.
Proof.
  intros Hf. induction s as [|[k' l'] s IH]; simpl; [reflexivity|].
  destruct (same_key before k k'); simpl; [now rewrite Hf|now rewrite IH].
Qed.

Lemma side_ids_subscript k f s id :
  (forall l, nodes (f l) = nodes l ++ [id]) ->
  side_ids (subscript before k empty_level f s) ≡ₚ id :: side_ids s.
Proof.
  intros Hf. induction s as [|[k' l'] s IH]; simpl.
  - now rewrite Hf.
  - destruct (before k k'); [|destruct (before k' k)]; simpl.
    + now rewrite Hf.
    + rewrite IH. symmetry. apply Permutation_middle.
    + rewrite Hf, <- app_assoc. simpl.
      symmetry. apply Permutation_middle.
Qed.

Lemma side_ids_modify_unlink k f s id :
  ordered before s ->
  (forall e, e ∈ s -> same_key before k (fst e) = false ->
             id ∉ nodes (snd e)) ->
  (forall l, nodes (f l) = unlink id (nodes l)) ->
  side_ids (modify before k f s) = unlink id (side_ids s).
Proof.
  intros Hord Hmiss Hf. induction s as [|[k' l'] s IH]; simpl; [reflexivity|].
  rewrite unlink_app.
  destruct (same_key before k k') eqn:E; simpl.
  - rewrite Hf. f_equal.
    pose proof (ordered_head_unique before k k' l' s Hord E) as Hu.
    clear IH. induction s as [|e s IH]; [reflexivity|]. simpl.
    apply Forall_cons in Hu as [Hu1 Hu2].
    rewrite unlink_app, unlink_absent.
    + f_equal. apply IH.
      * destruct Hord as [Hh Ht]. apply Forall_cons in Hh as [_ Hh].
        split; [assumption|]. destruct e. apply Ht.
      * intros e' He'. apply Hmiss.
        apply elem_of_cons in He' as [->|He'];
          [apply list_elem_of_here|do 2 apply list_elem_of_further; assumption].
      * assumption.
    + apply Hmiss; [apply list_elem_of_further, list_elem_of_here|assumption].
  - rewrite unlink_absent.
    + f_equal. apply IH; [apply Hord|].
      intros e He. apply Hmiss. now apply list_elem_of_further.
    + apply (Hmiss (k', l')); [apply list_elem_of_here|assumption].
Qed.
End SideIds.

Lemma unlink_side_ids_absent id (s : list (Q * PriceLevelData)) :
  (forall e, e ∈ s -> id ∉ nodes (snd e)) -> unlink id (side_ids s) = side_ids s.
Proof.
  intros H. apply unlink_absent. rewrite elem_of_side_ids.
  intros (e & He & Hin). exact (H e He Hin).
Qed.

Lemma side_ids_erase_unlink (before : Q -> Q -> bool) `{!StrictWeakOrder before}
    k (s : list (Q * PriceLevelData)) id l :
  ordered before s ->
  (forall e, e ∈ s -> same_key before k (fst e) = false -> id ∉ nodes (snd e)) ->
  find before k s = Some l -> unlink id (nodes l) = [] ->
  side_ids (erase before k s) = unlink id (side_ids s).
Proof.
  intros Hord Hmiss Hfind Hl.
  induction s as [|[k' l'] s IH]; simpl in *; [discriminate|].
  rewrite unlink_app.
  destruct (same_key before k k') eqn:E.
  - injection Hfind as ->. rewrite Hl. simpl.
    symmetry. apply unlink_side_ids_absent.
    pose proof (ordered_head_unique before k k' l s Hord E) as Hu.
    rewrite Forall_forall in Hu.
    intros e He. apply Hmiss; [now apply list_elem_of_further|now apply Hu].
  - simpl. rewrite unlink_absent.
    + f_equal. apply IH; [apply Hord| |assumption].
      intros e He. apply Hmiss. now apply list_elem_of_further.
    + apply (Hmiss (k', l')); [apply list_elem_of_here|assumption].
Qed.

(** ** Consistent books *)

Lemma consistent_sides buy bk :
  consistent bk <->
  levels_ok buy (order_lookup_ bk) (side buy bk) /\
  levels_ok (negb buy) (order_lookup_ bk) (side (negb buy) bk) /\
  NoDup (side_ids (side buy bk) ++ side_ids (side (negb buy) bk)) /\
  (forall id, is_Some (order_lookup_ bk !! id) ->
              id ∈ side_ids (side buy bk) ++ side_ids (side (negb buy) bk)).
Proof.
  unfold consistent, all_ids. destruct buy; simpl; [reflexivity|].
  rewrite (Permutation_app_comm (side_ids (asks_ bk)) (side_ids (bids_ bk))).
  split; intros (H1 & H2 & H3 & H4); (split; [|split; [|split]]);
    try assumption;
    intros id Hid; specialize (H4 id Hid);
    rewrite elem_of_app in *; tauto.
Qed.

Lemma empty_book_consistent : consistent empty_book.
Proof.
  unfold consistent, levels_ok, all_ids. simpl.
  repeat split; try constructor.
  intros id [o Ho]. now rewrite lookup_empty in Ho.
Qed.

Lemma levels_ok_node buy lk s x :
  levels_ok buy lk s -> x ∈ side_ids s ->
  exists e, e ∈ s /\ x ∈ nodes (snd e) /\ node_ok buy lk (fst e) x.
Proof.
  intros [_ Hall] Hx. apply elem_of_side_ids in Hx as (e & He & Hx).
  exists e. repeat split; try assumption.
  rewrite Forall_forall in Hall. destruct (Hall e He) as [_ Hn].
  rewrite Forall_forall in Hn. now apply Hn.
Qed.

(** A node of the index is linked in the level of its price, on its side. *)
Lemma resting_level bk id o :
  consistent bk -> order_lookup_ bk !! id = Some o ->
  exists l,
    find (before_on (is_buy o)) (price o) (side (is_buy o) bk) = Some l /\
    id ∈ nodes l /\ order_id o = id /\ u64 (quantity o) /\ (0 < price o)%Q.
Proof.
  intros Hc Ho.
  apply (consistent_sides (is_buy o)) in Hc as (H1 & H2 & _ & Hcov).
  assert (Hin : is_Some (order_lookup_ bk !! id)) by (rewrite Ho; eauto).
  apply Hcov in Hin. apply elem_of_app in Hin as [Hin|Hin].
  - destruct (levels_ok_node _ _ _ _ H1 Hin) as ([k l] & He & Hx & Hn).
    destruct Hn as (o' & Ho' & Hid & _ & Hk & Hq & Hp). simpl in *.
    assert (o' = o) as -> by congruence.
    exists l. split; [|split; [|split; [|split]]]; try assumption.
    eapply find_elem_of; [typeclasses eauto|apply H1|eassumption|assumption].
  - destruct (levels_ok_node _ _ _ _ H2 Hin) as (e & _ & _ & Hn).
    destruct Hn as (o' & Ho' & _ & Hb & _).
    assert (o' = o) as -> by congruence.
    now destruct (is_buy o).
Qed.

(** The node references of the maps are entries of the index. *)
Lemma linked_is_indexed bk id :
  consistent bk -> id ∈ all_ids bk -> is_Some (order_lookup_ bk !! id).
Proof.
  intros (H1 & H2 & _) Hin. unfold all_ids in Hin.
  apply elem_of_app in Hin as [Hin|Hin].
  - destruct (levels_ok_node _ _ _ _ H1 Hin) as (_ & _ & _ & o & Ho & _). eauto.
  - destruct (levels_ok_node _ _ _ _ H2 Hin) as (_ & _ & _ & o & Ho & _). eauto.
Qed.

(** *** Changes of the index alone *)

Lemma node_ok_mono buy lk lk' k x :
  node_ok buy lk k x ->
  (forall o, lk !! x = Some o ->
     exists o', lk' !! x = Some o' /\ order_id o' = order_id o /\
                is_buy o' = is_buy o /\ price o' = price o /\ u64 (quantity o')) ->
  node_ok buy lk' k x.
Proof.
  intros (o & Ho & H1 & H2 & H3 & H4 & H5) Hstep.
  destruct (Hstep o Ho) as (o' & Ho' & E1 & E2 & E3 & Hq).
  exists o'. rewrite E1, E2, E3. auto 6.
Qed.

Lemma levels_ok_mono buy lk lk' s :
  levels_ok buy lk s ->
  (forall x o, x ∈ side_ids s -> lk !! x = Some o ->
     exists o', lk' !! x = Some o' /\ order_id o' = order_id o /\
                is_buy o' = is_buy o /\ price o' = price o /\ u64 (quantity o')) ->
  levels_ok buy lk' s.
Proof.
  intros [Hord Hall] Hstep. split; [assumption|].
  rewrite Forall_forall in Hall. apply Forall_forall. intros e He.
  destruct (Hall e He) as [Hne Hn]. split; [assumption|].
  rewrite Forall_forall in Hn. apply Forall_forall. intros x Hx.
  eapply node_ok_mono; [now apply Hn|].
  intros o. apply Hstep. apply elem_of_side_ids. eauto.
Qed.

(** The index may change the quantities of its nodes. *)
Lemma consistent_set_lookup bk lk' :
  consistent bk ->
  (forall x o, order_lookup_ bk !! x = Some o ->
     exists o', lk' !! x = Some o' /\ order_id o' = order_id o /\
                is_buy o' = is_buy o /\ price o' = price o /\ u64 (quantity o')) ->
  (forall x, is_Some (lk' !! x) -> is_Some (order_lookup_ bk !! x)) ->
  consistent (set_lookup lk' bk).
Proof.
  intros (H1 & H2 & H3 & H4) Hstep Hdom.
  unfold consistent, all_ids. simpl.
  split; [|split; [|split]]; try assumption.
  - eapply levels_ok_mono; [apply H1|]. intros x o _. apply Hstep.
  - eapply levels_ok_mono; [apply H2|]. intros x o _. apply Hstep.
  - intros id Hid. apply H4, Hdom, Hid.
Qed.

Ltac splits := repeat match goal with |- _ /\ _ => split end.

Ltac book_simpl :=
  rewrite ?side_set_side, ?side_set_side_other, ?lookup_set_side,
    ?side_set_lookup; simpl.

(** *** Changes of the totals alone *)

Lemma consistent_modify_totals buy p f bk :
  consistent bk -> (forall l, nodes (f l) = nodes l) ->
  consistent (set_side buy (modify (before_on buy) p f (side buy bk)) bk).
Proof.
  intros Hc Hf.
  apply (consistent_sides buy) in Hc as ([Hord Hall] & H2 & H3 & H4).
  apply (consistent_sides buy). book_simpl.
  rewrite (side_ids_modify_nodes _ _ _ _ Hf).
  split; [|split; [|split]]; try assumption.
  split; [now apply ordered_modify; try typeclasses eauto|].
  apply (Forall_modify (before_on buy) (level_ok buy (order_lookup_ bk)));
    try assumption; auto.
  intros k0 v _ _ [Hne Hn]. split; simpl in *; now rewrite Hf.
Qed.

(** *** [add_order_to_side] *)

Lemma add_order_to_side_consistent o bk :
  consistent bk -> order_lookup_ bk !! order_id o = None -> u64 (quantity o) ->
  (0 < price o)%Q ->
  consistent (add_order_to_side (is_buy o) o bk).
Proof.
  intros Hc Hfresh Hq Hp.
  pose proof Hc as Hc0.
  apply (consistent_sides (is_buy o)) in Hc as (H1 & H2 & H3 & H4).
  apply (consistent_sides (is_buy o)). unfold add_order_to_side. book_simpl.
  set (lk := order_lookup_ bk) in *.
  set (lk' := <[order_id o := o]> lk).
  assert (Hkeep : forall x o0, lk !! x = Some o0 ->
            exists o', lk' !! x = Some o' /\ order_id o' = order_id o0 /\
              is_buy o' = is_buy o0 /\ price o' = price o0 /\ u64 (quantity o')).
  { intros x o0 Hx. exists o0. unfold lk'.
    rewrite lookup_insert_ne by congruence.
    destruct (resting_level _ _ _ Hc0 Hx) as (_ & _ & _ & _ & Hq0 & _). auto. }
  assert (Hnew : node_ok (is_buy o) lk' (price o) (order_id o)).
  { exists o. unfold lk'. rewrite lookup_insert_eq.
    splits; try apply Hq; try assumption; try reflexivity.
    apply same_key_refl. typeclasses eauto. }
  assert (Hout : order_id o ∉ side_ids (side (is_buy o) bk)
                            ++ side_ids (side (negb (is_buy o)) bk)).
  { intros Hin.
    assert (Hin' : order_id o ∈ all_ids bk).
    { unfold all_ids. destruct (is_buy o); simpl in *; [assumption|].
      rewrite elem_of_app in *. tauto. }
    destruct (linked_is_indexed _ _ Hc0 Hin') as [o0 Ho0].
    fold lk in Ho0. congruence. }
  split; [|split; [|split]].
  - destruct H1 as [Hord Hall]. split.
    + apply ordered_subscript; [typeclasses eauto|assumption].
    + apply (Forall_subscript (before_on (is_buy o)) (level_ok (is_buy o) lk));
        try assumption.
      * intros _. split; simpl; [discriminate|]. constructor; [assumption|constructor].
      * intros k0 v _ Hk [Hne Hn]. split; simpl in *.
        -- destruct (nodes v); discriminate.
        -- apply Forall_app. split.
           ++ eapply Forall_impl; [exact Hn|]. intros x Hx.
              eapply node_ok_mono; [exact Hx|]. apply Hkeep.
           ++ constructor; [|constructor].
              destruct Hnew as (o' & Ho' & E1 & E2 & _ & E4 & E5).
              exists o'. splits; try assumption; try apply E4.
              assert (o' = o) as -> by (unfold lk' in Ho';
                rewrite lookup_insert_eq in Ho'; congruence).
              exact Hk.
      * intros e _ _ [Hne Hn]. split; [assumption|].
        eapply Forall_impl; [exact Hn|]. intros x Hx.
        eapply node_ok_mono; [exact Hx|]. apply Hkeep.
  - eapply levels_ok_mono; [exact H2|]. intros x o0 _. apply Hkeep.
  - rewrite (side_ids_subscript (before_on (is_buy o)) _ _ _ (order_id o))
      by reflexivity.
    simpl. apply NoDup_cons. split; assumption.
  - intros x Hx.
    rewrite (side_ids_subscript (before_on (is_buy o)) _ _ _ (order_id o))
      by reflexivity.
    simpl. destruct (decide (x = order_id o)) as [->|Hne].
    + apply list_elem_of_here.
    + apply list_elem_of_further. apply H4.
      unfold lk' in Hx. now rewrite lookup_insert_ne in Hx by congruence.
Qed.

(** *** [remove_order_from_side] *)

Lemma remove_order_from_side_consistent bk id o :
  consistent bk -> order_lookup_ bk !! id = Some o ->
  exists bk',
    remove_order_from_side (is_buy o) id bk = (true, bk') /\
    consistent bk' /\
    order_lookup_ bk' = delete id (order_lookup_ bk) /\
    side (negb (is_buy o)) bk' = side (negb (is_buy o)) bk /\
    total_trades_ bk' = total_trades_ bk /\
    total_volume_ bk' = total_volume_ bk.
Proof.
  intros Hc Ho.
  destruct (resting_level _ _ _ Hc Ho) as (l & Hfind & Hin & Hid & Hq).
  unfold remove_order_from_side. rewrite Ho, Hfind.
  eexists. split; [reflexivity|].
  split; [|repeat split; destruct (is_buy o); reflexivity].
  pose proof Hc as Hc0.
  apply (consistent_sides (is_buy o)) in Hc as ([Hord Hall] & H2 & H3 & H4).
  set (buy := is_buy o) in *. set (lk := order_lookup_ bk) in *.
  set (s := side buy bk) in *.
  assert (Hswo : StrictWeakOrder (before_on buy)) by typeclasses eauto.
  (* the node is linked in the level of its price only *)
  assert (Hmiss : forall e, e ∈ s ->
            same_key (before_on buy) (price o) (fst e) = false ->
            id ∉ nodes (snd e)).
  { intros e He Hk Hx. rewrite Forall_forall in Hall.
    destruct (Hall e He) as [_ Hn]. rewrite Forall_forall in Hn.
    destruct (Hn id Hx) as (o' & Ho' & _ & _ & Hk' & _).
    assert (o' = o) as -> by congruence. congruence. }
  assert (Hother : id ∉ side_ids (side (negb buy) bk)).
  { intros Hx. apply NoDup_app in H3 as (_ & H3 & _).
    apply (H3 id); [|assumption].
    apply elem_of_side_ids.
    destruct (find_Some_elem _ _ _ _ Hfind) as (k0 & Hk0 & _). eauto. }
  (* the other nodes stay as they are *)
  assert (Hkeep : forall x o0, x ≠ id -> lk !! x = Some o0 ->
            exists o', delete id lk !! x = Some o' /\
              order_id o' = order_id o0 /\ is_buy o' = is_buy o0 /\
              price o' = price o0 /\ u64 (quantity o')).
  { intros x o0 Hne Hx. exists o0. rewrite lookup_delete_ne by congruence.
    destruct (resting_level _ _ _ Hc0 Hx) as (_ & _ & _ & _ & Hq0 & _). auto. }
  assert (Hlevel : forall e, e ∈ s -> id ∉ nodes (snd e) ->
            level_ok buy lk e -> level_ok buy (delete id lk) e).
  { intros e He Hx [Hne Hn]. split; [assumption|].
    rewrite Forall_forall in Hn. apply Forall_forall. intros x Hxe.
    eapply node_ok_mono; [now apply Hn|].
    intros o0. apply Hkeep. intros ->. contradiction. }
  set (s' := match unlink id (nodes l) with
             | [] => erase (before_on buy) (price o) s
             | _ :: _ => modify (before_on buy) (price o) (drop_node id o) s
             end).
  assert (Hids : side_ids s' = unlink id (side_ids s)).
  { unfold s'. destruct (unlink id (nodes l)) eqn:El.
    - eapply side_ids_erase_unlink; eassumption.
    - apply side_ids_modify_unlink; try assumption. reflexivity. }
  assert (Hs' : levels_ok buy (delete id lk) s').
  { unfold s'. destruct (unlink id (nodes l)) eqn:El.
    - split; [now apply ordered_erase|].
      apply (Forall_erase (before_on buy) (level_ok buy lk)); try assumption.
      intros e He Hk. apply Hlevel; [assumption|now apply Hmiss].
    - split; [now apply ordered_modify|].
      apply (Forall_modify (before_on buy) (level_ok buy lk)); try assumption.
      + intros k0 v Hv Hk [Hne Hn].
        assert (v = l) as ->.
        { pose proof (find_elem_of _ _ _ _ _ Hord Hv Hk). congruence. }
        split; simpl; [rewrite El; discriminate|].
        rewrite Forall_forall in Hn. apply Forall_forall. intros x Hx.
        apply elem_of_unlink in Hx as [Hne' Hx].
        eapply node_ok_mono; [now apply Hn|]. intros o0. now apply Hkeep.
      + intros e He Hk. apply Hlevel; [assumption|now apply Hmiss]. }
  apply (consistent_sides buy). fold s'.
  rewrite side_set_lookup.
  assert (E1 : side buy (set_lookup (delete id lk) (set_side buy s' bk)) = s')
    by (rewrite side_set_lookup; apply side_set_side).
  assert (E2 : side (negb buy) (set_lookup (delete id lk) (set_side buy s' bk))
               = side (negb buy) bk)
    by (rewrite side_set_lookup; apply side_set_side_other).
  rewrite side_set_side, E2. simpl.
  split; [exact Hs'|split; [|split]].
  - eapply levels_ok_mono; [exact H2|]. intros x o0 Hx. apply Hkeep.
    intros ->. contradiction.
  - rewrite Hids, <- (unlink_absent id (side_ids (side (negb buy) bk)) Hother).
    rewrite <- unlink_app. apply NoDup_filter, H3.
  - intros x Hx. rewrite Hids.
    rewrite <- (unlink_absent id (side_ids (side (negb buy) bk)) Hother).
    rewrite <- unlink_app. apply elem_of_unlink.
    destruct (decide (x = id)) as [->|Hne].
    + rewrite lookup_delete_eq in Hx. now destruct Hx.
    + split; [assumption|]. apply H4.
      now rewrite lookup_delete_ne in Hx by congruence.
Qed.

(** *** [execute_trade] *)

Lemma wrap64_u64 z : u64 (wrap64 z).
Proof. unfold u64, wrap64, two64. apply Z.mod_pos_bound. lia. Qed.

Lemma wrap64_small z : u64 z -> wrap64 z = z.
Proof. unfold u64, wrap64. intros H. now apply Z.mod_small. Qed.

Lemma size_alter (f : Order -> Order) id (lk : gmap Z Order) :
  size (alter f id lk) = size lk.
Proof.
  rewrite <- !(size_dom (D := gset Z)). now rewrite dom_alter_L.
Qed.

Lemma fill_node_consistent id q bk :
  consistent bk -> consistent (fill_node id q bk).
Proof.
  intros Hc. unfold fill_node. apply consistent_set_lookup; [assumption| |].
  - intros x o Hx. destruct (decide (id = x)) as [->|Hne].
    + rewrite lookup_alter_eq, Hx. simpl. eexists. split; [reflexivity|].
      simpl. repeat split; apply wrap64_u64.
    + rewrite lookup_alter_ne by assumption. exists o.
      destruct (resting_level _ _ _ Hc Hx) as (_ & _ & _ & _ & Hq & _). auto.
  - intros x. now rewrite lookup_alter_is_Some.
Qed.

Lemma fill_level_consistent buy p q bk :
  consistent bk -> consistent (fill_level buy p q bk).
Proof. intros Hc. now apply consistent_modify_totals. Qed.

Lemma remove_if_filled_consistent bk id o :
  consistent bk -> order_lookup_ bk !! id = Some o ->
  exists bk',
    remove_if_filled (is_buy o) id bk = Some bk' /\
    consistent bk' /\
    order_lookup_ bk' =
      (if quantity o =? 0 then delete id (order_lookup_ bk) else order_lookup_ bk).
Proof.
  intros Hc Ho. unfold remove_if_filled. rewrite Ho.
  destruct (quantity o =? 0).
  - destruct (resting_level _ _ _ Hc Ho) as (_ & _ & _ & -> & _).
    destruct (remove_order_from_side_consistent _ _ _ Hc Ho)
      as (bk' & E & Hc' & Hlk & _).
    rewrite E. simpl. eauto.
  - eauto.
Qed.

Lemma execute_trade_unfold buy_order sell_order q bk b s :
  order_lookup_ bk !! buy_order = Some b ->
  order_lookup_ bk !! sell_order = Some s ->
  execute_trade buy_order sell_order q bk =
    match remove_if_filled true buy_order
            (after_fills buy_order sell_order q b s bk) with
    | None => None
    | Some bk5 =>
        match remove_if_filled false sell_order bk5 with
        | None => None
        | Some bk6 => Some (bk6, mkTrade q (fmin (price b) (price s)) b s)
        end
    end.
Proof. intros Hb Hs. unfold execute_trade. now rewrite Hb, Hs. Qed.

Lemma after_fills_consistent bh sh q b s bk :
  consistent bk -> consistent (after_fills bh sh q b s bk).
Proof.
  intros Hc.
  pose proof (fill_level_consistent false (price s) q _
    (fill_level_consistent true (price b) q _
      (fill_node_consistent sh q _
        (fill_node_consistent bh q
           (mkBook (bids_ bk) (asks_ bk) (order_lookup_ bk)
              (wrap64 (total_trades_ bk + 1))
              (wrap64 (total_volume_ bk + q)))
           ltac:(exact Hc))))) as H.
  exact H.
Qed.

Lemma execute_trade_consistent bk bh sh b s q :
  consistent bk ->
  order_lookup_ bk !! bh = Some b -> order_lookup_ bk !! sh = Some s ->
  is_buy b = true -> is_buy s = false ->
  exists bk',
    execute_trade bh sh q bk
      = Some (bk', mkTrade q (fmin (price b) (price s)) b s) /\
    consistent bk' /\
    (forall x, is_Some (order_lookup_ bk' !! x) -> is_Some (order_lookup_ bk !! x)) /\
    (wrap64 (quantity b - q) = 0 \/ wrap64 (quantity s - q) = 0 ->
     (size (order_lookup_ bk') < size (order_lookup_ bk))%nat).
Proof.
  intros Hc Hb Hs Bb Bs.
  assert (Hne : bh ≠ sh) by (intros ->; congruence).
  rewrite (execute_trade_unfold _ _ _ _ _ _ Hb Hs).
  pose proof (after_fills_consistent bh sh q b s bk Hc) as Hc4.
  set (bk4 := after_fills bh sh q b s bk) in *.
  set (fill := fun o => set_quantity (wrap64 (quantity o - q)) o).
  assert (Hb4 : order_lookup_ bk4 !! bh = Some (fill b)).
  { simpl. rewrite lookup_alter_ne by congruence.
    now rewrite lookup_alter_eq, Hb. }
  assert (Hs4 : order_lookup_ bk4 !! sh = Some (fill s)).
  { simpl. rewrite lookup_alter_eq, lookup_alter_ne by congruence.
    now rewrite Hs. }
  destruct (remove_if_filled_consistent _ _ _ Hc4 Hb4) as (bk5 & E5 & Hc5 & L5).
  change (is_buy (fill b)) with (is_buy b) in E5. rewrite Bb in E5. rewrite E5.
  assert (Hs5 : order_lookup_ bk5 !! sh = Some (fill s)).
  { rewrite L5. destruct (quantity (fill b) =? 0); [|assumption].
    now rewrite lookup_delete_ne by congruence. }
  destruct (remove_if_filled_consistent _ _ _ Hc5 Hs5) as (bk6 & E6 & Hc6 & L6).
  change (is_buy (fill s)) with (is_buy s) in E6. rewrite Bs in E6. rewrite E6.
  exists bk6. split; [reflexivity|]. split; [assumption|].
  assert (Hsz4 : size (order_lookup_ bk4) = size (order_lookup_ bk))
    by (simpl; now rewrite !size_alter).
  assert (Hdom4 : forall x, is_Some (order_lookup_ bk4 !! x)
                            -> is_Some (order_lookup_ bk !! x))
    by (intros x; simpl; now rewrite !lookup_alter_is_Some).
  split.
  - intros x. rewrite L6, L5. intros Hx. apply Hdom4.
    destruct (quantity (fill s) =? 0), (quantity (fill b) =? 0);
      repeat (apply lookup_delete_is_Some in Hx as [_ Hx]); assumption.
  - intros Hz. rewrite <- Hsz4, L6.
    assert (Hsz5 : (size (order_lookup_ bk5) <= size (order_lookup_ bk4))%nat).
    { rewrite L5. destruct (quantity (fill b) =? 0); [|lia].
      rewrite map_size_delete, Hb4. lia. }
    assert (Hpos4 : (0 < size (order_lookup_ bk4))%nat).
    { destruct (size (order_lookup_ bk4)) eqn:E; [|lia].
      apply map_size_empty_inv in E. rewrite E, lookup_empty in Hb4.
      discriminate. }
    assert (Hpos5 : (0 < size (order_lookup_ bk5))%nat).
    { destruct (size (order_lookup_ bk5)) eqn:E; [|lia].
      apply map_size_empty_inv in E. rewrite E, lookup_empty in Hs5.
      discriminate. }
    destruct (quantity (fill s) =? 0) eqn:Zs.
    + rewrite map_size_delete, Hs5. lia.
    + destruct Hz as [Hz|Hz].
      * rewrite L5 in *. change (quantity (fill b)) with (wrap64 (quantity b - q)).
        rewrite Hz, Z.eqb_refl. rewrite map_size_delete, Hb4. lia.
      * change (quantity (fill s)) with (wrap64 (quantity s - q)) in Zs.
        rewrite Hz in Zs. discriminate.
Qed.

(** *** The matching loop *)

Lemma match_step_consistent bk :
  consistent bk ->
  match match_step bk with
  | Leave => uncrossed bk
  | Dangling => False
  | Traded bk' t =>
      consistent bk' /\
      (size (order_lookup_ bk') < size (order_lookup_ bk))%nat /\
      (forall x, is_Some (order_lookup_ bk' !! x) ->
                 is_Some (order_lookup_ bk !! x))
  end.
Proof.
  intros Hc. pose proof Hc as ([_ Hb] & [_ Ha] & _).
  unfold match_step, uncrossed, get_best_bid, get_best_ask.
  destruct (bids_ bk) as [|[best_bid bl] bids]; [now left|].
  destruct (asks_ bk) as [|[best_ask al] asks]; [now (right; left)|].
  destruct (Qltb best_bid best_ask) eqn:E.
  { right; right. now apply Qltb_lt. }
  apply Forall_cons in Hb as [[Hbne Hbn] _].
  apply Forall_cons in Ha as [[Hane Han] _]. simpl in *.
  destruct (nodes bl) as [|bh bq]; [congruence|].
  destruct (nodes al) as [|sh sq]; [congruence|].
  apply Forall_cons in Hbn as [(b & Hb & _ & Bb & _) _].
  apply Forall_cons in Han as [(s & Hs & _ & Bs & _) _].
  rewrite Hb, Hs.
  destruct (execute_trade_consistent _ _ _ _ _ (Z.min (quantity b) (quantity s))
              Hc Hb Hs Bb Bs) as (bk' & E' & Hc' & Hdom & Hsz).
  rewrite E'. split; [assumption|]. split; [|assumption].
  apply Hsz. unfold wrap64.
  destruct (Z.min_spec (quantity b) (quantity s)) as [[_ ->]|[_ ->]];
    rewrite Z.sub_diag; auto.
Qed.

Lemma process_matching_loop_total n bk :
  consistent bk -> (size (order_lookup_ bk) < n)%nat ->
  exists bk' ts,
    process_matching_loop n bk = Some (bk', ts) /\
    consistent bk' /\ uncrossed bk' /\
    (forall x, is_Some (order_lookup_ bk' !! x) ->
               is_Some (order_lookup_ bk !! x)).
Proof.
  revert bk. induction n as [|n IH]; intros bk Hc Hn; [lia|].
  simpl. pose proof (match_step_consistent bk Hc) as Hstep.
  destruct (match_step bk) as [| |bk1 t].
  - exists bk, []. auto.
  - contradiction.
  - destruct Hstep as (Hc1 & Hsz & Hdom).
    destruct (IH bk1 Hc1 ltac:(lia)) as (bk' & ts & E & Hc' & Hu & Hdom').
    rewrite E. exists bk', (t :: ts). auto 6.
Qed.

(** The fuel [process_matching] gives the loop is enough. *)
Lemma process_matching_total bk :
  consistent bk ->
  exists bk' ts,
    process_matching bk = Some (bk', ts) /\ consistent bk' /\ uncrossed bk' /\
    (forall x, is_Some (order_lookup_ bk' !! x) ->
               is_Some (order_lookup_ bk !! x)).
Proof.
  intros Hc. apply process_matching_loop_total; [assumption|].
  unfold matching_fuel. lia.
Qed.

(** More fuel does not change what the loop returns. *)
Lemma process_matching_loop_more n m bk r :
  process_matching_loop n bk = Some r -> (n <= m)%nat ->
  process_matching_loop m bk = Some r.
Proof.
  revert m bk r. induction n as [|n IH]; intros m bk r; simpl; [discriminate|].
  intros H Hm. destruct m as [|m]; [lia|]. simpl.
  destruct (match_step bk) as [| |bk1 t]; try assumption.
  destruct (process_matching_loop n bk1) as [[bk2 ts]|] eqn:E; [|discriminate].
  now rewrite (IH m bk1 _ E ltac:(lia)).
Qed.

(** The loop is left only when no turn is possible. *)
Lemma process_matching_loop_leaves n bk bk' ts :
  process_matching_loop n bk = Some (bk', ts) -> match_step bk' = Leave.
Proof.
  revert bk ts. induction n as [|n IH]; intros bk ts; simpl; [discriminate|].
  destruct (match_step bk) as [| |bk1 t] eqn:E.
  - now intros [= <- _].
  - discriminate.
  - destruct (process_matching_loop n bk1) as [[bk2 ts2]|] eqn:E2; [|discriminate].
    intros [= <- _]. eapply IH; eassumption.
Qed.

Lemma process_matching_leaves bk :
  match_step bk = Leave -> process_matching bk = Some (bk, []).
Proof. intros H. unfold process_matching, matching_fuel. simpl. now rewrite H. Qed.

(** Matching twice is matching once. *)
Lemma process_matching_again bk bk' ts :
  process_matching bk = Some (bk', ts) -> process_matching bk' = Some (bk', []).
Proof.
  intros H. apply process_matching_leaves.
  eapply process_matching_loop_leaves. exact H.
Qed.

(** ** The public operations, case by case *)

Lemma add_order_duplicate o m now bk :
  is_Some (order_lookup_ bk !! order_id o) ->
  add_order o m now bk = Some (mkResult (Thrown DuplicateId) bk []).
Proof.
  intros [o' Ho]. unfold add_order, order_exists, mbind, M_bind, get. simpl.
  now rewrite Ho.
Qed.

Lemma add_order_zero_quantity o m now bk :
  order_lookup_ bk !! order_id o = None -> quantity o = 0 ->
  add_order o m now bk = Some (mkResult (Thrown InvalidQuantity) bk []).
Proof.
  intros Ho Hq. unfold add_order, order_exists, mbind, M_bind, get. simpl.
  now rewrite Ho, Hq.
Qed.

Lemma add_order_bad_price o m now bk :
  order_lookup_ bk !! order_id o = None -> quantity o <> 0 ->
  (price o <= 0)%Q ->
  add_order o m now bk = Some (mkResult (Thrown InvalidPrice) bk []).
Proof.
  intros Ho Hq Hp. unfold add_order, order_exists, mbind, M_bind, get. simpl.
  rewrite Ho. apply Z.eqb_neq in Hq. rewrite Hq.
  apply Qle_bool_iff in Hp. now rewrite Hp.
Qed.

Lemma add_order_accepted o m now bk :
  order_lookup_ bk !! order_id o = None -> quantity o <> 0 ->
  (0 < price o)%Q ->
  add_order o m now bk =
    let bk1 := add_order_to_side (is_buy o) (stamp now o) bk in
    if m then
      match process_matching bk1 with
      | None => None
      | Some (bk', ts) => Some (mkResult (Returned tt) bk' ts)
      end
    else Some (mkResult (Returned tt) bk1 []).
Proof.
  intros Ho Hq Hp. unfold add_order, order_exists, mbind, M_bind, get. simpl.
  rewrite Ho. apply Z.eqb_neq in Hq. rewrite Hq.
  destruct (Qle_bool (price o) 0) eqn:E.
  { apply Qle_bool_iff in E. exfalso. revert E. now apply Qlt_not_le. }
  assert (Hb : is_buy (stamp now o) = is_buy o)
    by (unfold stamp; now destruct (timestamp_ns o =? 0)).
  rewrite Hb. unfold update, lift, matching. simpl.
  destruct m; simpl; [|reflexivity].
  destruct (process_matching _) as [[bk' ts]|]; reflexivity.
Qed.

Lemma cancel_order_unknown id bk :
  order_lookup_ bk !! id = None ->
  cancel_order id bk = Some (mkResult (Returned false) bk []).
Proof.
  intros Ho. unfold cancel_order, mbind, M_bind, get. simpl. now rewrite Ho.
Qed.

Lemma cancel_order_known id o bk :
  order_lookup_ bk !! id = Some o ->
  cancel_order id bk =
    Some (mkResult (Returned (fst (remove_order_from_side (is_buy o) id bk)))
            (snd (remove_order_from_side (is_buy o) id bk)) []).
Proof.
  intros Ho. unfold cancel_order, mbind, M_bind, get. simpl. now rewrite Ho.
Qed.

Lemma amend_order_unknown id p q m now bk :
  order_lookup_ bk !! id = None ->
  amend_order id p q m now bk = Some (mkResult (Returned false) bk []).
Proof.
  intros Ho. unfold amend_order, mbind, M_bind, get. simpl. now rewrite Ho.
Qed.

Lemma amend_order_zero_quantity id o p m now bk :
  order_lookup_ bk !! id = Some o ->
  amend_order id p 0 m now bk = Some (mkResult (Thrown InvalidQuantity) bk []).
Proof.
  intros Ho. unfold amend_order, mbind, M_bind, get. simpl. now rewrite Ho.
Qed.

Lemma amend_order_bad_price id o p q m now bk :
  order_lookup_ bk !! id = Some o -> q <> 0 -> (p <= 0)%Q ->
  amend_order id p q m now bk = Some (mkResult (Thrown InvalidPrice) bk []).
Proof.
  intros Ho Hq Hp. unfold amend_order, mbind, M_bind, get. simpl.
  rewrite Ho. apply Z.eqb_neq in Hq. rewrite Hq.
  apply Qle_bool_iff in Hp. now rewrite Hp.
Qed.

Lemma amend_order_in_place id o p q m now bk :
  order_lookup_ bk !! id = Some o -> q <> 0 -> (0 < p)%Q ->
  price_changed (price o) p = false ->
  amend_order id p q m now bk =
    let bk1 := amend_in_place id o q bk in
    if m then
      match process_matching bk1 with
      | None => None
      | Some (bk', ts) => Some (mkResult (Returned true) bk' ts)
      end
    else Some (mkResult (Returned true) bk1 []).
Proof.
  intros Ho Hq Hp Hc. unfold amend_order, mbind, M_bind, get. simpl.
  rewrite Ho. apply Z.eqb_neq in Hq. rewrite Hq.
  destruct (Qle_bool p 0) eqn:E.
  { apply Qle_bool_iff in E. exfalso. revert E. now apply Qlt_not_le. }
  rewrite Hc. unfold update, lift, matching. simpl.
  destruct m; simpl; [|reflexivity].
  destruct (process_matching _) as [[bk' ts]|]; [|reflexivity].
  simpl. now rewrite app_nil_r.
Qed.

Lemma amend_order_reprice id o p q m now bk :
  order_lookup_ bk !! id = Some o -> q <> 0 -> (0 < p)%Q ->
  price_changed (price o) p = true ->
  amend_order id p q m now bk =
    (cancelled ← cancel_order id;
     if negb cancelled then ret false
     else add_order (repriced o p q) m now;;
          (if m then matching else ret tt);;
          ret true) bk.
Proof.
  intros Ho Hq Hp Hc. unfold amend_order at 1. unfold mbind at 1, M_bind at 1, get.
  simpl. rewrite Ho. apply Z.eqb_neq in Hq. rewrite Hq.
  destruct (Qle_bool p 0) eqn:E.
  { apply Qle_bool_iff in E. exfalso. revert E. now apply Qlt_not_le. }
  rewrite Hc.
  match goal with |- match ?x with _ => _ end = _ => now destruct x as [[? ? ?]|] end.
Qed.

(** ** The public operations keep the book consistent *)

Lemma amend_in_place_consistent id o q bk :
  consistent bk -> order_lookup_ bk !! id = Some o -> u64 q ->
  consistent (amend_in_place id o q bk).
Proof.
  intros Hc Ho Hq. unfold amend_in_place.
  apply consistent_set_lookup.
  - now apply consistent_modify_totals.
  - rewrite !lookup_set_side. intros x o0 Hx.
    destruct (decide (id = x)) as [->|Hne].
    + rewrite lookup_insert_eq. eexists. split; [reflexivity|].
      assert (o0 = o) as -> by congruence. simpl. auto.
    + rewrite lookup_insert_ne by assumption. exists o0.
      destruct (resting_level _ _ _ Hc Hx) as (_ & _ & _ & _ & Hq0 & _). auto.
  - rewrite !lookup_set_side. intros x Hx.
    destruct (decide (id = x)) as [->|Hne]; [eauto|].
    now rewrite lookup_insert_ne in Hx by assumption.
Qed.

Lemma cancel_order_consistent id o bk :
  consistent bk -> order_lookup_ bk !! id = Some o ->
  exists bk',
    cancel_order id bk = Some (mkResult (Returned true) bk' []) /\
    remove_order_from_side (is_buy o) id bk = (true, bk') /\
    consistent bk' /\
    order_lookup_ bk' = delete id (order_lookup_ bk) /\
    side (negb (is_buy o)) bk' = side (negb (is_buy o)) bk /\
    total_trades_ bk' = total_trades_ bk /\
    total_volume_ bk' = total_volume_ bk.
Proof.
  intros Hc Ho.
  destruct (remove_order_from_side_consistent _ _ _ Hc Ho) as (bk' & E & H).
  exists bk'. rewrite (cancel_order_known _ _ _ Ho), E. simpl. auto.
Qed.

Lemma stamp_fields now o :
  order_id (stamp now o) = order_id o /\ is_buy (stamp now o) = is_buy o /\
  price (stamp now o) = price o /\ quantity (stamp now o) = quantity o.
Proof. unfold stamp. now destruct (timestamp_ns o =? 0). Qed.

Lemma add_order_consistent o m now bk :
  consistent bk -> u64 (quantity o) ->
  exists r,
    add_order o m now bk = Some r /\ consistent (book r) /\
    (m = true -> uncrossed bk -> uncrossed (book r)) /\
    (m = true -> outcome r = Returned tt -> uncrossed (book r)) /\
    matched_from (book r) (trades r).
Proof.
  intros Hc Hq. unfold matched_from.
  destruct (order_lookup_ bk !! order_id o) as [o'|] eqn:Ho.
  { rewrite add_order_duplicate by eauto. eexists. split; [reflexivity|].
    simpl. splits; auto. discriminate. }
  destruct (Z.eq_dec (quantity o) 0) as [Hz|Hz].
  { rewrite add_order_zero_quantity by assumption.
    eexists. split; [reflexivity|]. simpl. splits; auto. discriminate. }
  destruct (Qlt_le_dec 0 (price o)) as [Hp|Hp].
  2:{ rewrite add_order_bad_price by assumption.
      eexists. split; [reflexivity|]. simpl. splits; auto. discriminate. }
  rewrite add_order_accepted by assumption. cbv zeta.
  destruct (stamp_fields now o) as (E1 & E2 & E3 & E4).
  assert (Hc1 : consistent (add_order_to_side (is_buy o) (stamp now o) bk)).
  { rewrite <- E2. apply add_order_to_side_consistent;
      [assumption|congruence|now rewrite E4|now rewrite E3]. }
  destruct m.
  - destruct (process_matching_total _ Hc1) as (bk' & ts & E & Hc' & Hu & _).
    rewrite E. eexists. split; [reflexivity|]. simpl. eauto 8.
  - eexists. split; [reflexivity|]. simpl. splits; auto; discriminate.
Qed.

Lemma bind_returned {A B} (c : M A) (f : A -> M B) bk a bk1 ts1 :
  c bk = Some (mkResult (Returned a) bk1 ts1) ->
  (c ≫= f) bk =
    match f a bk1 with
    | None => None
    | Some r => Some (mkResult (outcome r) (book r) (ts1 ++ trades r))
    end.
Proof. intros H. unfold mbind, M_bind. now rewrite H. Qed.

(** Taking a node away does not cross the book. *)
Lemma uncrossed_remove buy s' lk' bk :
  ordered (before_on buy) (side buy bk) -> uncrossed bk ->
  (forall k1 v1 rest, s' = (k1, v1) :: rest ->
     exists k0 v0 rest0, side buy bk = (k0, v0) :: rest0 /\
                         (k1 = k0 \/ before_on buy k0 k1 = true)) ->
  uncrossed (set_lookup lk' (set_side buy s' bk)).
Proof.
  intros Hord Hu Hhead. unfold uncrossed, get_best_bid, get_best_ask in *.
  destruct buy; simpl in *.
  - destruct s' as [|[k1 v1] rest]; [now left|].
    destruct (Hhead _ _ _ eq_refl) as (k0 & v0 & rest0 & E & Hk).
    rewrite E in Hu. destruct Hu as [Hu|[Hu|Hu]]; [discriminate|now (right; left)|].
    destruct (asks_ bk) as [|[a va] asks]; [now (right; left)|].
    right; right. destruct Hk as [->|Hk]; [assumption|].
    apply Qltb_lt in Hk. eapply Qlt_trans; eassumption.
  - destruct s' as [|[k1 v1] rest]; [now (right; left)|].
    destruct (Hhead _ _ _ eq_refl) as (k0 & v0 & rest0 & E & Hk).
    rewrite E in Hu. destruct Hu as [Hu|[Hu|Hu]]; [now left|discriminate|].
    destruct (bids_ bk) as [|[b vb] bids]; [now left|].
    right; right. destruct Hk as [->|Hk]; [assumption|].
    apply Qltb_lt in Hk. eapply Qlt_trans; eassumption.
Qed.

Lemma remove_order_from_side_uncrossed bk id o bk' :
  consistent bk -> uncrossed bk ->
  order_lookup_ bk !! id = Some o ->
  remove_order_from_side (is_buy o) id bk = (true, bk') ->
  uncrossed bk'.
Proof.
  intros Hc Hu Ho.
  destruct (resting_level _ _ _ Hc Ho) as (l & Hfind & _).
  unfold remove_order_from_side. rewrite Ho, Hfind. intros [= <-].
  apply (consistent_sides (is_buy o)) in Hc as ([Hord _] & _).
  apply uncrossed_remove; try assumption.
  intros k1 v1 rest. destruct (unlink id (nodes l)).
  - intros E. eapply erase_head; eassumption.
  - intros E. apply modify_head in E as (v0 & rest0 & E). eauto 6.
Qed.

(** What [amend_order] does when the price changes. *)
Lemma amend_order_reprice_result id o p q m now bk :
  consistent bk -> order_lookup_ bk !! id = Some o ->
  u64 q -> q <> 0 -> (0 < p)%Q -> price_changed (price o) p = true ->
  exists bk1 bk2 ts,
    cancel_order id bk = Some (mkResult (Returned true) bk1 []) /\
    consistent bk1 /\ order_lookup_ bk1 !! id = None /\
    add_order (repriced o p q) m now bk1 = Some (mkResult (Returned tt) bk2 ts) /\
    amend_order id p q m now bk = Some (mkResult (Returned true) bk2 ts) /\
    consistent bk2 /\ (m = true -> uncrossed bk2) /\
    (let linked :=
       add_order_to_side (is_buy o) (stamp now (repriced o p q)) bk1 in
     consistent linked /\
     if m then process_matching linked = Some (bk2, ts)
     else bk2 = linked /\ ts = []) /\
    matched_from bk2 ts.
Proof.
  intros Hc Ho Hq Hz Hp Hpc.
  destruct (cancel_order_consistent _ _ _ Hc Ho)
    as (bk1 & Ec & _ & Hc1 & L1 & _).
  destruct (resting_level _ _ _ Hc Ho) as (_ & _ & _ & Hid & _).
  assert (H1 : order_lookup_ bk1 !! order_id (repriced o p q) = None).
  { simpl. rewrite Hid, L1. apply lookup_delete_eq. }
  pose proof (add_order_accepted (repriced o p q) m now bk1 H1 Hz Hp) as Ea.
  cbv zeta in Ea. change (is_buy (repriced o p q)) with (is_buy o) in Ea.
  set (bk2 := add_order_to_side (is_buy o) (stamp now (repriced o p q)) bk1) in *.
  assert (Hc2 : consistent bk2).
  { destruct (stamp_fields now (repriced o p q)) as (E1 & E2 & E3 & E4).
    unfold bk2. change (is_buy o) with (is_buy (repriced o p q)).
    rewrite <- E2. apply add_order_to_side_consistent;
      [assumption|congruence|now rewrite E4|now rewrite E3]. }
  rewrite (amend_order_reprice _ _ _ _ _ _ _ Ho Hz Hp Hpc).
  rewrite (bind_returned _ _ _ _ _ _ Ec).
  change (negb true) with false. cbv iota.
  destruct m.
  - destruct (process_matching_total _ Hc2) as (bk3 & ts & E & Hc3 & Hu & _).
    rewrite E in Ea.
    exists bk1, bk3, ts. rewrite (bind_returned _ _ _ _ _ _ Ea).
    unfold matching at 1. rewrite (bind_returned (B := bool) matching _ bk3 tt bk3 []).
    2:{ unfold matching. now rewrite (process_matching_again _ _ _ E). }
    simpl. rewrite !app_nil_r.
    rewrite L1 in H1. simpl in H1. rewrite Hid in H1. rewrite L1.
    cbv zeta.
    splits; try assumption; try reflexivity; try discriminate; auto.
    right. eauto.
  - exists bk1, bk2, []. rewrite (bind_returned _ _ _ _ _ _ Ea).
    simpl. rewrite L1 in H1. simpl in H1. rewrite Hid in H1. rewrite L1.
    splits; try assumption; try reflexivity; try discriminate; auto.
    now left.
Qed.

Lemma amend_order_consistent id p q m now bk :
  consistent bk -> u64 q ->
  exists r,
    amend_order id p q m now bk = Some r /\ consistent (book r) /\
    (m = true -> uncrossed bk -> uncrossed (book r)) /\
    (m = true -> outcome r = Returned true -> uncrossed (book r)) /\
    matched_from (book r) (trades r).
Proof.
  intros Hc Hq. unfold matched_from.
  destruct (order_lookup_ bk !! id) as [o|] eqn:Ho.
  2:{ rewrite amend_order_unknown by assumption.
      eexists. split; [reflexivity|]. simpl. splits; auto. discriminate. }
  destruct (Z.eq_dec q 0) as [->|Hz].
  { rewrite (amend_order_zero_quantity _ _ _ _ _ _ Ho).
    eexists. split; [reflexivity|]. simpl. splits; auto. discriminate. }
  destruct (Qlt_le_dec 0 p) as [Hp|Hp].
  2:{ rewrite (amend_order_bad_price _ _ _ _ _ _ _ Ho Hz Hp).
      eexists. split; [reflexivity|]. simpl. splits; auto. discriminate. }
  destruct (price_changed (price o) p) eqn:Hpc.
  - destruct (amend_order_reprice_result _ _ _ _ m now _ Hc Ho Hq Hz Hp Hpc)
      as (bk1 & bk2 & ts & _ & _ & _ & _ & E & Hc2 & Hu & _ & Hm).
    rewrite E. eexists. split; [reflexivity|]. simpl. auto.
  - rewrite (amend_order_in_place _ _ _ _ _ _ _ Ho Hz Hp Hpc). cbv zeta.
    pose proof (amend_in_place_consistent _ _ _ _ Hc Ho Hq) as Hc1.
    destruct m.
    + destruct (process_matching_total _ Hc1) as (bk' & ts & E & Hc' & Hu & _).
      rewrite E. eexists. split; [reflexivity|]. simpl. eauto 8.
    + eexists. split; [reflexivity|]. simpl. splits; auto; discriminate.
Qed.

(** Every public call returns or throws on a consistent book, and leaves a
    consistent book; with the matching engine on, it leaves a book that is
    not crossed if it was given one. *)
Lemma apply_op_consistent op bk :
  consistent bk -> op_ok op ->
  exists bk' ts,
    apply_op op bk = Some (bk', ts) /\ consistent bk' /\
    (op_matches op -> uncrossed bk -> uncrossed bk') /\
    matched_from bk' ts.
Proof.
  intros Hc Hok. destruct op as [o m now|id|id p q m now|]; simpl in *.
  - destruct (add_order_consistent o m now bk Hc) as (r & E & Hc' & Hu & _ & Hm);
      [apply Hok|].
    rewrite E. simpl. eauto 6.
  - destruct (order_lookup_ bk !! id) as [o|] eqn:Ho.
    + destruct (cancel_order_consistent _ _ _ Hc Ho) as (bk' & E & Er & Hc' & _).
      rewrite E. simpl. exists bk', []. splits; try assumption; try done.
      * intros _ Hu. exact (remove_order_from_side_uncrossed _ _ _ _ Hc Hu Ho Er).
      * now left.
    + rewrite cancel_order_unknown by assumption. simpl.
      exists bk, []. splits; auto. now left.
  - destruct (amend_order_consistent id p q m now bk Hc)
      as (r & E & Hc' & Hu & _ & Hm); [apply Hok|].
    rewrite E. simpl. eauto 6.
  - unfold match_orders, matching.
    destruct (process_matching_total _ Hc) as (bk' & ts & E & Hc' & Hu & _).
    rewrite E. simpl. exists bk', ts. splits; auto. right. eauto.
Qed.

Lemma reachable_by_consistent P bk : reachable_by P bk -> consistent bk.
Proof.
  induction 1 as [|bk op bk' ts _ IH Hok E _].
  - apply empty_book_consistent.
  - destruct (apply_op_consistent op bk IH Hok) as (bk2 & ts2 & E2 & Hc & _).
    congruence.
Qed.

Lemma run_ops_reachable_by P ops bk bk' ts :
  reachable_by P bk -> ops_ok P ops bk -> run_ops ops bk = Some (bk', ts) ->
  reachable_by P bk'.
Proof.
  revert bk bk' ts. induction ops as [|op ops IH]; intros bk bk' ts Hr; simpl.
  - now intros _ [= <- _].
  - intros [Hok Hstep].
    destruct (apply_op op bk) as [[bk1 ts1]|] eqn:E; [|contradiction].
    destruct Hstep as [HP Hrest].
    destruct (run_ops ops bk1) as [[bk2 ts2]|] eqn:E2; [|discriminate].
    intros [= <- _]. eapply IH; [|exact Hrest|exact E2].
    eapply reach_step; eassumption.
Qed.

Lemma reachable_by_weaken (P Q : Op -> OrderBook -> Prop) bk :
  (forall op bk', P op bk' -> Q op bk') -> reachable_by P bk -> reachable_by Q bk.
Proof.
  intros HPQ. induction 1 as [|bk op bk' ts _ IH Hok E HP].
  - apply reach_empty.
  - eapply reach_step; eauto.
Qed.

(** ** Best prices *)

(** Level keys of a consistent book are positive prices. *)
Lemma best_price_positive buy bk p l rest :
  consistent bk -> side buy bk = (p, l) :: rest -> (0 < p)%Q.
Proof.
  intros Hc E. apply (consistent_sides buy) in Hc as ([_ Hall] & _).
  rewrite E in Hall. apply Forall_cons in Hall as [[Hne Hn] _]. simpl in *.
  destruct (nodes l) as [|x q]; [congruence|].
  apply Forall_cons in Hn as [(o & _ & _ & _ & Hk & _ & Hp) _].
  apply same_key_Qeq in Hk. now rewrite <- Hk.
Qed.

(** ** The trades of the loop *)

Lemma match_step_trade bk bk1 t :
  consistent bk -> match_step bk = Traded bk1 t -> trade_ok t.
Proof.
  intros Hc. pose proof Hc as ([_ Hb] & [_ Ha] & _).
  unfold match_step.
  destruct (bids_ bk) as [|[best_bid bl] bids]; [discriminate|].
  destruct (asks_ bk) as [|[best_ask al] asks]; [discriminate|].
  destruct (Qltb best_bid best_ask) eqn:E; [discriminate|].
  apply Forall_cons in Hb as [[Hbne Hbn] _].
  apply Forall_cons in Ha as [[Hane Han] _]. simpl in *.
  destruct (nodes bl) as [|bh bq]; [discriminate|].
  destruct (nodes al) as [|sh sq]; [discriminate|].
  apply Forall_cons in Hbn as [(b & Hb & _ & Bb & Kb & _) _].
  apply Forall_cons in Han as [(s & Hs & _ & Bs & Ks & _) _].
  rewrite Hb, Hs.
  destruct (execute_trade_consistent _ _ _ _ _ (Z.min (quantity b) (quantity s))
              Hc Hb Hs Bb Bs) as (bk' & E' & _).
  rewrite E'. intros [= _ <-]. unfold trade_ok. simpl.
  apply same_key_Qeq in Kb, Ks. apply Qltb_ge in E.
  assert (Hcross : (price s <= price b)%Q) by (rewrite Kb, Ks; exact E).
  splits; try reflexivity; try assumption.
  unfold fmin. destruct (Qltb (price s) (price b)) eqn:E2; [reflexivity|].
  apply Qltb_ge in E2. now apply Qle_antisym.
Qed.

Lemma process_matching_loop_trades n bk bk' ts :
  consistent bk -> process_matching_loop n bk = Some (bk', ts) ->
  Forall trade_ok ts.
Proof.
  revert bk ts. induction n as [|n IH]; intros bk ts Hc; simpl; [discriminate|].
  pose proof (match_step_consistent bk Hc) as Hstep.
  pose proof (match_step_trade bk) as Ht.
  destruct (match_step bk) as [| |bk1 t].
  - intros [= _ <-]. constructor.
  - contradiction.
  - destruct (process_matching_loop n bk1) as [[bk2 ts2]|] eqn:E; [|discriminate].
    intros [= <- <-]. constructor; [now eapply Ht|].
    eapply IH; [apply Hstep|exact E].
Qed.

(** ** The node references after an insert *)

Lemma all_ids_add_order_to_side buy o bk :
  all_ids (add_order_to_side buy o bk) ≡ₚ order_id o :: all_ids bk.
Proof.
  unfold all_ids, add_order_to_side.
  destruct buy; simpl.
  - rewrite (side_ids_subscript (before_on true) _ _ _ (order_id o))
      by reflexivity.
    reflexivity.
  - rewrite (side_ids_subscript (before_on false) _ _ _ (order_id o))
      by reflexivity.
    symmetry. apply Permutation_middle.
Qed.

(** ** Removals that are refused *)

Lemma remove_order_from_side_refused buy id bk :
  fst (remove_order_from_side buy id bk) = false ->
  snd (remove_order_from_side buy id bk) = bk.
Proof.
  unfold remove_order_from_side.
  destruct (order_lookup_ bk !! id) as [o|]; [|reflexivity].
  destruct (find _ _ _); [discriminate|reflexivity].
Qed.

(** ** Prices that differ, and an example book *)

Lemma not_Qeq_same_key buy (a b : Q) :
  ~ (a == b)%Q -> same_key (before_on buy) a b = false.
Proof.
  intros H. destruct (same_key (before_on buy) a b) eqn:E; [|reflexivity].
  apply same_key_Qeq in E. contradiction.
Qed.

Lemma two_buys_book_reachable : reachable two_buys_book.
Proof.
  eapply (run_ops_reachable_by _ two_buys_ops empty_book);
    [apply reach_empty| |vm_compute; reflexivity].
  vm_compute. repeat split; discriminate.
Defined.

(** ** The update in place *)

Lemma wrap64_add_to_int64 a z : wrap64 (a + to_int64 z) = wrap64 (a + z).
Proof.
  unfold to_int64, wrap64, two64.
  destruct (z mod 2 ^ 64 <? 2 ^ 63).
  - now rewrite Zplus_mod_idemp_r.
  - replace (a + (z mod 2 ^ 64 - 2 ^ 64)) with (a + z mod 2 ^ 64 + (-1) * 2 ^ 64)
      by ring.
    rewrite Z.mod_add by lia. now rewrite Zplus_mod_idemp_r.
Qed.

Lemma to_int64_mod z : to_int64 z mod two64 = z mod two64.
Proof.
  pose proof (wrap64_add_to_int64 0 z) as H. unfold wrap64 in H.
  now rewrite !Z.add_0_l in H.
Qed.

(** The signed difference of [amend_order], added to a total. *)
Lemma wrap64_signed_delta t q q0 :
  wrap64 (t + to_int64 (to_int64 q - to_int64 q0)) = wrap64 (t + (q - q0)).
Proof.
  rewrite wrap64_add_to_int64. unfold wrap64.
  rewrite (Zplus_mod t (to_int64 q - to_int64 q0)).
  rewrite (Zminus_mod (to_int64 q) (to_int64 q0)).
  rewrite !to_int64_mod.
  rewrite <- Zminus_mod. now rewrite <- Zplus_mod.
Qed.

Lemma match_step_uncrossed bk : uncrossed bk -> match_step bk = Leave.
Proof.
  unfold uncrossed, match_step, get_best_bid, get_best_ask.
  destruct (bids_ bk) as [|[b bl] bids]; [reflexivity|].
  destruct (asks_ bk) as [|[a al] asks]; [reflexivity|].
  intros [H|[H|H]]; try discriminate.
  apply Qltb_lt in H. now rewrite H.
Qed.

Lemma queues_modify_totals (before : Q -> Q -> bool) k f
    (s : list (Q * PriceLevelData)) :
  (forall l, nodes (f l) = nodes l) ->
  queues (modify before k f s) = queues s.
Proof.
  intros Hf. induction s as [|[k' l'] s IH]; simpl; [reflexivity|].
  destruct (same_key before k k'); simpl; [now rewrite Hf|now rewrite IH].
Qed.

Lemma uncrossed_queues bk bk' :
  queues (bids_ bk') = queues (bids_ bk) ->
  queues (asks_ bk') = queues (asks_ bk) ->
  uncrossed bk -> uncrossed bk'.
Proof.
  unfold uncrossed, get_best_bid, get_best_ask, queues.
  destruct (bids_ bk) as [|[b bl] bids], (bids_ bk') as [|[b' bl'] bids'];
    simpl; try discriminate; auto.
  destruct (asks_ bk) as [|[a al] asks], (asks_ bk') as [|[a' al'] asks'];
    simpl; try discriminate; auto.
  intros [= -> _ _] [= -> _ _] [H|[H|H]]; try discriminate. auto.
Qed.

Lemma amend_in_place_queues id o q bk buy :
  queues (side buy (amend_in_place id o q bk)) = queues (side buy bk).
Proof.
  unfold amend_in_place. rewrite side_set_lookup.
  destruct buy, (is_buy o); simpl; try reflexivity;
    now apply queues_modify_totals.
Qed.

(** ** The tail of a level *)

Lemma add_order_to_side_tail buy o bk :
  ordered (before_on buy) (side buy bk) ->
  find (before_on buy) (price o) (side buy (add_order_to_side buy o bk))
  = Some (mkLevel
            (wrap64 (total_quantity
                       (default empty_level
                          (find (before_on buy) (price o) (side buy bk)))
                     + quantity o))
            (nodes (default empty_level
                      (find (before_on buy) (price o) (side buy bk)))
             ++ [order_id o])).
Proof.
  intros Hord. unfold add_order_to_side. book_simpl.
  now rewrite find_subscript_hit by (try typeclasses eauto; assumption).
Qed.

(** ** The sums of the quantities *)

Lemma every_level_sides buy P bk :
  every_level P bk <->
  Forall (P (order_lookup_ bk)) (side buy bk) /\
  Forall (P (order_lookup_ bk)) (side (negb buy) bk).
Proof. unfold every_level. destruct buy; simpl; tauto. Qed.

Lemma node_quantity_frame lk lk' x :
  lk' !! x = lk !! x -> node_quantity lk' x = node_quantity lk x.
Proof. intros H. unfold node_quantity. now rewrite H. Qed.

Lemma queue_quantity_frame lk lk' ns :
  (forall x, x ∈ ns -> lk' !! x = lk !! x) ->
  queue_quantity lk' ns = queue_quantity lk ns.
Proof.
  induction ns as [|x ns IH]; intros H; simpl; [reflexivity|].
  rewrite (node_quantity_frame lk lk' x) by (apply H, list_elem_of_here).
  rewrite IH; [reflexivity|]. intros y Hy. apply H. now apply list_elem_of_further.
Qed.

Lemma queue_quantity_app lk a b :
  queue_quantity lk (a ++ b) = queue_quantity lk a + queue_quantity lk b.
Proof. induction a as [|x a IH]; simpl; [reflexivity|]. rewrite IH. ring. Qed.

Lemma queue_quantity_nonneg lk ns :
  (forall x, x ∈ ns -> 0 <= node_quantity lk x) -> 0 <= queue_quantity lk ns.
Proof.
  induction ns as [|x ns IH]; intros H; simpl; [lia|].
  pose proof (H x (list_elem_of_here _ _)).
  assert (0 <= queue_quantity lk ns)
    by (apply IH; intros y Hy; apply H; now apply list_elem_of_further).
  lia.
Qed.

(** The sum over a list when the quantity of one of its nodes changes. *)
Lemma queue_quantity_change lk lk' id ns :
  NoDup ns -> id ∈ ns ->
  (forall x, x ∈ ns -> x ≠ id -> lk' !! x = lk !! x) ->
  queue_quantity lk' ns
  = queue_quantity lk ns - node_quantity lk id + node_quantity lk' id.
Proof.
  induction ns as [|x ns IH]; intros Hnd Hin Hother.
  - now apply elem_of_nil in Hin.
  - apply NoDup_cons in Hnd as [Hx Hnd]. simpl.
    destruct (decide (x = id)) as [->|Hne].
    + rewrite (queue_quantity_frame lk lk' ns); [ring|].
      intros y Hy. apply Hother; [now apply list_elem_of_further|].
      intros ->. contradiction.
    + apply elem_of_cons in Hin as [->|Hin]; [congruence|].
      rewrite IH; try assumption.
      * rewrite (node_quantity_frame lk lk' x)
          by (apply Hother; [apply list_elem_of_here|assumption]).
        ring.
      * intros y Hy. apply Hother. now apply list_elem_of_further.
Qed.

(** The sum over a list when one of its nodes is unlinked. *)
Lemma queue_quantity_unlink lk lk' id ns :
  NoDup ns -> id ∈ ns ->
  (forall x, x ∈ ns -> x ≠ id -> lk' !! x = lk !! x) ->
  queue_quantity lk' (unlink id ns) = queue_quantity lk ns - node_quantity lk id.
Proof.
  induction ns as [|x ns IH]; intros Hnd Hin Hother.
  - now apply elem_of_nil in Hin.
  - apply NoDup_cons in Hnd as [Hx Hnd]. unfold unlink. simpl.
    destruct (decide (x = id)) as [->|Hne].
    + rewrite filter_cons_False by (intros H; now apply H).
      fold (unlink id ns). rewrite unlink_absent by assumption.
      rewrite (queue_quantity_frame lk lk' ns); [ring|].
      intros y Hy. apply Hother; [now apply list_elem_of_further|].
      intros ->. contradiction.
    + rewrite filter_cons_True by assumption. fold (unlink id ns). simpl.
      apply elem_of_cons in Hin as [->|Hin]; [congruence|].
      rewrite IH; try assumption.
      * rewrite (node_quantity_frame lk lk' x)
          by (apply Hother; [apply list_elem_of_here|assumption]).
        ring.
      * intros y Hy. apply Hother. now apply list_elem_of_further.
Qed.

Lemma side_ids_level_NoDup (s : list (Q * PriceLevelData)) e :
  NoDup (side_ids s) -> e ∈ s -> NoDup (nodes (snd e)).
Proof.
  induction s as [|e' s IH]; intros Hnd He.
  - now apply elem_of_nil in He.
  - simpl in Hnd. apply NoDup_app in Hnd as (H1 & _ & H2).
    apply elem_of_cons in He as [->|He]; auto.
Qed.

(** What a consistent book says of a level. *)
Lemma level_facts buy bk e :
  consistent bk -> e ∈ side buy bk ->
  NoDup (nodes (snd e)) /\
  (forall x, x ∈ nodes (snd e) ->
     exists o, order_lookup_ bk !! x = Some o /\ is_buy o = buy /\
               same_key (before_on buy) (price o) (fst e) = true /\
               u64 (quantity o)).
Proof.
  intros Hc He.
  apply (consistent_sides buy) in Hc as ([_ Hall] & _ & Hnd & _). split.
  - apply NoDup_app in Hnd as (Hnd & _). eapply side_ids_level_NoDup; eassumption.
  - intros x Hx. rewrite Forall_forall in Hall.
    destruct (Hall e He) as [_ Hn]. rewrite Forall_forall in Hn.
    destruct (Hn x Hx) as (o & Ho & _ & Hb & Hk & Hq & _). eauto 6.
Qed.

Lemma level_quantity_nonneg buy bk e :
  consistent bk -> e ∈ side buy bk ->
  0 <= queue_quantity (order_lookup_ bk) (nodes (snd e)).
Proof.
  intros Hc He. destruct (level_facts _ _ _ Hc He) as [_ Hn].
  apply queue_quantity_nonneg. intros x Hx.
  destruct (Hn x Hx) as (o & Ho & _ & _ & Hq). unfold node_quantity.
  rewrite Ho. apply Hq.
Qed.

Lemma wrap64_idemp_l a b : wrap64 (wrap64 a + b) = wrap64 (a + b).
Proof. unfold wrap64. apply Zplus_mod_idemp_l. Qed.

Lemma wrap64_idemp_r a b : wrap64 (a + wrap64 b) = wrap64 (a + b).
Proof. unfold wrap64. apply Zplus_mod_idemp_r. Qed.

(** Levels none of whose nodes changes keep their sums. *)
Lemma levels_sum_frame lk lk' (s : list (Q * PriceLevelData)) :
  Forall (level_sum_mod lk) s ->
  (forall y, y ∈ side_ids s -> lk' !! y = lk !! y) ->
  Forall (level_sum_mod lk') s.
Proof.
  intros Hall Hframe. rewrite Forall_forall in Hall. apply Forall_forall.
  intros e He. unfold level_sum_mod. rewrite (queue_quantity_frame lk lk').
  - now apply Hall.
  - intros y Hy. apply Hframe. apply elem_of_side_ids. eauto.
Qed.

(** The levels of the side of a node that does not have its price do not
    link it. *)
Lemma not_in_other_level bk x o e :
  consistent bk -> order_lookup_ bk !! x = Some o ->
  e ∈ side (is_buy o) bk ->
  same_key (before_on (is_buy o)) (price o) (fst e) = false ->
  x ∉ nodes (snd e).
Proof.
  intros Hc Ho He Hk Hx.
  destruct (level_facts _ _ _ Hc He) as [_ Hn].
  destruct (Hn x Hx) as (o' & Ho' & _ & Hk' & _).
  assert (o' = o) as -> by congruence. congruence.
Qed.

(** One node of a side changes in the index and the level of its price is
    updated by [f]: the sums hold again if they do at that level. *)
Lemma one_level_modified bk x o lk' f :
  consistent bk ->
  Forall (level_sum_mod (order_lookup_ bk)) (side (is_buy o) bk) ->
  order_lookup_ bk !! x = Some o ->
  (forall y, y ∈ side_ids (side (is_buy o) bk) -> y ≠ x ->
             lk' !! y = order_lookup_ bk !! y) ->
  (forall l,
     find (before_on (is_buy o)) (price o) (side (is_buy o) bk) = Some l ->
     x ∈ nodes l -> NoDup (nodes l) ->
     total_quantity l = wrap64 (queue_quantity (order_lookup_ bk) (nodes l)) ->
     total_quantity (f l) = wrap64 (queue_quantity lk' (nodes (f l)))) ->
  Forall (level_sum_mod lk')
    (modify (before_on (is_buy o)) (price o) f (side (is_buy o) bk)).
Proof.
  intros Hc Hall Ho Hframe Hf.
  destruct (resting_level _ _ _ Hc Ho) as (l & Hfind & Hin & _).
  pose proof (proj1 (consistent_sides (is_buy o) bk) Hc) as ([Hord _] & _).
  apply (Forall_modify (before_on (is_buy o))
           (level_sum_mod (order_lookup_ bk))); try assumption.
  - intros k0 v Hv Hk Hsum.
    assert (v = l) as ->.
    { assert (StrictWeakOrder (before_on (is_buy o))) by typeclasses eauto.
      pose proof (find_elem_of _ _ _ _ _ Hord Hv Hk). congruence. }
    unfold level_sum_mod. simpl. apply Hf; try assumption.
    apply (level_facts _ _ _ Hc Hv).
  - intros e He Hk Hsum. unfold level_sum_mod in *.
    rewrite (queue_quantity_frame (order_lookup_ bk) lk'); [assumption|].
    intros y Hy. apply Hframe; [apply elem_of_side_ids; eauto|].
    intros ->. revert Hy. eapply not_in_other_level; eassumption.
Qed.

Lemma one_level_erased bk x o lk' :
  consistent bk ->
  Forall (level_sum_mod (order_lookup_ bk)) (side (is_buy o) bk) ->
  order_lookup_ bk !! x = Some o ->
  (forall y, y ∈ side_ids (side (is_buy o) bk) -> y ≠ x ->
             lk' !! y = order_lookup_ bk !! y) ->
  Forall (level_sum_mod lk')
    (erase (before_on (is_buy o)) (price o) (side (is_buy o) bk)).
Proof.
  intros Hc Hall Ho Hframe.
  pose proof (proj1 (consistent_sides (is_buy o) bk) Hc) as ([Hord _] & _).
  apply (Forall_erase (before_on (is_buy o))
           (level_sum_mod (order_lookup_ bk))); try assumption.
  intros e He Hk Hsum. unfold level_sum_mod in *.
    rewrite (queue_quantity_frame (order_lookup_ bk) lk'); [assumption|].
    intros y Hy. apply Hframe; [apply elem_of_side_ids; eauto|].
    intros ->. revert Hy. eapply not_in_other_level; eassumption.
Qed.

(** The nodes of the other side are other nodes. *)
Lemma not_in_other_side bk x o :
  consistent bk -> order_lookup_ bk !! x = Some o ->
  x ∉ side_ids (side (negb (is_buy o)) bk).
Proof.
  intros Hc Ho Hx. apply elem_of_side_ids in Hx as (e & He & Hx).
  destruct (level_facts _ _ _ Hc He) as [_ Hn].
  destruct (Hn x Hx) as (o' & Ho' & Hb & _).
  assert (o' = o) as -> by congruence. now destruct (is_buy o).
Qed.

Lemma add_order_to_side_sums o bk :
  consistent bk -> every_level level_sum_mod bk ->
  order_lookup_ bk !! order_id o = None ->
  every_level level_sum_mod (add_order_to_side (is_buy o) o bk).
Proof.
  intros Hc Hs Hfresh.
  apply (every_level_sides (is_buy o)) in Hs as [Hs1 Hs2].
  apply (every_level_sides (is_buy o)). unfold add_order_to_side. book_simpl.
  set (lk := order_lookup_ bk) in *.
  set (lk' := <[order_id o := o]> lk).
  assert (Hframe : forall buy y, y ∈ side_ids (side buy bk) -> lk' !! y = lk !! y).
  { intros buy y Hy. unfold lk'. apply lookup_insert_ne. intros <-.
    apply elem_of_side_ids in Hy as (e & He & Hy).
    destruct (level_facts _ _ _ Hc He) as [_ Hn].
    destruct (Hn _ Hy) as (o' & Ho' & _). fold lk in Ho'. congruence. }
  assert (Hq : node_quantity lk' (order_id o) = quantity o).
  { unfold node_quantity, lk'. now rewrite lookup_insert_eq. }
  pose proof (proj1 (consistent_sides (is_buy o) bk) Hc) as ([Hord _] & _).
  split.
  - apply (Forall_subscript (before_on (is_buy o)) (level_sum_mod lk));
      try assumption.
    + intros _. unfold level_sum_mod. simpl. rewrite Hq. f_equal. ring.
    + intros k0 v Hv _ Hsum. unfold level_sum_mod in *. simpl in *.
      rewrite queue_quantity_app. simpl. rewrite Hq, Hsum.
      rewrite (queue_quantity_frame lk lk').
      * rewrite wrap64_idemp_l. f_equal. ring.
      * intros y Hy. apply (Hframe (is_buy o)). apply elem_of_side_ids. eauto.
    + intros e He _ Hsum. unfold level_sum_mod in *.
      rewrite (queue_quantity_frame lk lk'); [assumption|].
      intros y Hy. apply (Hframe (is_buy o)). apply elem_of_side_ids. eauto.
  - eapply levels_sum_frame; [exact Hs2|]. apply Hframe.
Qed.

(** The total and the node are both taken [q] from. *)
Lemma filled_level_sum lk lk' x o q l :
  lk !! x = Some o ->
  lk' !! x = Some (set_quantity (wrap64 (quantity o - q)) o) ->
  (forall y, y ∈ nodes l -> y ≠ x -> lk' !! y = lk !! y) ->
  x ∈ nodes l -> NoDup (nodes l) ->
  total_quantity l = wrap64 (queue_quantity lk (nodes l)) ->
  wrap64 (total_quantity l - q) = wrap64 (queue_quantity lk' (nodes l)).
Proof.
  intros Ho Ho' Hframe Hin Hnd Hsum.
  rewrite (queue_quantity_change lk lk' x) by assumption.
  unfold node_quantity. rewrite Ho, Ho'. simpl. rewrite Hsum.
  replace (wrap64 (queue_quantity lk (nodes l)) - q)
    with (wrap64 (queue_quantity lk (nodes l)) + (- q)) by ring.
  rewrite wrap64_idemp_l, wrap64_idemp_r. f_equal. ring.
Qed.

Lemma after_fills_sums bh sh q b s bk :
  consistent bk -> every_level level_sum_mod bk ->
  order_lookup_ bk !! bh = Some b -> order_lookup_ bk !! sh = Some s ->
  is_buy b = true -> is_buy s = false ->
  every_level level_sum_mod (after_fills bh sh q b s bk).
Proof.
  intros Hc [Hs1 Hs2] Hb Hs Bb Bs.
  assert (Hne : bh ≠ sh) by (intros ->; congruence).
  unfold every_level, after_fills. simpl.
  set (lk := order_lookup_ bk) in *.
  set (fill := fun o => set_quantity (wrap64 (quantity o - q)) o).
  set (lk' := alter fill sh (alter fill bh lk)).
  assert (Hb' : lk' !! bh = Some (fill b)).
  { unfold lk'. rewrite lookup_alter_ne by congruence.
    now rewrite lookup_alter_eq, Hb. }
  assert (Hs' : lk' !! sh = Some (fill s)).
  { unfold lk'. rewrite lookup_alter_eq, lookup_alter_ne by congruence.
    now rewrite Hs. }
  assert (Hframe : forall y, y ≠ bh -> y ≠ sh -> lk' !! y = lk !! y).
  { intros y H1 H2. unfold lk'. now rewrite !lookup_alter_ne by congruence. }
  pose proof (not_in_other_side _ _ _ Hc Hb) as Hbo.
  pose proof (not_in_other_side _ _ _ Hc Hs) as Hso.
  rewrite Bb in Hbo. rewrite Bs in Hso. simpl in Hbo, Hso.
  split.
  - pose proof (one_level_modified bk bh b lk'
      (fun l => mkLevel (wrap64 (total_quantity l - q)) (nodes l)) Hc) as H.
    rewrite Bb in H. simpl in H. apply H; try assumption.
    + intros y Hy Hyb. apply Hframe; [assumption|]. intros ->. contradiction.
    + intros l Hfind Hin Hnd Hsum. simpl.
      apply (filled_level_sum lk lk' bh b q l Hb Hb'); try assumption.
      intros y Hy Hyb. apply Hframe; [assumption|]. intros ->.
      apply Hso. apply elem_of_side_ids.
      destruct (find_Some_elem _ _ _ _ Hfind) as (k0 & Hk0 & _). eauto.
  - pose proof (one_level_modified bk sh s lk'
      (fun l => mkLevel (wrap64 (total_quantity l - q)) (nodes l)) Hc) as H.
    rewrite Bs in H. simpl in H. apply H; try assumption.
    + intros y Hy Hys. apply Hframe; [|assumption]. intros ->. contradiction.
    + intros l Hfind Hin Hnd Hsum. simpl.
      apply (filled_level_sum lk lk' sh s q l Hs Hs'); try assumption.
      intros y Hy Hys. apply Hframe; [|assumption]. intros ->.
      apply Hbo. apply elem_of_side_ids.
      destruct (find_Some_elem _ _ _ _ Hfind) as (k0 & Hk0 & _). eauto.
Qed.

(** [remove_order_from_side] keeps the sums when the node has no quantity
    left or the sum of its level fits a [uint64_t]. *)
Lemma remove_order_from_side_sums bk id o l bk' :
  consistent bk -> every_level level_sum_mod bk ->
  order_lookup_ bk !! id = Some o ->
  find (before_on (is_buy o)) (price o) (side (is_buy o) bk) = Some l ->
  quantity o = 0 \/ queue_quantity (order_lookup_ bk) (nodes l) < two64 ->
  remove_order_from_side (is_buy o) id bk = (true, bk') ->
  every_level level_sum_mod bk'.
Proof.
  intros Hc Hs Ho Hfind Hguard E.
  unfold remove_order_from_side in E. rewrite Ho, Hfind in E. injection E as <-.
  apply (every_level_sides (is_buy o)) in Hs as [Hs1 Hs2].
  apply (every_level_sides (is_buy o)).
  rewrite side_set_lookup, side_set_side.
  assert (E2 : side (negb (is_buy o))
                 (set_lookup (delete id (order_lookup_ bk))
                    (set_side (is_buy o)
                       match unlink id (nodes l) with
                       | [] => erase (before_on (is_buy o)) (price o)
                                 (side (is_buy o) bk)
                       | _ :: _ => modify (before_on (is_buy o)) (price o)
                                     (drop_node id o) (side (is_buy o) bk)
                       end bk))
               = side (negb (is_buy o)) bk)
    by (rewrite side_set_lookup; apply side_set_side_other).
  rewrite E2. simpl. clear E2.
  set (lk := order_lookup_ bk) in *.
  assert (Hframe : forall y, y ≠ id -> delete id lk !! y = lk !! y)
    by (intros y Hy; now apply lookup_delete_ne).
  split.
  - destruct (unlink id (nodes l)) eqn:El.
    + apply (one_level_erased bk id o); try assumption. auto.
    + apply (one_level_modified bk id o); try assumption; [auto|].
      intros l' Hfind0 Hin Hnd Hsum. fold lk in Hsum.
      assert (l' = l) as -> by congruence.
      unfold drop_node. simpl.
      destruct (find_Some_elem _ _ _ _ Hfind) as (k0 & Hk0 & _).
      assert (Hun : queue_quantity (delete id lk) (unlink id (nodes l))
                    = queue_quantity lk (nodes l) - quantity o).
      { rewrite (queue_quantity_unlink lk (delete id lk)) by auto.
        unfold node_quantity. fold lk in Ho. now rewrite Ho. }
      assert (Hnn : 0 <= queue_quantity (delete id lk) (unlink id (nodes l))).
      { apply queue_quantity_nonneg. intros x Hx.
        apply elem_of_unlink in Hx as [Hne Hx].
        destruct (level_facts _ _ _ Hc Hk0) as [_ Hn].
        destruct (Hn x Hx) as (o' & Ho' & _ & _ & Hq').
        unfold node_quantity. rewrite Hframe by assumption.
        fold lk in Ho'. rewrite Ho'. apply Hq'. }
      rewrite Hun in *.
      pose proof (wrap64_u64 (queue_quantity lk (nodes l))) as Hw.
      destruct Hguard as [Hz|Hb].
      * rewrite Hz, Hsum.
        destruct (0 <=? wrap64 (queue_quantity lk (nodes l))) eqn:E0.
        -- now rewrite !Z.sub_0_r.
        -- apply Z.leb_gt in E0. unfold u64 in Hw. lia.
      * fold lk in Hb.
        destruct (resting_level _ _ _ Hc Ho) as (_ & _ & _ & _ & Hq & _).
        unfold u64 in Hq.
        assert (Hex : total_quantity l = queue_quantity lk (nodes l))
          by (rewrite Hsum; apply wrap64_small; unfold u64; lia).
        rewrite Hex.
        destruct (quantity o <=? queue_quantity lk (nodes l)) eqn:E0.
        -- symmetry. apply wrap64_small. unfold u64. lia.
        -- apply Z.leb_gt in E0. lia.
  - eapply levels_sum_frame; [exact Hs2|].
    intros y Hy. apply Hframe. intros ->.
    revert Hy. eapply not_in_other_side; eassumption.
Qed.

Lemma amend_in_place_sums id o q bk :
  consistent bk -> every_level level_sum_mod bk ->
  order_lookup_ bk !! id = Some o ->
  every_level level_sum_mod (amend_in_place id o q bk).
Proof.
  intros Hc Hs Ho.
  apply (every_level_sides (is_buy o)) in Hs as [Hs1 Hs2].
  apply (every_level_sides (is_buy o)). unfold amend_in_place.
  rewrite !side_set_lookup, side_set_side, side_set_side_other. simpl.
  rewrite lookup_set_side.
  set (lk := order_lookup_ bk) in *.
  set (lk' := <[id := set_quantity q o]> lk).
  assert (Hframe : forall y, y ≠ id -> lk' !! y = lk !! y)
    by (intros y Hy; unfold lk'; now apply lookup_insert_ne).
  split.
  - apply (one_level_modified bk id o); try assumption; [auto|].
    intros l Hfind Hin Hnd Hsum. simpl. fold lk in Hsum.
    rewrite wrap64_signed_delta.
    rewrite (queue_quantity_change lk lk' id) by auto.
    unfold node_quantity, lk'. fold lk in Ho. rewrite Ho, lookup_insert_eq.
    simpl. rewrite Hsum, wrap64_idemp_l. f_equal. ring.
  - eapply levels_sum_frame; [exact Hs2|].
    intros y Hy. apply Hframe. intros ->.
    revert Hy. eapply not_in_other_side; eassumption.
Qed.

Lemma remove_if_filled_sums bk id o bk' :
  consistent bk -> every_level level_sum_mod bk ->
  order_lookup_ bk !! id = Some o ->
  remove_if_filled (is_buy o) id bk = Some bk' ->
  every_level level_sum_mod bk'.
Proof.
  intros Hc Hs Ho. unfold remove_if_filled. rewrite Ho.
  destruct (quantity o =? 0) eqn:Ez; [|now intros [= <-]].
  apply Z.eqb_eq in Ez.
  destruct (resting_level _ _ _ Hc Ho) as (l & Hfind & _ & -> & _).
  destruct (remove_order_from_side_consistent _ _ _ Hc Ho) as (bk5 & E & _).
  rewrite E. simpl. intros [= <-].
  eapply remove_order_from_side_sums; eauto.
Qed.

(** What a turn of the loop that trades has done. *)
Lemma match_step_traded bk bk1 t :
  consistent bk -> match_step bk = Traded bk1 t ->
  exists best_bid bl bids best_ask al asks bh bq sh sq b s,
    bids_ bk = (best_bid, bl) :: bids /\ asks_ bk = (best_ask, al) :: asks /\
    nodes bl = bh :: bq /\ nodes al = sh :: sq /\
    order_lookup_ bk !! bh = Some b /\ order_lookup_ bk !! sh = Some s /\
    is_buy b = true /\ is_buy s = false /\
    execute_trade bh sh (Z.min (quantity b) (quantity s)) bk = Some (bk1, t) /\
    t = mkTrade (Z.min (quantity b) (quantity s)) (fmin (price b) (price s)) b s.
Proof.
  intros Hc. pose proof Hc as ([_ Hb] & [_ Ha] & _).
  unfold match_step.
  destruct (bids_ bk) as [|[best_bid bl] bids]; [discriminate|].
  destruct (asks_ bk) as [|[best_ask al] asks]; [discriminate|].
  destruct (Qltb best_bid best_ask) eqn:E; [discriminate|].
  apply Forall_cons in Hb as [[Hbne Hbn] _].
  apply Forall_cons in Ha as [[Hane Han] _]. simpl in *.
  destruct (nodes bl) as [|bh bq] eqn:Ebl; [discriminate|].
  destruct (nodes al) as [|sh sq] eqn:Eal; [discriminate|].
  apply Forall_cons in Hbn as [(b & Hb & _ & Bb & _) _].
  apply Forall_cons in Han as [(s & Hs & _ & Bs & _) _].
  rewrite Hb, Hs.
  destruct (execute_trade_consistent _ _ _ _ _ (Z.min (quantity b) (quantity s))
              Hc Hb Hs Bb Bs) as (bk' & E' & _).
  rewrite E'. intros [= <- <-].
  exists best_bid, bl, bids, best_ask, al, asks, bh, bq, sh, sq, b, s.
  splits; auto.
Qed.

Lemma execute_trade_sums bk bh sh b s q bk' t :
  consistent bk -> every_level level_sum_mod bk ->
  order_lookup_ bk !! bh = Some b -> order_lookup_ bk !! sh = Some s ->
  is_buy b = true -> is_buy s = false ->
  execute_trade bh sh q bk = Some (bk', t) ->
  every_level level_sum_mod bk'.
Proof.
  intros Hc Hsum Hb Hs Bb Bs.
  assert (Hne : bh ≠ sh) by (intros ->; congruence).
  rewrite (execute_trade_unfold _ _ _ _ _ _ Hb Hs).
  pose proof (after_fills_consistent bh sh q b s bk Hc) as Hc4.
  pose proof (after_fills_sums bh sh q b s bk Hc Hsum Hb Hs Bb Bs) as Hs4.
  set (bk4 := after_fills bh sh q b s bk) in *.
  set (fill := fun o => set_quantity (wrap64 (quantity o - q)) o).
  assert (Hb4 : order_lookup_ bk4 !! bh = Some (fill b)).
  { simpl. rewrite lookup_alter_ne by congruence.
    now rewrite lookup_alter_eq, Hb. }
  assert (Hs4' : order_lookup_ bk4 !! sh = Some (fill s)).
  { simpl. rewrite lookup_alter_eq, lookup_alter_ne by congruence.
    now rewrite Hs. }
  destruct (remove_if_filled_consistent _ _ _ Hc4 Hb4) as (bk5 & E5 & Hc5 & L5).
  pose proof (remove_if_filled_sums _ _ _ _ Hc4 Hs4 Hb4 E5) as Hs5.
  change (is_buy (fill b)) with (is_buy b) in E5. rewrite Bb in E5. rewrite E5.
  assert (Hs5' : order_lookup_ bk5 !! sh = Some (fill s)).
  { rewrite L5. destruct (quantity (fill b) =? 0); [|assumption].
    now rewrite lookup_delete_ne by congruence. }
  destruct (remove_if_filled_consistent _ _ _ Hc5 Hs5') as (bk6 & E6 & Hc6 & L6).
  pose proof (remove_if_filled_sums _ _ _ _ Hc5 Hs5 Hs5' E6) as Hs6.
  change (is_buy (fill s)) with (is_buy s) in E6. rewrite Bs in E6. rewrite E6.
  now intros [= <- _].
Qed.

Lemma process_matching_loop_sums n bk bk' ts :
  consistent bk -> every_level level_sum_mod bk ->
  process_matching_loop n bk = Some (bk', ts) ->
  every_level level_sum_mod bk'.
Proof.
  revert bk ts. induction n as [|n IH]; intros bk ts Hc Hs; simpl; [discriminate|].
  pose proof (match_step_consistent bk Hc) as Hstep.
  pose proof (match_step_traded bk) as Ht.
  destruct (match_step bk) as [| |bk1 t].
  - now intros [= <- _].
  - contradiction.
  - destruct (Ht bk1 t Hc eq_refl)
      as (? & ? & ? & ? & ? & ? & bh & ? & sh & ? & b & s & _ & _ & _ & _
          & Hb & Hs' & Bb & Bs & E & _).
    pose proof (execute_trade_sums _ _ _ _ _ _ _ _ Hc Hs Hb Hs' Bb Bs E) as Hs1.
    destruct (process_matching_loop n bk1) as [[bk2 ts2]|] eqn:E2; [|discriminate].
    intros [= <- _]. eapply IH; [apply Hstep|exact Hs1|exact E2].
Qed.

Lemma cancel_order_sums id o bk bk' :
  consistent bk -> every_level level_sum_mod bk -> every_level level_bounded bk ->
  order_lookup_ bk !! id = Some o ->
  remove_order_from_side (is_buy o) id bk = (true, bk') ->
  every_level level_sum_mod bk'.
Proof.
  intros Hc Hs Hb Ho E.
  destruct (resting_level _ _ _ Hc Ho) as (l & Hfind & _).
  eapply remove_order_from_side_sums; try eassumption.
  right. destruct (find_Some_elem _ _ _ _ Hfind) as (k0 & Hk0 & _).
  apply (every_level_sides (is_buy o)) in Hb as [Hb _].
  rewrite Forall_forall in Hb. exact (Hb _ Hk0).
Qed.

Lemma apply_op_sums op bk bk' ts :
  consistent bk -> every_level level_sum_mod bk -> every_level level_bounded bk ->
  op_ok op -> apply_op op bk = Some (bk', ts) ->
  every_level level_sum_mod bk'.
Proof.
  intros Hc Hs Hb Hok. destruct op as [o m now|id|id p q m now|]; simpl in *.
  - destruct (order_lookup_ bk !! order_id o) as [o'|] eqn:Ho.
    { rewrite add_order_duplicate by eauto. now intros [= <- _]. }
    destruct (Z.eq_dec (quantity o) 0) as [Hz|Hz].
    { rewrite add_order_zero_quantity by assumption. now intros [= <- _]. }
    destruct (Qlt_le_dec 0 (price o)) as [Hp|Hp].
    2:{ rewrite add_order_bad_price by assumption. now intros [= <- _]. }
    rewrite add_order_accepted by assumption. cbv zeta.
    destruct (stamp_fields now o) as (E1 & E2 & E3 & E4).
    assert (Hc1 : consistent (add_order_to_side (is_buy o) (stamp now o) bk)).
    { rewrite <- E2. apply add_order_to_side_consistent;
        [assumption|congruence|rewrite E4; apply Hok|now rewrite E3]. }
    assert (Hs1 : every_level level_sum_mod
                    (add_order_to_side (is_buy o) (stamp now o) bk)).
    { rewrite <- E2. apply add_order_to_side_sums; [assumption..|congruence]. }
    destruct m.
    + destruct (process_matching _) as [[bk2 ts2]|] eqn:E; [|discriminate].
      simpl. intros [= <- _].
      exact (process_matching_loop_sums _ _ _ _ Hc1 Hs1 E).
    + simpl. now intros [= <- _].
  - destruct (order_lookup_ bk !! id) as [o|] eqn:Ho.
    + destruct (cancel_order_consistent _ _ _ Hc Ho) as (bk1 & E & Er & _).
      rewrite E. simpl. intros [= <- _].
      exact (cancel_order_sums _ _ _ _ Hc Hs Hb Ho Er).
    + rewrite cancel_order_unknown by assumption. simpl. now intros [= <- _].
  - destruct Hok as (_ & Hq & _).
    destruct (order_lookup_ bk !! id) as [o|] eqn:Ho.
    2:{ rewrite amend_order_unknown by assumption. now intros [= <- _]. }
    destruct (Z.eq_dec q 0) as [->|Hz].
    { rewrite (amend_order_zero_quantity _ _ _ _ _ _ Ho). now intros [= <- _]. }
    destruct (Qlt_le_dec 0 p) as [Hp|Hp].
    2:{ rewrite (amend_order_bad_price _ _ _ _ _ _ _ Ho Hz Hp).
        now intros [= <- _]. }
    destruct (price_changed (price o) p) eqn:Hpc.
    + destruct (amend_order_reprice_result _ _ _ _ m now _ Hc Ho Hq Hz Hp Hpc)
        as (bk1 & bk2 & ts2 & Ec & Hc1 & L1 & _ & E & _ & _ & [Hcl Hl] & _).
      rewrite E. simpl. intros [= <- _].
      destruct (cancel_order_consistent _ _ _ Hc Ho) as (bk1' & Ec' & Er & _).
      assert (bk1' = bk1) as -> by congruence.
      pose proof (cancel_order_sums _ _ _ _ Hc Hs Hb Ho Er) as Hs1.
      destruct (stamp_fields now (repriced o p q)) as (E1 & E2 & E3 & E4).
      destruct (resting_level _ _ _ Hc Ho) as (_ & _ & _ & Hid & _).
      assert (Hsl : every_level level_sum_mod
                (add_order_to_side (is_buy o) (stamp now (repriced o p q)) bk1)).
      { change (is_buy o) with (is_buy (repriced o p q)). rewrite <- E2.
        apply add_order_to_side_sums; try assumption.
        rewrite E1. simpl. now rewrite Hid. }
      destruct m.
      * exact (process_matching_loop_sums _ _ _ _ Hcl Hsl Hl).
      * destruct Hl as [-> _]. exact Hsl.
    + rewrite (amend_order_in_place _ _ _ _ _ _ _ Ho Hz Hp Hpc). cbv zeta.
      pose proof (amend_in_place_consistent _ _ _ _ Hc Ho Hq) as Hc1.
      pose proof (amend_in_place_sums id o q bk Hc Hs Ho) as Hs1.
      destruct m.
      * destruct (process_matching _) as [[bk2 ts2]|] eqn:E; [|discriminate].
        simpl. intros [= <- _].
        exact (process_matching_loop_sums _ _ _ _ Hc1 Hs1 E).
      * simpl. now intros [= <- _].
  - unfold match_orders, matching.
    destruct (process_matching bk) as [[bk2 ts2]|] eqn:E; [|discriminate].
    simpl. intros [= <- _].
    exact (process_matching_loop_sums _ _ _ _ Hc Hs E).
Qed.

Lemma sums_mod_bounded_exact bk :
  consistent bk -> every_level level_sum_mod bk -> every_level level_bounded bk ->
  every_level level_sum_exact bk.
Proof.
  intros Hc [Hs1 Hs2] [Hb1 Hb2]. unfold every_level.
  rewrite !Forall_forall in *.
  split; intros e He; unfold level_sum_exact.
  - rewrite (Hs1 e He). apply wrap64_small. split.
    + exact (level_quantity_nonneg true bk e Hc He).
    + exact (Hb1 e He).
  - rewrite (Hs2 e He). apply wrap64_small. split.
    + exact (level_quantity_nonneg false bk e Hc He).
    + exact (Hb2 e He).
Qed.

(** ** Nodes ahead of others *)

Section OrderedMapElements.
Context {K V : Type} (before : K -> K -> bool).
Implicit Types (k : K) (v : V) (m : list (K * V)) (f : V -> V).

Lemma elem_of_modify k f m e :
  e ∈ m -> e ∈ modify before k f m \/ (fst e, f (snd e)) ∈ modify before k f m.
Proof.
  induction m as [|[k' v'] m IH]; intros He.
  - now apply elem_of_nil in He.
  - simpl. apply elem_of_cons in He as [->|He].
    + destruct (same_key before k k'); simpl.
      * right. apply list_elem_of_here.
      * left. apply list_elem_of_here.
    + destruct (same_key before k k').
      * left. now apply list_elem_of_further.
      * destruct (IH He) as [H|H]; [left|right]; now apply list_elem_of_further.
Qed.

Lemma elem_of_erase k m e :
  e ∈ m -> e ∈ erase before k m \/ find before k m = Some (snd e).
Proof.
  induction m as [|[k' v'] m IH]; intros He.
  - now apply elem_of_nil in He.
  - simpl. apply elem_of_cons in He as [->|He].
    + destruct (same_key before k k'); simpl.
      * now right.
      * left. apply list_elem_of_here.
    + destruct (same_key before k k').
      * now left.
      * destruct (IH He) as [H|H]; [left|now right].
        now apply list_elem_of_further.
Qed.
End OrderedMapElements.

Lemma unlink_keeps_order id a y b x c :
  id ≠ y -> id ≠ x ->
  unlink id (a ++ y :: b ++ x :: c)
  = unlink id a ++ y :: unlink id b ++ x :: unlink id c.
Proof.
  intros Hy Hx. unfold unlink.
  rewrite filter_app, filter_cons_True by congruence.
  rewrite filter_app, filter_cons_True by congruence. reflexivity.
Qed.

Lemma ahead_sides bk bk' y x :
  (forall buy e, e ∈ side buy bk ->
     exists e', e' ∈ side buy bk' /\ nodes (snd e') = nodes (snd e)) ->
  ahead bk y x -> ahead bk' y x.
Proof.
  intros H (buy & e & a & b & c & He & Hn).
  destruct (H buy e He) as (e' & He' & Hn').
  exists buy, e', a, b, c. split; [assumption|congruence].
Qed.

Lemma ahead_after_fills bh sh q b s bk y x :
  ahead bk y x -> ahead (after_fills bh sh q b s bk) y x.
Proof.
  apply ahead_sides. intros buy e He.
  destruct buy; simpl in *.
  - destruct (elem_of_modify (before_on true) (price b)
      (fun l => mkLevel (wrap64 (total_quantity l - q)) (nodes l)) _ e He)
      as [H|H]; eauto.
  - destruct (elem_of_modify (before_on false) (price s)
      (fun l => mkLevel (wrap64 (total_quantity l - q)) (nodes l)) _ e He)
      as [H|H]; eauto.
Qed.

(** Unlinking a node leaves the nodes behind one another as they were. *)
Lemma ahead_remove bk z o bk' y x :
  consistent bk -> order_lookup_ bk !! z = Some o ->
  remove_order_from_side (is_buy o) z bk = (true, bk') ->
  ahead bk y x -> z ≠ x -> z ≠ y -> ahead bk' y x.
Proof.
  intros Hc Ho E (buy & e & a & b & c & He & Hn) Hzx Hzy.
  destruct (resting_level _ _ _ Hc Ho) as (l & Hfind & _).
  unfold remove_order_from_side in E. rewrite Ho, Hfind in E. injection E as <-.
  destruct (Bool.bool_dec buy (is_buy o)) as [->|Hb].
  - destruct (unlink z (nodes l)) eqn:El.
    + destruct (elem_of_erase (before_on (is_buy o)) (price o) _ e He) as [H|H].
      * exists (is_buy o), e, a, b, c.
        now rewrite side_set_lookup, side_set_side.
      * exfalso. assert (snd e = l) as Hl by congruence.
        assert (Hx : x ∈ unlink z (nodes l)).
        { apply elem_of_unlink. split; [congruence|].
          rewrite <- Hl, Hn. rewrite elem_of_app, elem_of_cons, elem_of_app,
            elem_of_cons. auto. }
        rewrite El in Hx. now apply elem_of_nil in Hx.
    + destruct (elem_of_modify (before_on (is_buy o)) (price o)
                  (drop_node z o) _ e He) as [H|H].
      * exists (is_buy o), e, a, b, c.
        now rewrite side_set_lookup, side_set_side.
      * exists (is_buy o), (fst e, drop_node z o (snd e)),
          (unlink z a), (unlink z b), (unlink z c).
        rewrite side_set_lookup, side_set_side. split; [assumption|].
        simpl. rewrite Hn. now apply unlink_keeps_order.
  - exists buy, e, a, b, c. split; [|assumption].
    rewrite side_set_lookup.
    assert (buy = negb (is_buy o)) as ->.
    { clear -Hb. destruct buy, (is_buy o); simpl; congruence. }
    now rewrite side_set_side_other.
Qed.

Lemma ahead_remove_if_filled bk z o bk' y x :
  consistent bk -> order_lookup_ bk !! z = Some o ->
  remove_if_filled (is_buy o) z bk = Some bk' ->
  ahead bk y x -> z ≠ x ->
  ahead bk' y x \/ order_lookup_ bk' !! y = None.
Proof.
  intros Hc Ho E Ha Hzx.
  destruct (remove_if_filled_consistent _ _ _ Hc Ho) as (bk5 & E5 & _ & L5).
  assert (bk5 = bk') as -> by congruence.
  unfold remove_if_filled in E. rewrite Ho in E.
  destruct (quantity o =? 0); [|injection E as <-; now left].
  destruct (decide (z = y)) as [->|Hzy].
  - right. rewrite L5. apply lookup_delete_eq.
  - left. destruct (resting_level _ _ _ Hc Ho) as (_ & _ & _ & Hid & _).
    rewrite Hid in E.
    destruct (remove_order_from_side_consistent _ _ _ Hc Ho) as (bk6 & E6 & _).
    rewrite E6 in E. simpl in E. injection E as <-.
    eapply ahead_remove; eassumption.
Qed.

(** A node that has a node ahead of it is not the head of a level. *)
Lemma head_has_none_ahead bk y x buy e q :
  consistent bk -> ahead bk y x ->
  e ∈ side buy bk -> nodes (snd e) = x :: q -> False.
Proof.
  intros Hc (buy' & e' & a & b & c & He' & Hn') He Hn.
  destruct (level_facts _ _ _ Hc He) as [Hnd Hf].
  destruct (level_facts _ _ _ Hc He') as [Hnd' Hf'].
  destruct (Hf x) as (o & Ho & Hb & Hk & _).
  { rewrite Hn. apply list_elem_of_here. }
  destruct (Hf' x) as (o' & Ho' & Hb' & Hk' & _).
  { rewrite Hn'. rewrite elem_of_app, elem_of_cons, elem_of_app, elem_of_cons.
    auto. }
  assert (o' = o) as -> by congruence.
  assert (buy' = buy) as -> by congruence.
  pose proof (proj1 (consistent_sides buy bk) Hc) as ([Hord _] & _).
  assert (Hswo : StrictWeakOrder (before_on buy)) by typeclasses eauto.
  destruct e as [k l], e' as [k' l']. simpl in *.
  pose proof (find_elem_of _ _ _ _ _ Hord He Hk) as F1.
  pose proof (find_elem_of _ _ _ _ _ Hord He' Hk') as F2.
  assert (l' = l) as -> by congruence.
  rewrite Hn' in Hn. rewrite Hn' in Hnd.
  destruct a as [|a0 a]; simpl in Hn; injection Hn as -> _.
  - apply NoDup_cons in Hnd as [Hnd _]. apply Hnd.
    rewrite elem_of_app, elem_of_cons. auto.
  - apply NoDup_cons in Hnd as [Hnd _]. apply Hnd.
    rewrite elem_of_app, elem_of_cons, elem_of_app, elem_of_cons. auto.
Qed.

(** The steps of [execute_trade] on a consistent book. *)
Lemma execute_trade_chain bk bh sh b s q bk' t :
  consistent bk ->
  order_lookup_ bk !! bh = Some b -> order_lookup_ bk !! sh = Some s ->
  is_buy b = true -> is_buy s = false ->
  execute_trade bh sh q bk = Some (bk', t) ->
  let fill := fun o => set_quantity (wrap64 (quantity o - q)) o in
  let bk4 := after_fills bh sh q b s bk in
  exists bk5,
    consistent bk4 /\ order_lookup_ bk4 !! bh = Some (fill b) /\
    remove_if_filled (is_buy (fill b)) bh bk4 = Some bk5 /\
    consistent bk5 /\ order_lookup_ bk5 !! sh = Some (fill s) /\
    remove_if_filled (is_buy (fill s)) sh bk5 = Some bk' /\
    order_lookup_ bk'
      = (if quantity (fill s) =? 0 then delete sh (order_lookup_ bk5)
         else order_lookup_ bk5).
Proof.
  intros Hc Hb Hs Bb Bs E fill bk4.
  assert (Hne : bh ≠ sh) by (intros ->; congruence).
  rewrite (execute_trade_unfold _ _ _ _ _ _ Hb Hs) in E.
  pose proof (after_fills_consistent bh sh q b s bk Hc) as Hc4.
  fold bk4 in E, Hc4.
  assert (Hb4 : order_lookup_ bk4 !! bh = Some (fill b)).
  { simpl. rewrite lookup_alter_ne by congruence.
    now rewrite lookup_alter_eq, Hb. }
  assert (Hs4 : order_lookup_ bk4 !! sh = Some (fill s)).
  { simpl. rewrite lookup_alter_eq, lookup_alter_ne by congruence.
    now rewrite Hs. }
  destruct (remove_if_filled_consistent _ _ _ Hc4 Hb4) as (bk5 & E5 & Hc5 & L5).
  assert (Hs5 : order_lookup_ bk5 !! sh = Some (fill s)).
  { rewrite L5. destruct (quantity (fill b) =? 0); [|assumption].
    now rewrite lookup_delete_ne by congruence. }
  destruct (remove_if_filled_consistent _ _ _ Hc5 Hs5) as (bk6 & E6 & Hc6 & L6).
  exists bk5. splits; try assumption.
  - change (is_buy (fill b)) with (is_buy b) in E5 |- *.
    change (is_buy (fill s)) with (is_buy s) in E6.
    rewrite Bb in E5. rewrite Bs in E6. rewrite E5, E6 in E.
    injection E as <- _. change (is_buy (fill s)) with (is_buy s).
    now rewrite Bs.
  - change (is_buy (fill b)) with (is_buy b) in E5.
    change (is_buy (fill s)) with (is_buy s) in E6.
    rewrite Bb in E5. rewrite Bs in E6. rewrite E5, E6 in E.
    now injection E as <- _.
Qed.

(** In a turn of the loop, a node with a node ahead of it does not trade, and
    it still has that node ahead of it afterwards unless that node is gone. *)
Lemma match_step_fifo bk bk1 t y x :
  consistent bk -> match_step bk = Traded bk1 t -> ahead bk y x ->
  ~ involves t x /\ (ahead bk1 y x \/ order_lookup_ bk1 !! y = None).
Proof.
  intros Hc Hstep Ha.
  destruct (match_step_traded _ _ _ Hc Hstep)
    as (best_bid & bl & bids & best_ask & al & asks & bh & bq & sh & sq & b & s
        & Eb & Ea & Nb & Na & Hb & Hs & Bb & Bs & E & ->).
  destruct (resting_level _ _ _ Hc Hb) as (_ & _ & _ & Ib & _).
  destruct (resting_level _ _ _ Hc Hs) as (_ & _ & _ & Is & _).
  assert (Hxb : bh ≠ x).
  { intros ->. apply (head_has_none_ahead bk y x true (best_bid, bl) bq Hc Ha);
      [|assumption].
    simpl. rewrite Eb. apply list_elem_of_here. }
  assert (Hxs : sh ≠ x).
  { intros ->. apply (head_has_none_ahead bk y x false (best_ask, al) sq Hc Ha);
      [|assumption].
    simpl. rewrite Ea. apply list_elem_of_here. }
  split.
  { unfold involves. simpl. rewrite Ib, Is. tauto. }
  destruct (execute_trade_chain _ _ _ _ _ _ _ _ Hc Hb Hs Bb Bs E)
    as (bk5 & Hc4 & Hb4 & E5 & Hc5 & Hs5 & E6 & L6).
  pose proof (ahead_after_fills bh sh (Z.min (quantity b) (quantity s)) b s
                bk y x Ha) as Ha4.
  destruct (ahead_remove_if_filled _ _ _ _ _ _ Hc4 Hb4 E5 Ha4 Hxb) as [Ha5|Hn5].
  - exact (ahead_remove_if_filled _ _ _ _ _ _ Hc5 Hs5 E6 Ha5 Hxs).
  - right. rewrite L6. destruct (_ =? 0); [|assumption].
    apply lookup_delete_None. now right.
Qed.

(** An order that is gone does not trade again. *)
Lemma process_matching_loop_gone n bk bk' ts y :
  consistent bk -> order_lookup_ bk !! y = None ->
  process_matching_loop n bk = Some (bk', ts) ->
  Forall (fun t => ~ involves t y) ts.
Proof.
  revert bk ts. induction n as [|n IH]; intros bk ts Hc Hy; simpl; [discriminate|].
  pose proof (match_step_consistent bk Hc) as Hstep.
  pose proof (match_step_traded bk) as Ht.
  destruct (match_step bk) as [| |bk1 t].
  - intros [= _ <-]. constructor.
  - contradiction.
  - destruct (Ht bk1 t Hc eq_refl)
      as (? & ? & ? & ? & ? & ? & bh & ? & sh & ? & b & s & _ & _ & _ & _
          & Hb & Hs & _ & _ & _ & ->).
    destruct (resting_level _ _ _ Hc Hb) as (_ & _ & _ & Ib & _).
    destruct (resting_level _ _ _ Hc Hs) as (_ & _ & _ & Is & _).
    destruct Hstep as (Hc1 & _ & Hdom).
    destruct (process_matching_loop n bk1) as [[bk2 ts2]|] eqn:E2; [|discriminate].
    intros [= <- <-]. constructor.
    + unfold involves. simpl. rewrite Ib, Is. intros [->| ->]; congruence.
    + eapply IH; [exact Hc1| |exact E2].
      destruct (order_lookup_ bk1 !! y) eqn:Ey; [|reflexivity].
      destruct (Hdom y) as [o' Ho']; [eauto|congruence].
Qed.

Lemma process_matching_loop_fifo n bk bk' ts y x :
  consistent bk -> ahead bk y x ->
  process_matching_loop n bk = Some (bk', ts) ->
  forall i j ti tj,
    ts !! i = Some ti -> ts !! j = Some tj ->
    involves ti x -> (i <= j)%nat -> ~ involves tj y.
Proof.
  revert bk ts. induction n as [|n IH]; intros bk ts Hc Ha; simpl; [discriminate|].
  pose proof (match_step_consistent bk Hc) as Hstep.
  pose proof (match_step_fifo bk) as Hfifo.
  destruct (match_step bk) as [| |bk1 t].
  - intros [= _ <-] i j ti tj Hi. now rewrite lookup_nil in Hi.
  - contradiction.
  - destruct (Hfifo bk1 t y x Hc eq_refl Ha) as [Hx Hnext].
    destruct Hstep as (Hc1 & _).
    destruct (process_matching_loop n bk1) as [[bk2 ts2]|] eqn:E2; [|discriminate].
    intros [= <- <-] i j ti tj Hi Hj Hix Hij.
    destruct i as [|i]; [simpl in Hi; congruence|].
    destruct j as [|j]; [lia|]. simpl in Hi, Hj.
    destruct Hnext as [Ha1|Hgone].
    + eapply (IH bk1 ts2 Hc1 Ha1 E2 i j); eauto. lia.
    + pose proof (process_matching_loop_gone _ _ _ _ _ Hc1 Hgone E2) as Hall.
      rewrite Forall_forall in Hall. apply Hall.
      eapply list_elem_of_lookup_2. exact Hj.
Qed.

(** ** The book on doubles, on prices that are numbers

    On a consistent book of the first part, read as a book of doubles, every
    operation of the book on doubles does what the operation of the first part
    does. *)

(** *** Ordered maps under a map of their keys *)

Section OrderedMapKeys.
Context {K K' V : Type} (before : K -> K -> bool) (before' : K' -> K' -> bool).
Context (g : K -> K').
Hypothesis before_keys : forall a b, before' (g a) (g b) = before a b.
Implicit Types (k : K) (m : list (K * V)).

Lemma same_key_keys a b : same_key before' (g a) (g b) = same_key before a b.
Proof. unfold same_key. now rewrite !before_keys. Qed.

Lemma find_keys k m : find before' (g k) (map (fun e => (g (fst e), snd e)) m) = find before k m.
Proof.
  induction m as [|[k' v] m IH]; simpl; [reflexivity|].
  rewrite same_key_keys. now destruct (same_key before k k').
Qed.

Lemma subscript_keys k dflt f m :
  subscript before' (g k) dflt f (map (fun e => (g (fst e), snd e)) m)
  = map (fun e => (g (fst e), snd e)) (subscript before k dflt f m).
Proof.
  induction m as [|[k' v] m IH]; simpl; [reflexivity|].
  rewrite !before_keys.
  destruct (before k k'); [reflexivity|].
  destruct (before k' k); [|reflexivity].
  simpl. now rewrite IH.
Qed.

Lemma modify_keys k f m :
  modify before' (g k) f (map (fun e => (g (fst e), snd e)) m)
  = map (fun e => (g (fst e), snd e)) (modify before k f m).
Proof.
  induction m as [|[k' v] m IH]; simpl; [reflexivity|].
  rewrite same_key_keys. destruct (same_key before k k'); [reflexivity|].
  simpl. now rewrite IH.
Qed.

Lemma erase_keys k m :
  erase before' (g k) (map (fun e => (g (fst e), snd e)) m)
  = map (fun e => (g (fst e), snd e)) (erase before k m).
Proof.
  induction m as [|[k' v] m IH]; simpl; [reflexivity|].
  rewrite same_key_keys. destruct (same_key before k k'); [reflexivity|].
  simpl. now rewrite IH.
Qed.
End OrderedMapKeys.

(** *** The projections of a book read as a book of doubles *)

Lemma before_on_doubles buy (a b : Q) :
  Double.before_on buy (Double.Num a) (Double.Num b) = before_on buy a b.
Proof. now destruct buy. Qed.

Lemma fmin_on_doubles (a b : Q) :
  Double.fmin (Double.Num a) (Double.Num b) = Double.Num (fmin a b).
Proof. unfold Double.fmin, fmin. simpl. now destruct (Qltb b a). Qed.

Lemma side_on_doubles_side buy bk :
  Double.side buy (book_on_doubles bk) = side_on_doubles (side buy bk).
Proof. now destruct buy. Qed.

Lemma set_side_on_doubles buy s bk :
  Double.set_side buy (side_on_doubles s) (book_on_doubles bk)
  = book_on_doubles (set_side buy s bk).
Proof. now destruct buy. Qed.

Lemma set_lookup_on_doubles lk bk :
  Double.set_lookup (order_on_doubles <$> lk) (book_on_doubles bk)
  = book_on_doubles (set_lookup lk bk).
Proof. reflexivity. Qed.

Lemma lookup_on_doubles bk id :
  Double.order_lookup_ (book_on_doubles bk) !! id
  = order_on_doubles <$> order_lookup_ bk !! id.
Proof. apply lookup_fmap. Qed.

Lemma find_on_doubles buy p s :
  find (Double.before_on buy) (Double.Num p) (side_on_doubles s)
  = find (before_on buy) p s.
Proof. apply find_keys, before_on_doubles. Qed.

Lemma side_refs_on_doubles s : Double.side_refs (side_on_doubles s) = side_ids s.
Proof.
  unfold Double.side_refs. induction s as [|e s IH]; simpl; [reflexivity|].
  now rewrite <- IH.
Qed.

Lemma all_refs_on_doubles bk : Double.all_refs (book_on_doubles bk) = all_ids bk.
Proof.
  unfold Double.all_refs, all_ids. simpl. now rewrite !side_refs_on_doubles.
Qed.

Lemma live_on_doubles bk id :
  is_Some (order_lookup_ bk !! id) -> Double.live (book_on_doubles bk) id = true.
Proof.
  intros [o Ho]. unfold Double.live. now rewrite lookup_on_doubles, Ho.
Qed.

(** The nodes of a level of a consistent book are live. *)
Lemma level_nodes_live buy p l bk :
  consistent bk -> find (before_on buy) p (side buy bk) = Some l ->
  forallb (Double.live (book_on_doubles bk)) (nodes l) = true.
Proof.
  intros Hc Hfind. apply forallb_forall. intros x Hx.
  apply live_on_doubles, (linked_is_indexed _ _ Hc).
  destruct (find_Some_elem _ _ _ _ Hfind) as (k0 & Hin & _).
  unfold all_ids. apply elem_of_app.
  apply list_elem_of_In in Hx.
  destruct buy; [left|right]; apply elem_of_side_ids; eauto.
Qed.

(** *** The private operations *)

Lemma add_order_to_side_on_doubles buy o bk :
  consistent bk -> order_lookup_ bk !! order_id o = None ->
  Double.add_order_to_side buy (order_on_doubles o) (book_on_doubles bk)
  = Some (book_on_doubles (add_order_to_side buy o bk)).
Proof.
  intros Hc Ho. unfold Double.add_order_to_side.
  cbn [Double.price Double.order_id Double.quantity order_on_doubles].
  rewrite side_on_doubles_side, find_on_doubles, all_refs_on_doubles.
  assert (Hfresh : order_id o ∉ all_ids bk).
  { intros Hin. destruct (linked_is_indexed _ _ Hc Hin) as [o' Ho']. congruence. }
  rewrite (bool_decide_eq_false_2 _ Hfresh).
  assert (Htail : match find (before_on buy) (price o) (side buy bk) with
                  | Some level_data =>
                      match last (nodes level_data) with
                      | Some tail => Double.live (book_on_doubles bk) tail
                      | None => true
                      end
                  | None => true
                  end = true).
  { destruct (find _ _ _) as [l|] eqn:Hfind; [|reflexivity].
    destruct (last (nodes l)) as [t|] eqn:Hlast; [|reflexivity].
    pose proof (level_nodes_live _ _ _ _ Hc Hfind) as Hl.
    rewrite forallb_forall in Hl. apply Hl.
    apply list_elem_of_In. eapply last_Some_elem_of. exact Hlast. }
  rewrite Htail. simpl. f_equal. unfold add_order_to_side.
  rewrite <- set_side_on_doubles, <- set_lookup_on_doubles, fmap_insert.
  f_equal.
  change (Double.side buy (Double.set_lookup ?lk ?b)) with (Double.side buy b).
  rewrite side_set_lookup.
  replace (Double.side buy (Double.set_lookup
             (<[order_id o:=order_on_doubles o]>
                (Double.order_lookup_ (book_on_doubles bk)))
             (book_on_doubles bk)))
    with (side_on_doubles (side buy bk)) by now destruct buy.
  apply (subscript_keys (before_on buy) (Double.before_on buy) Double.Num).
  apply before_on_doubles.
Qed.

Lemma remove_order_from_side_on_doubles id o bk :
  consistent bk -> order_lookup_ bk !! id = Some o ->
  Double.remove_order_from_side (is_buy o) id (book_on_doubles bk)
  = Some (fst (remove_order_from_side (is_buy o) id bk),
          book_on_doubles (snd (remove_order_from_side (is_buy o) id bk))).
Proof.
  intros Hc Ho.
  destruct (resting_level _ _ _ Hc Ho) as (l & Hfind & Hin & _).
  unfold Double.remove_order_from_side, remove_order_from_side.
  rewrite lookup_on_doubles, Ho. simpl.
  rewrite side_on_doubles_side, find_on_doubles, Hfind.
  rewrite (level_nodes_live _ _ _ _ Hc Hfind), (bool_decide_eq_true_2 _ Hin).
  simpl. f_equal. f_equal.
  rewrite <- set_lookup_on_doubles, <- set_side_on_doubles, fmap_delete.
  f_equal. f_equal.
  destruct (unlink id (nodes l)).
  - apply (erase_keys (before_on (is_buy o)) (Double.before_on (is_buy o))).
    apply before_on_doubles.
  - apply (modify_keys (before_on (is_buy o)) (Double.before_on (is_buy o))).
    apply before_on_doubles.
Qed.

Lemma remove_if_filled_on_doubles id o bk :
  consistent bk -> order_lookup_ bk !! id = Some o ->
  Double.remove_if_filled (is_buy o) id (book_on_doubles bk)
  = book_on_doubles <$> remove_if_filled (is_buy o) id bk.
Proof.
  intros Hc Ho.
  destruct (resting_level _ _ _ Hc Ho) as (_ & _ & _ & Hid & _).
  unfold Double.remove_if_filled, remove_if_filled.
  rewrite lookup_on_doubles, Ho. simpl.
  destruct (quantity o =? 0); [|reflexivity].
  rewrite Hid, (remove_order_from_side_on_doubles _ _ _ Hc Ho). reflexivity.
Qed.

Lemma after_fills_on_doubles bh sh q b s bk :
  order_lookup_ bk !! bh = Some b -> order_lookup_ bk !! sh = Some s ->
  Double.fill_level false (Double.Num (price s)) q
    (Double.fill_level true (Double.Num (price b)) q
       (Double.fill_node sh q
          (Double.fill_node bh q
             (Double.mkBook (Double.bids_ (book_on_doubles bk))
                (Double.asks_ (book_on_doubles bk))
                (Double.order_lookup_ (book_on_doubles bk))
                (wrap64 (Double.total_trades_ (book_on_doubles bk) + 1))
                (wrap64 (Double.total_volume_ (book_on_doubles bk) + q))))))
  = book_on_doubles (after_fills bh sh q b s bk).
Proof.
  intros Hb Hs. unfold Double.fill_level, Double.fill_node, after_fills,
    book_on_doubles. simpl. f_equal.
  - apply (modify_keys (before_on true) (Double.before_on true)).
    apply before_on_doubles.
  - apply (modify_keys (before_on false) (Double.before_on false)).
    apply before_on_doubles.
  - symmetry. erewrite fmap_alter; [f_equal; apply fmap_alter|]; reflexivity.
Qed.

Lemma execute_trade_on_doubles bk bh sh b s q :
  consistent bk ->
  order_lookup_ bk !! bh = Some b -> order_lookup_ bk !! sh = Some s ->
  is_buy b = true -> is_buy s = false ->
  Double.execute_trade bh sh q (book_on_doubles bk)
  = (fun r => (book_on_doubles (fst r), trade_on_doubles (snd r)))
      <$> execute_trade bh sh q bk.
Proof.
  intros Hc Hb Hs Bb Bs.
  assert (Hne : bh ≠ sh) by (intros ->; congruence).
  rewrite (execute_trade_unfold _ _ _ _ _ _ Hb Hs).
  unfold Double.execute_trade. rewrite !lookup_on_doubles, Hb, Hs.
  cbn [fmap option_fmap option_map order_on_doubles Double.price].
  rewrite (after_fills_on_doubles _ _ _ _ _ _ Hb Hs).
  pose proof (after_fills_consistent bh sh q b s bk Hc) as Hc4.
  set (bk4 := after_fills bh sh q b s bk) in *.
  set (fill := fun o => set_quantity (wrap64 (quantity o - q)) o).
  assert (Hb4 : order_lookup_ bk4 !! bh = Some (fill b)).
  { simpl. rewrite lookup_alter_ne by congruence.
    now rewrite lookup_alter_eq, Hb. }
  assert (Hs4 : order_lookup_ bk4 !! sh = Some (fill s)).
  { simpl. rewrite lookup_alter_eq, lookup_alter_ne by congruence.
    now rewrite Hs. }
  pose proof (remove_if_filled_on_doubles _ _ _ Hc4 Hb4) as D5.
  destruct (remove_if_filled_consistent _ _ _ Hc4 Hb4) as (bk5 & E5 & Hc5 & L5).
  change (is_buy (fill b)) with (is_buy b) in E5, D5. rewrite Bb in E5, D5.
  rewrite D5, E5. simpl.
  assert (Hs5 : order_lookup_ bk5 !! sh = Some (fill s)).
  { rewrite L5. destruct (quantity (fill b) =? 0); [|assumption].
    now rewrite lookup_delete_ne by congruence. }
  pose proof (remove_if_filled_on_doubles _ _ _ Hc5 Hs5) as D6.
  change (is_buy (fill s)) with (is_buy s) in D6. rewrite Bs in D6.
  rewrite D6, fmin_on_doubles.
  destruct (remove_if_filled false sh bk5); reflexivity.
Qed.

(** *** The matching loop *)

Lemma match_step_on_doubles bk :
  consistent bk ->
  Double.match_step (book_on_doubles bk) = turn_on_doubles (match_step bk).
Proof.
  intros Hc. pose proof Hc as ([_ Hb] & [_ Ha] & _).
  unfold Double.match_step, match_step. simpl.
  destruct (bids_ bk) as [|[best_bid bl] bids]; [reflexivity|].
  destruct (asks_ bk) as [|[best_ask al] asks]; [reflexivity|]. simpl.
  destruct (Qltb best_bid best_ask); [reflexivity|].
  apply Forall_cons in Hb as [[Hbne Hbn] _].
  apply Forall_cons in Ha as [[Hane Han] _]. simpl in *.
  destruct (nodes bl) as [|bh bq]; [congruence|].
  destruct (nodes al) as [|sh sq]; [congruence|].
  apply Forall_cons in Hbn as [(b & Hb & _ & Bb & _) _].
  apply Forall_cons in Han as [(s & Hs & _ & Bs & _) _].
  rewrite !lookup_fmap, Hb, Hs. simpl.
  rewrite (execute_trade_on_doubles _ _ _ _ _ _ Hc Hb Hs Bb Bs).
  destruct (execute_trade _ _ _ _) as [[bk' t]|]; reflexivity.
Qed.

Lemma process_matching_loop_on_doubles n bk :
  consistent bk ->
  Double.process_matching_loop n (book_on_doubles bk)
  = (fun r => (book_on_doubles (fst r), map trade_on_doubles (snd r)))
      <$> process_matching_loop n bk.
Proof.
  revert bk. induction n as [|n IH]; intros bk Hc; simpl; [reflexivity|].
  rewrite (match_step_on_doubles _ Hc).
  pose proof (match_step_consistent _ Hc) as Hstep.
  destruct (match_step bk) as [| |bk1 t]; simpl; try reflexivity.
  destruct Hstep as (Hc1 & _). rewrite (IH _ Hc1).
  destruct (process_matching_loop n bk1) as [[bk2 ts]|]; reflexivity.
Qed.

Lemma process_matching_on_doubles bk :
  consistent bk ->
  Double.process_matching (book_on_doubles bk)
  = (fun r => (book_on_doubles (fst r), map trade_on_doubles (snd r)))
      <$> process_matching bk.
Proof.
  intros Hc. unfold Double.process_matching, process_matching,
    Double.matching_fuel, matching_fuel.
  change (Double.order_lookup_ (book_on_doubles bk))
    with (order_on_doubles <$> order_lookup_ bk).
  rewrite map_size_fmap. now apply process_matching_loop_on_doubles.
Qed.

(** *** The public operations *)

Lemma stamp_on_doubles now o :
  Double.stamp now (order_on_doubles o) = order_on_doubles (stamp now o).
Proof.
  unfold Double.stamp, stamp. simpl. now destruct (timestamp_ns o =? 0).
Qed.

Lemma matching_on_doubles bk :
  consistent bk ->
  Double.matching (book_on_doubles bk) = result_on_doubles <$> matching bk.
Proof.
  intros Hc. unfold Double.matching, matching.
  rewrite (process_matching_on_doubles _ Hc).
  destruct (process_matching bk) as [[bk' ts]|]; reflexivity.
Qed.

Lemma add_order_on_doubles o m now bk :
  consistent bk -> u64 (quantity o) ->
  Double.add_order (order_on_doubles o) m now (book_on_doubles bk)
  = result_on_doubles <$> add_order o m now bk.
Proof.
  intros Hc Hq.
  unfold Double.add_order, Double.order_exists, mbind, Double.M_bind, Double.get.
  cbn [Double.outcome Double.book Double.trades Double.order_id Double.quantity
       Double.price order_on_doubles Double.le].
  rewrite lookup_on_doubles.
  destruct (order_lookup_ bk !! order_id o) as [o'|] eqn:Ho.
  { rewrite add_order_duplicate by eauto. reflexivity. }
  cbn [fmap option_fmap option_map].
  destruct (Z.eq_dec (quantity o) 0) as [Hz|Hz].
  { rewrite add_order_zero_quantity by assumption. now rewrite Hz. }
  destruct (Z.eqb_spec (quantity o) 0) as [|_]; [contradiction|].
  destruct (Qlt_le_dec 0 (price o)) as [Hp|Hp].
  2:{ rewrite add_order_bad_price by assumption.
      apply Qle_bool_iff in Hp. now rewrite Hp. }
  destruct (Qle_bool (price o) 0) eqn:E.
  { apply Qle_bool_iff in E. exfalso. revert E. now apply Qlt_not_le. }
  rewrite add_order_accepted by assumption. cbv zeta.
  rewrite stamp_on_doubles.
  destruct (stamp_fields now o) as (Hid & Hb & Hpr & Hqu).
  assert (Hc1 : consistent (add_order_to_side (is_buy o) (stamp now o) bk)).
  { rewrite <- Hb. apply add_order_to_side_consistent; try assumption.
    - now rewrite Hid.
    - now rewrite Hqu.
    - now rewrite Hpr. }
  unfold Double.update, Double.lift.
  cbn [Double.is_buy order_on_doubles].
  rewrite add_order_to_side_on_doubles by (try assumption; now rewrite Hid).
  rewrite Hb.
  cbn [fst snd Double.outcome Double.book Double.trades].
  destruct m.
  - rewrite (matching_on_doubles _ Hc1). unfold matching.
    destruct (process_matching _) as [[bk' ts]|]; reflexivity.
  - reflexivity.
Qed.

Lemma cancel_order_on_doubles id bk :
  consistent bk ->
  Double.cancel_order id (book_on_doubles bk)
  = result_on_doubles <$> cancel_order id bk.
Proof.
  intros Hc.
  unfold Double.cancel_order, mbind, Double.M_bind, Double.get.
  cbn [Double.outcome Double.book Double.trades].
  rewrite lookup_on_doubles.
  destruct (order_lookup_ bk !! id) as [o|] eqn:Ho.
  - rewrite (cancel_order_known _ _ _ Ho). simpl.
    unfold Double.lift.
    rewrite (remove_order_from_side_on_doubles _ _ _ Hc Ho). reflexivity.
  - rewrite (cancel_order_unknown _ _ Ho). reflexivity.
Qed.

Lemma price_changed_on_doubles (a b : Q) :
  Double.price_changed (Double.Num a) (Double.Num b) = price_changed a b.
Proof. reflexivity. Qed.

Lemma amend_order_on_doubles id p q m now bk :
  consistent bk -> u64 q ->
  Double.amend_order id (Double.Num p) q m now (book_on_doubles bk)
  = result_on_doubles <$> amend_order id p q m now bk.
Proof.
  intros Hc Hq.
  unfold Double.amend_order. unfold mbind at 1, Double.M_bind at 1, Double.get.
  cbn [Double.outcome Double.book Double.trades Double.le].
  rewrite lookup_on_doubles.
  destruct (order_lookup_ bk !! id) as [o|] eqn:Ho.
  2:{ rewrite (amend_order_unknown _ _ _ _ _ _ Ho). reflexivity. }
  cbn [fmap option_fmap option_map order_on_doubles Double.price].
  destruct (Z.eq_dec q 0) as [->|Hz].
  { rewrite (amend_order_zero_quantity _ _ _ _ _ _ Ho). reflexivity. }
  destruct (Z.eqb_spec q 0) as [|_]; [contradiction|].
  destruct (Qlt_le_dec 0 p) as [Hp|Hp].
  2:{ rewrite (amend_order_bad_price _ _ _ _ _ _ _ Ho Hz Hp).
      apply Qle_bool_iff in Hp. now rewrite Hp. }
  destruct (Qle_bool p 0) eqn:E.
  { apply Qle_bool_iff in E. exfalso. revert E. now apply Qlt_not_le. }
  rewrite price_changed_on_doubles.
  destruct (price_changed (price o) p) eqn:Hpc.
  - destruct (amend_order_reprice_result _ _ _ _ m now _ Hc Ho Hq Hz Hp Hpc)
      as (bk1 & bk2 & ts & E1 & Hc1 & _ & E2 & _ & Hc2 & _).
    rewrite (amend_order_reprice _ _ _ _ m now _ Ho Hz Hp Hpc).
    unfold mbind, Double.M_bind, M_bind.
    rewrite (cancel_order_on_doubles _ _ Hc), E1.
    cbn [fmap option_fmap option_map result_on_doubles outcome book trades
         Double.outcome Double.book Double.trades negb map].
    change (Double.repriced (order_on_doubles o) (Double.Num p) q)
      with (order_on_doubles (repriced o p q)).
    rewrite (add_order_on_doubles (repriced o p q) m now bk1 Hc1 Hq), E2.
    cbn [fmap option_fmap option_map result_on_doubles outcome book trades
         Double.outcome Double.book Double.trades app].
    destruct m.
    + rewrite (matching_on_doubles _ Hc2).
      destruct (matching bk2) as [[[[]|e] bk3 ts3]|];
        cbn [fmap option_fmap option_map result_on_doubles outcome book trades
             Double.outcome Double.book Double.trades Double.ret ret app];
        try reflexivity;
        unfold result_on_doubles; cbn [outcome book trades];
        now rewrite ?app_nil_r, map_app.
    + cbn [Double.ret ret Double.outcome Double.book Double.trades
           outcome book trades app map].
      now rewrite !app_nil_r.
  - rewrite (amend_order_in_place _ _ _ _ m now _ Ho Hz Hp Hpc). cbv zeta.
    pose proof (amend_in_place_consistent _ _ _ _ Hc Ho Hq) as Hc1.
    unfold mbind, Double.M_bind, Double.update, Double.lift.
    cbn [fst snd Double.outcome Double.book Double.trades app].
    assert (Ha : Double.amend_in_place id (order_on_doubles o) q
                   (book_on_doubles bk)
                 = book_on_doubles (amend_in_place id o q bk)).
    { unfold Double.amend_in_place, amend_in_place.
      cbn [Double.is_buy Double.price Double.quantity order_on_doubles].
      rewrite <- set_lookup_on_doubles, <- set_side_on_doubles.
      rewrite side_on_doubles_side, fmap_insert, lookup_set_side.
      unfold side_on_doubles.
      rewrite (modify_keys (before_on (is_buy o)) (Double.before_on (is_buy o))
                 Double.Num (before_on_doubles (is_buy o))).
      now destruct (is_buy o). }
    rewrite Ha. destruct m.
    + rewrite (matching_on_doubles _ Hc1). unfold matching.
      destruct (process_matching _) as [[bk3 ts3]|];
        cbn [fmap option_fmap option_map result_on_doubles outcome book trades
             Double.outcome Double.book Double.trades Double.ret ret app];
        try reflexivity.
      now rewrite ?app_nil_r.
    + reflexivity.
Qed.

Lemma match_orders_on_doubles bk :
  consistent bk ->
  Double.match_orders (book_on_doubles bk) = result_on_doubles <$> match_orders bk.
Proof. apply matching_on_doubles. Qed.

(** *** Calls and sequences of calls *)

Lemma apply_op_on_doubles op bk :
  consistent bk -> op_ok op ->
  Double.apply_op (op_on_doubles op) (book_on_doubles bk)
  = (fun r => (book_on_doubles (fst r), map trade_on_doubles (snd r)))
      <$> apply_op op bk.
Proof.
  intros Hc Hok. destruct op as [o m now|id|id p q m now|]; simpl in *.
  - destruct Hok as (_ & Hq & _).
    rewrite (add_order_on_doubles _ _ _ _ Hc Hq).
    now destruct (add_order o m now bk).
  - rewrite (cancel_order_on_doubles _ _ Hc).
    now destruct (cancel_order id bk).
  - destruct Hok as (_ & Hq & _).
    rewrite (amend_order_on_doubles _ _ _ _ _ _ Hc Hq).
    now destruct (amend_order id p q m now bk).
  - rewrite (match_orders_on_doubles _ Hc).
    now destruct (match_orders bk).
Qed.

Lemma op_ok_on_doubles op : Double.op_ok (op_on_doubles op) <-> op_ok op.
Proof. now destruct op. Qed.

(** A call on numbers is a call of the first part. *)
Lemma on_numbers_op op :
  Double.on_numbers op -> exists op0, op = op_on_doubles op0.
Proof.
  destruct op as [[id buy [|p] q ts] m now|id|id [|p] q m now|]; simpl;
    try contradiction; intros _.
  - now exists (Insert (mkOrder id buy p q ts) m now).
  - now exists (Cancel id).
  - now exists (Amend id p q m now).
  - now exists Match.
Qed.

Lemma op_on_doubles_on_numbers op : Double.on_numbers (op_on_doubles op).
Proof. now destruct op. Qed.

Lemma order_on_doubles_inj : Inj (=) (=) order_on_doubles.
Proof.
  intros [i1 b1 p1 q1 t1] [i2 b2 p2 q2 t2]. unfold order_on_doubles. simpl.
  now intros [= -> -> -> -> ->].
Qed.

Lemma side_on_doubles_inj : Inj (=) (=) side_on_doubles.
Proof.
  intros s1. induction s1 as [|[k1 v1] s1 IH]; intros [|[k2 v2] s2]; simpl;
    try discriminate; [reflexivity|].
  intros [= -> -> H]. now rewrite (IH _ H).
Qed.

Lemma book_on_doubles_inj : Inj (=) (=) book_on_doubles.
Proof.
  intros [b1 a1 l1 t1 v1] [b2 a2 l2 t2 v2]. unfold book_on_doubles. simpl.
  intros [= Hb Ha Hl -> ->].
  apply side_on_doubles_inj in Hb, Ha.
  apply (map_fmap_inj _ order_on_doubles_inj) in Hl. now subst.
Qed.

(** The books the calls on numbers lead to are the books of the first
    part. *)
Lemma reachable_by_on_numbers (P : Double.Op -> Double.OrderBook -> Prop) d :
  Double.reachable_by (fun op d' => Double.on_numbers op /\ P op d') d ->
  exists bk,
    d = book_on_doubles bk /\
    reachable_by (fun op bk' => P (op_on_doubles op) (book_on_doubles bk')) bk.
Proof.
  induction 1 as [|d op d' ts _ (bk & -> & Hr) Hok E [Hn HP]].
  - exists empty_book. split; [reflexivity|apply reach_empty].
  - destruct (on_numbers_op _ Hn) as [op0 ->].
    apply op_ok_on_doubles in Hok.
    pose proof (reachable_by_consistent _ _ Hr) as Hc.
    rewrite (apply_op_on_doubles _ _ Hc Hok) in E.
    destruct (apply_op op0 bk) as [[bk' ts']|] eqn:E0; [|discriminate].
    injection E as <- <-. exists bk'. split; [reflexivity|].
    eapply reach_step; eassumption.
Qed.

Lemma reachable_by_on_doubles (P : Double.Op -> Double.OrderBook -> Prop) bk :
  reachable_by (fun op bk' => P (op_on_doubles op) (book_on_doubles bk')) bk ->
  Double.reachable_by (fun op d' => Double.on_numbers op /\ P op d')
    (book_on_doubles bk).
Proof.
  induction 1 as [|bk op bk' ts Hr IH Hok E HP].
  - apply Double.reach_empty.
  - pose proof (reachable_by_consistent _ _ Hr) as Hc.
    eapply (Double.reach_step _ _ (op_on_doubles op)).
    + exact IH.
    + now apply op_ok_on_doubles.
    + rewrite (apply_op_on_doubles _ _ Hc Hok), E. reflexivity.
    + split; [apply op_on_doubles_on_numbers|exact HP].
Qed.

Lemma double_reachable_by_weaken (P Q : Double.Op -> Double.OrderBook -> Prop) d :
  (forall op d', P op d' -> Q op d') ->
  Double.reachable_by P d -> Double.reachable_by Q d.
Proof.
  intros HPQ. induction 1 as [|d op d' ts _ IH Hok E HP].
  - apply Double.reach_empty.
  - eapply Double.reach_step; eauto.
Qed.

Lemma reachable_on_numbers_iff bk : reachable_on_numbers bk <-> reachable bk.
Proof.
  unfold reachable_on_numbers, reachable. split.
  - intros H.
    destruct (reachable_by_on_numbers (fun _ _ => True) (book_on_doubles bk))
      as (bk0 & E & Hr).
    { revert H. apply double_reachable_by_weaken. tauto. }
    apply book_on_doubles_inj in E. now subst.
  - intros H.
    pose proof (reachable_by_on_doubles (fun _ _ => True) bk H) as Hd.
    revert Hd. apply double_reachable_by_weaken. tauto.
Qed.

Lemma queue_quantity_on_doubles lk ns :
  Double.queue_quantity (order_on_doubles <$> lk) ns = queue_quantity lk ns.
Proof.
  induction ns as [|x ns IH]; simpl; [reflexivity|].
  rewrite IH. f_equal. unfold Double.node_quantity, node_quantity.
  rewrite lookup_fmap. now destruct (lk !! x).
Qed.

Lemma levels_bounded_on_doubles bk :
  Double.levels_bounded (book_on_doubles bk) <-> every_level level_bounded bk.
Proof.
  unfold Double.levels_bounded, every_level, level_bounded.
  cbn [Double.bids_ Double.asks_ Double.order_lookup_ book_on_doubles].
  unfold side_on_doubles. rewrite Forall_app, !List.Forall_map.
  split; intros [Hb Ha]; split;
    (eapply Forall_impl; [eassumption|]); intros e; simpl;
    now rewrite queue_quantity_on_doubles.
Qed.

Lemma reachable_on_bounded_numbers_iff bk :
  reachable_on_bounded_numbers bk <->
  reachable_by (fun _ bk' => every_level level_bounded bk') bk.
Proof.
  unfold reachable_on_bounded_numbers. split.
  - intros H.
    destruct (reachable_by_on_numbers (fun _ d => Double.levels_bounded d)
                (book_on_doubles bk) H) as (bk0 & E & Hr).
    apply book_on_doubles_inj in E. subst bk0.
    revert Hr. apply reachable_by_weaken.
    intros _ bk'. apply levels_bounded_on_doubles.
  - intros H.
    apply (reachable_by_on_doubles (fun _ d => Double.levels_bounded d)).
    revert H. apply reachable_by_weaken.
    intros _ bk'. apply levels_bounded_on_doubles.
Qed.

(** A sequence of calls that are given numbers leads to such a book. *)
Lemma double_run_ops_reachable (P : Double.Op -> Prop) ops d d' ts :
  Double.reachable_by (fun op _ => P op) d ->
  Forall (fun op => Double.op_ok op /\ P op) ops ->
  Double.run_ops ops d = Some (d', ts) ->
  Double.reachable_by (fun op _ => P op) d'.
Proof.
  revert d d' ts. induction ops as [|op ops IH]; intros d d' ts Hr Hall; simpl.
  - now intros [= <- _].
  - apply Forall_cons in Hall as [[Hok HP] Hall].
    destruct (Double.apply_op op d) as [[d1 ts1]|] eqn:E; [|discriminate].
    destruct (Double.run_ops ops d1) as [[d2 ts2]|] eqn:E2; [|discriminate].
    intros [= <- _]. eapply IH; [|exact Hall|exact E2].
    eapply Double.reach_step; eassumption.
Qed.

(** The books of the examples are such books. *)
Lemma one_buy_book_on_numbers : reachable_on_numbers one_buy_book.
Proof.
  apply (double_run_ops_reachable Double.on_numbers
           [Double.Insert (Double.mkOrder 1 true (Double.Num 100) 100 1) true 0]
           Double.empty_book _ []).
  - apply Double.reach_empty.
  - repeat (apply List.Forall_cons; [vm_compute; intuition discriminate|]).
    apply List.Forall_nil.
  - vm_compute. reflexivity.
Defined.

Lemma two_buys_book_on_numbers : reachable_on_numbers two_buys_book.
Proof.
  apply (double_run_ops_reachable Double.on_numbers
           (map op_on_doubles two_buys_ops) Double.empty_book _ []).
  - apply Double.reach_empty.
  - cbv [two_buys_ops map].
    repeat (apply List.Forall_cons; [vm_compute; intuition discriminate|]).
    apply List.Forall_nil.
  - vm_compute. reflexivity.
Defined.

Lemma fifo_book_on_numbers : reachable_on_numbers fifo_book.
Proof.
  apply (double_run_ops_reachable Double.on_numbers
           (map op_on_doubles fifo_ops) Double.empty_book _ []).
  - apply Double.reach_empty.
  - cbv [fifo_ops map].
    repeat (apply List.Forall_cons; [vm_compute; intuition discriminate|]).
    apply List.Forall_nil.
  - vm_compute. reflexivity.
Defined.

(** ** Calls with a NaN price

    What the book on doubles does when it is given NaN for a price: the
    properties below of the books of numbers do not hold of these books. *)

(** [add_order] accepts an order at NaN, which rests at NaN, not above zero;
    on an empty side it gets a level of the key NaN, and an order at 100
    that comes next is linked in that level. *)
Example nan_price_is_accepted :
  exists d,
    Double.run_ops (take 2 (nan_level_ops (Double.mkOrder 4 false Double.NaN 1 4)))
      Double.empty_book = Some (d, []) /\
    Double.bids_ d = [(Double.NaN, mkLevel 20 [1; 2])] /\
    Double.price <$> Double.order_lookup_ d !! 1 = Some Double.NaN /\
    Double.price <$> Double.order_lookup_ d !! 2 = Some (Double.Num 100).
Proof. eexists. split; [vm_compute; reflexivity|]. now vm_compute. Qed.

(** [amend_order] accepts NaN for the new price, and takes the price to be
    unchanged. *)
Example nan_new_price_is_accepted :
  exists d,
    Double.amend_order 1 Double.NaN 500 false 0 (book_on_doubles one_buy_book)
      = Some (Double.mkResult (Returned true) d []) /\
    Double.order_lookup_ d !! 1
      = Some (Double.mkOrder 1 true (Double.Num 100) 500 1).
Proof. eexists. split; [vm_compute; reflexivity|]. now vm_compute. Qed.

(** An order at NaN that joins the level at 100 is the only buy order once
    the order at 100 is cancelled: the best bid is 100, the price of no
    order. *)
Example nan_order_in_the_best_level :
  exists d,
    Double.run_ops nan_joins_ops Double.empty_book = Some (d, []) /\
    Double.get_best_bid d = Double.Num 100 /\
    Double.bids_ d = [(Double.Num 100, mkLevel 5 [2])] /\
    Double.order_lookup_ d = {[2 := Double.mkOrder 2 true Double.NaN 5 2]}.
Proof. eexists. split; [vm_compute; reflexivity|]. now vm_compute. Qed.

(** After the cancel of the order at NaN and of the order at 101 no order is
    left, and the bids still have the level at 100. *)
Example nan_leaves_a_level_without_orders :
  exists d,
    Double.run_ops (nan_cancel_ops ++ [Double.Cancel 3]) Double.empty_book
      = Some (d, []) /\
    Double.get_total_orders d = 0%nat /\ Double.get_bid_levels d = 1%nat /\
    Double.get_best_bid d = Double.Num 100.
Proof. eexists. split; [vm_compute; reflexivity|]. now vm_compute. Qed.

(** The amend of the order at NaN, linked in the level at 100, adds the
    difference of 3 to the total of the level at 101: that level has a total
    of 10 for one order of 7, and the level at 100 a total of 15 for orders
    of 10 and 8. *)
Example nan_amend_changes_another_level :
  exists d,
    Double.run_ops nan_amend_ops Double.empty_book = Some (d, []) /\
    Double.bids_ d = [(Double.Num 101, mkLevel 10 [3]);
                      (Double.Num 100, mkLevel 15 [1; 2])] /\
    Double.quantity <$> Double.order_lookup_ d !! 1 = Some 10 /\
    Double.quantity <$> Double.order_lookup_ d !! 2 = Some 8 /\
    Double.quantity <$> Double.order_lookup_ d !! 3 = Some 7.
Proof. eexists. split; [vm_compute; reflexivity|]. now vm_compute. Qed.

(** In a level of the key NaN a buy order at 100 trades with a sell order
    at 100.5, at 100: the two do not cross, and the price is that of the buy
    order. *)
Example nan_level_trades_without_a_cross :
  exists d t1 t2,
    Double.run_ops
      (nan_level_ops (Double.mkOrder 4 false (Double.Num (201 # 2)) 15 4))
      Double.empty_book = Some (d, [t1; t2]) /\
    Double.trade_price t1 = Double.NaN /\
    Double.price (Double.trade_buy t2) = Double.Num 100 /\
    Double.price (Double.trade_sell t2) = Double.Num (201 # 2) /\
    Double.trade_price t2 = Double.Num 100.
Proof. do 3 eexists. split; [vm_compute; reflexivity|]. now vm_compute. Qed.

(** In a level of the key NaN the buy orders trade in the order they came in:
    the order at 100 before the order at 101. *)
Example nan_level_trades_out_of_price_order :
  exists d t1 t2 t3,
    Double.run_ops (nan_level_ops (Double.mkOrder 4 false (Double.Num 50) 30 4))
      Double.empty_book = Some (d, [t1; t2; t3]) /\
    Double.price (Double.trade_buy t1) = Double.NaN /\
    Double.price (Double.trade_buy t2) = Double.Num 100 /\
    Double.price (Double.trade_buy t3) = Double.Num 101.
Proof. do 4 eexists. split; [vm_compute; reflexivity|]. now vm_compute. Qed.

(** * The claims *)

(** ** C1: the price of a trade *)

(** C1, as stated, fails in its gloss: when a sell order at 99 comes in against
    a buy order resting at 100 (Test 5 of the source), the one trade is at 99,
    the price of the incoming order, and not at 100, the price of the resting
    order. *)
Lemma trade_price_not_resting_price :
  exists bk t,
    run_ops resting_buy_ops empty_book = Some (bk, [t]) /\
    order_id (trade_buy t) = 1 /\ price (trade_buy t) = 100%Q /\
    order_id (trade_sell t) = 2 /\ price (trade_sell t) = 99%Q /\
    trade_price t = 99%Q /\ ~ (trade_price t == price (trade_buy t))%Q.
Proof.
  do 2 eexists. split; [vm_compute; reflexivity|].
  simpl. splits; try reflexivity. intros H. vm_compute in H. discriminate.
Qed.

(** C1 (amended): every trade a public call reports, from a book the public
    calls lead to when the prices they are given are numbers (none is NaN),
    is at [min(buy.price, sell.price)] of its two orders.  The two orders
    cross ([sell.price <= buy.price]), so this is the price of the sell
    order: the resting order's price when the incoming order is the buy, the
    incoming order's price when it is the sell.  (Once a level has the key
    NaN, orders trade that do not cross:
    [nan_level_trades_without_a_cross].) *)
Theorem trade_price_is_min_of_prices (bk : OrderBook) (op : Op) :
  reachable_on_numbers bk -> op_ok op ->
  exists bk' ts,
    apply_op op bk = Some (bk', ts) /\
    Forall (fun t =>
              trade_price t = fmin (price (trade_buy t)) (price (trade_sell t)) /\
              is_buy (trade_buy t) = true /\ is_buy (trade_sell t) = false /\
              (price (trade_sell t) <= price (trade_buy t))%Q /\
              (trade_price t == price (trade_sell t))%Q) ts.
Proof.
  intros Hr Hok. apply reachable_on_numbers_iff in Hr. apply reachable_by_consistent in Hr.
  destruct (apply_op_consistent op bk Hr Hok) as (bk' & ts & E & _ & _ & Hm).
  exists bk', ts. split; [assumption|].
  destruct Hm as [->|(bk1 & Hc1 & Em)]; [constructor|].
  exact (process_matching_loop_trades _ _ _ _ Hc1 Em).
Qed.

Lemma trade_price_is_min_of_prices_witness :
  exists bk t,
    run_ops resting_buy_ops empty_book = Some (bk, [t]) /\
    trade_price t = fmin (price (trade_buy t)) (price (trade_sell t)).
Proof.
  do 2 eexists. split; [vm_compute; reflexivity|].
  destruct (trade_price_is_min_of_prices one_buy_book
              (Insert (mkOrder 2 false 99 50 2) true 0))
    as (bk' & ts & E & H).
  - exact one_buy_book_on_numbers.
  - vm_compute. repeat split; discriminate.
  - vm_compute in E. injection E as <- <-.
    apply Forall_cons in H as [[H _] _]. exact H.
Defined.

(** ** C2: the book is not crossed *)

(** C2, as stated, fails: after two inserts with [match_immediately = false], a
    buy at 100 and a sell at 99, both calls have returned, both sides are
    non-empty and the best bid is above the best ask. *)
Lemma crossed_book_without_matching :
  exists bk,
    run_ops unmatched_cross_ops empty_book = Some (bk, []) /\
    reachable bk /\
    get_best_bid bk = 100%Q /\ get_best_ask bk = 99%Q /\ ~ uncrossed bk.
Proof.
  eexists. split; [vm_compute; reflexivity|]. split.
  - eapply (run_ops_reachable_by _ unmatched_cross_ops empty_book);
      [apply reach_empty| |vm_compute; reflexivity].
    vm_compute. repeat split; discriminate.
  - splits; try reflexivity.
    intros [H|[H|H]]; discriminate.
Qed.

(** C2 (amended): in every book that public calls with the matching engine on
    lead to (inserts and amends called with [match_immediately = true], the
    default; cancels; explicit matches), either the best bid is below the
    best ask or a side is empty.  And on any book the public calls lead to,
    an explicit match, an insert that is accepted and an amend that returns
    true, the last two called with [match_immediately = true], return, and
    with a book that is not crossed: the matching they trigger runs to its
    end. *)
Theorem no_cross_when_matching_is_on (bk : OrderBook) :
  (reachable_by (fun op _ => op_matches op) bk -> uncrossed bk) /\
  (reachable bk ->
   exists bk' ts,
     match_orders bk = Some (mkResult (Returned tt) bk' ts) /\ uncrossed bk') /\
  (reachable bk ->
   forall o now, u64 (quantity o) ->
   exists r, add_order o true now bk = Some r /\
             (outcome r = Returned tt -> uncrossed (book r))) /\
  (reachable bk ->
   forall id p q now, u64 q ->
   exists r, amend_order id p q true now bk = Some r /\
             (outcome r = Returned true -> uncrossed (book r))).
Proof.
  splits.
  - induction 1 as [|bk op bk' ts Hr IH Hok E HP].
    + now left.
    + apply reachable_by_consistent in Hr.
      destruct (apply_op_consistent op bk Hr Hok) as (bk2 & ts2 & E2 & _ & Hu & _).
      assert (bk2 = bk') as -> by congruence. auto.
  - intros Hr. apply reachable_by_consistent in Hr.
    destruct (process_matching_total _ Hr) as (bk' & ts & E & _ & Hu & _).
    exists bk', ts. unfold match_orders, matching. now rewrite E.
  - intros Hr o now Hq. apply reachable_by_consistent in Hr.
    destruct (add_order_consistent o true now bk Hr Hq) as (r & E & _ & _ & Hu & _).
    exists r. auto.
  - intros Hr id p q now Hq. apply reachable_by_consistent in Hr.
    destruct (amend_order_consistent id p q true now bk Hr Hq)
      as (r & E & _ & _ & Hu & _).
    exists r. auto.
Qed.

Lemma no_cross_when_matching_is_on_witness :
  exists bk t,
    run_ops resting_buy_ops empty_book = Some (bk, [t]) /\ uncrossed bk.
Proof.
  do 2 eexists. split; [vm_compute; reflexivity|].
  refine (proj1 (no_cross_when_matching_is_on _) _).
  eapply (run_ops_reachable_by _ resting_buy_ops empty_book);
    [apply reach_empty| |vm_compute; reflexivity].
  vm_compute. repeat split; discriminate.
Defined.

(** ** C3: amend at a new price *)

(** C3, as stated, fails for the timestamp: the order that is inserted again
    carries the timestamp of the order it replaces, not a fresh one. *)
Lemma repriced_order_keeps_its_timestamp :
  exists bk o,
    run_ops reprice_ops empty_book = Some (bk, []) /\
    order_lookup_ bk !! 1 = Some o /\ price o = 101%Q /\
    timestamp_ns o = 1 /\ timestamp_ns o <> 777.
Proof.
  do 2 eexists. split; [vm_compute; reflexivity|].
  split; [vm_compute; reflexivity|]. simpl. splits; try reflexivity. discriminate.
Qed.

(** C3 (amended): on a book the public calls lead to, [amend_order] of a
    resting order to a price beyond the epsilon of its price is [cancel_order]
    of the order followed by [add_order] of an order with the same id and
    side, the new price and quantity, and the timestamp of the old order
    (the clock is read only if that timestamp is zero), with the same
    matching flag.  The cancel returns true, and the insert links the node at
    the tail of the list of the level of the new price, behind every node that
    was there. *)
Theorem amend_at_new_price_is_cancel_then_insert (bk : OrderBook) (id : Z)
    (o : Order) (p : Q) (q : Z) (m : bool) (now : Z) :
  reachable bk -> order_lookup_ bk !! id = Some o ->
  u64 q -> q <> 0 -> (0 < p)%Q -> price_changed (price o) p = true ->
  let new_order := mkOrder id (is_buy o) p q (timestamp_ns o) in
  amend_order id p q m now bk
    = (cancel_order id ≫= fun _ => add_order new_order m now ≫= fun _ => ret true)
        bk /\
  exists bk1 bk2 ts,
    cancel_order id bk = Some (mkResult (Returned true) bk1 []) /\
    add_order new_order m now bk1 = Some (mkResult (Returned tt) bk2 ts) /\
    amend_order id p q m now bk = Some (mkResult (Returned true) bk2 ts) /\
    let inserted :=
      mkOrder id (is_buy o) p q
        (if timestamp_ns o =? 0 then now else timestamp_ns o) in
    let linked := add_order_to_side (is_buy o) inserted bk1 in
    order_lookup_ linked !! id = Some inserted /\
    (exists l2,
       find (before_on (is_buy o)) p (side (is_buy o) linked) = Some l2 /\
       nodes l2
       = nodes (default empty_level
                  (find (before_on (is_buy o)) p (side (is_buy o) bk1)))
         ++ [id]) /\
    (if m then process_matching linked = Some (bk2, ts)
     else bk2 = linked /\ ts = []).
Proof.
  intros Hr Ho Hq Hz Hp Hpc new_order. apply reachable_by_consistent in Hr.
  destruct (resting_level _ _ _ Hr Ho) as (_ & _ & _ & Hid & _).
  assert (Hnew : new_order = repriced o p q)
    by (unfold new_order, repriced; now rewrite Hid).
  rewrite Hnew.
  destruct (amend_order_reprice_result _ _ _ _ m now _ Hr Ho Hq Hz Hp Hpc)
    as (bk1 & bk2 & ts & Ec & Hc1 & L1 & Ea & E & _ & _ & Hm0 & _).
  split.
  { rewrite E, (bind_returned _ _ _ _ _ _ Ec), (bind_returned _ _ _ _ _ _ Ea).
    simpl. now rewrite app_nil_r. }
  exists bk1, bk2, ts. splits; try assumption.
  assert (Hst : stamp now (repriced o p q)
                = mkOrder id (is_buy o) p q
                    (if timestamp_ns o =? 0 then now else timestamp_ns o)).
  { unfold stamp, repriced. simpl. rewrite Hid.
    now destruct (timestamp_ns o =? 0). }
  cbv zeta. rewrite <- Hst. splits.
  - unfold add_order_to_side. book_simpl. rewrite Hst. simpl.
    apply lookup_insert_eq.
  - eexists. split.
    + replace p with (price (stamp now (repriced o p q))) at 1
        by (now rewrite Hst).
      apply add_order_to_side_tail.
      apply (consistent_sides (is_buy o)) in Hc1 as ([Hord _] & _). exact Hord.
    + simpl. now rewrite Hst.
  - pose proof (add_order_accepted (repriced o p q) m now bk1) as Ea'.
    simpl in Ea'. rewrite Hid in Ea'. specialize (Ea' L1 Hz Hp).
    rewrite Ea in Ea'. destruct m.
    + destruct (process_matching _) as [[bk3 ts3]|]; [|discriminate].
      now injection Ea' as <- <-.
    + now injection Ea' as <- <-.
Qed.

Lemma amend_at_new_price_is_cancel_then_insert_witness :
  amend_order 1 101 500 true 777 two_buys_book
  = (cancel_order 1 ≫= fun _ =>
     add_order (mkOrder 1 true 101 500 1) true 777 ≫= fun _ => ret true)
      two_buys_book.
Proof.
  assert (Hq : u64 500) by (vm_compute; repeat split; discriminate).
  assert (Hz : 500 <> 0) by discriminate.
  assert (Hp : (0 < 101)%Q) by reflexivity.
  exact (proj1 (amend_at_new_price_is_cancel_then_insert two_buys_book 1
                  (mkOrder 1 true 100 100 1) 101 500 true 777
                  two_buys_book_reachable eq_refl Hq Hz Hp eq_refl)).
Defined.

(** ** C4: the total of a level *)

(** C4, as stated, fails: the total of the level of the two orders wraps to
    zero, the cancel of the first floors it at zero, and the level is left
    with the second order, of [2^63], and a total of zero. *)
Lemma total_wraps_and_is_floored :
  exists bk o,
    run_ops overflow_ops empty_book = Some (bk, []) /\
    bids_ bk = [(100%Q, mkLevel 0 [2])] /\
    order_lookup_ bk !! 2 = Some o /\ quantity o = 2 ^ 63 /\
    queue_quantity (order_lookup_ bk) [2] = 2 ^ 63 /\
    ~ every_level level_sum_exact bk.
Proof.
  do 2 eexists. split; [vm_compute; reflexivity|].
  split; [reflexivity|]. split; [vm_compute; reflexivity|].
  split; [reflexivity|]. split; [reflexivity|].
  intros [H _]. apply Forall_cons in H as [H _]. vm_compute in H. discriminate.
Qed.

(** C4 (amended): in every book reached by public calls each of which is
    given a number for its price (not NaN) and leaves the sum of the
    quantities of every level below [2^64], the [total_quantity] of every
    level of either side is the sum of the quantities of the orders linked in
    the level.  (An order at NaN is counted in one level and amended or
    removed in another: [nan_amend_changes_another_level].) *)
Theorem total_is_sum_of_quantities (bk : OrderBook) :
  reachable_on_bounded_numbers bk ->
  every_level level_sum_exact bk.
Proof.
  intros Hr. apply reachable_on_bounded_numbers_iff in Hr.
  assert (H : consistent bk /\ every_level level_sum_mod bk /\
              every_level level_bounded bk).
  { induction Hr as [|bk op bk' ts Hr IH Hok E HP].
    - split; [apply empty_book_consistent|].
      split; split; constructor.
    - destruct IH as (Hc & Hs & Hb).
      destruct (apply_op_consistent op bk Hc Hok) as (bk2 & ts2 & E2 & Hc2 & _).
      assert (bk2 = bk') as -> by congruence.
      splits; try assumption.
      exact (apply_op_sums op bk bk' ts Hc Hs Hb Hok E). }
  destruct H as (Hc & Hs & Hb). now apply sums_mod_bounded_exact.
Qed.

Lemma total_is_sum_of_quantities_witness :
  exists bk,
    run_ops three_buys_ops empty_book = Some (bk, []) /\
    get_snapshot 5 bk = ([mkPriceLevel 101 50; mkPriceLevel 100 300], []) /\
    every_level level_sum_exact bk.
Proof.
  eexists. split; [vm_compute; reflexivity|]. split; [reflexivity|].
  apply total_is_sum_of_quantities. apply reachable_on_bounded_numbers_iff.
  eapply (run_ops_reachable_by _ three_buys_ops empty_book);
    [apply reach_empty| |vm_compute; reflexivity].
  simpl. unfold every_level, level_bounded.
  repeat (split; try (repeat constructor)); try (vm_compute; discriminate).
Defined.

(** ** C5: the index and the sides hold the same orders *)

(** C5, at the failing input: a buy order at 100, a buy order at NaN, which
    [bids_[NaN]] links in the level at 100, the cancel of the first, a buy
    order at 101, and the cancel of the order at NaN.  [bids_.find(NaN)] is
    the level at 101, so the level at 100 keeps the node the cancel deletes:
    the node is linked in a side and has no entry in [order_lookup_]. *)
Lemma deleted_node_stays_linked :
  exists d,
    Double.run_ops nan_cancel_ops Double.empty_book = Some (d, []) /\
    Double.bids_ d = [(Double.Num 101, mkLevel 2 [3]);
                      (Double.Num 100, mkLevel 5 [2])] /\
    2 ∈ Double.all_refs d /\ Double.order_lookup_ d !! 2 = None /\
    Double.get_total_orders d = 1%nat /\ Double.get_bid_levels d = 2%nat.
Proof.
  eexists. split; [vm_compute; reflexivity|].
  split; [reflexivity|]. split; [|now vm_compute].
  apply list_elem_of_In. vm_compute. auto.
Qed.

(** ** C6: a rejected call changes nothing *)

(** C6: each rejected call leaves the book (both sides, the index and the
    statistics) as it was and reports no trade.  [add_order] checks the id,
    then the quantity, then the price, and throws before it writes;
    [amend_order] returns false for an unknown id and then checks the quantity
    and the price; [cancel_order] returns false for an unknown id.  On a book
    the public calls lead to, whatever [add_order] or [amend_order] throws and
    whenever [amend_order] or [cancel_order] returns false, nothing has
    changed. *)
Theorem rejected_call_is_a_no_op (bk : OrderBook) :
  (forall o m now, is_Some (order_lookup_ bk !! order_id o) ->
     add_order o m now bk = Some (mkResult (Thrown DuplicateId) bk [])) /\
  (forall o m now, order_lookup_ bk !! order_id o = None -> quantity o = 0 ->
     add_order o m now bk = Some (mkResult (Thrown InvalidQuantity) bk [])) /\
  (forall o m now, order_lookup_ bk !! order_id o = None -> quantity o <> 0 ->
     (price o <= 0)%Q ->
     add_order o m now bk = Some (mkResult (Thrown InvalidPrice) bk [])) /\
  (forall id p m now, is_Some (order_lookup_ bk !! id) ->
     amend_order id p 0 m now bk = Some (mkResult (Thrown InvalidQuantity) bk [])) /\
  (forall id p q m now, is_Some (order_lookup_ bk !! id) -> q <> 0 ->
     (p <= 0)%Q ->
     amend_order id p q m now bk = Some (mkResult (Thrown InvalidPrice) bk [])) /\
  (forall id, order_lookup_ bk !! id = None ->
     cancel_order id bk = Some (mkResult (Returned false) bk [])) /\
  (forall id p q m now, order_lookup_ bk !! id = None ->
     amend_order id p q m now bk = Some (mkResult (Returned false) bk [])) /\
  (forall o m now r e, add_order o m now bk = Some r -> outcome r = Thrown e ->
     book r = bk /\ trades r = []) /\
  (forall id r, cancel_order id bk = Some r -> outcome r = Returned false ->
     book r = bk /\ trades r = []) /\
  (reachable bk ->
   forall id p q m now r, u64 q -> amend_order id p q m now bk = Some r ->
     outcome r <> Returned true -> book r = bk /\ trades r = []).
Proof.
  splits.
  - intros. now apply add_order_duplicate.
  - intros. now apply add_order_zero_quantity.
  - intros. now apply add_order_bad_price.
  - intros id p m now [o Ho]. eapply amend_order_zero_quantity; eassumption.
  - intros id p q m now [o Ho] Hq Hp. eapply amend_order_bad_price; eassumption.
  - intros. now apply cancel_order_unknown.
  - intros. now apply amend_order_unknown.
  - intros o m now r e E Hout.
    destruct (order_lookup_ bk !! order_id o) as [o'|] eqn:Ho.
    { rewrite add_order_duplicate in E by eauto. now injection E as <-. }
    destruct (Z.eq_dec (quantity o) 0) as [Hz|Hz].
    { rewrite add_order_zero_quantity in E by assumption. now injection E as <-. }
    destruct (Qlt_le_dec 0 (price o)) as [Hp|Hp].
    2:{ rewrite add_order_bad_price in E by assumption. now injection E as <-. }
    rewrite add_order_accepted in E by assumption. cbv zeta in E.
    destruct m.
    + destruct (process_matching _) as [[bk' ts]|]; [|discriminate].
      injection E as <-. discriminate.
    + injection E as <-. discriminate.
  - intros id r E Hout.
    destruct (order_lookup_ bk !! id) as [o|] eqn:Ho.
    2:{ rewrite cancel_order_unknown in E by assumption. now injection E as <-. }
    rewrite (cancel_order_known _ _ _ Ho) in E. injection E as <-.
    simpl in *. split; [|reflexivity].
    apply remove_order_from_side_refused. congruence.
  - intros Hr id p q m now r Hq E Hout. apply reachable_by_consistent in Hr.
    destruct (order_lookup_ bk !! id) as [o|] eqn:Ho.
    2:{ rewrite amend_order_unknown in E by assumption. now injection E as <-. }
    destruct (Z.eq_dec q 0) as [->|Hz].
    { rewrite (amend_order_zero_quantity _ _ _ _ _ _ Ho) in E.
      now injection E as <-. }
    destruct (Qlt_le_dec 0 p) as [Hp|Hp].
    2:{ rewrite (amend_order_bad_price _ _ _ _ _ _ _ Ho Hz Hp) in E.
        now injection E as <-. }
    exfalso. apply Hout.
    destruct (price_changed (price o) p) eqn:Hpc.
    + destruct (amend_order_reprice_result _ _ _ _ m now _ Hr Ho Hq Hz Hp Hpc)
        as (bk1 & bk2 & ts & _ & _ & _ & _ & E' & _).
      rewrite E' in E. now injection E as <-.
    + rewrite (amend_order_in_place _ _ _ _ _ _ _ Ho Hz Hp Hpc) in E.
      cbv zeta in E. destruct m.
      * destruct (process_matching _) as [[bk' ts]|]; [|discriminate].
        now injection E as <-.
      * now injection E as <-.
Qed.

Lemma rejected_call_is_a_no_op_witness :
  add_order (mkOrder 1 true 101 50 2) true 0 one_buy_book
    = Some (mkResult (Thrown DuplicateId) one_buy_book []) /\
  add_order (mkOrder 2 true 101 0 2) true 0 one_buy_book
    = Some (mkResult (Thrown InvalidQuantity) one_buy_book []) /\
  add_order (mkOrder 2 true 0 50 2) true 0 one_buy_book
    = Some (mkResult (Thrown InvalidPrice) one_buy_book []) /\
  amend_order 1 101 0 true 0 one_buy_book
    = Some (mkResult (Thrown InvalidQuantity) one_buy_book []) /\
  amend_order 1 (-1) 5 true 0 one_buy_book
    = Some (mkResult (Thrown InvalidPrice) one_buy_book []) /\
  cancel_order 999 one_buy_book = Some (mkResult (Returned false) one_buy_book []) /\
  amend_order 999 101 5 true 0 one_buy_book = Some (mkResult (Returned false) one_buy_book []).
Proof.
  destruct (rejected_call_is_a_no_op one_buy_book)
    as (H1 & H2 & H3 & H4 & H5 & H6 & H7 & _).
  splits.
  - apply H1. vm_compute. eauto.
  - apply H2; reflexivity.
  - apply H3; [reflexivity|discriminate|discriminate].
  - apply H4. vm_compute. eauto.
  - apply H5; [vm_compute; eauto|discriminate|discriminate].
  - apply H6. reflexivity.
  - apply H7. reflexivity.
Defined.

(** ** C7: amend at the same price *)

(** C7, as stated, fails when the call is to match and the book is crossed:
    after a buy of 100 at 100 and a sell of 50 at 99 inserted with
    [match_immediately = false], amending the buy to 500 at its price with
    [match_immediately = true] trades 50 with the sell: the sell order is gone
    and the buy order is left with 450, not 500. *)
Lemma amend_at_same_price_then_trades :
  exists bk bk' t,
    run_ops unmatched_cross_ops empty_book = Some (bk, []) /\
    apply_op (Amend 1 100 500 true 0) bk = Some (bk', [t]) /\
    is_Some (order_lookup_ bk !! 2) /\ order_lookup_ bk' !! 2 = None /\
    quantity <$> order_lookup_ bk' !! 1 = Some 450.
Proof.
  do 3 eexists. split; [vm_compute; reflexivity|].
  split; [vm_compute; reflexivity|].
  split; [vm_compute; eauto|]. split; reflexivity.
Qed.

(** C7 (amended): on a book the public calls lead to when the prices they
    are given are numbers (none is NaN), [amend_order] of a resting order with
    a price that is a number within the epsilon of the order's price returns
    true and writes the new quantity into the node and adds the signed
    difference to the total of the node's level.  The node keeps its price,
    side, id and timestamp; every list of every level (so the place of every
    node in its list), every other level, the other side and the statistics
    are as before.  This is the book the call leaves when the matching engine
    is off or the book is not crossed; otherwise the matching engine runs on
    the book so updated before the call returns.  (For an order at NaN the
    difference goes to the first level of the side, whichever level the node
    is linked in: [nan_amend_changes_another_level].) *)
Theorem amend_at_same_price_is_in_place (bk : OrderBook) (id : Z) (o : Order)
    (p : Q) (q now : Z) :
  reachable_on_numbers bk -> order_lookup_ bk !! id = Some o ->
  u64 q -> q <> 0 -> (0 < p)%Q -> price_changed (price o) p = false ->
  exists l bk1,
    find (before_on (is_buy o)) (price o) (side (is_buy o) bk) = Some l /\
    id ∈ nodes l /\
    amend_order id p q false now bk = Some (mkResult (Returned true) bk1 []) /\
    (uncrossed bk ->
     amend_order id p q true now bk = Some (mkResult (Returned true) bk1 [])) /\
    (exists bk' ts,
       process_matching bk1 = Some (bk', ts) /\
       amend_order id p q true now bk = Some (mkResult (Returned true) bk' ts)) /\
    order_lookup_ bk1
      = <[id := mkOrder (order_id o) (is_buy o) (price o) q (timestamp_ns o)]>
          (order_lookup_ bk) /\
    find (before_on (is_buy o)) (price o) (side (is_buy o) bk1)
      = Some (mkLevel (wrap64 (total_quantity l + (q - quantity o))) (nodes l)) /\
    (forall p', ~ (price o == p')%Q ->
       find (before_on (is_buy o)) p' (side (is_buy o) bk1)
       = find (before_on (is_buy o)) p' (side (is_buy o) bk)) /\
    queues (bids_ bk1) = queues (bids_ bk) /\
    queues (asks_ bk1) = queues (asks_ bk) /\
    side (negb (is_buy o)) bk1 = side (negb (is_buy o)) bk /\
    total_trades_ bk1 = total_trades_ bk /\
    total_volume_ bk1 = total_volume_ bk.
Proof.
  intros Hr Ho Hq Hz Hp Hpc. apply reachable_on_numbers_iff in Hr. apply reachable_by_consistent in Hr.
  destruct (resting_level _ _ _ Hr Ho) as (l & Hfind & Hin & _).
  exists l, (amend_in_place id o q bk).
  pose proof (amend_order_in_place _ _ _ _ false now _ Ho Hz Hp Hpc) as E0.
  pose proof (amend_order_in_place _ _ _ _ true now _ Ho Hz Hp Hpc) as E1.
  cbv zeta in E0, E1.
  pose proof (amend_in_place_queues id o q bk true) as Qb.
  pose proof (amend_in_place_queues id o q bk false) as Qa.
  simpl in Qb, Qa.
  splits; try assumption.
  - intros Hu. rewrite E1.
    rewrite process_matching_leaves; [reflexivity|].
    apply match_step_uncrossed.
    eapply uncrossed_queues; eassumption.
  - destruct (process_matching_total _
                (amend_in_place_consistent _ _ _ _ Hr Ho Hq))
      as (bk' & ts & E & _).
    exists bk', ts. split; [assumption|]. now rewrite E1, E.
  - unfold amend_in_place. simpl. now rewrite lookup_set_side.
  - unfold amend_in_place. rewrite side_set_lookup, side_set_side.
    rewrite (find_modify_hit _ _ _ _ _ Hfind). now rewrite wrap64_signed_delta.
  - intros p' Hp'. pose proof (not_Qeq_same_key (is_buy o) _ _ Hp') as Hs.
    unfold amend_in_place. rewrite side_set_lookup, side_set_side.
    apply find_modify_miss; [typeclasses eauto|assumption].
  - unfold amend_in_place. rewrite side_set_lookup. apply side_set_side_other.
  - unfold amend_in_place. now destruct (is_buy o).
  - unfold amend_in_place. now destruct (is_buy o).
Qed.

(** Scenario D: order 1 of [two_buys_book] is amended to 500 at its price. *)
Lemma amend_at_same_price_is_in_place_witness :
  exists bk1,
    amend_order 1 100 500 true 0 two_buys_book
      = Some (mkResult (Returned true) bk1 []) /\
    find (before_on true) 100%Q (bids_ bk1) = Some (mkLevel 700 [1; 2]) /\
    queues (bids_ bk1) = [(100%Q, [1; 2])].
Proof.
  assert (Hq : u64 500) by (vm_compute; repeat split; discriminate).
  assert (Hz : 500 <> 0) by discriminate.
  assert (Hp : (0 < 100)%Q) by reflexivity.
  destruct (amend_at_same_price_is_in_place two_buys_book 1
              (mkOrder 1 true 100 100 1) 100 500 0 two_buys_book_on_numbers
              eq_refl Hq Hz Hp eq_refl)
    as (l & bk1 & Hfind & _ & _ & E & _ & _ & Hlevel & _ & Qb & _).
  injection Hfind as <-.
  exists bk1. splits.
  - apply E. vm_compute. auto.
  - exact Hlevel.
  - exact Qb.
Defined.

(** Scenario D, to its end: a sell order that crosses fills order 1 first. *)
Example amended_order_keeps_its_turn :
  exists bk t,
    run_ops [Amend 1 100 500 true 0; Insert (mkOrder 3 false 100 50 3) true 0]
      two_buys_book = Some (bk, [t]) /\
    order_id (trade_buy t) = 1 /\ trade_quantity t = 50 /\
    get_snapshot_side 1 (bids_ bk) = [mkPriceLevel 100 650] /\
    queues (bids_ bk) = [(100%Q, [1; 2])].
Proof. do 2 eexists. split; [vm_compute; reflexivity|]. now vm_compute. Qed.

(** ** C8: time priority within a level *)

(** C8: on a book the public calls lead to, an accepted insert links the new
    node at the tail of the list of the level of its price, behind every node
    that was there; a turn of the matching loop trades the node at the head
    of the first level of the bids against the node at the head of the first
    level of the asks; and so, in a run of the matching engine, once an order
    has traded, no order that was linked ahead of it in its level trades any
    more: the orders of a level are filled in the order they were linked. *)
Theorem time_priority_within_a_level (bk : OrderBook) :
  reachable bk ->
  (forall o now r,
     add_order o false now bk = Some r -> outcome r = Returned tt ->
     exists l',
       find (before_on (is_buy o)) (price o) (side (is_buy o) (book r))
         = Some l' /\
       nodes l'
       = nodes (default empty_level
                  (find (before_on (is_buy o)) (price o) (side (is_buy o) bk)))
         ++ [order_id o]) /\
  (forall bk1 t,
     match_step bk = Traded bk1 t ->
     exists best_bid bl bids best_ask al asks bq sq,
       bids_ bk = (best_bid, bl) :: bids /\ asks_ bk = (best_ask, al) :: asks /\
       nodes bl = order_id (trade_buy t) :: bq /\
       nodes al = order_id (trade_sell t) :: sq) /\
  (exists bk' ts, process_matching bk = Some (bk', ts)) /\
  (forall y x bk' ts,
     ahead bk y x -> process_matching bk = Some (bk', ts) ->
     forall i j ti tj,
       ts !! i = Some ti -> ts !! j = Some tj ->
       involves ti x -> (i <= j)%nat -> ~ involves tj y).
Proof.
  intros Hr. apply reachable_by_consistent in Hr. splits.
  - intros o now r E Hout.
    destruct (order_lookup_ bk !! order_id o) as [o'|] eqn:Ho.
    { rewrite add_order_duplicate in E by eauto.
      injection E as <-. discriminate. }
    destruct (Z.eq_dec (quantity o) 0) as [Hz|Hz].
    { rewrite add_order_zero_quantity in E by assumption.
      injection E as <-. discriminate. }
    destruct (Qlt_le_dec 0 (price o)) as [Hp|Hp].
    2:{ rewrite add_order_bad_price in E by assumption.
        injection E as <-. discriminate. }
    rewrite add_order_accepted in E by assumption. injection E as <-.
    cbn [book]. eexists.
    destruct (stamp_fields now o) as (E1 & E2 & E3 & E4).
    rewrite <- E3 at 1. split.
    + apply add_order_to_side_tail.
      pose proof (proj1 (consistent_sides (is_buy o) bk) Hr) as ([Hord _] & _).
      exact Hord.
    + simpl. now rewrite E1, E3.
  - intros bk1 t Hstep.
    destruct (match_step_traded _ _ _ Hr Hstep)
      as (best_bid & bl & bids & best_ask & al & asks & bh & bq & sh & sq & b & s
          & Eb & Ea & Nb & Na & Hb & Hs & _ & _ & _ & ->).
    destruct (resting_level _ _ _ Hr Hb) as (_ & _ & _ & Ib & _).
    destruct (resting_level _ _ _ Hr Hs) as (_ & _ & _ & Is & _).
    exists best_bid, bl, bids, best_ask, al, asks, bq, sq. simpl.
    rewrite Ib, Is. auto.
  - destruct (process_matching_total _ Hr) as (bk' & ts & E & _). eauto.
  - intros y x bk' ts Ha E.
    exact (process_matching_loop_fifo _ _ _ _ _ _ Hr Ha E).
Qed.

Lemma time_priority_within_a_level_witness :
  exists bk' t1 t2,
    process_matching fifo_book = Some (bk', [t1; t2]) /\
    order_id (trade_buy t1) = 1 /\ trade_quantity t1 = 100 /\
    order_id (trade_buy t2) = 2 /\ trade_quantity t2 = 50 /\
    ~ involves t2 1.
Proof.
  do 3 eexists. split; [vm_compute; reflexivity|].
  splits; try reflexivity.
  assert (Hr : reachable fifo_book).
  { eapply (run_ops_reachable_by _ fifo_ops empty_book);
      [apply reach_empty| |vm_compute; reflexivity].
    vm_compute. repeat split; discriminate. }
  assert (Ha : ahead fifo_book 1 2).
  { exists true, (100%Q, mkLevel 300 [1; 2]), [], [], [].
    split; [apply list_elem_of_here|reflexivity]. }
  destruct (time_priority_within_a_level fifo_book Hr) as (_ & _ & _ & H).
  refine (H 1 2 _ _ Ha _ 1%nat 1%nat _ _ _ _ _ _).
  - vm_compute. reflexivity.
  - reflexivity.
  - reflexivity.
  - left. reflexivity.
  - lia.
Defined.

(** ** C9: cancel *)

(** C9, at the failing input: [cancel_order] of the order at NaN, the only
    order linked in the level at 100, while the first level of the bids is
    the level at 101.  The call returns true and erases the entry of the
    index, but [bids_.find(NaN)] is the level at 101: that level loses the
    quantity of 5 (7 to 2), and the level at 100 keeps its total and its node
    and is not erased. *)
Lemma cancel_at_nan_changes_another_level :
  exists d d',
    Double.run_ops nan_behind_ops Double.empty_book = Some (d, []) /\
    Double.bids_ d = [(Double.Num 101, mkLevel 7 [3]);
                      (Double.Num 100, mkLevel 5 [2])] /\
    Double.order_lookup_ d !! 2 = Some (Double.mkOrder 2 true Double.NaN 5 2) /\
    Double.cancel_order 2 d = Some (Double.mkResult (Returned true) d' []) /\
    Double.bids_ d' = [(Double.Num 101, mkLevel 2 [3]);
                       (Double.Num 100, mkLevel 5 [2])] /\
    Double.order_lookup_ d' !! 2 = None.
Proof.
  do 2 eexists. split; [vm_compute; reflexivity|].
  split; [reflexivity|]. split; [now vm_compute|].
  split; [vm_compute; reflexivity|]. now vm_compute.
Qed.

(** ** C10: the spread *)

(** C10, as stated, fails: with one sell order resting at 101 and the bid side
    empty, [get_spread] returns 101, not zero. *)
Lemma spread_one_side_empty :
  exists bk,
    run_ops ask_only_ops empty_book = Some (bk, []) /\
    bids_ bk = [] /\ get_best_ask bk = 101%Q /\
    get_spread bk = (101 - 0)%Q /\ ~ (get_spread bk == 0)%Q.
Proof.
  eexists. split; [vm_compute; reflexivity|].
  repeat split. intros H. vm_compute in H. discriminate.
Qed.

(** C10 (amended): [get_spread] returns [get_best_ask - get_best_bid], where
    the best price of an empty side is the sentinel zero.  So the spread is
    zero when both sides are empty; when only the bid side is empty it is the
    best ask, and when only the ask side is empty it is minus the best bid,
    neither of which is zero in a book the public calls lead to. *)
Theorem spread_is_difference_of_best_prices (bk : OrderBook) :
  get_spread bk = (get_best_ask bk - get_best_bid bk)%Q /\
  (bids_ bk = [] -> get_best_bid bk = 0%Q) /\
  (asks_ bk = [] -> get_best_ask bk = 0%Q) /\
  (bids_ bk = [] -> asks_ bk = [] -> (get_spread bk == 0)%Q) /\
  (bids_ bk = [] -> (get_spread bk == get_best_ask bk)%Q) /\
  (asks_ bk = [] -> (get_spread bk == - get_best_bid bk)%Q) /\
  (reachable bk -> bids_ bk = [] -> asks_ bk <> [] -> (0 < get_spread bk)%Q) /\
  (reachable bk -> asks_ bk = [] -> bids_ bk <> [] -> (get_spread bk < 0)%Q).
Proof.
  unfold get_spread, get_best_ask, get_best_bid.
  splits; try reflexivity.
  - now intros ->.
  - now intros ->.
  - now intros -> ->.
  - intros ->. ring.
  - intros ->. ring.
  - intros Hr -> Ha. apply reachable_by_consistent in Hr.
    destruct (asks_ bk) as [|[p l] rest] eqn:E; [congruence|].
    pose proof (best_price_positive false bk p l rest Hr E) as Hp.
    lra.
  - intros Hr -> Hb. apply reachable_by_consistent in Hr.
    destruct (bids_ bk) as [|[p l] rest] eqn:E; [congruence|].
    pose proof (best_price_positive true bk p l rest Hr E) as Hp.
    lra.
Qed.

Lemma spread_is_difference_of_best_prices_witness :
  exists bk,
    run_ops ask_only_ops empty_book = Some (bk, []) /\ (0 < get_spread bk)%Q.
Proof.
  eexists. split; [vm_compute; reflexivity|].
  refine (proj1 (proj2 (proj2 (proj2 (proj2 (proj2 (proj2
    (spread_is_difference_of_best_prices _))))))) _ _ _).
  - eapply (run_ops_reachable_by _ ask_only_ops empty_book);
      [apply reach_empty| |vm_compute; reflexivity].
    vm_compute. repeat split; discriminate.
  - reflexivity.
  - discriminate.
Defined.

(** * Further properties *)

(** ** Ordered maps: a property of every element, whatever its key *)

Section OrderedMapAll.
Context {K V : Type} (before : K -> K -> bool).
Implicit Types (k : K) (v : V) (m : list (K * V)) (f : V -> V).

Lemma Forall_modify_all (P : K * V -> Prop) k f m :
  (forall e, P e -> P (fst e, f (snd e))) ->
  Forall P m -> Forall P (modify before k f m).
Proof.
  intros Hf. induction 1 as [|[k' v'] m H Hm IH]; simpl; [constructor|].
  destruct (same_key before k k').
  - constructor; [exact (Hf _ H)|assumption].
  - constructor; assumption.
Qed.

Lemma Forall_erase_all (P : K * V -> Prop) k m :
  Forall P m -> Forall P (erase before k m).
Proof.
  induction 1 as [|[k' v'] m H Hm IH]; simpl; [constructor|].
  destruct (same_key before k k'); [assumption|constructor; auto].
Qed.

Lemma Forall_subscript_all (P : K * V -> Prop) k dflt f m :
  P (k, f dflt) -> (forall e, P e -> P (fst e, f (snd e))) ->
  Forall P m -> Forall P (subscript before k dflt f m).
Proof.
  intros Hnew Hf. induction 1 as [|[k' v'] m H Hm IH]; simpl.
  - constructor; [assumption|constructor].
  - destruct (before k k'); [|destruct (before k' k)].
    + constructor; [assumption|]. constructor; assumption.
    + constructor; assumption.
    + constructor; [exact (Hf _ H)|assumption].
Qed.

(** The first element after [m[k]]: the new element or the old first one. *)
Lemma subscript_head k dflt f m k1 v1 rest :
  subscript before k dflt f m = (k1, v1) :: rest ->
  k1 = k \/ exists v0 rest0, m = (k1, v0) :: rest0.
Proof.
  destruct m as [|[k' v'] m]; simpl.
  - intros [= <- _ _]. now left.
  - destruct (before k k'); [|destruct (before k' k)].
    + intros [= <- _ _]. now left.
    + intros [= <- _ _]. right. eauto.
    + intros [= <- _ _]. right. eauto.
Qed.
End OrderedMapAll.

Section OrderedMapRoundTrip.
Context {K V : Type} (before : K -> K -> bool) `{!StrictWeakOrder before}.
Implicit Types (k : K) (v : V) (m : list (K * V)) (f : V -> V).

(** An element that [m[k]] has inserted is erased again. *)
Lemma erase_subscript_new k dflt f m :
  ordered before m -> find before k m = None ->
  erase before k (subscript before k dflt f m) = m.
Proof.
  induction m as [|[k' v'] m IH]; simpl.
  - intros _ _. now rewrite same_key_refl.
  - intros [Hh Ht].
    destruct (before k k') eqn:E1; [|destruct (before k' k) eqn:E2]; simpl.
    + intros _. now rewrite same_key_refl.
    + rewrite (before_not_same_r _ _ _ E2). intros H. now rewrite IH.
    + assert (E : same_key before k k' = true)
        by (unfold same_key; now rewrite E1, E2).
      rewrite E. discriminate.
Qed.

(** An update of [m[k]] is undone by an update of the same element. *)
Lemma modify_subscript_old k dflt f g v m :
  ordered before m -> find before k m = Some v -> g (f v) = v ->
  modify before k g (subscript before k dflt f m) = m.
Proof.
  intros Hord Hfind Hg. induction m as [|[k' v'] m IH]; simpl in *; [discriminate|].
  destruct Hord as [Hh Ht].
  destruct (before k k') eqn:E1; [|destruct (before k' k) eqn:E2]; simpl.
  - exfalso. rewrite (before_not_same _ _ _ E1) in Hfind.
    rewrite find_not_same in Hfind; [discriminate|].
    eapply Forall_impl; [exact Hh|]. intros e He. cbn beta in He.
    apply before_not_same.
    eapply (before_trans before); eassumption.
  - rewrite (before_not_same_r _ _ _ E2) in *. now rewrite IH.
  - assert (E : same_key before k k' = true)
      by (unfold same_key; now rewrite E1, E2).
    rewrite E in *. injection Hfind as ->. now rewrite Hg.
Qed.

(** The keys of an ordered map stand in the order of their ranks. *)
Lemma ordered_lookup_before m i j e1 e2 :
  ordered before m -> (i < j)%nat -> m !! i = Some e1 -> m !! j = Some e2 ->
  before (fst e1) (fst e2) = true.
Proof.
  revert i j. induction m as [|[k' v'] m IH]; intros i j Hord Hij Hi Hj.
  - now rewrite lookup_nil in Hi.
  - destruct Hord as [Hh Ht]. destruct j as [|j]; [lia|]. simpl in Hj.
    destruct i as [|i]; simpl in Hi.
    + injection Hi as <-. rewrite Forall_forall in Hh. simpl.
      apply Hh. eapply list_elem_of_lookup_2. exact Hj.
    + eapply (IH i j); eauto. lia.
Qed.

(** The first key stands before every other key. *)
Lemma ordered_head_first k v m e :
  ordered before ((k, v) :: m) -> e ∈ (k, v) :: m ->
  e = (k, v) \/ before k (fst e) = true.
Proof.
  intros [Hh _] He. apply elem_of_cons in He as [->|He]; [now left|].
  right. rewrite Forall_forall in Hh. now apply Hh.
Qed.
End OrderedMapRoundTrip.

(** ** The runs of the matching loop *)

Lemma process_matching_loop_run n bk bk' ts :
  process_matching_loop n bk = Some (bk', ts) -> matching_run bk ts bk'.
Proof.
  revert bk ts. induction n as [|n IH]; intros bk ts; simpl; [discriminate|].
  destruct (match_step bk) as [| |bk1 t] eqn:E.
  - intros [= <- <-]. now apply run_leave.
  - discriminate.
  - destruct (process_matching_loop n bk1) as [[bk2 ts2]|] eqn:E2; [|discriminate].
    intros [= <- <-]. eapply run_trade; [exact E|]. now apply IH.
Qed.

(** On a consistent book the loop comes to its end, and what it returns is a
    run. *)
Lemma matching_run_total bk :
  consistent bk ->
  exists bk' ts, process_matching bk = Some (bk', ts) /\ matching_run bk ts bk'.
Proof.
  intros Hc. destruct (process_matching_total _ Hc) as (bk' & ts & E & _).
  exists bk', ts. split; [assumption|].
  exact (process_matching_loop_run _ _ _ _ E).
Qed.

(** ** What a turn of the loop does to the index and the counters *)

Lemma remove_order_from_side_counters buy id bk :
  total_trades_ (snd (remove_order_from_side buy id bk)) = total_trades_ bk /\
  total_volume_ (snd (remove_order_from_side buy id bk)) = total_volume_ bk.
Proof.
  unfold remove_order_from_side.
  destruct (order_lookup_ bk !! id) as [o|]; [|auto].
  destruct (find _ _ _); [|auto]. destruct buy; simpl; auto.
Qed.

Lemma remove_if_filled_counters buy id bk bk' :
  remove_if_filled buy id bk = Some bk' ->
  total_trades_ bk' = total_trades_ bk /\ total_volume_ bk' = total_volume_ bk.
Proof.
  unfold remove_if_filled.
  destruct (order_lookup_ bk !! id) as [o|]; [|discriminate].
  destruct (quantity o =? 0); intros [= <-]; [|auto].
  apply remove_order_from_side_counters.
Qed.

(** The node at the head of the best level of a side is an order of the best
    price of the side. *)
Lemma head_of_best_level buy bk p l rest x q :
  consistent bk -> side buy bk = (p, l) :: rest -> nodes l = x :: q ->
  exists o, order_lookup_ bk !! x = Some o /\ order_id o = x /\
            is_buy o = buy /\ (price o == p)%Q /\ u64 (quantity o).
Proof.
  intros Hc E N.
  destruct (level_facts buy bk (p, l) Hc) as [_ Hn].
  { rewrite E. apply list_elem_of_here. }
  destruct (Hn x) as (o & Ho & Hb & Hk & Hq).
  { simpl. rewrite N. apply list_elem_of_here. }
  destruct (resting_level _ _ _ Hc Ho) as (_ & _ & _ & Hid & _).
  exists o. splits; try assumption. now apply same_key_Qeq in Hk.
Qed.

(** A turn that trades: the two orders are the heads of the two best levels;
    the trade takes the smaller of their quantities off both; an order that
    is left with nothing is erased; no other order changes; the counters
    count the trade. *)
Lemma match_step_effect bk bk1 t :
  consistent bk -> match_step bk = Traded bk1 t ->
  exists b s,
    t = mkTrade (Z.min (quantity b) (quantity s)) (fmin (price b) (price s)) b s /\
    order_lookup_ bk !! order_id b = Some b /\
    order_lookup_ bk !! order_id s = Some s /\
    is_buy b = true /\ is_buy s = false /\
    u64 (quantity b) /\ u64 (quantity s) /\
    (price b == get_best_bid bk)%Q /\ (price s == get_best_ask bk)%Q /\
    (forall x, order_lookup_ bk1 !! x =
       if decide (x = order_id b) then
         if quantity b <=? quantity s then None
         else Some (set_quantity (quantity b - quantity s) b)
       else if decide (x = order_id s) then
         if quantity s <=? quantity b then None
         else Some (set_quantity (quantity s - quantity b) s)
       else order_lookup_ bk !! x) /\
    size (order_lookup_ bk)
      = (size (order_lookup_ bk1)
         + (if (quantity b <=? quantity s)%Z then 1 else 0)
         + (if (quantity s <=? quantity b)%Z then 1 else 0))%nat /\
    total_trades_ bk1 = wrap64 (total_trades_ bk + 1) /\
    total_volume_ bk1
      = wrap64 (total_volume_ bk + Z.min (quantity b) (quantity s)).
Proof.
  intros Hc Hstep.
  destruct (match_step_traded _ _ _ Hc Hstep)
    as (best_bid & bl & bids & best_ask & al & asks & bh & bq & sh & sq & b & s
        & Eb & Ea & Nb & Na & Hb & Hs & Bb & Bs & E & ->).
  destruct (head_of_best_level true bk _ _ _ _ _ Hc Eb Nb)
    as (b' & Hb' & Ib & _ & Pb & Qb).
  destruct (head_of_best_level false bk _ _ _ _ _ Hc Ea Na)
    as (s' & Hs' & Is & _ & Ps & Qs).
  assert (b' = b) as -> by congruence. assert (s' = s) as -> by congruence.
  assert (Hne : bh ≠ sh) by (intros ->; congruence).
  destruct (execute_trade_chain _ _ _ _ _ _ _ _ Hc Hb Hs Bb Bs E)
    as (bk5 & Hc4 & Hb4 & E5 & Hc5 & Hs5 & E6 & L6).
  destruct (remove_if_filled_consistent _ _ _ Hc4 Hb4) as (bk5' & E5' & _ & L5).
  assert (bk5' = bk5) as -> by congruence.
  destruct (remove_if_filled_counters _ _ _ _ E5) as [T5 V5].
  destruct (remove_if_filled_counters _ _ _ _ E6) as [T6 V6].
  simpl in L5, L6, T5, V5.
  assert (Hwb : wrap64 (quantity b - Z.min (quantity b) (quantity s))
                = quantity b - Z.min (quantity b) (quantity s))
    by (apply wrap64_small; unfold u64 in *; lia).
  assert (Hws : wrap64 (quantity s - Z.min (quantity b) (quantity s))
                = quantity s - Z.min (quantity b) (quantity s))
    by (apply wrap64_small; unfold u64 in *; lia).
  rewrite Hwb in L5. rewrite Hws in L6.
  exists b, s. rewrite Ib, Is.
  unfold get_best_bid, get_best_ask. rewrite Eb, Ea.
  splits; try assumption; try reflexivity.
  - intros x. rewrite L6, L5.
    destruct (Z.leb_spec (quantity b) (quantity s)) as [Hle|Hlt];
      destruct (Z.leb_spec (quantity s) (quantity b)) as [Hle'|Hlt'];
      try lia;
      repeat match goal with
             | |- context [?a =? 0] =>
                 destruct (Z.eqb_spec a 0); try lia
             end;
      repeat case_decide; subst;
      rewrite ?lookup_delete_eq, ?lookup_delete_ne by congruence;
      rewrite ?lookup_alter_eq, ?lookup_alter_ne by congruence;
      rewrite ?lookup_delete_eq, ?lookup_delete_ne by congruence;
      rewrite ?lookup_alter_eq, ?lookup_alter_ne by congruence;
      rewrite ?Hb, ?Hs; simpl; rewrite ?Hwb, ?Hws;
      try reflexivity; try congruence.
    + replace (Z.min (quantity b) (quantity s)) with (quantity b) by lia.
      reflexivity.
    + replace (Z.min (quantity b) (quantity s)) with (quantity s) by lia.
      reflexivity.
  - rewrite L6, L5.
    set (lk4 := alter _ sh (alter _ bh (order_lookup_ bk))).
    assert (S4 : size lk4 = size (order_lookup_ bk))
      by (unfold lk4; now rewrite !size_alter).
    assert (Hb4' : is_Some (lk4 !! bh)).
    { unfold lk4. rewrite lookup_alter_ne by congruence.
      rewrite lookup_alter_eq, Hb. simpl. eauto. }
    assert (Hs4' : is_Some (lk4 !! sh)).
    { unfold lk4. rewrite lookup_alter_eq, lookup_alter_ne by congruence.
      rewrite Hs. simpl. eauto. }
    assert (P4 : (2 <= size lk4)%nat).
    { destruct Hb4' as [ob Hob], Hs4' as [os Hos].
      rewrite <- (insert_id lk4 bh ob Hob).
      rewrite <- (insert_delete_eq lk4).
      rewrite map_size_insert_None by apply lookup_delete_eq.
      assert (Hd : delete bh lk4 !! sh = Some os)
        by (now rewrite lookup_delete_ne by congruence).
      destruct (size (delete bh lk4)) eqn:Ez; [|lia].
      apply map_size_empty_inv in Ez. rewrite Ez, lookup_empty in Hd.
      discriminate. }
    rewrite <- S4.
    destruct (Z.leb_spec (quantity b) (quantity s)) as [Hle|Hlt];
      destruct (Z.leb_spec (quantity s) (quantity b)) as [Hle'|Hlt'];
      try lia;
      repeat match goal with
             | |- context [?a =? 0] =>
                 destruct (Z.eqb_spec a 0); try lia
             end;
      rewrite ?(map_size_delete_Some sh) by
        (rewrite ?lookup_delete_ne by congruence; assumption);
      rewrite ?(map_size_delete_Some bh) by assumption; lia.
  - now rewrite T6, T5.
  - now rewrite V6, V5.
Qed.

(** ** Ranges *)

(** *** The totals of the levels are [uint64_t]s *)

Lemma add_order_to_side_totals buy o bk :
  every_level level_total_u64 bk ->
  every_level level_total_u64 (add_order_to_side buy o bk).
Proof.
  intros [Hb Ha]. unfold every_level, add_order_to_side, level_total_u64 in *.
  destruct buy; simpl; (split; [|]); try assumption;
    (apply Forall_subscript_all; [apply wrap64_u64| |assumption]);
    intros e _; apply wrap64_u64.
Qed.

Lemma remove_order_from_side_totals buy id bk :
  (forall o, order_lookup_ bk !! id = Some o -> 0 <= quantity o) ->
  every_level level_total_u64 bk ->
  every_level level_total_u64 (snd (remove_order_from_side buy id bk)).
Proof.
  intros Hq [Hb Ha]. unfold remove_order_from_side.
  destruct (order_lookup_ bk !! id) as [o|]; [|now split].
  specialize (Hq o eq_refl).
  destruct (find _ _ _) as [l|]; [|now split].
  assert (Hdrop : forall e : Q * PriceLevelData,
            u64 (total_quantity (snd e)) ->
            u64 (total_quantity (snd (fst e, drop_node id o (snd e))))).
  { intros e He. simpl. unfold u64 in *.
    destruct (Z.leb_spec (quantity o) (total_quantity (snd e))); lia. }
  unfold every_level, level_total_u64 in *.
  destruct buy; simpl; (split; [|]); try assumption;
    destruct (unlink id (nodes l));
    solve [now apply Forall_erase_all | now apply Forall_modify_all].
Qed.

Lemma remove_if_filled_totals buy id bk bk' :
  consistent bk -> every_level level_total_u64 bk ->
  remove_if_filled buy id bk = Some bk' -> every_level level_total_u64 bk'.
Proof.
  intros Hc Ht. unfold remove_if_filled.
  destruct (order_lookup_ bk !! id) as [o|]; [|discriminate].
  destruct (quantity o =? 0); intros [= <-]; [|assumption].
  apply remove_order_from_side_totals; [|assumption].
  intros o' Ho'. destruct (resting_level _ _ _ Hc Ho') as (_ & _ & _ & _ & Hq & _).
  apply Hq.
Qed.

Lemma after_fills_totals bh sh q b s bk :
  every_level level_total_u64 bk ->
  every_level level_total_u64 (after_fills bh sh q b s bk).
Proof.
  intros [Hb Ha]. unfold every_level, after_fills, level_total_u64 in *. simpl.
  split; (apply Forall_modify_all; [|assumption]); intros e _; apply wrap64_u64.
Qed.

Lemma amend_in_place_totals id o q bk :
  every_level level_total_u64 bk ->
  every_level level_total_u64 (amend_in_place id o q bk).
Proof.
  intros [Hb Ha]. unfold every_level, amend_in_place, level_total_u64 in *.
  destruct (is_buy o); simpl; (split; [|]); try assumption;
    (apply Forall_modify_all; [|assumption]); intros e _; apply wrap64_u64.
Qed.

(** *** What [edit] keeps *)

Lemma edit_keeps bk bk' :
  edit bk bk' -> consistent bk -> in_range bk ->
  consistent bk' /\ in_range bk' /\
  total_trades_ bk' = total_trades_ bk /\ total_volume_ bk' = total_volume_ bk.
Proof.
  induction 1 as [bk|bk o Hfresh Hq Hz Hp|bk id o bk' Ho E|bk id o q Ho Hq Hz
                 |bk bk1 bk2 _ IH1 _ IH2];
    intros Hc (Hr & Ht & Hn & Hv).
  - unfold in_range. splits; auto.
  - split; [now apply add_order_to_side_consistent|].
    split; [|unfold add_order_to_side; destruct (is_buy o); simpl; auto].
    split; [|split; [now apply add_order_to_side_totals|]].
    + intros x o' Hx. unfold add_order_to_side in Hx. rewrite lookup_set_side in Hx.
      simpl in Hx. destruct (decide (order_id o = x)) as [<-|Hne].
      * rewrite lookup_insert_eq in Hx. congruence.
      * rewrite lookup_insert_ne in Hx by assumption. eauto.
    + unfold add_order_to_side. destruct (is_buy o); simpl; auto.
  - destruct (remove_order_from_side_consistent _ _ _ Hc Ho)
      as (bk2 & E2 & Hc2 & L2 & _ & T2 & V2).
    assert (bk2 = bk') as -> by congruence.
    split; [assumption|]. split; [|auto].
    split; [|split; [|rewrite T2, V2; auto]].
    + intros x o' Hx. rewrite L2 in Hx.
      apply lookup_delete_Some in Hx as [_ Hx]. eauto.
    + replace bk' with (snd (remove_order_from_side (is_buy o) id bk))
        by now rewrite E.
      apply remove_order_from_side_totals; [|assumption].
      intros o' Ho'.
      destruct (resting_level _ _ _ Hc Ho') as (_ & _ & _ & _ & Hq' & _).
      apply Hq'.
  - split; [now apply amend_in_place_consistent|].
    split; [|unfold amend_in_place; destruct (is_buy o); simpl; auto].
    split; [|split; [now apply amend_in_place_totals|]].
    + intros x o' Hx. unfold amend_in_place in Hx. simpl in Hx.
      rewrite lookup_set_side in Hx.
      destruct (decide (id = x)) as [<-|Hne].
      * rewrite lookup_insert_eq in Hx. injection Hx as <-. exact Hz.
      * rewrite lookup_insert_ne in Hx by assumption. eauto.
    + unfold amend_in_place. destruct (is_buy o); simpl; auto.
  - destruct (IH1 Hc) as (Hc1 & Hr1 & T1 & V1); [unfold in_range; auto|].
    destruct (IH2 Hc1 Hr1) as (Hc2 & Hr2 & T2 & V2).
    rewrite T2, V2. auto.
Qed.

(** *** What a turn and a run of the loop keep *)

Lemma match_step_in_range bk bk1 t :
  consistent bk -> in_range bk -> match_step bk = Traded bk1 t ->
  in_range bk1.
Proof.
  intros Hc (Hr & Ht & Hn & Hv) Hstep.
  destruct (match_step_effect _ _ _ Hc Hstep)
    as (b & s & -> & Hb & Hs & Bb & Bs & Qb & Qs & _ & _ & L & _ & T & V).
  split; [|split; [|rewrite T, V; split; apply wrap64_u64]].
  - intros x o Hx. rewrite L in Hx.
    repeat case_decide.
    + destruct (Z.leb_spec (quantity b) (quantity s)); [discriminate|].
      injection Hx as <-. simpl. lia.
    + destruct (Z.leb_spec (quantity s) (quantity b)); [discriminate|].
      injection Hx as <-. simpl. lia.
    + eauto.
  - destruct (match_step_traded _ _ _ Hc Hstep)
      as (? & ? & ? & ? & ? & ? & bh & ? & sh & ? & b' & s' & _ & _ & _ & _
          & Hb' & Hs' & Bb' & Bs' & E & _).
    destruct (execute_trade_chain _ _ _ _ _ _ _ _ Hc Hb' Hs' Bb' Bs' E)
      as (bk5 & Hc4 & _ & E5 & Hc5 & _ & E6 & _).
    eapply remove_if_filled_totals; [exact Hc5| |exact E6].
    eapply remove_if_filled_totals; [exact Hc4| |exact E5].
    now apply after_fills_totals.
Qed.

Lemma traded_volume_cons t ts :
  traded_volume (t :: ts) = trade_quantity t + traded_volume ts.
Proof. reflexivity. Qed.

(** The counters count the trades of a run. *)
Lemma matching_run_keeps bk ts bk' :
  matching_run bk ts bk' -> consistent bk -> in_range bk ->
  consistent bk' /\ in_range bk' /\
  total_trades_ bk' = wrap64 (total_trades_ bk + Z.of_nat (length ts)) /\
  total_volume_ bk' = wrap64 (total_volume_ bk + traded_volume ts).
Proof.
  induction 1 as [bk E|bk bk1 t ts bk' E _ IH]; intros Hc Hr.
  - pose proof Hr as (_ & _ & Hn & Hv). simpl.
    rewrite !Z.add_0_r, !wrap64_small by assumption. auto.
  - pose proof (match_step_consistent bk Hc) as Hc1. rewrite E in Hc1.
    destruct Hc1 as (Hc1 & _).
    pose proof (match_step_in_range _ _ _ Hc Hr E) as Hr1.
    destruct (IH Hc1 Hr1) as (Hc' & Hr' & T & V).
    destruct (match_step_effect _ _ _ Hc E)
      as (b & s & -> & _ & _ & _ & _ & _ & _ & _ & _ & _ & _ & T1 & V1).
    split; [assumption|]. split; [assumption|].
    rewrite T, V, T1, V1, traded_volume_cons. simpl trade_quantity.
    rewrite !wrap64_idemp_l. split; f_equal; simpl length; lia.
Qed.

(** ** A public call is an edit followed by a run of the loop, or by none *)

Lemma apply_op_edit_run op bk bk' ts :
  consistent bk -> op_ok op -> apply_op op bk = Some (bk', ts) ->
  exists bk1,
    edit bk bk1 /\ (matching_run bk1 ts bk' \/ (bk' = bk1 /\ ts = [])).
Proof.
  intros Hc Hok. destruct op as [o m now|id|id p q m now|]; simpl in *.
  - destruct Hok as (_ & Hq & _).
    destruct (order_lookup_ bk !! order_id o) as [o'|] eqn:Ho.
    { rewrite add_order_duplicate by eauto. intros [= <- <-].
      exists bk. split; [apply edit_none|auto]. }
    destruct (Z.eq_dec (quantity o) 0) as [Hz|Hz].
    { rewrite add_order_zero_quantity by assumption. intros [= <- <-].
      exists bk. split; [apply edit_none|auto]. }
    destruct (Qlt_le_dec 0 (price o)) as [Hp|Hp].
    2:{ rewrite add_order_bad_price by assumption. intros [= <- <-].
        exists bk. split; [apply edit_none|auto]. }
    rewrite add_order_accepted by assumption. cbv zeta.
    destruct (stamp_fields now o) as (E1 & E2 & E3 & E4).
    assert (He : edit bk (add_order_to_side (is_buy o) (stamp now o) bk)).
    { rewrite <- E2. apply edit_add; congruence. }
    destruct m.
    + destruct (process_matching _) as [[bk2 ts2]|] eqn:E; [|discriminate].
      simpl. intros [= <- <-]. eexists. split; [exact He|]. left.
      exact (process_matching_loop_run _ _ _ _ E).
    + simpl. intros [= <- <-]. eexists. split; [exact He|]. auto.
  - destruct (order_lookup_ bk !! id) as [o|] eqn:Ho.
    + destruct (cancel_order_consistent _ _ _ Hc Ho) as (bk1 & E & Er & _).
      rewrite E. simpl. intros [= <- <-].
      exists bk1. split; [eapply edit_remove; eassumption|auto].
    + rewrite cancel_order_unknown by assumption. simpl. intros [= <- <-].
      exists bk. split; [apply edit_none|auto].
  - destruct Hok as (_ & Hq & _).
    destruct (order_lookup_ bk !! id) as [o|] eqn:Ho.
    2:{ rewrite amend_order_unknown by assumption. intros [= <- <-].
        exists bk. split; [apply edit_none|auto]. }
    destruct (Z.eq_dec q 0) as [->|Hz].
    { rewrite (amend_order_zero_quantity _ _ _ _ _ _ Ho). intros [= <- <-].
      exists bk. split; [apply edit_none|auto]. }
    destruct (Qlt_le_dec 0 p) as [Hp|Hp].
    2:{ rewrite (amend_order_bad_price _ _ _ _ _ _ _ Ho Hz Hp).
        intros [= <- <-]. exists bk. split; [apply edit_none|auto]. }
    destruct (price_changed (price o) p) eqn:Hpc.
    + destruct (amend_order_reprice_result _ _ _ _ m now _ Hc Ho Hq Hz Hp Hpc)
        as (bk1 & bk2 & ts2 & Ec & Hc1 & L1 & _ & E & _ & _ & [Hcl Hl] & _).
      rewrite E. simpl. intros [= <- <-].
      destruct (cancel_order_consistent _ _ _ Hc Ho) as (bk1' & Ec' & Er & _).
      assert (bk1' = bk1) as -> by congruence.
      destruct (stamp_fields now (repriced o p q)) as (E1 & E2 & E3 & E4).
      destruct (resting_level _ _ _ Hc Ho) as (_ & _ & _ & Hid & _).
      exists (add_order_to_side (is_buy o) (stamp now (repriced o p q)) bk1).
      split.
      { eapply edit_then; [eapply edit_remove; eassumption|].
        change (is_buy o) with (is_buy (repriced o p q)). rewrite <- E2.
        apply edit_add; rewrite ?E1, ?E3, ?E4; simpl; try assumption.
        now rewrite Hid. }
      destruct m.
      * left. exact (process_matching_loop_run _ _ _ _ Hl).
      * destruct Hl as [-> ->]. auto.
    + rewrite (amend_order_in_place _ _ _ _ _ _ _ Ho Hz Hp Hpc). cbv zeta.
      assert (He : edit bk (amend_in_place id o q bk))
        by now apply edit_amend.
      destruct m.
      * destruct (process_matching _) as [[bk2 ts2]|] eqn:E; [|discriminate].
        simpl. intros [= <- <-]. eexists. split; [exact He|]. left.
        exact (process_matching_loop_run _ _ _ _ E).
      * simpl. intros [= <- <-]. eexists. split; [exact He|]. auto.
  - unfold match_orders, matching.
    destruct (process_matching bk) as [[bk2 ts2]|] eqn:E; [|discriminate].
    simpl. intros [= <- <-]. exists bk. split; [apply edit_none|]. left.
    exact (process_matching_loop_run _ _ _ _ E).
Qed.

Lemma empty_book_in_range : in_range empty_book.
Proof.
  unfold in_range, resting_quantities, every_level, u64, two64. simpl.
  splits; try constructor; try lia; try done.
Qed.

(** Every public call keeps the ranges, and the counters count its trades. *)
Lemma apply_op_keeps op bk bk' ts :
  consistent bk -> in_range bk -> op_ok op ->
  apply_op op bk = Some (bk', ts) ->
  consistent bk' /\ in_range bk' /\
  total_trades_ bk' = wrap64 (total_trades_ bk + Z.of_nat (length ts)) /\
  total_volume_ bk' = wrap64 (total_volume_ bk + traded_volume ts).
Proof.
  intros Hc Hr Hok E.
  destruct (apply_op_edit_run _ _ _ _ Hc Hok E) as (bk1 & He & Hrun).
  destruct (edit_keeps _ _ He Hc Hr) as (Hc1 & Hr1 & T1 & V1).
  destruct Hrun as [Hrun|[-> ->]].
  - destruct (matching_run_keeps _ _ _ Hrun Hc1 Hr1) as (Hc' & Hr' & T & V).
    rewrite T, V, T1, V1. auto.
  - pose proof Hr as (_ & _ & Hn & Hv). simpl.
    rewrite T1, V1, !Z.add_0_r, !wrap64_small by assumption. auto.
Qed.

Lemma reachable_in_range P bk : reachable_by P bk -> in_range bk.
Proof.
  induction 1 as [|bk op bk' ts Hr IH Hok E _].
  - apply empty_book_in_range.
  - apply reachable_by_consistent in Hr.
    now destruct (apply_op_keeps _ _ _ _ Hr IH Hok E) as (_ & H & _).
Qed.

(** ** Example books *)

Lemma one_buy_book_reachable : reachable one_buy_book.
Proof.
  eapply (run_ops_reachable_by _ [Insert (mkOrder 1 true 100 100 1) true 0]
            empty_book);
    [apply reach_empty| |vm_compute; reflexivity].
  vm_compute. repeat split; discriminate.
Defined.

Lemma fifo_book_reachable : reachable fifo_book.
Proof.
  eapply (run_ops_reachable_by _ fifo_ops empty_book);
    [apply reach_empty| |vm_compute; reflexivity].
  vm_compute. repeat split; discriminate.
Defined.

(** ** Snapshots *)

Lemma lookup_map {A B} (f : A -> B) (l : list A) (i : nat) :
  map f l !! i = f <$> l !! i.
Proof.
  revert i. induction l as [|x l IH]; intros [|i]; simpl; auto.
Qed.

Lemma get_snapshot_side_length depth s :
  length (get_snapshot_side depth s) = Nat.min depth (length s).
Proof. unfold get_snapshot_side. now rewrite length_map, length_take. Qed.

Lemma get_snapshot_side_lookup depth s i a :
  get_snapshot_side depth s !! i = Some a ->
  exists e, s !! i = Some e /\ (i < depth)%nat /\
            a = mkPriceLevel (fst e) (total_quantity (snd e)).
Proof.
  unfold get_snapshot_side. rewrite lookup_map.
  destruct (take depth s !! i) as [e|] eqn:E; [|discriminate].
  intros [= <-]. apply lookup_take_Some in E as [E Hi]. eauto.
Qed.

Lemma get_snapshot_side_sorted buy depth s i j a b :
  ordered (before_on buy) s -> (i < j)%nat ->
  get_snapshot_side depth s !! i = Some a ->
  get_snapshot_side depth s !! j = Some b ->
  before_on buy (pl_price a) (pl_price b) = true.
Proof.
  intros Hord Hij Ha Hb.
  apply get_snapshot_side_lookup in Ha as (e1 & E1 & _ & ->).
  apply get_snapshot_side_lookup in Hb as (e2 & E2 & _ & ->).
  simpl. eapply (ordered_lookup_before (before_on buy)); eassumption.
Qed.

Lemma get_snapshot_side_take d depth s :
  (d <= depth)%nat ->
  get_snapshot_side d s = take d (get_snapshot_side depth s).
Proof.
  intros H. unfold get_snapshot_side.
  rewrite firstn_map, take_take. now rewrite Nat.min_l.
Qed.

(** ** Best prices *)

(** A resting order has the best price of its side, or a price behind it. *)
Lemma resting_price_behind_best bk id o p l rest :
  consistent bk -> order_lookup_ bk !! id = Some o ->
  side (is_buy o) bk = (p, l) :: rest ->
  (price o == p)%Q \/ before_on (is_buy o) p (price o) = true.
Proof.
  intros Hc Ho E.
  destruct (resting_level _ _ _ Hc Ho) as (l0 & Hfind & _).
  destruct (find_Some_elem _ _ _ _ Hfind) as (k0 & Hin & Hk).
  pose proof (proj1 (consistent_sides (is_buy o) bk) Hc) as ([Hord _] & _).
  rewrite E in Hin, Hord.
  destruct (ordered_head_first (before_on (is_buy o)) _ _ _ _ Hord Hin)
    as [[= -> _]|Hb].
  - left. now apply same_key_Qeq in Hk.
  - right. simpl in Hb.
    rewrite (same_key_sym (before_on (is_buy o))) in Hk.
    exact (before_same_r (before_on (is_buy o)) _ _ _ Hk Hb).
Qed.

(** A side without a level has no resting order. *)
Lemma empty_side_no_order bk id o :
  consistent bk -> order_lookup_ bk !! id = Some o ->
  side (is_buy o) bk <> [].
Proof.
  intros Hc Ho E. destruct (resting_level _ _ _ Hc Ho) as (l & Hfind & _).
  rewrite E in Hfind. discriminate.
Qed.

(** The first level of a side has an order. *)
Lemma best_level_has_order buy bk p l rest :
  consistent bk -> side buy bk = (p, l) :: rest ->
  exists id o, order_lookup_ bk !! id = Some o /\ is_buy o = buy /\
               (price o == p)%Q.
Proof.
  intros Hc E.
  pose proof (proj1 (consistent_sides buy bk) Hc) as ([_ Hall] & _).
  rewrite E in Hall. apply Forall_cons in Hall as [[Hne _] _]. simpl in Hne.
  destruct (nodes l) as [|x q] eqn:N; [congruence|].
  destruct (head_of_best_level buy bk _ _ _ _ _ Hc E N)
    as (o & Ho & _ & Hb & Hp & _).
  eauto.
Qed.

(** No resting buy order is priced above the best bid, no resting sell order
    below the best ask. *)
Lemma resting_buy_le_best_bid bk id o :
  consistent bk -> order_lookup_ bk !! id = Some o -> is_buy o = true ->
  (price o <= get_best_bid bk)%Q.
Proof.
  intros Hc Ho Hb.
  pose proof (empty_side_no_order _ _ _ Hc Ho) as Hne.
  pose proof (resting_price_behind_best bk id o) as H.
  rewrite Hb in Hne, H. simpl in Hne, H. unfold get_best_bid.
  destruct (bids_ bk) as [|[p l] rest]; [congruence|].
  destruct (H p l rest Hc Ho eq_refl) as [E|E].
  - rewrite E. apply Qle_refl.
  - apply Qltb_lt in E. now apply Qlt_le_weak.
Qed.

Lemma resting_sell_ge_best_ask bk id o :
  consistent bk -> order_lookup_ bk !! id = Some o -> is_buy o = false ->
  (get_best_ask bk <= price o)%Q.
Proof.
  intros Hc Ho Hb.
  pose proof (empty_side_no_order _ _ _ Hc Ho) as Hne.
  pose proof (resting_price_behind_best bk id o) as H.
  rewrite Hb in Hne, H. simpl in Hne, H. unfold get_best_ask.
  destruct (asks_ bk) as [|[p l] rest]; [congruence|].
  destruct (H p l rest Hc Ho eq_refl) as [E|E].
  - rewrite E. apply Qle_refl.
  - apply Qltb_lt in E. now apply Qlt_le_weak.
Qed.

(** ** Counting orders and levels *)

Lemma order_count_nodes bk :
  consistent bk -> size (order_lookup_ bk) = length (all_ids bk).
Proof.
  intros Hc. pose proof Hc as (_ & _ & Hnd & Hcov).
  rewrite <- (size_dom (D := gset Z)).
  rewrite <- (size_list_to_set (C := gset Z) (all_ids bk)) by assumption.
  f_equal. apply set_eq. intros x.
  rewrite elem_of_dom, elem_of_list_to_set. split; [apply Hcov|].
  now apply linked_is_indexed.
Qed.

Lemma levels_le_nodes (s : list (Q * PriceLevelData)) :
  Forall (fun e => nodes (snd e) <> []) s -> (length s <= length (side_ids s))%nat.
Proof.
  induction 1 as [|e s H _ IH]; simpl; [lia|].
  rewrite length_app. destruct (nodes (snd e)); [congruence|]. simpl. lia.
Qed.

Lemma levels_have_nodes buy bk :
  consistent bk -> Forall (fun e => nodes (snd e) <> []) (side buy bk).
Proof.
  intros Hc.
  pose proof (proj1 (consistent_sides buy bk) Hc) as ([_ Hall] & _).
  eapply Forall_impl; [exact Hall|]. now intros e [H _].
Qed.

(** ** X1 to X4: the queries *)

(** X1 ([get_snapshot]): on a book the public calls lead to, each list of the
    snapshot has [min(depth, levels of the side)] elements; the bids come in
    strictly falling prices and the asks in strictly rising prices, the first
    of each being the best price of the side; and the snapshot of a smaller
    depth is the front of the snapshot of a larger depth. *)
Theorem snapshot_lists_best_levels_in_order (bk : OrderBook) (depth : nat) :
  reachable bk ->
  let bids := fst (get_snapshot depth bk) in
  let asks := snd (get_snapshot depth bk) in
  length bids = Nat.min depth (get_bid_levels bk) /\
  length asks = Nat.min depth (get_ask_levels bk) /\
  (forall i j a b, (i < j)%nat -> bids !! i = Some a -> bids !! j = Some b ->
     (pl_price b < pl_price a)%Q) /\
  (forall i j a b, (i < j)%nat -> asks !! i = Some a -> asks !! j = Some b ->
     (pl_price a < pl_price b)%Q) /\
  (forall a, bids !! 0%nat = Some a -> pl_price a = get_best_bid bk) /\
  (forall a, asks !! 0%nat = Some a -> pl_price a = get_best_ask bk) /\
  (forall d, (d <= depth)%nat -> get_snapshot d bk = (take d bids, take d asks)).
Proof.
  intros Hr bids asks. apply reachable_by_consistent in Hr.
  destruct Hr as ([Hob _] & [Hoa _] & _).
  unfold bids, asks, get_snapshot, get_bid_levels, get_ask_levels. simpl.
  splits.
  - apply get_snapshot_side_length.
  - apply get_snapshot_side_length.
  - intros i j a b Hij Ha Hb.
    pose proof (get_snapshot_side_sorted true _ _ _ _ _ _ Hob Hij Ha Hb) as H.
    now apply Qltb_lt in H.
  - intros i j a b Hij Ha Hb.
    pose proof (get_snapshot_side_sorted false _ _ _ _ _ _ Hoa Hij Ha Hb) as H.
    now apply Qltb_lt in H.
  - intros a Ha. apply get_snapshot_side_lookup in Ha as (e & E & _ & ->).
    unfold get_best_bid. destruct (bids_ bk) as [|[p l] rest]; [discriminate|].
    now injection E as <-.
  - intros a Ha. apply get_snapshot_side_lookup in Ha as (e & E & _ & ->).
    unfold get_best_ask. destruct (asks_ bk) as [|[p l] rest]; [discriminate|].
    now injection E as <-.
  - intros d Hd. f_equal; now apply get_snapshot_side_take.
Qed.

Lemma snapshot_lists_best_levels_in_order_witness :
  exists bk,
    run_ops three_buys_ops empty_book = Some (bk, []) /\
    get_snapshot 1 bk = ([mkPriceLevel 101 50], []).
Proof.
  eexists. split; [vm_compute; reflexivity|].
  refine (proj2 (proj2 (proj2 (proj2 (proj2 (proj2
    (snapshot_lists_best_levels_in_order _ 5 _)))))) 1%nat _); [|lia].
  eapply (run_ops_reachable_by _ three_buys_ops empty_book);
    [apply reach_empty| |vm_compute; reflexivity].
  vm_compute. repeat split; discriminate.
Defined.

(** X2 ([get_best_bid], [get_best_ask]): on a book the public calls lead to
    when the prices they are given are numbers (none is NaN), no resting buy
    order has a price above [get_best_bid] and no resting sell order a price
    below [get_best_ask]; and when the side has a level, the best price is
    the price of an order that rests on the side.  (An order at NaN rests in
    a level of another price: [nan_order_in_the_best_level].) *)
Theorem best_prices_are_the_extremes (bk : OrderBook) :
  reachable_on_numbers bk ->
  (forall id o, order_lookup_ bk !! id = Some o -> is_buy o = true ->
     (price o <= get_best_bid bk)%Q) /\
  (forall id o, order_lookup_ bk !! id = Some o -> is_buy o = false ->
     (get_best_ask bk <= price o)%Q) /\
  (bids_ bk <> [] ->
   exists id o, order_lookup_ bk !! id = Some o /\ is_buy o = true /\
                (price o == get_best_bid bk)%Q) /\
  (asks_ bk <> [] ->
   exists id o, order_lookup_ bk !! id = Some o /\ is_buy o = false /\
                (price o == get_best_ask bk)%Q).
Proof.
  intros Hr. apply reachable_on_numbers_iff in Hr. apply reachable_by_consistent in Hr. splits.
  - intros id o. apply resting_buy_le_best_bid, Hr.
  - intros id o. apply resting_sell_ge_best_ask, Hr.
  - intros Hne. unfold get_best_bid.
    destruct (bids_ bk) as [|[p l] rest] eqn:E; [congruence|].
    exact (best_level_has_order true bk p l rest Hr E).
  - intros Hne. unfold get_best_ask.
    destruct (asks_ bk) as [|[p l] rest] eqn:E; [congruence|].
    exact (best_level_has_order false bk p l rest Hr E).
Qed.

Lemma best_prices_are_the_extremes_witness :
  (price (mkOrder 1 true 100 100 1) <= get_best_bid two_buys_book)%Q.
Proof.
  exact (proj1 (best_prices_are_the_extremes two_buys_book
                  two_buys_book_on_numbers) 1 _ eq_refl eq_refl).
Defined.

(** X3 ([get_best_bid], [get_best_ask]): on a book the public calls lead to
    when the prices they are given are numbers (none is NaN), the value zero
    of a best price is never the price of a level: the best bid is zero
    exactly when the bid side has no level, which is exactly when no buy
    order rests; and so for the asks.  (After an order at NaN a level can be
    left when its orders are gone: [nan_leaves_a_level_without_orders].) *)
Theorem zero_best_price_means_empty_side (bk : OrderBook) :
  reachable_on_numbers bk ->
  ((get_best_bid bk == 0)%Q <-> get_bid_levels bk = 0%nat) /\
  ((get_best_ask bk == 0)%Q <-> get_ask_levels bk = 0%nat) /\
  (get_bid_levels bk = 0%nat <->
   forall id o, order_lookup_ bk !! id = Some o -> is_buy o = false) /\
  (get_ask_levels bk = 0%nat <->
   forall id o, order_lookup_ bk !! id = Some o -> is_buy o = true).
Proof.
  intros Hr. apply reachable_on_numbers_iff in Hr. apply reachable_by_consistent in Hr.
  unfold get_best_bid, get_best_ask, get_bid_levels, get_ask_levels. splits.
  - destruct (bids_ bk) as [|[p l] rest] eqn:E; [easy|].
    pose proof (best_price_positive true bk p l rest Hr E) as Hp.
    split; [intros H; rewrite H in Hp; now apply Qlt_irrefl in Hp|discriminate].
  - destruct (asks_ bk) as [|[p l] rest] eqn:E; [easy|].
    pose proof (best_price_positive false bk p l rest Hr E) as Hp.
    split; [intros H; rewrite H in Hp; now apply Qlt_irrefl in Hp|discriminate].
  - split.
    + intros H id o Ho. destruct (is_buy o) eqn:Hb; [|reflexivity].
      pose proof (empty_side_no_order _ _ _ Hr Ho) as Hne.
      rewrite Hb in Hne. simpl in Hne.
      destruct (bids_ bk); [congruence|discriminate].
    + intros H. destruct (bids_ bk) as [|[p l] rest] eqn:E; [reflexivity|].
      destruct (best_level_has_order true bk p l rest Hr E)
        as (id & o & Ho & Hb & _).
      rewrite (H id o Ho) in Hb. discriminate.
  - split.
    + intros H id o Ho. destruct (is_buy o) eqn:Hb; [reflexivity|].
      pose proof (empty_side_no_order _ _ _ Hr Ho) as Hne.
      rewrite Hb in Hne. simpl in Hne.
      destruct (asks_ bk); [congruence|discriminate].
    + intros H. destruct (asks_ bk) as [|[p l] rest] eqn:E; [reflexivity|].
      destruct (best_level_has_order false bk p l rest Hr E)
        as (id & o & Ho & Hb & _).
      rewrite (H id o Ho) in Hb. discriminate.
Qed.

Lemma zero_best_price_means_empty_side_witness :
  (get_best_ask two_buys_book == 0)%Q /\ ~ (get_best_bid two_buys_book == 0)%Q.
Proof.
  destruct (zero_best_price_means_empty_side two_buys_book
              two_buys_book_on_numbers) as (Hb & Ha & _).
  split; [now apply Ha|]. intros H. apply Hb in H. discriminate.
Defined.

(** X4 ([get_total_orders], [get_bid_levels], [get_ask_levels]): on a book
    the public calls lead to when the prices they are given are numbers (none
    is NaN), [get_total_orders] is the number of nodes linked in the levels of
    the two sides; every level links a node, so there are never more levels
    than orders; and there is no order exactly when both sides are without a
    level.  (After an order at NaN there can be more levels than orders:
    [nan_leaves_a_level_without_orders].) *)
Theorem order_count_is_the_number_of_nodes (bk : OrderBook) :
  reachable_on_numbers bk ->
  get_total_orders bk
    = (length (side_ids (bids_ bk)) + length (side_ids (asks_ bk)))%nat /\
  (get_bid_levels bk + get_ask_levels bk <= get_total_orders bk)%nat /\
  (get_total_orders bk = 0%nat <->
   get_bid_levels bk = 0%nat /\ get_ask_levels bk = 0%nat).
Proof.
  intros Hr. apply reachable_on_numbers_iff in Hr. apply reachable_by_consistent in Hr.
  pose proof (order_count_nodes bk Hr) as Hn.
  unfold all_ids in Hn. rewrite length_app in Hn.
  pose proof (levels_le_nodes _ (levels_have_nodes true bk Hr)) as Hb.
  pose proof (levels_le_nodes _ (levels_have_nodes false bk Hr)) as Ha.
  simpl in Hb, Ha.
  unfold get_total_orders, get_bid_levels, get_ask_levels.
  split; [assumption|]. split; [lia|]. split; [lia|].
  intros [Eb Ea]. rewrite Hn.
  destruct (bids_ bk); [|discriminate]. destruct (asks_ bk); [|discriminate].
  reflexivity.
Qed.

Lemma order_count_is_the_number_of_nodes_witness :
  get_total_orders two_buys_book = 2%nat /\
  (get_bid_levels two_buys_book + get_ask_levels two_buys_book
   <= get_total_orders two_buys_book)%nat.
Proof.
  destruct (order_count_is_the_number_of_nodes two_buys_book
              two_buys_book_on_numbers) as (H1 & H2 & _).
  split; [exact H1|exact H2].
Defined.

(** ** What a run of the loop does to the orders *)

(** Every trade erases one or two orders. *)
Lemma matching_run_sizes bk ts bk' :
  matching_run bk ts bk' -> consistent bk ->
  (size (order_lookup_ bk') + length ts <= size (order_lookup_ bk))%nat /\
  (size (order_lookup_ bk) <= size (order_lookup_ bk') + 2 * length ts)%nat.
Proof.
  induction 1 as [bk E|bk bk1 t ts bk' E _ IH]; intros Hc; [simpl; lia|].
  pose proof (match_step_consistent bk Hc) as Hc1. rewrite E in Hc1.
  destruct Hc1 as (Hc1 & _). specialize (IH Hc1).
  destruct (match_step_effect _ _ _ Hc E)
    as (b & s & _ & _ & _ & _ & _ & _ & _ & _ & _ & _ & Hsz & _).
  simpl length.
  destruct (Z.leb_spec (quantity b) (quantity s));
    destruct (Z.leb_spec (quantity s) (quantity b)); lia.
Qed.

Lemma matching_run_quantities bk ts bk' :
  matching_run bk ts bk' -> consistent bk -> in_range bk ->
  Forall trade_quantity_ok ts.
Proof.
  induction 1 as [bk E|bk bk1 t ts bk' E _ IH]; intros Hc Hr; [constructor|].
  pose proof (match_step_consistent bk Hc) as Hc1. rewrite E in Hc1.
  destruct Hc1 as (Hc1 & _).
  pose proof (match_step_in_range _ _ _ Hc Hr E) as Hr1.
  constructor; [|now apply IH].
  destruct (match_step_effect _ _ _ Hc E)
    as (b & s & -> & Hb & Hs & Bb & Bs & Qb & Qs & _).
  destruct Hr as (Hq & _).
  pose proof (Hq _ _ Hb) as Zb. pose proof (Hq _ _ Hs) as Zs.
  unfold trade_quantity_ok, u64 in *. simpl. splits; try lia.
  intros Heq. rewrite Heq in Hb. congruence.
Qed.

Lemma set_quantity_id o : set_quantity (quantity o) o = o.
Proof. now destruct o. Qed.

(** An order that is there after a turn of the loop was there before it;
    nothing of it has changed but its quantity, which has not grown. *)
Lemma match_step_reduces bk bk1 t x o1 :
  consistent bk -> match_step bk = Traded bk1 t ->
  order_lookup_ bk1 !! x = Some o1 ->
  exists o, order_lookup_ bk !! x = Some o /\
            o1 = set_quantity (quantity o1) o /\ quantity o1 <= quantity o.
Proof.
  intros Hc E H1.
  destruct (match_step_effect _ _ _ Hc E)
    as (b & s & _ & Hb & Hs & _ & _ & Qb & Qs & _ & _ & L & _).
  rewrite L in H1. unfold u64 in *. repeat case_decide; subst.
  - destruct (Z.leb_spec (quantity b) (quantity s)); [discriminate|].
    injection H1 as <-. exists b. simpl.
    split; [assumption|]. split; [reflexivity|lia].
  - destruct (Z.leb_spec (quantity s) (quantity b)); [discriminate|].
    injection H1 as <-. exists s. simpl.
    split; [assumption|]. split; [reflexivity|lia].
  - exists o1. rewrite set_quantity_id. split; [assumption|].
    split; [reflexivity|lia].
Qed.

(** The loop adds no order, and changes nothing of an order but its
    quantity, which it only takes from; an order that is in no trade is as
    it was. *)
Lemma matching_run_reduces bk ts bk' :
  matching_run bk ts bk' -> consistent bk ->
  (forall x o', order_lookup_ bk' !! x = Some o' ->
     exists o, order_lookup_ bk !! x = Some o /\
               o' = set_quantity (quantity o') o /\ quantity o' <= quantity o) /\
  (forall x, Forall (fun t => ~ involves t x) ts ->
     order_lookup_ bk' !! x = order_lookup_ bk !! x).
Proof.
  induction 1 as [bk E|bk bk1 t ts bk' E _ IH]; intros Hc.
  { split; [|reflexivity]. intros x o' Hx. exists o'.
    rewrite set_quantity_id. split; [assumption|]. split; [reflexivity|lia]. }
  pose proof (match_step_consistent bk Hc) as Hc1. rewrite E in Hc1.
  destruct Hc1 as (Hc1 & _). destruct (IH Hc1) as [IH1 IH2].
  split.
  - intros x o' Hx. destruct (IH1 x o' Hx) as (o1 & H1 & Ho' & Hle).
    destruct (match_step_reduces _ _ _ _ _ Hc E H1) as (o & Ho & Eo & Hle1).
    exists o. split; [assumption|]. split; [|lia].
    transitivity (set_quantity (quantity o') o1); [exact Ho'|].
    rewrite Eo. reflexivity.
  - intros x Hx. apply Forall_cons in Hx as [Hx Hxs].
    destruct (match_step_effect _ _ _ Hc E)
      as (b & s & -> & _ & _ & _ & _ & _ & _ & _ & _ & L & _).
    rewrite (IH2 x Hxs), L. unfold involves in Hx. simpl in Hx.
    repeat case_decide; subst; tauto.
Qed.

(** ** The number of orders after a call without matching *)

Lemma add_order_rests o now bk :
  order_lookup_ bk !! order_id o = None -> quantity o <> 0 -> (0 < price o)%Q ->
  add_order o false now bk
  = Some (mkResult (Returned tt) (add_order_to_side (is_buy o) (stamp now o) bk) []).
Proof. intros Ho Hz Hp. now rewrite add_order_accepted. Qed.

(** The three ways [add_order] is refused, and the one way it is not. *)
Lemma add_order_cases o m now bk :
  (exists e, add_order o m now bk = Some (mkResult (Thrown e) bk []) /\
             (is_Some (order_lookup_ bk !! order_id o) \/ quantity o = 0 \/
              (price o <= 0)%Q)) \/
  (order_lookup_ bk !! order_id o = None /\ quantity o <> 0 /\ (0 < price o)%Q).
Proof.
  destruct (order_lookup_ bk !! order_id o) as [o'|] eqn:Ho.
  { left. exists DuplicateId. rewrite add_order_duplicate by eauto. eauto. }
  destruct (Z.eq_dec (quantity o) 0) as [Hz|Hz].
  { left. exists InvalidQuantity. rewrite add_order_zero_quantity by assumption.
    auto. }
  destruct (Qlt_le_dec 0 (price o)) as [Hp|Hp]; [auto|].
  left. exists InvalidPrice. rewrite add_order_bad_price by assumption. auto.
Qed.

Lemma size_add_order_to_side buy o bk :
  order_lookup_ bk !! order_id o = None ->
  size (order_lookup_ (add_order_to_side buy o bk)) = S (size (order_lookup_ bk)).
Proof.
  intros Ho. unfold add_order_to_side. rewrite lookup_set_side. simpl.
  now apply map_size_insert_None.
Qed.

Lemma S_size_delete (lk : gmap Z Order) id o :
  lk !! id = Some o -> S (size (delete id lk)) = size lk.
Proof.
  intros Ho. rewrite <- (insert_id lk id o Ho) at 2.
  rewrite <- insert_delete_eq.
  now rewrite map_size_insert_None by apply lookup_delete_eq.
Qed.

(** ** X5 to X11: counts, statistics and trades *)

(** X5 ([add_order], [cancel_order], [amend_order], [get_total_orders]): on a
    book the public calls lead to, an insert that is accepted without
    matching adds one to [get_total_orders], a cancel that returns true takes
    one from it, and an amend without matching that returns true leaves it
    as it is, whether the price changes or not. *)
Theorem order_count_bookkeeping (bk : OrderBook) :
  reachable bk ->
  (forall o now r,
     add_order o false now bk = Some r -> outcome r = Returned tt ->
     get_total_orders (book r) = S (get_total_orders bk)) /\
  (forall id r,
     cancel_order id bk = Some r -> outcome r = Returned true ->
     S (get_total_orders (book r)) = get_total_orders bk) /\
  (forall id p q now r, u64 q ->
     amend_order id p q false now bk = Some r -> outcome r = Returned true ->
     get_total_orders (book r) = get_total_orders bk).
Proof.
  intros Hr. apply reachable_by_consistent in Hr.
  unfold get_total_orders. splits.
  - intros o now r E Hout.
    destruct (add_order_cases o false now bk) as [(e & E' & _)|(Ho & Hz & Hp)].
    { rewrite E' in E. injection E as <-. discriminate. }
    rewrite add_order_rests in E by assumption. injection E as <-. simpl.
    apply size_add_order_to_side.
    now destruct (stamp_fields now o) as (-> & _).
  - intros id r E Hout.
    destruct (order_lookup_ bk !! id) as [o|] eqn:Ho.
    2:{ rewrite cancel_order_unknown in E by assumption.
        injection E as <-. discriminate. }
    destruct (cancel_order_consistent _ _ _ Hr Ho) as (bk' & E' & _ & _ & L & _).
    rewrite E' in E. injection E as <-. simpl. rewrite L.
    now apply (S_size_delete _ _ o).
  - intros id p q now r Hq E Hout.
    destruct (order_lookup_ bk !! id) as [o|] eqn:Ho.
    2:{ rewrite amend_order_unknown in E by assumption.
        injection E as <-. discriminate. }
    destruct (Z.eq_dec q 0) as [->|Hz].
    { rewrite (amend_order_zero_quantity _ _ _ _ _ _ Ho) in E.
      injection E as <-. discriminate. }
    destruct (Qlt_le_dec 0 p) as [Hp|Hp].
    2:{ rewrite (amend_order_bad_price _ _ _ _ _ _ _ Ho Hz Hp) in E.
        injection E as <-. discriminate. }
    destruct (price_changed (price o) p) eqn:Hpc.
    + destruct (amend_order_reprice_result _ _ _ _ false now _ Hr Ho Hq Hz Hp Hpc)
        as (bk1 & bk2 & ts & Ec & _ & L1 & _ & E' & _ & _ & [_ [-> _]] & _).
      rewrite E' in E. injection E as <-. simpl.
      destruct (cancel_order_consistent _ _ _ Hr Ho) as (bk1' & Ec' & _ & _ & L & _).
      assert (bk1' = bk1) as -> by congruence.
      destruct (resting_level _ _ _ Hr Ho) as (_ & _ & _ & Hid & _).
      rewrite size_add_order_to_side.
      * rewrite L. now apply (S_size_delete _ _ o).
      * destruct (stamp_fields now (repriced o p q)) as (-> & _). simpl.
        now rewrite Hid.
    + rewrite (amend_order_in_place _ _ _ _ _ _ _ Ho Hz Hp Hpc) in E.
      injection E as <-. simpl. unfold amend_in_place. simpl.
      rewrite lookup_set_side. apply map_size_insert_Some. eauto.
Qed.

Lemma order_count_bookkeeping_witness :
  exists bk',
    cancel_order 1 two_buys_book = Some (mkResult (Returned true) bk' []) /\
    S (get_total_orders bk') = get_total_orders two_buys_book.
Proof.
  eexists. split; [vm_compute; reflexivity|].
  destruct (order_count_bookkeeping two_buys_book two_buys_book_reachable)
    as (_ & H & _).
  refine (H 1 (mkResult (Returned true) _ []) _ eq_refl).
  vm_compute. reflexivity.
Defined.

(** X6 ([process_matching], [execute_trade]): on a book the public calls lead
    to, every trade of a run of the matching engine erases at least one and
    at most two orders.  So [match_orders] reports no more trades than there
    are orders, and an insert with matching reports no more than there are
    orders once the new order is linked. *)
Theorem every_trade_fills_an_order (bk : OrderBook) :
  reachable bk ->
  (exists bk' ts,
     match_orders bk = Some (mkResult (Returned tt) bk' ts) /\
     (get_total_orders bk' + length ts <= get_total_orders bk)%nat /\
     (get_total_orders bk <= get_total_orders bk' + 2 * length ts)%nat) /\
  (forall o now, u64 (quantity o) ->
   exists r,
     add_order o true now bk = Some r /\
     (get_total_orders (book r) + length (trades r)
      <= S (get_total_orders bk))%nat).
Proof.
  intros Hr. apply reachable_by_consistent in Hr.
  unfold get_total_orders. split.
  - destruct (matching_run_total bk Hr) as (bk' & ts & E & Hrun).
    exists bk', ts. unfold match_orders, matching. rewrite E.
    split; [reflexivity|]. exact (matching_run_sizes _ _ _ Hrun Hr).
  - intros o now Hq.
    destruct (add_order_cases o true now bk) as [(e & E & _)|(Ho & Hz & Hp)].
    { rewrite E. eexists. split; [reflexivity|]. simpl. lia. }
    rewrite add_order_accepted by assumption. cbv zeta.
    destruct (stamp_fields now o) as (E1 & E2 & E3 & E4).
    assert (Hc1 : consistent (add_order_to_side (is_buy o) (stamp now o) bk)).
    { rewrite <- E2. apply add_order_to_side_consistent;
        [assumption|congruence|now rewrite E4|now rewrite E3]. }
    destruct (matching_run_total _ Hc1) as (bk' & ts & E & Hrun).
    rewrite E. eexists. split; [reflexivity|]. simpl.
    pose proof (matching_run_sizes _ _ _ Hrun Hc1) as [H _].
    rewrite size_add_order_to_side in H by congruence. exact H.
Qed.

Lemma every_trade_fills_an_order_witness :
  exists bk' ts,
    match_orders fifo_book = Some (mkResult (Returned tt) bk' ts) /\
    (get_total_orders bk' + length ts <= get_total_orders fifo_book)%nat /\
    (get_total_orders fifo_book <= get_total_orders bk' + 2 * length ts)%nat.
Proof.
  exact (proj1 (every_trade_fills_an_order fifo_book fifo_book_reachable)).
Defined.

(** X7 ([execute_trade], [get_statistics]): on a book the public calls lead
    to, every public call returns or throws, and the statistics it leaves
    count its trades: [total_trades_] has gone up by the number of trades it
    reports and [total_volume_] by the sum of their quantities, both modulo
    [2^64]. *)
Theorem statistics_count_the_trades (bk : OrderBook) (op : Op) :
  reachable bk -> op_ok op ->
  exists bk' ts,
    apply_op op bk = Some (bk', ts) /\
    get_statistics bk'
    = (wrap64 (total_trades_ bk + Z.of_nat (length ts)),
       wrap64 (total_volume_ bk + traded_volume ts),
       get_total_orders bk').
Proof.
  intros Hr Hok. pose proof (reachable_in_range _ _ Hr) as Hin.
  apply reachable_by_consistent in Hr.
  destruct (apply_op_consistent op bk Hr Hok) as (bk' & ts & E & _).
  exists bk', ts. split; [assumption|].
  destruct (apply_op_keeps _ _ _ _ Hr Hin Hok E) as (_ & _ & T & V).
  unfold get_statistics, get_total_orders. now rewrite T, V.
Qed.

Lemma statistics_count_the_trades_witness :
  exists bk' ts,
    apply_op Match fifo_book = Some (bk', ts) /\
    get_statistics bk'
    = (wrap64 (total_trades_ fifo_book + Z.of_nat (length ts)),
       wrap64 (total_volume_ fifo_book + traded_volume ts),
       get_total_orders bk').
Proof.
  exact (statistics_count_the_trades fifo_book Match fifo_book_reachable I).
Defined.

(** X8 (the class as a whole): in every book the public calls lead to when
    the prices they are given are numbers (none is NaN), an order that rests
    is kept under its own id, its quantity is a [uint64_t] that is not zero,
    and its price is above zero; the total of every level and the two
    counters are [uint64_t]s.  (An order at NaN is accepted and rests at NaN:
    [nan_price_is_accepted].) *)
Theorem resting_orders_are_valid (bk : OrderBook) :
  reachable_on_numbers bk ->
  (forall id o, order_lookup_ bk !! id = Some o ->
     order_id o = id /\ 0 < quantity o < two64 /\ (0 < price o)%Q) /\
  every_level level_total_u64 bk /\
  u64 (total_trades_ bk) /\ u64 (total_volume_ bk).
Proof.
  intros Hr. apply reachable_on_numbers_iff in Hr. destruct (reachable_in_range _ _ Hr) as (Hq & Ht & Hn & Hv).
  apply reachable_by_consistent in Hr. splits; try assumption.
  intros id o Ho.
  destruct (resting_level _ _ _ Hr Ho) as (_ & _ & _ & Hid & Hu & Hp).
  pose proof (Hq _ _ Ho). unfold u64 in Hu. splits; try assumption; lia.
Qed.

Lemma resting_orders_are_valid_witness :
  0 < quantity (mkOrder 2 true 100 200 2) < two64.
Proof.
  exact (proj1 (proj2 (proj1 (resting_orders_are_valid two_buys_book
                  two_buys_book_on_numbers) 2 _ eq_refl))).
Defined.

(** X9 ([process_matching], [execute_trade]): on a book the public calls lead
    to, every trade a public call reports is of two different orders, and its
    quantity is the smaller of the quantities the two orders have when they
    trade, which is above zero. *)
Theorem trade_quantity_is_the_smaller_quantity (bk : OrderBook) (op : Op) :
  reachable bk -> op_ok op ->
  exists bk' ts,
    apply_op op bk = Some (bk', ts) /\ Forall trade_quantity_ok ts.
Proof.
  intros Hr Hok. pose proof (reachable_in_range _ _ Hr) as Hin.
  apply reachable_by_consistent in Hr.
  destruct (apply_op_consistent op bk Hr Hok) as (bk' & ts & E & _).
  exists bk', ts. split; [assumption|].
  destruct (apply_op_edit_run _ _ _ _ Hr Hok E) as (bk1 & He & Hrun).
  destruct (edit_keeps _ _ He Hr Hin) as (Hc1 & Hr1 & _).
  destruct Hrun as [Hrun|[_ ->]]; [|constructor].
  exact (matching_run_quantities _ _ _ Hrun Hc1 Hr1).
Qed.

Lemma trade_quantity_is_the_smaller_quantity_witness :
  exists bk' ts,
    apply_op (Insert (mkOrder 2 false 99 50 2) true 0) one_buy_book
      = Some (bk', ts) /\
    Forall trade_quantity_ok ts.
Proof.
  apply (trade_quantity_is_the_smaller_quantity one_buy_book
           (Insert (mkOrder 2 false 99 50 2) true 0) one_buy_book_reachable).
  vm_compute. repeat split; discriminate.
Defined.

(** X10 ([execute_trade]): on a book the public calls lead to, a turn of the
    matching loop that trades takes the quantity of the trade from both
    orders; the order with the smaller quantity is erased from the book (both
    are, if the quantities are the same) and the other stays with what is
    left; no other order changes. *)
Theorem a_trade_fills_the_smaller_order (bk bk1 : OrderBook) (t : Trade) :
  reachable bk -> match_step bk = Traded bk1 t ->
  let b := trade_buy t in
  let s := trade_sell t in
  order_lookup_ bk !! order_id b = Some b /\
  order_lookup_ bk !! order_id s = Some s /\
  order_lookup_ bk1 !! order_id b
    = (if quantity b <=? quantity s then None
       else Some (set_quantity (quantity b - trade_quantity t) b)) /\
  order_lookup_ bk1 !! order_id s
    = (if quantity s <=? quantity b then None
       else Some (set_quantity (quantity s - trade_quantity t) s)) /\
  (order_lookup_ bk1 !! order_id b = None \/
   order_lookup_ bk1 !! order_id s = None) /\
  (forall x, x <> order_id b -> x <> order_id s ->
     order_lookup_ bk1 !! x = order_lookup_ bk !! x).
Proof.
  intros Hr Hstep. apply reachable_by_consistent in Hr.
  destruct (match_step_effect _ _ _ Hr Hstep)
    as (b & s & -> & Hb & Hs & Bb & Bs & Qb & Qs & _ & _ & L & _).
  assert (Hne : order_id s <> order_id b)
    by (intros Heq; rewrite Heq in Hs; congruence).
  cbv zeta. simpl.
  assert (Lb : order_lookup_ bk1 !! order_id b
               = (if quantity b <=? quantity s then None
                  else Some (set_quantity
                               (quantity b - Z.min (quantity b) (quantity s)) b))).
  { rewrite L. rewrite decide_True by reflexivity.
    destruct (Z.leb_spec (quantity b) (quantity s)); [reflexivity|].
    now rewrite Z.min_r by lia. }
  assert (Ls : order_lookup_ bk1 !! order_id s
               = (if quantity s <=? quantity b then None
                  else Some (set_quantity
                               (quantity s - Z.min (quantity b) (quantity s)) s))).
  { rewrite L. rewrite decide_False by assumption.
    rewrite decide_True by reflexivity.
    destruct (Z.leb_spec (quantity s) (quantity b)); [reflexivity|].
    now rewrite Z.min_l by lia. }
  splits; try assumption.
  - rewrite Lb, Ls.
    destruct (Z.leb_spec (quantity b) (quantity s)); [now left|].
    right. destruct (Z.leb_spec (quantity s) (quantity b)); [reflexivity|lia].
  - intros x Hxb Hxs. rewrite L.
    rewrite decide_False by assumption. now rewrite decide_False by assumption.
Qed.

Lemma a_trade_fills_the_smaller_order_witness :
  exists bk1 t,
    match_step fifo_book = Traded bk1 t /\
    (order_lookup_ bk1 !! order_id (trade_buy t) = None \/
     order_lookup_ bk1 !! order_id (trade_sell t) = None).
Proof.
  destruct (match_step fifo_book) as [| |bk1 t] eqn:E;
    try (vm_compute in E; discriminate).
  exists bk1, t. split; [reflexivity|].
  exact (proj1 (proj2 (proj2 (proj2 (proj2
    (a_trade_fills_the_smaller_order fifo_book bk1 t fifo_book_reachable E)))))).
Defined.

(** X11 ([process_matching]): on a book the public calls lead to,
    [match_orders] returns, adds no order, and changes nothing of an order
    that stays but its quantity, which it leaves above zero and no larger
    than it was; an order that is in none of the trades it reports is as it
    was. *)
Theorem matching_only_takes_from_quantities (bk : OrderBook) :
  reachable bk ->
  exists bk' ts,
    match_orders bk = Some (mkResult (Returned tt) bk' ts) /\
    (forall x o', order_lookup_ bk' !! x = Some o' ->
       exists o, order_lookup_ bk !! x = Some o /\
                 o' = set_quantity (quantity o') o /\
                 0 < quantity o' <= quantity o) /\
    (forall x, Forall (fun t => ~ involves t x) ts ->
       order_lookup_ bk' !! x = order_lookup_ bk !! x).
Proof.
  intros Hr. pose proof (reachable_in_range _ _ Hr) as Hin.
  apply reachable_by_consistent in Hr.
  destruct (matching_run_total bk Hr) as (bk' & ts & E & Hrun).
  exists bk', ts. unfold match_orders, matching. rewrite E.
  split; [reflexivity|].
  destruct (matching_run_reduces _ _ _ Hrun Hr) as [H1 H2].
  destruct (matching_run_keeps _ _ _ Hrun Hr Hin) as (Hc' & (Hq' & _) & _).
  split; [|assumption].
  intros x o' Hx. destruct (H1 x o' Hx) as (o & Ho & Eo & Hle).
  exists o. splits; try assumption.
  destruct (resting_level _ _ _ Hc' Hx) as (_ & _ & _ & _ & Hu & _).
  pose proof (Hq' _ _ Hx). unfold u64 in Hu. lia.
Qed.

Lemma matching_only_takes_from_quantities_witness :
  exists bk' ts,
    match_orders fifo_book = Some (mkResult (Returned tt) bk' ts) /\
    (forall x o', order_lookup_ bk' !! x = Some o' ->
       exists o, order_lookup_ fifo_book !! x = Some o /\
                 o' = set_quantity (quantity o') o /\
                 0 < quantity o' <= quantity o) /\
    (forall x, Forall (fun t => ~ involves t x) ts ->
       order_lookup_ bk' !! x = order_lookup_ fifo_book !! x).
Proof.
  exact (matching_only_takes_from_quantities fifo_book fifo_book_reachable).
Defined.

(** ** Books that are not crossed *)

Lemma matched_calls_leave_uncrossed bk :
  reachable_by (fun op _ => op_matches op) bk -> uncrossed bk.
Proof.
  induction 1 as [|bk op bk' ts Hr IH Hok E HP]; [now left|].
  apply reachable_by_consistent in Hr.
  destruct (apply_op_consistent op bk Hr Hok) as (bk2 & ts2 & E2 & _ & Hu & _).
  assert (bk2 = bk') as -> by congruence. auto.
Qed.

(** An order that does not reach the best price of the other side does not
    cross the book. *)
Lemma add_order_to_side_uncrossed o bk :
  uncrossed bk ->
  (if is_buy o
   then asks_ bk = [] \/ (price o < get_best_ask bk)%Q
   else bids_ bk = [] \/ (get_best_bid bk < price o)%Q) ->
  uncrossed (add_order_to_side (is_buy o) o bk).
Proof.
  unfold add_order_to_side, uncrossed, get_best_bid, get_best_ask.
  intros Hu Hp. destruct (is_buy o); simpl.
  - destruct (subscript _ _ _ _ _) as [|[k1 v1] rest] eqn:E; [now left|].
    destruct (asks_ bk) as [|[a al] asks]; [now (right; left)|].
    right; right.
    apply subscript_head in E as [->|(v0 & rest0 & E)].
    + destruct Hp as [Hp|Hp]; [discriminate|assumption].
    + rewrite E in Hu. destruct Hu as [Hu|[Hu|Hu]]; try discriminate. assumption.
  - destruct (subscript _ _ _ _ _) as [|[k1 v1] rest] eqn:E; [now (right; left)|].
    destruct (bids_ bk) as [|[b bl] bids]; [now left|].
    right; right.
    apply subscript_head in E as [->|(v0 & rest0 & E)].
    + destruct Hp as [Hp|Hp]; [discriminate|assumption].
    + rewrite E in Hu. destruct Hu as [Hu|[Hu|Hu]]; try discriminate. assumption.
Qed.

(** ** An insert that is cancelled *)

Lemma unlink_last id l : id ∉ l -> unlink id (l ++ [id]) = l.
Proof.
  intros H. rewrite unlink_app, unlink_absent by assumption.
  unfold unlink. rewrite filter_cons_False, filter_nil by (intros Hn; now apply Hn).
  apply app_nil_r.
Qed.

(** [remove_order_from_side] undoes [add_order_to_side] when the total of the
    level has not wrapped. *)
Lemma remove_added_order o bk :
  consistent bk -> every_level level_total_u64 bk ->
  order_lookup_ bk !! order_id o = None -> 0 <= quantity o ->
  total_quantity
    (default empty_level
       (find (before_on (is_buy o)) (price o) (side (is_buy o) bk)))
  + quantity o < two64 ->
  remove_order_from_side (is_buy o) (order_id o)
    (add_order_to_side (is_buy o) o bk) = (true, bk).
Proof.
  intros Hc Ht Ho Hq Hfit.
  pose proof (proj1 (consistent_sides (is_buy o) bk) Hc) as ([Hord Hall] & _).
  assert (Hswo : StrictWeakOrder (before_on (is_buy o))) by typeclasses eauto.
  assert (L1 : order_lookup_ (add_order_to_side (is_buy o) o bk) !! order_id o
               = Some o).
  { unfold add_order_to_side. rewrite lookup_set_side. simpl.
    apply lookup_insert_eq. }
  unfold remove_order_from_side. rewrite L1.
  rewrite (add_order_to_side_tail (is_buy o) o bk Hord).
  assert (Hout : forall l, find (before_on (is_buy o)) (price o)
                             (side (is_buy o) bk) = Some l ->
                           order_id o ∉ nodes l).
  { intros l Hfind Hin.
    destruct (find_Some_elem _ _ _ _ Hfind) as (k0 & Hk0 & _).
    assert (Hid : order_id o ∈ all_ids bk).
    { unfold all_ids. apply elem_of_app.
      destruct (is_buy o); [left|right]; apply elem_of_side_ids; eauto. }
    destruct (linked_is_indexed _ _ Hc Hid) as [o' Ho']. congruence. }
  assert (Hbook : forall s,
            s = side (is_buy o) bk ->
            set_lookup (delete (order_id o)
                          (order_lookup_ (add_order_to_side (is_buy o) o bk)))
              (set_side (is_buy o) s (add_order_to_side (is_buy o) o bk)) = bk).
  { intros s ->. unfold add_order_to_side. rewrite lookup_set_side. simpl.
    rewrite delete_insert_id by assumption.
    destruct bk, (is_buy o); reflexivity. }
  destruct (find (before_on (is_buy o)) (price o) (side (is_buy o) bk))
    as [l|] eqn:Hfind; simpl default in *.
  - cbn [nodes]. rewrite (unlink_last _ _ (Hout l eq_refl)).
    destruct (find_Some_elem _ _ _ _ Hfind) as (k0 & Hk0 & _).
    rewrite Forall_forall in Hall. destruct (Hall _ Hk0) as [Hne _].
    simpl in Hne. destruct (nodes l) as [|x q] eqn:N; [congruence|].
    f_equal. apply Hbook.
    unfold add_order_to_side. rewrite side_set_side, side_set_lookup.
    apply (modify_subscript_old (before_on (is_buy o)) _ _ _ _ l);
      [assumption..|].
    unfold drop_node. simpl. rewrite N.
    rewrite <- N, (unlink_last _ _ (Hout l eq_refl)).
    assert (Hu : u64 (total_quantity l)).
    { apply (every_level_sides (is_buy o)) in Ht as [Ht _].
      rewrite Forall_forall in Ht. exact (Ht _ Hk0). }
    unfold u64 in Hu.
    rewrite wrap64_small by (unfold u64; lia).
    destruct (Z.leb_spec (quantity o) (total_quantity l + quantity o)); [|lia].
    replace (total_quantity l + quantity o - quantity o)
      with (total_quantity l) by ring.
    now destruct l.
  - cbn [nodes]. change (nodes empty_level) with (@nil Z).
    rewrite (unlink_last _ []) by apply not_elem_of_nil.
    f_equal. apply Hbook.
    unfold add_order_to_side. rewrite side_set_side, side_set_lookup.
    now apply erase_subscript_new.
Qed.

(** ** The line of an order *)

Lemma timestamp_stamp now o :
  timestamp_ns (stamp now o) = if timestamp_ns o =? 0 then now else timestamp_ns o.
Proof. unfold stamp. now destruct (timestamp_ns o =? 0). Qed.

Lemma print_order_frame x bk bk' :
  order_lookup_ bk' !! x = order_lookup_ bk !! x ->
  print_order x bk' = print_order x bk.
Proof. intros H. unfold print_order. now rewrite H. Qed.

(** ** The prices of the trades of a run *)

Lemma match_step_sides bk bk1 t :
  match_step bk = Traded bk1 t -> bids_ bk <> [] /\ asks_ bk <> [].
Proof.
  unfold match_step.
  destruct (bids_ bk) as [|[? ?] ?]; [discriminate|].
  destruct (asks_ bk) as [|[? ?] ?]; [discriminate|].
  intros _. split; discriminate.
Qed.

(** The best prices do not get better in a turn of the loop. *)
Lemma match_step_best_prices bk bk1 t :
  consistent bk -> match_step bk = Traded bk1 t ->
  (bids_ bk1 <> [] -> (get_best_bid bk1 <= get_best_bid bk)%Q) /\
  (asks_ bk1 <> [] -> (get_best_ask bk <= get_best_ask bk1)%Q).
Proof.
  intros Hc E. pose proof (match_step_consistent bk Hc) as Hc1.
  rewrite E in Hc1. destruct Hc1 as (Hc1 & _).
  split; intros Hne.
  - unfold get_best_bid at 1.
    destruct (bids_ bk1) as [|[p l] rest] eqn:Eb; [congruence|].
    destruct (best_level_has_order true bk1 p l rest Hc1 Eb)
      as (id & o1 & Ho1 & Hb1 & Hp1).
    destruct (match_step_reduces _ _ _ _ _ Hc E Ho1) as (o & Ho & Eo & _).
    rewrite <- Hp1. rewrite Eo in Hb1 |- *. simpl in *.
    exact (resting_buy_le_best_bid bk id o Hc Ho Hb1).
  - unfold get_best_ask at 2.
    destruct (asks_ bk1) as [|[p l] rest] eqn:Ea; [congruence|].
    destruct (best_level_has_order false bk1 p l rest Hc1 Ea)
      as (id & o1 & Ho1 & Hb1 & Hp1).
    destruct (match_step_reduces _ _ _ _ _ Hc E Ho1) as (o & Ho & Eo & _).
    rewrite <- Hp1. rewrite Eo in Hb1 |- *. simpl in *.
    exact (resting_sell_ge_best_ask bk id o Hc Ho Hb1).
Qed.

(** No trade of a run has a buy order above the best bid or a sell order
    below the best ask of the book the run starts from. *)
Lemma matching_run_price_bounds bk ts bk' :
  matching_run bk ts bk' -> consistent bk ->
  Forall (fun t => (price (trade_buy t) <= get_best_bid bk)%Q /\
                   (get_best_ask bk <= price (trade_sell t))%Q) ts.
Proof.
  induction 1 as [bk E|bk bk1 t ts bk' E Hrun IH]; intros Hc; [constructor|].
  pose proof (match_step_consistent bk Hc) as Hc1. rewrite E in Hc1.
  destruct Hc1 as (Hc1 & _). specialize (IH Hc1).
  destruct (match_step_effect _ _ _ Hc E)
    as (b & s & -> & _ & _ & _ & _ & _ & _ & Pb & Ps & _).
  constructor.
  - simpl. rewrite Pb, Ps. split; apply Qle_refl.
  - destruct Hrun as [bk1 E1|bk1 bk2 t2 ts2 bk' E1 Hrun2]; [constructor|].
    destruct (match_step_sides _ _ _ E1) as [Nb Na].
    destruct (match_step_best_prices _ _ _ Hc E) as [Hb Ha].
    eapply Forall_impl; [exact IH|]. intros t' [H1 H2]. split.
    + eapply Qle_trans; [exact H1|apply Hb, Nb].
    + eapply Qle_trans; [apply Ha, Na|exact H2].
Qed.

(** The trades of a run come in the order of their prices. *)
Lemma matching_run_price_order bk ts bk' :
  matching_run bk ts bk' -> consistent bk ->
  forall i j ti tj, (i <= j)%nat -> ts !! i = Some ti -> ts !! j = Some tj ->
    (price (trade_buy tj) <= price (trade_buy ti))%Q /\
    (price (trade_sell ti) <= price (trade_sell tj))%Q.
Proof.
  induction 1 as [bk E|bk bk1 t ts bk' E Hrun IH];
    intros Hc i j ti tj Hij Hi Hj.
  { now rewrite lookup_nil in Hi. }
  destruct i as [|i].
  - simpl in Hi. injection Hi as <-.
    pose proof (matching_run_price_bounds _ _ _
                  (run_trade _ _ _ _ _ E Hrun) Hc) as Hall.
    destruct (Forall_lookup_1 _ _ _ _ Hall Hj) as [H1 H2].
    destruct (match_step_effect _ _ _ Hc E)
      as (b & s & -> & _ & _ & _ & _ & _ & _ & Pb & Ps & _).
    simpl. rewrite Pb, Ps. auto.
  - destruct j as [|j]; [lia|]. simpl in Hi, Hj.
    pose proof (match_step_consistent bk Hc) as Hc1. rewrite E in Hc1.
    destruct Hc1 as (Hc1 & _).
    apply (IH Hc1 i j); [lia|assumption..].
Qed.

(** ** X12 to X16: matching, inserts and cancels *)

(** X12 ([match_orders]): on a book that calls with the matching engine on
    have led to, [match_orders] finds nothing to do: it reports no trade and
    leaves the book as it is.  On any book the public calls lead to, a second
    [match_orders] right after a first finds nothing to do. *)
Theorem match_orders_has_nothing_left_to_do (bk : OrderBook) :
  (reachable_by (fun op _ => op_matches op) bk ->
   match_orders bk = Some (mkResult (Returned tt) bk [])) /\
  (reachable bk ->
   exists bk' ts,
     match_orders bk = Some (mkResult (Returned tt) bk' ts) /\
     match_orders bk' = Some (mkResult (Returned tt) bk' [])).
Proof.
  unfold match_orders, matching. split.
  - intros Hr. apply matched_calls_leave_uncrossed in Hr.
    now rewrite (process_matching_leaves _ (match_step_uncrossed _ Hr)).
  - intros Hr. apply reachable_by_consistent in Hr.
    destruct (process_matching_total _ Hr) as (bk' & ts & E & _).
    exists bk', ts. rewrite E, (process_matching_again _ _ _ E). auto.
Qed.

Lemma match_orders_has_nothing_left_to_do_witness :
  match_orders two_buys_book = Some (mkResult (Returned tt) two_buys_book []).
Proof.
  apply (proj1 (match_orders_has_nothing_left_to_do two_buys_book)).
  eapply (run_ops_reachable_by _ two_buys_ops empty_book);
    [apply reach_empty| |vm_compute; reflexivity].
  vm_compute. repeat split; discriminate.
Defined.

(** X13 ([add_order]): on a book the public calls lead to that is not
    crossed, an order that is accepted and whose price does not reach the
    best price of the other side (a buy below the best ask, a sell above the
    best bid, or no level on the other side) rests without a trade: with
    [match_immediately] on, [add_order] leaves the book and reports the
    trades it does with [match_immediately] off, that is, none. *)
Theorem order_that_does_not_cross_rests (bk : OrderBook) (o : Order) (now : Z) :
  reachable bk -> uncrossed bk ->
  order_lookup_ bk !! order_id o = None -> quantity o <> 0 -> (0 < price o)%Q ->
  (if is_buy o
   then asks_ bk = [] \/ (price o < get_best_ask bk)%Q
   else bids_ bk = [] \/ (get_best_bid bk < price o)%Q) ->
  add_order o true now bk = add_order o false now bk /\
  add_order o true now bk
  = Some (mkResult (Returned tt)
            (add_order_to_side (is_buy o) (stamp now o) bk) []).
Proof.
  intros Hr Hu Ho Hz Hp Hcross.
  rewrite !add_order_accepted by assumption. cbv zeta.
  destruct (stamp_fields now o) as (E1 & E2 & E3 & E4).
  assert (Hu1 : uncrossed (add_order_to_side (is_buy o) (stamp now o) bk)).
  { rewrite <- E2. apply add_order_to_side_uncrossed; [assumption|].
    now rewrite E2, E3. }
  now rewrite (process_matching_leaves _ (match_step_uncrossed _ Hu1)).
Qed.

Lemma order_that_does_not_cross_rests_witness :
  add_order (mkOrder 3 false 101 50 3) true 0 two_buys_book
  = add_order (mkOrder 3 false 101 50 3) false 0 two_buys_book.
Proof.
  refine (proj1 (order_that_does_not_cross_rests two_buys_book
                   (mkOrder 3 false 101 50 3) 0 two_buys_book_reachable
                   _ eq_refl _ _ _)).
  - right; left. reflexivity.
  - discriminate.
  - reflexivity.
  - right. reflexivity.
Defined.

(** X14 ([add_order], [cancel_order]): on a book the public calls lead to, an
    insert without matching that is accepted, followed by the cancel of the
    new id, returns true and leaves the book exactly as it was before the
    insert, provided the total of the level of the order's price, with the
    quantity of the order added, is below [2^64]. *)
Theorem insert_then_cancel_restores_the_book (bk : OrderBook) (o : Order)
    (now : Z) :
  reachable bk -> order_lookup_ bk !! order_id o = None ->
  u64 (quantity o) -> quantity o <> 0 -> (0 < price o)%Q ->
  total_quantity
    (default empty_level
       (find (before_on (is_buy o)) (price o) (side (is_buy o) bk)))
  + quantity o < two64 ->
  (add_order o false now ≫= fun _ => cancel_order (order_id o)) bk
  = Some (mkResult (Returned true) bk []).
Proof.
  intros Hr Ho Hq Hz Hp Hfit.
  pose proof (reachable_in_range _ _ Hr) as (_ & Ht & _).
  apply reachable_by_consistent in Hr.
  rewrite (bind_returned _ _ _ _ _ _ (add_order_rests o now bk Ho Hz Hp)).
  destruct (stamp_fields now o) as (E1 & E2 & E3 & E4).
  pose proof (remove_added_order (stamp now o) bk Hr Ht) as Hrem.
  rewrite E1, E2, E3, E4 in Hrem.
  specialize (Hrem Ho (proj1 Hq) Hfit).
  assert (L1 : order_lookup_ (add_order_to_side (is_buy o) (stamp now o) bk)
               !! order_id o = Some (stamp now o)).
  { unfold add_order_to_side. rewrite lookup_set_side. simpl.
    rewrite E1. apply lookup_insert_eq. }
  rewrite (cancel_order_known _ _ _ L1), E2, Hrem. reflexivity.
Qed.

Lemma insert_then_cancel_restores_the_book_witness :
  (add_order (mkOrder 3 true 100 50 0) false 777 ≫= fun _ => cancel_order 3)
    two_buys_book
  = Some (mkResult (Returned true) two_buys_book []).
Proof.
  refine (insert_then_cancel_restores_the_book two_buys_book
            (mkOrder 3 true 100 50 0) 777 two_buys_book_reachable
            eq_refl _ _ _ _).
  - vm_compute. repeat split; discriminate.
  - discriminate.
  - reflexivity.
  - reflexivity.
Defined.

(** X15 ([add_order], [print_order]): on a book the public calls lead to,
    [print_order] of an id that is not there writes "not found"; after an
    insert without matching that is accepted it writes the side, quantity and
    price the order was given, and its timestamp, or the reading of the
    clock if that was zero, and the lines of the other ids are as before;
    after an insert with matching it writes "not found" (the order is
    filled) or the same line with a quantity that is above zero and no
    larger than the one given. *)
Theorem print_order_shows_the_inserted_order (bk : OrderBook) (o : Order)
    (now : Z) :
  reachable bk -> order_lookup_ bk !! order_id o = None ->
  u64 (quantity o) -> quantity o <> 0 -> (0 < price o)%Q ->
  let shown q :=
    OrderShown (order_id o) (is_buy o) q (price o)
      (if timestamp_ns o =? 0 then now else timestamp_ns o) in
  print_order (order_id o) bk = OrderNotFound (order_id o) /\
  (exists bk1,
     add_order o false now bk = Some (mkResult (Returned tt) bk1 []) /\
     print_order (order_id o) bk1 = shown (quantity o) /\
     forall x, x <> order_id o -> print_order x bk1 = print_order x bk) /\
  (exists bk2 ts,
     add_order o true now bk = Some (mkResult (Returned tt) bk2 ts) /\
     (print_order (order_id o) bk2 = OrderNotFound (order_id o) \/
      exists q, 0 < q <= quantity o /\ print_order (order_id o) bk2 = shown q)).
Proof.
  intros Hr Ho Hq Hz Hp shown.
  pose proof (reachable_in_range _ _ Hr) as Hin.
  apply reachable_by_consistent in Hr.
  destruct (stamp_fields now o) as (E1 & E2 & E3 & E4).
  pose proof (timestamp_stamp now o) as E5.
  set (bk1 := add_order_to_side (is_buy o) (stamp now o) bk).
  assert (L1 : order_lookup_ bk1 !! order_id o = Some (stamp now o)).
  { unfold bk1, add_order_to_side. rewrite lookup_set_side. simpl.
    rewrite E1. apply lookup_insert_eq. }
  assert (He : edit bk bk1).
  { unfold bk1. rewrite <- E2. apply edit_add; congruence. }
  destruct (edit_keeps _ _ He Hr Hin) as (Hc1 & Hin1 & _).
  splits.
  - unfold print_order. now rewrite Ho.
  - exists bk1. rewrite add_order_rests by assumption.
    split; [reflexivity|]. split.
    + unfold print_order, shown. now rewrite L1, E2, E3, E4, E5.
    + intros x Hx. apply print_order_frame.
      unfold bk1, add_order_to_side. rewrite lookup_set_side. simpl.
      rewrite E1. now apply lookup_insert_ne.
  - rewrite add_order_accepted by assumption. cbv zeta. fold bk1.
    destruct (matching_run_total _ Hc1) as (bk2 & ts & E & Hrun).
    rewrite E. exists bk2, ts. split; [reflexivity|].
    destruct (matching_run_reduces _ _ _ Hrun Hc1) as [Hred _].
    destruct (matching_run_keeps _ _ _ Hrun Hc1 Hin1) as (Hc2 & (Hq2 & _) & _).
    unfold print_order.
    destruct (order_lookup_ bk2 !! order_id o) as [o2|] eqn:L2; [|now left].
    right. destruct (Hred _ _ L2) as (o1 & Ho1 & -> & Hle).
    assert (o1 = stamp now o) as -> by congruence.
    destruct (resting_level _ _ _ Hc2 L2) as (_ & _ & _ & _ & Hu & _).
    pose proof (Hq2 _ _ L2) as Hnz. simpl in Hu, Hnz, Hle. unfold u64 in Hu.
    exists (quantity o2). split; [lia|].
    unfold shown. simpl. now rewrite E2, E3, E5.
Qed.

Lemma print_order_shows_the_inserted_order_witness :
  exists bk1,
    add_order (mkOrder 3 true 100 50 0) false 777 two_buys_book
    = Some (mkResult (Returned tt) bk1 []) /\
    print_order 3 bk1 = OrderShown 3 true 50 100 777.
Proof.
  destruct (print_order_shows_the_inserted_order two_buys_book
              (mkOrder 3 true 100 50 0) 777 two_buys_book_reachable eq_refl)
    as (_ & (bk1 & E & H & _) & _).
  - vm_compute. repeat split; discriminate.
  - discriminate.
  - reflexivity.
  - exists bk1. split; [exact E|exact H].
Defined.

(** X16 ([process_matching]): on a book the public calls lead to when the
    prices they are given are numbers (none is NaN), trades come in the order
    of price priority: the first trade [match_orders] reports is of an order
    at the best bid and an order at the best ask, and among the trades any
    one public call with such a price reports, no later trade has a buy order
    of a higher price or a sell order of a lower price than an earlier one.
    (In a level of the key NaN orders of several prices trade in the order
    they came in: [nan_level_trades_out_of_price_order].) *)
Theorem trades_follow_price_priority (bk : OrderBook) :
  reachable_on_numbers bk ->
  (exists bk' ts,
     match_orders bk = Some (mkResult (Returned tt) bk' ts) /\
     forall t, ts !! 0%nat = Some t ->
       (price (trade_buy t) == get_best_bid bk)%Q /\
       (price (trade_sell t) == get_best_ask bk)%Q) /\
  (forall op bk' ts, op_ok op -> apply_op op bk = Some (bk', ts) ->
   forall i j ti tj, (i <= j)%nat -> ts !! i = Some ti -> ts !! j = Some tj ->
     (price (trade_buy tj) <= price (trade_buy ti))%Q /\
     (price (trade_sell ti) <= price (trade_sell tj))%Q).
Proof.
  intros Hr. apply reachable_on_numbers_iff in Hr. pose proof (reachable_in_range _ _ Hr) as Hin.
  apply reachable_by_consistent in Hr. split.
  - destruct (matching_run_total bk Hr) as (bk' & ts & E & Hrun).
    exists bk', ts. unfold match_orders, matching. rewrite E.
    split; [reflexivity|].
    intros t Ht. destruct Hrun as [bk E1|bk bk1 t1 ts bk' E1 _].
    + now rewrite lookup_nil in Ht.
    + simpl in Ht. injection Ht as <-.
      destruct (match_step_effect _ _ _ Hr E1)
        as (b & s & -> & _ & _ & _ & _ & _ & _ & Pb & Ps & _).
      auto.
  - intros op bk' ts Hok E.
    destruct (apply_op_edit_run _ _ _ _ Hr Hok E) as (bk1 & He & Hrun).
    destruct (edit_keeps _ _ He Hr Hin) as (Hc1 & _).
    destruct Hrun as [Hrun|[_ ->]].
    + exact (matching_run_price_order _ _ _ Hrun Hc1).
    + intros i j ti tj _ Hi. now rewrite lookup_nil in Hi.
Qed.

Lemma trades_follow_price_priority_witness :
  exists bk' ts,
    match_orders fifo_book = Some (mkResult (Returned tt) bk' ts) /\
    forall t, ts !! 0%nat = Some t ->
      (price (trade_buy t) == get_best_bid fifo_book)%Q /\
      (price (trade_sell t) == get_best_ask fifo_book)%Q.
Proof.
  exact (proj1 (trades_follow_price_priority fifo_book fifo_book_on_numbers)).
Defined.

(** ** The table of [print_book] *)

Lemma table_rows_lookup depth bk i r :
  table_rows (print_book depth bk) !! i = Some r ->
  r = mkRow (fst (get_snapshot depth bk) !! i) (snd (get_snapshot depth bk) !! i) /\
  (i < Nat.max (length (fst (get_snapshot depth bk)))
               (length (snd (get_snapshot depth bk))))%nat.
Proof.
  unfold print_book. cbn [table_rows]. rewrite lookup_map.
  destruct (seq _ _ !! i) as [k|] eqn:E; [|discriminate].
  apply lookup_seq in E as [-> Hi]. now intros [= <-].
Qed.

Lemma cells_of_rows (bids asks : list PriceLevel) a n :
  omap bid_cell (map (fun i => mkRow (bids !! i) (asks !! i)) (seq a n))
  = take n (drop a bids) /\
  omap ask_cell (map (fun i => mkRow (bids !! i) (asks !! i)) (seq a n))
  = take n (drop a asks).
Proof.
  revert a. induction n as [|n IH]; intros a; [now rewrite !take_0|].
  destruct (IH (S a)) as [IHb IHa]. unfold omap in *. cbn [seq map list_omap].
  cbn [bid_cell ask_cell]. rewrite IHb, IHa. split.
  - destruct (bids !! a) as [x|] eqn:E.
    + now rewrite (drop_S _ _ _ E).
    + apply lookup_ge_None in E.
      rewrite !drop_ge by lia. now rewrite !take_nil.
  - destruct (asks !! a) as [x|] eqn:E.
    + now rewrite (drop_S _ _ _ E).
    + apply lookup_ge_None in E.
      rewrite !drop_ge by lia. now rewrite !take_nil.
Qed.

(** ** X17 to X20: levels, the table and the checks of the calls *)

(** X17 (the two maps): on a book the public calls lead to when the prices
    they are given are numbers (none is NaN), two orders of one side with the
    same price are linked in one and the same level; no two levels of a side
    have the same price; and every node of a level is an order of the side
    and of the price of the level.  So the levels of a side are its orders
    grouped by price.  (A level of the key NaN links orders of every price:
    [nan_price_is_accepted].) *)
Theorem orders_of_one_price_share_a_level (bk : OrderBook) :
  reachable_on_numbers bk ->
  (forall i j o1 o2,
     order_lookup_ bk !! i = Some o1 -> order_lookup_ bk !! j = Some o2 ->
     is_buy o1 = is_buy o2 -> (price o1 == price o2)%Q ->
     exists p l, (p, l) ∈ side (is_buy o1) bk /\ i ∈ nodes l /\ j ∈ nodes l) /\
  (forall buy i j e1 e2,
     side buy bk !! i = Some e1 -> side buy bk !! j = Some e2 -> i <> j ->
     ~ (fst e1 == fst e2)%Q) /\
  (forall buy e x,
     e ∈ side buy bk -> x ∈ nodes (snd e) ->
     exists o, order_lookup_ bk !! x = Some o /\ is_buy o = buy /\
               (price o == fst e)%Q).
Proof.
  intros Hr. apply reachable_on_numbers_iff in Hr. apply reachable_by_consistent in Hr. splits.
  - intros i j o1 o2 H1 H2 Hb Hp.
    destruct (resting_level _ _ _ Hr H1) as (l1 & F1 & I1 & _).
    destruct (resting_level _ _ _ Hr H2) as (l2 & F2 & I2 & _).
    rewrite <- Hb in F2. apply (same_key_Qeq (is_buy o1)) in Hp.
    rewrite (find_same_key (before_on (is_buy o1)) _ _ _ Hp) in F1.
    assert (l2 = l1) as -> by congruence.
    destruct (find_Some_elem _ _ _ _ F1) as (k0 & Hk0 & _). eauto.
  - intros buy i j e1 e2 H1 H2 Hij Heq.
    pose proof (proj1 (consistent_sides buy bk) Hr) as ([Hord _] & _).
    assert (Hswo : StrictWeakOrder (before_on buy)) by typeclasses eauto.
    apply (same_key_Qeq buy) in Heq.
    destruct (Nat.lt_total i j) as [Hlt|[Heq'|Hlt]]; [|contradiction|].
    + pose proof (ordered_lookup_before (before_on buy) _ _ _ _ _ Hord Hlt H1 H2).
      rewrite (before_not_same (before_on buy)) in Heq by assumption.
      discriminate.
    + pose proof (ordered_lookup_before (before_on buy) _ _ _ _ _ Hord Hlt H2 H1).
      rewrite (before_not_same_r (before_on buy)) in Heq by assumption.
      discriminate.
  - intros buy e x He Hx.
    destruct (level_facts _ _ _ Hr He) as [_ Hn].
    destruct (Hn x Hx) as (o & Ho & Hb & Hk & _).
    exists o. splits; try assumption. now apply same_key_Qeq in Hk.
Qed.

Lemma orders_of_one_price_share_a_level_witness :
  exists p l, (p, l) ∈ bids_ two_buys_book /\ 1 ∈ nodes l /\ 2 ∈ nodes l.
Proof.
  exact (proj1 (orders_of_one_price_share_a_level two_buys_book
                  two_buys_book_on_numbers)
           1 2 (mkOrder 1 true 100 100 1) (mkOrder 2 true 100 200 2)
           eq_refl eq_refl eq_refl (Qeq_refl _)).
Defined.

(** X18 ([print_book]): the table has as many rows as the longer of the two
    lists of the snapshot has elements; row [i] shows bid [i] and ask [i] of
    the snapshot, a cell being blank when the side has no level of that rank,
    and no row is blank on both sides; read down, the bid cells are the bids
    of the snapshot and the ask cells its asks. *)
Theorem print_book_shows_the_snapshot (bk : OrderBook) (depth : nat) :
  let table := print_book depth bk in
  let bids := fst (get_snapshot depth bk) in
  let asks := snd (get_snapshot depth bk) in
  length (table_rows table)
    = Nat.max (Nat.min depth (get_bid_levels bk))
              (Nat.min depth (get_ask_levels bk)) /\
  (forall i r, table_rows table !! i = Some r ->
     bid_cell r = bids !! i /\ ask_cell r = asks !! i /\
     (bid_cell r <> None \/ ask_cell r <> None)) /\
  omap bid_cell (table_rows table) = bids /\
  omap ask_cell (table_rows table) = asks.
Proof.
  intros table bids asks. splits.
  - unfold table, print_book. cbn [table_rows].
    rewrite length_map, length_seq. unfold get_snapshot. cbn [fst snd].
    now rewrite !get_snapshot_side_length.
  - intros i r Hr. apply table_rows_lookup in Hr as [-> Hi].
    fold bids asks in Hi |- *. cbn [bid_cell ask_cell].
    split; [reflexivity|]. split; [reflexivity|].
    destruct (Nat.max_spec (length bids) (length asks)) as [[_ E]|[_ E]];
      rewrite E in Hi; [right|left];
      apply lookup_lt_is_Some_2 in Hi; destruct Hi as [x ->]; discriminate.
  - unfold table, print_book. cbn [table_rows]. fold bids asks.
    rewrite (proj1 (cells_of_rows bids asks 0 _)).
    rewrite drop_0. apply take_ge. lia.
  - unfold table, print_book. cbn [table_rows]. fold bids asks.
    rewrite (proj2 (cells_of_rows bids asks 0 _)).
    rewrite drop_0. apply take_ge. lia.
Qed.

Lemma print_book_shows_the_snapshot_witness :
  length (table_rows (print_book 5 two_buys_book)) = 1%nat /\
  omap bid_cell (table_rows (print_book 5 two_buys_book))
  = [mkPriceLevel 100 300].
Proof.
  destruct (print_book_shows_the_snapshot two_buys_book 5) as (H1 & _ & H2 & _).
  split; [exact H1|exact H2].
Defined.

(** X19 ([add_order], [cancel_order], [amend_order]): on a book the public
    calls lead to when the prices they are given are numbers (none is NaN),
    each of the three calls, given a number for its price, returns or throws,
    and [add_order] returns exactly when the id is not there, the quantity is
    not zero and the price is above zero; [amend_order] returns true exactly
    when the id is there, the new quantity is not zero and the new price is
    above zero; [cancel_order] returns true exactly when the id is there,
    reports no trade, and the id is not there afterwards.  (Given NaN,
    [add_order] and [amend_order] do not throw: [nan_price_is_accepted],
    [nan_new_price_is_accepted].) *)
Theorem calls_succeed_exactly_on_valid_arguments (bk : OrderBook) :
  reachable_on_numbers bk ->
  (forall o m now, u64 (quantity o) ->
   exists r,
     add_order o m now bk = Some r /\
     (outcome r = Returned tt <->
      order_exists (order_id o) bk = false /\ quantity o <> 0 /\
      (0 < price o)%Q)) /\
  (forall id,
   exists r,
     cancel_order id bk = Some r /\
     (outcome r = Returned true <-> order_exists id bk = true) /\
     trades r = [] /\ order_exists id (book r) = false) /\
  (forall id p q m now, u64 q ->
   exists r,
     amend_order id p q m now bk = Some r /\
     (outcome r = Returned true <->
      order_exists id bk = true /\ q <> 0 /\ (0 < p)%Q)).
Proof.
  intros Hr. apply reachable_on_numbers_iff in Hr. apply reachable_by_consistent in Hr.
  unfold order_exists. splits.
  - intros o m now Hq.
    destruct (add_order_cases o m now bk) as [(e & E & Hwhy)|(Ho & Hz & Hp)].
    + rewrite E. eexists. split; [reflexivity|]. simpl.
      split; [discriminate|]. intros (H1 & H2 & H3).
      destruct Hwhy as [[o' Ho']|[Hz|Hp]].
      * rewrite Ho' in H1. discriminate.
      * contradiction.
      * exfalso. exact (Qlt_not_le _ _ H3 Hp).
    + destruct (add_order_consistent o m now bk Hr Hq) as (r & E & _).
      exists r. split; [assumption|]. rewrite Ho.
      split; [auto|]. intros _.
      rewrite add_order_accepted in E by assumption. cbv zeta in E.
      destruct m.
      * destruct (process_matching _) as [[bk' ts]|]; [|discriminate].
        now injection E as <-.
      * now injection E as <-.
  - intros id. destruct (order_lookup_ bk !! id) as [o|] eqn:Ho.
    + destruct (cancel_order_consistent _ _ _ Hr Ho) as (bk' & E & _ & _ & L & _).
      rewrite E. eexists. split; [reflexivity|]. simpl.
      rewrite L, lookup_delete_eq. easy.
    + rewrite cancel_order_unknown by assumption.
      eexists. split; [reflexivity|]. simpl. rewrite Ho. easy.
  - intros id p q m now Hq.
    destruct (order_lookup_ bk !! id) as [o|] eqn:Ho.
    2:{ rewrite amend_order_unknown by assumption.
        eexists. split; [reflexivity|]. simpl.
        split; [discriminate|]. now intros [? _]. }
    destruct (Z.eq_dec q 0) as [->|Hz].
    { rewrite (amend_order_zero_quantity _ _ _ _ _ _ Ho).
      eexists. split; [reflexivity|]. simpl.
      split; [discriminate|]. now intros (_ & ? & _). }
    destruct (Qlt_le_dec 0 p) as [Hp|Hp].
    2:{ rewrite (amend_order_bad_price _ _ _ _ _ _ _ Ho Hz Hp).
        eexists. split; [reflexivity|]. simpl.
        split; [discriminate|]. intros (_ & _ & H3).
        exfalso. exact (Qlt_not_le _ _ H3 Hp). }
    destruct (price_changed (price o) p) eqn:Hpc.
    + destruct (amend_order_reprice_result _ _ _ _ m now _ Hr Ho Hq Hz Hp Hpc)
        as (bk1 & bk2 & ts & _ & _ & _ & _ & E & _).
      rewrite E. eexists. split; [reflexivity|]. simpl. split; auto.
    + rewrite (amend_order_in_place _ _ _ _ _ _ _ Ho Hz Hp Hpc). cbv zeta.
      destruct m.
      * destruct (process_matching_total _
                    (amend_in_place_consistent _ _ _ _ Hr Ho Hq))
          as (bk' & ts & E & _).
        rewrite E. eexists. split; [reflexivity|]. simpl. split; auto.
      * eexists. split; [reflexivity|]. simpl. split; auto.
Qed.

Lemma calls_succeed_exactly_on_valid_arguments_witness :
  exists r,
    add_order (mkOrder 3 false 99 50 3) true 0 two_buys_book = Some r /\
    outcome r = Returned tt.
Proof.
  destruct (proj1 (calls_succeed_exactly_on_valid_arguments two_buys_book
                     two_buys_book_on_numbers)
              (mkOrder 3 false 99 50 3) true 0) as (r & E & H).
  - vm_compute. repeat split; discriminate.
  - exists r. split; [exact E|]. apply H.
    split; [reflexivity|]. split; [discriminate|reflexivity].
Defined.

(** X20 ([add_order], [cancel_order], [amend_order]): on a book the public
    calls lead to, a call without matching reports no trade and leaves every
    order but the one it names as it was. *)
Theorem calls_without_matching_touch_one_order (bk : OrderBook) :
  reachable bk ->
  (forall o now r,
     add_order o false now bk = Some r ->
     trades r = [] /\
     forall x, x <> order_id o ->
       order_lookup_ (book r) !! x = order_lookup_ bk !! x) /\
  (forall id r,
     cancel_order id bk = Some r ->
     trades r = [] /\
     forall x, x <> id -> order_lookup_ (book r) !! x = order_lookup_ bk !! x) /\
  (forall id p q now r, u64 q ->
     amend_order id p q false now bk = Some r ->
     trades r = [] /\
     forall x, x <> id -> order_lookup_ (book r) !! x = order_lookup_ bk !! x).
Proof.
  intros Hr. apply reachable_by_consistent in Hr. splits.
  - intros o now r E.
    destruct (add_order_cases o false now bk) as [(e & E' & _)|(Ho & Hz & Hp)].
    { rewrite E' in E. injection E as <-. auto. }
    rewrite add_order_rests in E by assumption. injection E as <-. simpl.
    split; [reflexivity|]. intros x Hx.
    unfold add_order_to_side. rewrite lookup_set_side. simpl.
    destruct (stamp_fields now o) as (-> & _). now apply lookup_insert_ne.
  - intros id r E. destruct (order_lookup_ bk !! id) as [o|] eqn:Ho.
    + destruct (cancel_order_consistent _ _ _ Hr Ho) as (bk' & E' & _ & _ & L & _).
      rewrite E' in E. injection E as <-. simpl. split; [reflexivity|].
      intros x Hx. rewrite L. now apply lookup_delete_ne.
    + rewrite cancel_order_unknown in E by assumption. injection E as <-. auto.
  - intros id p q now r Hq E.
    destruct (order_lookup_ bk !! id) as [o|] eqn:Ho.
    2:{ rewrite amend_order_unknown in E by assumption. injection E as <-. auto. }
    destruct (Z.eq_dec q 0) as [->|Hz].
    { rewrite (amend_order_zero_quantity _ _ _ _ _ _ Ho) in E.
      injection E as <-. auto. }
    destruct (Qlt_le_dec 0 p) as [Hp|Hp].
    2:{ rewrite (amend_order_bad_price _ _ _ _ _ _ _ Ho Hz Hp) in E.
        injection E as <-. auto. }
    destruct (price_changed (price o) p) eqn:Hpc.
    + destruct (amend_order_reprice_result _ _ _ _ false now _ Hr Ho Hq Hz Hp Hpc)
        as (bk1 & bk2 & ts & Ec & _ & _ & _ & E' & _ & _ & [_ [-> ->]] & _).
      rewrite E' in E. injection E as <-. simpl. split; [reflexivity|].
      destruct (cancel_order_consistent _ _ _ Hr Ho) as (bk1' & Ec' & _ & _ & L & _).
      assert (bk1' = bk1) as -> by congruence.
      destruct (resting_level _ _ _ Hr Ho) as (_ & _ & _ & Hid & _).
      intros x Hx. unfold add_order_to_side. rewrite lookup_set_side. simpl.
      destruct (stamp_fields now (repriced o p q)) as (-> & _). simpl.
      rewrite Hid, lookup_insert_ne by congruence.
      rewrite L. now apply lookup_delete_ne.
    + rewrite (amend_order_in_place _ _ _ _ _ _ _ Ho Hz Hp Hpc) in E.
      injection E as <-. simpl. split; [reflexivity|].
      intros x Hx. rewrite lookup_set_side. now apply lookup_insert_ne.
Qed.

Lemma calls_without_matching_touch_one_order_witness :
  exists r,
    amend_order 1 101 500 false 0 two_buys_book = Some r /\
    order_lookup_ (book r) !! 2 = Some (mkOrder 2 true 100 200 2).
Proof.
  eexists. split; [vm_compute; reflexivity|].
  destruct (calls_without_matching_touch_one_order two_buys_book
              two_buys_book_reachable) as (_ & _ & H).
  refine (proj2 (H 1 101%Q 500 0 (mkResult (Returned true) _ []) _ _) 2 _).
  - vm_compute. repeat split; discriminate.
  - vm_compute. reflexivity.
  - discriminate.
Defined.

(** ** The orders of the trades of a run *)

Lemma matching_run_trades_ok bk ts bk' :
  matching_run bk ts bk' -> consistent bk -> Forall trade_ok ts.
Proof.
  induction 1 as [bk E|bk bk1 t ts bk' E _ IH]; intros Hc; [constructor|].
  pose proof (match_step_consistent bk Hc) as Hc1. rewrite E in Hc1.
  constructor; [exact (match_step_trade _ _ _ Hc E)|apply IH, Hc1].
Qed.

(** The two orders of a trade of a run are orders of the book the run starts
    from, with the sides and prices they have there. *)
Lemma matching_run_trade_orders bk ts bk' :
  matching_run bk ts bk' -> consistent bk ->
  Forall (fun t =>
            exists b0 s0,
              order_lookup_ bk !! order_id (trade_buy t) = Some b0 /\
              is_buy b0 = true /\ price b0 = price (trade_buy t) /\
              order_lookup_ bk !! order_id (trade_sell t) = Some s0 /\
              is_buy s0 = false /\ price s0 = price (trade_sell t)) ts.
Proof.
  induction 1 as [bk E|bk bk1 t ts bk' E _ IH]; intros Hc; [constructor|].
  pose proof (match_step_consistent bk Hc) as Hc1. rewrite E in Hc1.
  destruct Hc1 as (Hc1 & _). specialize (IH Hc1).
  constructor.
  - destruct (match_step_effect _ _ _ Hc E)
      as (b & s & -> & Hb & Hs & Bb & Bs & _).
    exists b, s. simpl. auto 7.
  - eapply Forall_impl; [exact IH|].
    intros t' (b1 & s1 & Hb1 & Bb1 & Pb1 & Hs1 & Bs1 & Ps1).
    destruct (match_step_reduces _ _ _ _ _ Hc E Hb1) as (b0 & Hb0 & Eb & _).
    destruct (match_step_reduces _ _ _ _ _ Hc E Hs1) as (s0 & Hs0 & Es & _).
    exists b0, s0. rewrite Eb in Bb1, Pb1. rewrite Es in Bs1, Ps1.
    simpl in *. auto 7.
Qed.

(** Two orders of a book that is not crossed do not trade with one another. *)
Lemma uncrossed_orders_do_not_cross bk i j b s :
  consistent bk -> uncrossed bk ->
  order_lookup_ bk !! i = Some b -> is_buy b = true ->
  order_lookup_ bk !! j = Some s -> is_buy s = false ->
  (price b < price s)%Q.
Proof.
  intros Hc Hu Hb Bb Hs Bs.
  pose proof (resting_buy_le_best_bid _ _ _ Hc Hb Bb) as H1.
  pose proof (resting_sell_ge_best_ask _ _ _ Hc Hs Bs) as H2.
  pose proof (empty_side_no_order _ _ _ Hc Hb) as N1.
  pose proof (empty_side_no_order _ _ _ Hc Hs) as N2.
  rewrite Bb in N1. rewrite Bs in N2. simpl in N1, N2.
  destruct Hu as [Hu|[Hu|Hu]]; try contradiction.
  eapply Qle_lt_trans; [exact H1|]. eapply Qlt_le_trans; [exact Hu|exact H2].
Qed.

(** After an order is linked in a book that is not crossed, it is in every
    trade of the run of the loop. *)
Lemma run_after_add_involves o bk ts bk' :
  consistent bk -> uncrossed bk ->
  order_lookup_ bk !! order_id o = None -> u64 (quantity o) -> (0 < price o)%Q ->
  matching_run (add_order_to_side (is_buy o) o bk) ts bk' ->
  Forall (fun t => involves t (order_id o)) ts.
Proof.
  intros Hc Hu Ho Hq Hp Hrun.
  pose proof (add_order_to_side_consistent o bk Hc Ho Hq Hp) as Hc1.
  pose proof (matching_run_trades_ok _ _ _ Hrun Hc1) as Hok.
  pose proof (matching_run_trade_orders _ _ _ Hrun Hc1) as Hfrom.
  rewrite Forall_forall in Hok, Hfrom. apply Forall_forall. intros t Ht.
  destruct (Hok t Ht) as (_ & _ & _ & Hcross & _).
  destruct (Hfrom t Ht) as (b0 & s0 & Hb0 & Bb0 & Pb0 & Hs0 & Bs0 & Ps0).
  unfold involves.
  destruct (decide (order_id (trade_buy t) = order_id o)) as [|Nb]; [now left|].
  destruct (decide (order_id (trade_sell t) = order_id o)) as [|Ns]; [now right|].
  exfalso. unfold add_order_to_side in Hb0, Hs0.
  rewrite lookup_set_side in Hb0, Hs0. simpl in Hb0, Hs0.
  rewrite lookup_insert_ne in Hb0 by congruence.
  rewrite lookup_insert_ne in Hs0 by congruence.
  pose proof (uncrossed_orders_do_not_cross _ _ _ _ _ Hc Hu Hb0 Bb0 Hs0 Bs0) as H.
  rewrite Pb0, Ps0 in H. exact (Qlt_not_le _ _ H Hcross).
Qed.

(** ** The quantities of a run *)

Lemma filled_quantity_cons x t ts :
  filled_quantity x (t :: ts)
  = (if (order_id (trade_buy t) =? x) || (order_id (trade_sell t) =? x)
     then trade_quantity t + filled_quantity x ts
     else filled_quantity x ts).
Proof. reflexivity. Qed.

(** What an order has before a run is what it has after it and what the
    trades of the run have taken from it. *)
Lemma matching_run_accounts bk ts bk' :
  matching_run bk ts bk' -> consistent bk ->
  forall x,
    node_quantity (order_lookup_ bk) x
    = node_quantity (order_lookup_ bk') x + filled_quantity x ts.
Proof.
  induction 1 as [bk E|bk bk1 t ts bk' E _ IH]; intros Hc x; [simpl; lia|].
  pose proof (match_step_consistent bk Hc) as Hc1. rewrite E in Hc1.
  destruct Hc1 as (Hc1 & _). specialize (IH Hc1 x).
  destruct (match_step_effect _ _ _ Hc E)
    as (b & s & -> & Hb & Hs & Bb & Bs & Qb & Qs & _ & _ & L & _).
  assert (Hne : order_id s <> order_id b)
    by (intros Heq; rewrite Heq in Hs; congruence).
  assert (Hstep : node_quantity (order_lookup_ bk) x
                  = node_quantity (order_lookup_ bk1) x
                    + (if (order_id b =? x) || (order_id s =? x)
                       then Z.min (quantity b) (quantity s) else 0)).
  { unfold node_quantity. rewrite L. unfold u64 in *.
    destruct (Z.eqb_spec (order_id b) x) as [<-|Nb]; simpl.
    - rewrite decide_True by reflexivity. rewrite Hb.
      destruct (Z.leb_spec (quantity b) (quantity s)); simpl; lia.
    - rewrite decide_False by congruence.
      destruct (Z.eqb_spec (order_id s) x) as [<-|Ns]; simpl.
      + rewrite decide_True by reflexivity. rewrite Hs.
        destruct (Z.leb_spec (quantity s) (quantity b)); simpl; lia.
      + rewrite decide_False by congruence. lia. }
  rewrite filled_quantity_cons, Hstep, IH. simpl.
  destruct ((order_id b =? x) || (order_id s =? x)); lia.
Qed.

(** ** X21 and X22: the incoming order and the quantities *)

(** X21 ([add_order], [amend_order], [process_matching]): on a book the
    public calls lead to that is not crossed, every trade an insert with
    matching reports is a trade of the order inserted, and every trade an
    amend with matching reports is a trade of the order amended: orders that
    rested do not trade with one another. *)
Theorem trades_are_with_the_incoming_order (bk : OrderBook) :
  reachable bk -> uncrossed bk ->
  (forall o now r, u64 (quantity o) ->
     add_order o true now bk = Some r ->
     Forall (fun t => involves t (order_id o)) (trades r)) /\
  (forall id p q now r, u64 q ->
     amend_order id p q true now bk = Some r ->
     Forall (fun t => involves t id) (trades r)).
Proof.
  intros Hr Hu. apply reachable_by_consistent in Hr. split.
  - intros o now r Hq E.
    destruct (add_order_cases o true now bk) as [(e & E' & _)|(Ho & Hz & Hp)].
    { rewrite E' in E. injection E as <-. constructor. }
    rewrite add_order_accepted in E by assumption. cbv zeta in E.
    destruct (process_matching _) as [[bk' ts]|] eqn:Em; [|discriminate].
    injection E as <-. simpl.
    destruct (stamp_fields now o) as (E1 & E2 & E3 & E4).
    rewrite <- E1. apply (run_after_add_involves (stamp now o) bk ts bk');
      try assumption; rewrite ?E1, ?E3, ?E4; try assumption.
    rewrite E2. exact (process_matching_loop_run _ _ _ _ Em).
  - intros id p q now r Hq E.
    destruct (order_lookup_ bk !! id) as [o|] eqn:Ho.
    2:{ rewrite amend_order_unknown in E by assumption.
        injection E as <-. constructor. }
    destruct (Z.eq_dec q 0) as [->|Hz].
    { rewrite (amend_order_zero_quantity _ _ _ _ _ _ Ho) in E.
      injection E as <-. constructor. }
    destruct (Qlt_le_dec 0 p) as [Hp|Hp].
    2:{ rewrite (amend_order_bad_price _ _ _ _ _ _ _ Ho Hz Hp) in E.
        injection E as <-. constructor. }
    destruct (price_changed (price o) p) eqn:Hpc.
    + destruct (amend_order_reprice_result _ _ _ _ true now _ Hr Ho Hq Hz Hp Hpc)
        as (bk1 & bk2 & ts & Ec & Hc1 & L1 & _ & E' & _ & _ & [_ Hl] & _).
      rewrite E' in E. injection E as <-. simpl.
      destruct (cancel_order_consistent _ _ _ Hr Ho) as (bk1' & Ec' & Er & _).
      assert (bk1' = bk1) as -> by congruence.
      pose proof (remove_order_from_side_uncrossed _ _ _ _ Hr Hu Ho Er) as Hu1.
      destruct (stamp_fields now (repriced o p q)) as (E1 & E2 & E3 & E4).
      destruct (resting_level _ _ _ Hr Ho) as (_ & _ & _ & Hid & _).
      assert (Hid' : order_id (stamp now (repriced o p q)) = id)
        by (rewrite E1; exact Hid).
      rewrite <- Hid'.
      apply (run_after_add_involves (stamp now (repriced o p q)) bk1 ts bk2);
        try assumption; rewrite ?Hid', ?E3, ?E4; try assumption.
      rewrite E2. exact (process_matching_loop_run _ _ _ _ Hl).
    + rewrite (amend_order_in_place _ _ _ _ _ _ _ Ho Hz Hp Hpc) in E.
      cbv zeta in E.
      assert (Hu1 : uncrossed (amend_in_place id o q bk)).
      { eapply uncrossed_queues; [| |exact Hu].
        - exact (amend_in_place_queues id o q bk true).
        - exact (amend_in_place_queues id o q bk false). }
      rewrite (process_matching_leaves _ (match_step_uncrossed _ Hu1)) in E.
      injection E as <-. constructor.
Qed.

Lemma trades_are_with_the_incoming_order_witness :
  exists r,
    add_order (mkOrder 3 false 99 150 3) true 0 two_buys_book = Some r /\
    length (trades r) = 2%nat /\
    Forall (fun t => involves t 3) (trades r).
Proof.
  eexists. split; [vm_compute; reflexivity|]. split; [reflexivity|].
  refine (proj1 (trades_are_with_the_incoming_order two_buys_book
                   two_buys_book_reachable _)
            (mkOrder 3 false 99 150 3) 0 (mkResult (Returned tt) _ _) _ _).
  - right; left. reflexivity.
  - vm_compute. repeat split; discriminate.
  - vm_compute. reflexivity.
Defined.

(** X22 ([execute_trade], [process_matching]): on a book the public calls
    lead to, the matching engine loses no quantity: what an order has before
    [match_orders] is what it has afterwards (nothing, if it is gone) and
    what the trades reported have taken from it; and what an order is
    inserted with is what rests of it and what the trades of the insert have
    taken from it. *)
Theorem quantities_are_accounted_for (bk : OrderBook) :
  reachable bk ->
  (exists bk' ts,
     match_orders bk = Some (mkResult (Returned tt) bk' ts) /\
     forall x,
       node_quantity (order_lookup_ bk) x
       = node_quantity (order_lookup_ bk') x + filled_quantity x ts) /\
  (forall o now,
     order_lookup_ bk !! order_id o = None -> u64 (quantity o) ->
     quantity o <> 0 -> (0 < price o)%Q ->
     exists bk' ts,
       add_order o true now bk = Some (mkResult (Returned tt) bk' ts) /\
       quantity o
       = node_quantity (order_lookup_ bk') (order_id o)
         + filled_quantity (order_id o) ts /\
       forall x, x <> order_id o ->
         node_quantity (order_lookup_ bk) x
         = node_quantity (order_lookup_ bk') x + filled_quantity x ts).
Proof.
  intros Hr. apply reachable_by_consistent in Hr. split.
  - destruct (matching_run_total bk Hr) as (bk' & ts & E & Hrun).
    exists bk', ts. unfold match_orders, matching. rewrite E.
    split; [reflexivity|]. exact (matching_run_accounts _ _ _ Hrun Hr).
  - intros o now Ho Hq Hz Hp.
    rewrite add_order_accepted by assumption. cbv zeta.
    destruct (stamp_fields now o) as (E1 & E2 & E3 & E4).
    assert (Hc1 : consistent (add_order_to_side (is_buy o) (stamp now o) bk)).
    { rewrite <- E2. apply add_order_to_side_consistent;
        [assumption|congruence|now rewrite E4|now rewrite E3]. }
    destruct (matching_run_total _ Hc1) as (bk' & ts & E & Hrun).
    rewrite E. exists bk', ts. split; [reflexivity|].
    pose proof (matching_run_accounts _ _ _ Hrun Hc1) as Hacc.
    split.
    + rewrite <- Hacc. unfold node_quantity, add_order_to_side.
      rewrite lookup_set_side. simpl. rewrite E1, lookup_insert_eq. congruence.
    + intros x Hx. rewrite <- Hacc. unfold node_quantity, add_order_to_side.
      rewrite lookup_set_side. simpl. rewrite E1.
      now rewrite lookup_insert_ne by congruence.
Qed.

Lemma quantities_are_accounted_for_witness :
  exists bk' ts,
    add_order (mkOrder 3 false 99 150 3) true 0 two_buys_book
    = Some (mkResult (Returned tt) bk' ts) /\
    150 = node_quantity (order_lookup_ bk') 3 + filled_quantity 3 ts.
Proof.
  destruct (proj2 (quantities_are_accounted_for two_buys_book
                     two_buys_book_reachable)
              (mkOrder 3 false 99 150 3) 0 eq_refl) as (bk' & ts & E & H & _).
  - vm_compute. repeat split; discriminate.
  - discriminate.
  - reflexivity.
  - exists bk', ts. split; [exact E|exact H].
Defined.

(** ** The lists of the levels after a trade *)

(** A turn of the loop leaves the lists of the side of the order that is not
    filled as they are. *)
Lemma match_step_queues bk bk1 t :
  consistent bk -> match_step bk = Traded bk1 t ->
  (quantity (trade_sell t) < quantity (trade_buy t) ->
   queues (bids_ bk1) = queues (bids_ bk)) /\
  (quantity (trade_buy t) < quantity (trade_sell t) ->
   queues (asks_ bk1) = queues (asks_ bk)).
Proof.
  intros Hc Hstep.
  destruct (match_step_traded _ _ _ Hc Hstep)
    as (best_bid & bl & bids & best_ask & al & asks & bh & bq & sh & sq & b & s
        & Eb & Ea & Nb & Na & Hb & Hs & Bb & Bs & E & ->).
  destruct (resting_level _ _ _ Hc Hb) as (_ & _ & _ & Ib & Qb & _).
  destruct (resting_level _ _ _ Hc Hs) as (_ & _ & _ & Is & Qs & _).
  destruct (execute_trade_chain _ _ _ _ _ _ _ _ Hc Hb Hs Bb Bs E)
    as (bk5 & Hc4 & Hb4 & E5 & Hc5 & Hs5 & E6 & _).
  set (q := Z.min (quantity b) (quantity s)) in *.
  assert (Q4b : queues (bids_ (after_fills bh sh q b s bk)) = queues (bids_ bk))
    by (simpl; now apply queues_modify_totals).
  assert (Q4a : queues (asks_ (after_fills bh sh q b s bk)) = queues (asks_ bk))
    by (simpl; now apply queues_modify_totals).
  unfold remove_if_filled in E5, E6. rewrite Hb4 in E5. rewrite Hs5 in E6.
  cbn [quantity set_quantity order_id is_buy] in E5, E6.
  rewrite Bb, Ib in E5. rewrite Bs, Is in E6.
  unfold u64 in *. simpl. split; intros Hlt.
  - rewrite wrap64_small in E5 by (unfold u64, q; lia).
    destruct (Z.eqb_spec (quantity b - q) 0) as [Hz|_]; [unfold q in Hz; lia|].
    injection E5 as <-.
    destruct (remove_order_from_side_consistent _ _ _ Hc4 Hs5)
      as (bk6 & Er & _ & _ & Hside & _).
    cbn [is_buy set_quantity] in Er, Hside. rewrite Bs in Er, Hside.
    rewrite Er in E6. simpl in Hside.
    destruct (wrap64 (quantity s - q) =? 0); injection E6 as <-;
      [now rewrite Hside|assumption].
  - destruct (remove_order_from_side_consistent _ _ _ Hc4 Hb4)
      as (bk6 & Er & _ & _ & Hside & _).
    cbn [is_buy set_quantity] in Er, Hside. rewrite Bb in Er, Hside.
    rewrite Er in E5. simpl in Hside.
    assert (Q5a : queues (asks_ bk5) = queues (asks_ bk)).
    { destruct (wrap64 (quantity b - q) =? 0); injection E5 as <-;
        [now rewrite Hside|assumption]. }
    rewrite wrap64_small in E6 by (unfold u64, q; lia).
    destruct (Z.eqb_spec (quantity s - q) 0) as [Hz|_]; [unfold q in Hz; lia|].
    now injection E6 as <-.
Qed.

Lemma queues_head (s s' : list (Q * PriceLevelData)) p l rest x q :
  queues s' = queues s -> s = (p, l) :: rest -> nodes l = x :: q ->
  exists l' rest', s' = (p, l') :: rest' /\ nodes l' = x :: q.
Proof.
  intros Hq -> N. destruct s' as [|[p' l'] rest']; [discriminate|].
  simpl in Hq. injection Hq as -> Hn _. exists l', rest'.
  split; [reflexivity|congruence].
Qed.

(** ** X23: orders filled in part *)

(** X23 ([execute_trade]): on a book the public calls lead to, an order that
    a trade fills in part keeps its place: after a turn of the matching loop
    in which the buy order has more than the sell order, the lists of all
    the bid levels are as they were and the buy order is still the head of
    the best bid level; and so for a sell order that has more than the buy
    order. *)
Theorem partly_filled_order_keeps_its_place (bk bk1 : OrderBook) (t : Trade) :
  reachable bk -> match_step bk = Traded bk1 t ->
  (quantity (trade_sell t) < quantity (trade_buy t) ->
   queues (bids_ bk1) = queues (bids_ bk) /\
   exists p l rest q,
     bids_ bk1 = (p, l) :: rest /\ nodes l = order_id (trade_buy t) :: q) /\
  (quantity (trade_buy t) < quantity (trade_sell t) ->
   queues (asks_ bk1) = queues (asks_ bk) /\
   exists p l rest q,
     asks_ bk1 = (p, l) :: rest /\ nodes l = order_id (trade_sell t) :: q).
Proof.
  intros Hr Hstep. apply reachable_by_consistent in Hr.
  destruct (match_step_queues _ _ _ Hr Hstep) as [Hb Ha].
  destruct (match_step_traded _ _ _ Hr Hstep)
    as (best_bid & bl & bids & best_ask & al & asks & bh & bq & sh & sq & b & s
        & Eb & Ea & Nb & Na & Lb & Ls & _ & _ & _ & ->).
  destruct (resting_level _ _ _ Hr Lb) as (_ & _ & _ & Ib & _).
  destruct (resting_level _ _ _ Hr Ls) as (_ & _ & _ & Is & _).
  simpl in *. rewrite Ib, Is. split; intros Hlt.
  - split; [auto|].
    destruct (queues_head _ _ _ _ _ _ _ (Hb Hlt) Eb Nb) as (l' & rest' & E & N).
    exists best_bid, l', rest', bq. auto.
  - split; [auto|].
    destruct (queues_head _ _ _ _ _ _ _ (Ha Hlt) Ea Na) as (l' & rest' & E & N).
    exists best_ask, l', rest', sq. auto.
Qed.

Lemma partly_filled_order_keeps_its_place_witness :
  exists bk1 t,
    match_step fifo_book = Traded bk1 t /\
    queues (asks_ bk1) = queues (asks_ fifo_book).
Proof.
  destruct (match_step fifo_book) as [| |bk1 t] eqn:E;
    try (vm_compute in E; discriminate).
  exists bk1, t. split; [reflexivity|].
  refine (proj1 (proj2 (partly_filled_order_keeps_its_place
            fifo_book bk1 t fifo_book_reachable E) _)).
  vm_compute in E. injection E as _ <-. reflexivity.
Defined.

(** ** X24 and X25: the index and the cancel, on numbers *)

(** X24 ([order_lookup_] and the two maps): in every book the public calls
    lead to when the prices they are given are numbers (none is NaN), an id
    has an entry in [order_lookup_] if and only if a node with that id is
    linked in a level of one of the two sides; no node is linked twice, and
    the node of an entry carries the id of the entry and is linked on its own
    side.  An accepted insert of an order at such a price registers the id
    (seen before the matching engine runs), and a cancel that returns true
    has erased it. *)
Theorem index_is_the_orders_of_the_sides (bk : OrderBook) :
  reachable_on_numbers bk ->
  (forall id, is_Some (order_lookup_ bk !! id) <-> id ∈ all_ids bk) /\
  NoDup (all_ids bk) /\
  (forall id o, order_lookup_ bk !! id = Some o ->
     order_id o = id /\ id ∈ side_ids (side (is_buy o) bk)) /\
  (forall o now r,
     add_order o false now bk = Some r -> outcome r = Returned tt ->
     is_Some (order_lookup_ (book r) !! order_id o) /\
     order_id o ∈ all_ids (book r)) /\
  (forall id r,
     cancel_order id bk = Some r -> outcome r = Returned true ->
     order_lookup_ (book r) !! id = None /\ id ∉ all_ids (book r)).
Proof.
  intros Hr. apply reachable_on_numbers_iff in Hr. apply reachable_by_consistent in Hr. pose proof Hr as Hc.
  destruct Hc as (H1 & H2 & H3 & H4). splits.
  - intros id. split; [apply H4|now apply linked_is_indexed].
  - assumption.
  - intros id o Ho.
    destruct (resting_level _ _ _ Hr Ho) as (l & Hfind & Hin & Hid & _).
    split; [assumption|]. apply elem_of_side_ids.
    destruct (find_Some_elem _ _ _ _ Hfind) as (k0 & Hk0 & _). eauto.
  - intros o now r E Hout.
    destruct (order_lookup_ bk !! order_id o) as [o'|] eqn:Ho.
    { rewrite add_order_duplicate in E by eauto.
      injection E as <-. discriminate. }
    destruct (Z.eq_dec (quantity o) 0) as [Hz|Hz].
    { rewrite add_order_zero_quantity in E by assumption.
      injection E as <-. discriminate. }
    destruct (Qlt_le_dec 0 (price o)) as [Hp|Hp].
    2:{ rewrite add_order_bad_price in E by assumption.
        injection E as <-. discriminate. }
    rewrite add_order_accepted in E by assumption. injection E as <-.
    cbn [book].
    assert (Hin : is_Some (order_lookup_
              (add_order_to_side (is_buy o) (stamp now o) bk) !! order_id o)).
    { unfold add_order_to_side. book_simpl.
      destruct (stamp_fields now o) as (-> & _). rewrite lookup_insert_eq. eauto. }
    split; [exact Hin|].
    rewrite all_ids_add_order_to_side.
    destruct (stamp_fields now o) as (-> & _). apply list_elem_of_here.
  - intros id r E Hout.
    destruct (order_lookup_ bk !! id) as [o|] eqn:Ho.
    2:{ rewrite cancel_order_unknown in E by assumption.
        injection E as <-. discriminate. }
    destruct (cancel_order_consistent _ _ _ Hr Ho) as (bk' & E' & _ & Hc' & L & _).
    assert (r = mkResult (Returned true) bk' []) as -> by congruence.
    cbn [book]. assert (Hnone : order_lookup_ bk' !! id = None)
      by (rewrite L; apply lookup_delete_eq).
    split; [assumption|]. intros Hin.
    destruct (linked_is_indexed _ _ Hc' Hin) as [o' Ho']. congruence.
Qed.

Lemma index_is_the_orders_of_the_sides_witness :
  exists bk t,
    run_ops resting_buy_ops empty_book = Some (bk, [t]) /\
    (is_Some (order_lookup_ bk !! 1) <-> 1 ∈ all_ids bk) /\
    (is_Some (order_lookup_ bk !! 2) <-> 2 ∈ all_ids bk).
Proof.
  do 2 eexists. split; [vm_compute; reflexivity|].
  pose proof (index_is_the_orders_of_the_sides _
    ltac:(apply reachable_on_numbers_iff;
          eapply (run_ops_reachable_by _ resting_buy_ops empty_book);
          [apply reach_empty
          |vm_compute; repeat split; discriminate
          |vm_compute; reflexivity])) as (H & _).
  split; apply H.
Defined.

(** X25 ([cancel_order], [remove_order_from_side]): on a book the public
    calls lead to when the prices they are given are numbers (none is NaN),
    [cancel_order] of an id that is present returns true; the node is
    unlinked from the list of its level (the level of its price on its side),
    the total of the level goes down by the quantity of the order, floored at
    zero, the level is erased if its list is left empty, and the entry of the
    index is erased; the other levels, the other side and the statistics are
    as before, and no trade is reported.  For an id that is absent it returns
    false. *)
Theorem cancel_removes_the_order (bk : OrderBook) (id : Z) :
  reachable_on_numbers bk ->
  (order_lookup_ bk !! id = None ->
   cancel_order id bk = Some (mkResult (Returned false) bk [])) /\
  (forall o, order_lookup_ bk !! id = Some o ->
   exists l bk',
     find (before_on (is_buy o)) (price o) (side (is_buy o) bk) = Some l /\
     id ∈ nodes l /\
     cancel_order id bk = Some (mkResult (Returned true) bk' []) /\
     order_lookup_ bk' = delete id (order_lookup_ bk) /\
     find (before_on (is_buy o)) (price o) (side (is_buy o) bk')
       = match unlink id (nodes l) with
         | [] => None
         | rest =>
             Some (mkLevel (if quantity o <=? total_quantity l
                            then total_quantity l - quantity o else 0) rest)
         end /\
     (forall p, ~ (price o == p)%Q ->
        find (before_on (is_buy o)) p (side (is_buy o) bk')
        = find (before_on (is_buy o)) p (side (is_buy o) bk)) /\
     side (negb (is_buy o)) bk' = side (negb (is_buy o)) bk /\
     total_trades_ bk' = total_trades_ bk /\
     total_volume_ bk' = total_volume_ bk).
Proof.
  intros Hr. apply reachable_on_numbers_iff in Hr. apply reachable_by_consistent in Hr. split.
  { apply cancel_order_unknown. }
  intros o Ho.
  destruct (resting_level _ _ _ Hr Ho) as (l & Hfind & Hin & _).
  destruct (cancel_order_consistent _ _ _ Hr Ho)
    as (bk' & E & Er & _ & L & Hother & Ht & Hv).
  exists l, bk'. splits; try assumption.
  - unfold remove_order_from_side in Er. rewrite Ho, Hfind in Er.
    injection Er as <-. rewrite side_set_lookup, side_set_side.
    pose proof (proj1 (consistent_sides (is_buy o) bk) Hr) as ([Hord _] & _).
    destruct (unlink id (nodes l)) eqn:El.
    + apply find_erase_hit; [typeclasses eauto|assumption].
    + rewrite (find_modify_hit _ _ _ _ _ Hfind). unfold drop_node. now rewrite El.
  - intros p Hp. pose proof (not_Qeq_same_key (is_buy o) _ _ Hp) as Hs.
    unfold remove_order_from_side in Er. rewrite Ho, Hfind in Er.
    injection Er as <-. rewrite side_set_lookup, side_set_side.
    destruct (unlink id (nodes l)).
    + apply find_erase_miss; [typeclasses eauto|assumption].
    + apply find_modify_miss; [typeclasses eauto|assumption].
Qed.

Lemma cancel_removes_the_order_witness :
  exists bk',
    cancel_order 1 two_buys_book = Some (mkResult (Returned true) bk' []) /\
    find (before_on true) 100%Q (bids_ bk') = Some (mkLevel 200 [2]) /\
    order_lookup_ bk' !! 1 = None /\
    cancel_order 999 two_buys_book = Some (mkResult (Returned false) two_buys_book []).
Proof.
  destruct (cancel_removes_the_order two_buys_book 999 two_buys_book_on_numbers)
    as [Habsent _].
  destruct (cancel_removes_the_order two_buys_book 1 two_buys_book_on_numbers)
    as [_ Hpresent].
  destruct (Hpresent (mkOrder 1 true 100 100 1) eq_refl)
    as (l & bk' & Hfind & _ & E & L & Hlevel & _).
  injection Hfind as <-.
  exists bk'. splits.
  - exact E.
  - exact Hlevel.
  - rewrite L. apply lookup_delete_eq.
  - apply Habsent. reflexivity.
Defined.
